(* ===== verification/_CoqProject ===== *)
-Q . S2P
Prelude.v
GuestMem.v
Virtqueue.v
Mmio.v
Devices.v
Net.v
DeviceMgr.v
Serial.v
VcpuLoop.v
Watchdog.v
BootParams.v
LongMode.v
Elf.v
Initrd.v
Pool.v
Wasm.v
Sandbox.v
Policy.v
Calendar.v
Store.v
Oci.v
Extract.v
Caches.v
Pull.v
Agent.v
Eye.v
Probes.v
Kvm.v
Network.v
Builder.v
Snapshot.v
Registry.v
ImageService.v
GuestImage.v
Config.v
Daemon.v
VmThread.v
Rest.v
Sensors.v
Startup.v
Desktop.v
Novactl.v
Cli.v
Fds.v
Entry.v
Wsl.v
Wasi.v
Commands.v
