(* ===== verification/Prelude.v ===== *)
(** * NovaVM: a verification development

    NovaVM (crates/ of the repository) is a microVM monitor: a VMM on KVM
    with virtio devices, a boot loader, a sandbox orchestrator, an image
    store, and the policy and observation services around them.  This
    development models the program in Rocq, translated from the Rust source,
    and proves the properties that make its parts correct.  It is a shallow
    embedding: a function of the source is a function here, a [Result] is an
    [outcome], a mutated structure is passed and returned, and the slices,
    integers and maps of the source are lists of bytes, bounded [Z]s and
    [gmap]s.

    ** The program's parts

    A guest runs in the memory of nova-mem.  nova-boot fills that memory (a
    kernel, an initial ramdisk, the zero page, page tables) and fixes the
    initial registers; the builder of nova-vmm calls it between the KVM
    handles of nova-kvm.  The vCPU loops run the processor and serve its
    exits: port accesses go to the serial port, memory-mapped accesses to the
    MMIO bus, which selects a device and calls its virtio-mmio transport.
    The transport holds the queue registers until the driver activates the
    device; the device then takes buffers from its virtqueues, which live in
    guest memory again.  A VM can be saved to files and restored from them.

    The daemon of nova-api serves requests: it pulls an image from a registry
    into a layout directory, nova-runtime extracts the layers and archives
    them for the guest, the daemon adds its init script and agent, and the
    orchestrator of nova-runtime keeps the sandbox's state.  A started
    sandbox has a VM thread, which builds or restores the VM and runs it with
    the sandbox's console.  nova-policy admits requests and judges events;
    nova-eye collects the events that the probes of nova-eye-ebpf and the
    agent of nova-eye-agent send; nova-agent serves commands in a guest;
    nova-wasm runs WebAssembly modules for sandboxes and policies.

    The daemon is reached in three ways: over gRPC on a Unix socket, by the
    command line novactl, which also installs and starts it; over its REST
    routes, by the desktop client, which runs it inside WSL; and through the
    console stream.  The same orchestrator, VM handles and image stores are
    behind all of them.

    ** The files

    Basics:
    - [Prelude] (this file): bytes and words, the [outcome] monad with the
      panics of the source, the state monad [stm], generic list and
      arithmetic lemmas, tactics.

    The machine (crates nova-mem, nova-virtio, nova-boot, nova-kvm, nova-vmm):
    - [GuestMem] (nova-mem): guest addresses, the region vector, typed and
      byte accesses, construction, dirty pages.  [ByteMemory] and
      [ByteMemoryLaws] are the interface the other files use; the region
      vector is its instance, proved against a flat address space.
    - [Virtqueue] (queue.rs): [pop], [add_used] and the notification queries,
      over any [ByteMemory].
    - [Mmio] (mmio.rs): the [VirtioDevice] trait as a class, the transport's
      register file, and the sequences of guest accesses and VMM polls a
      transport goes through.
    - [Devices] (console.rs, blk.rs, balloon.rs, fs.rs, vsock.rs): one Module
      per device with its [VirtioDevice] instance.  [Net] (net.rs): packet
      transmission and reception; the TAP device and the interrupt eventfd
      are a host interface, [HostIo].
    - [DeviceMgr] (device_mgr.rs): the bus, polling, and saving and restoring
      of queues.
    - [Serial] and [VcpuLoop] (exit_handler.rs, vcpu.rs): the UART, the
      decoding of exits and the five run loops.  [Watchdog]
      (exit_handler.rs): the threads that interrupt KVM_RUN, their handles and
      the vCPU's thread, as interleaved steps.
    - [BootParams], [LongMode], [Elf], [Initrd] (nova-boot): the boot protocol
      structures and bzImage loader, the 64-bit and PVH boot state, the ELF
      loader, and the cpio archives with a reader as their specification.
    - [Kvm] (nova-kvm): ioctl numbers and structure layouts, the handles over
      a kernel interface [KvmHost]; [Logged] records the calls a run makes.
    - [Network] (network.rs, tap.rs): host networking of a VM.
    - [Builder] (builder.rs, config.rs) and [Snapshot] (snapshot.rs): a VM
      from its configuration, and to and from files.
    - [Entry] (main.rs of nova-vmm and of nova-eye-agent): what these programs
      do before their loops.

    The runtime (crates nova-runtime, nova-wasm, nova-policy):
    - [Pool] (pool.rs): the warm pool as critical sections and their
      interleavings, a step relation.
    - [Wasm] and [Wasi] (nova-wasm) and [Sandbox] (lifecycle.rs, orchestrator.rs), with
      the abstract lifecycle table [spec_step].
    - [Policy] (nova-policy, policy_server.rs): engine, bundles, admission,
      enforcement and their service.
    - [Store], [Caches] (blob_store.rs, rootfs_cache.rs, snapshot_cache.rs,
      cache.rs): the indexes over a file store, [Disk], whose operations fail
      at any point.  [Oci], [Extract], [Pull] (oci.rs, extract.rs, pull.rs):
      an image layout becomes an initial ramdisk.

    The services (crates nova-api, nova-agent, nova-eye, nova-eye-common,
    nova-eye-agent, nova-eye-ebpf):
    - [Calendar]: RFC 3339 times (server.rs, policy_server.rs).
    - [Agent] (nova-agent): the guest agent over a socket that splits reads
      and writes.  [Fds] (guest_source.rs, vsock.rs, network/tap.rs,
      mount_filesystems): the places that make system calls by themselves,
      over a kernel that keeps the open descriptors.
    - [Eye] and [Probes]: events from the probe to the daemon's sinks, and the
      loading of probes.
    - [Registry] (registry.rs) and [ImageService] (image_server.rs): image
      references, the pull from a registry, and the image requests.
    - [GuestImage] (config.rs; build_vm_config, inject_init_into_cpio and
      inject_guest_ebpf of server.rs): what the daemon gives a VM besides the
      image.
    - [Daemon] (server.rs: RuntimeDaemonService): the sandbox requests, the VM
      handles, commands and consoles.
    - [VmThread] (server.rs: spawn_vm_thread, cold_boot_vm): what a started
      sandbox's thread does, composed of [Builder], [Snapshot], [Caches],
      [Pool], [Network] and [VcpuLoop].
    - [Config] (config.rs): what the daemon's configuration file is read as.
      [Startup] (server.rs: RuntimeDaemon; nova-daemon.rs): from the
      configuration to open caches and a listening socket.
    - [Rest] (rest.rs): the REST handlers over the state of [Daemon].
      [Sensors] (sensor_server.rs): the program table and the event streams.

    The clients:
    - [Novactl] and [Cli] (novactl): the commands over [Daemon], the
      interactive shell, and the embedded assets.  [Commands] (main.rs): the
      program that selects one, and sequences of its runs.
    - [Desktop] and [Wsl] (desktop): the HTTP client and the commands over
      REST; the commands that run programs inside WSL.

    ** Conventions

    - A [w]-bit integer is a [Z] in [0, 2^w).  The release profile has no
      overflow checks, so additions wrap ([⊞] is 64-bit addition); it also
      aborts on a panic, so a panic is an [outcome] of its own ([Panic]),
      distinct from an error ([Err]).
    - A structure read from or written to memory is its list of bytes; [pod]
      collects a type's encoding, its decoding and their round trip.
    - A method is a state transformer, [stm S E A], over the state it may
      change; what the source does before it fails stays done.
    - What the source obtains from the kernel, a file system, a device file,
      a program or a peer is an argument or an interface with a state of its
      own: [KvmHost], [FileHost], [SnapHost], [CmdHost], [TapHost], [HostIo],
      [HttpHost], [WasmHost], [WasiHost], [DesktopHost], [WslHost].  Their laws, where a theorem needs some, are
      classes ([SnapLaws], [NatLaws]) that state what the manual pages
      promise; each has an instance.
    - serde_json, toml, tar, SHA-256 and the standard library's hasher are
      parameters; [Serde], [TomlLaw] and the like state their round trips.

    ** What the theorems show

    - Memory and queues: an access refines a flat address space and fails
      exactly where it should ([read_slice_refines_flat],
      [write_slice_refines_flat]); [pop] returns exactly the driver's chain
      and is a FIFO across index wrap-around ([pop_sound_complete],
      [pop_refines_fifo]); completions are published without overwriting
      ([add_used_publishes]).
    - Transport and devices: the driver's initialisation
      ([driver_init_activates]), the device-call protocol for any sequence of
      accesses ([device_calls_follow_protocol]), packets sent and received,
      and termination of the transmit loop ([process_tx_sends_packet],
      [process_rx_delivers_frame], [process_tx_terminates]).
    - Loops: what the guest sends is what is captured, and on the console
      ([capture_output_exact], [vm_console_exact]); waiting for a text stops
      at its first occurrence ([until_match_first_occurrence]); the threads
      that interrupt the vCPU do so, once or again and again, and no more
      after their handle was dropped ([kicks_delivered], [drop_joins]).
    - Boot: the loaders place what the image holds where the protocol wants
      it, the boot state is a correct long-mode state, the builder's result
      has all of it at once, and a cpio reader recovers the archived tree
      ([bzimage_parse_load], [long_mode_boot_state], [elf_parse_segments],
      [elf_load_segments], [build_elf_boots], [build_bzimage_boots],
      [devices_and_memory], [dir_to_cpio_holds_tree]).
    - KVM: request numbers and layouts agree ([requests_typed]); a snapshot
      restores memory, registers and queues ([snapshot_roundtrip]).
    - Runtime: the pool under any interleaving ([pool_invariant],
      [replenish_fills_pool]); the orchestrator and the daemon above it
      implement the lifecycle table ([orchestrator_refines],
      [daemon_refines_lifecycle]); VM threads belong to running sandboxes
      ([daemon_threads]); a VM starts again from the cached checkpoint
      ([restart_from_checkpoint]); every descriptor that is opened by hand is
      closed, by the failing call or by the owner's drop
      ([descriptors_balanced]).
    - Images: extraction stays inside its directory and matches the OCI
      semantics ([extract_confined], [extract_matches_oci]); the blob store
      survives faults ([blob_store_crash_safe]); a pull leaves a layout that
      opens, and answers from the cache afterwards ([registry_pull_opens],
      [pull_image_served]); references are stable ([parse_display_stable]);
      the guest finds what was injected ([guest_image_injected]), and the
      configuration text means the configuration ([vm_config_parses]).
    - Services: enforcement and admission ([enforcement_exact],
      [admission_exact], [daemon_admission]); a session of the agent
      ([agent_session_exact]); events from probe to sink
      ([probe_events_delivered], [pipeline_delivers],
      [sensor_round_forwards]); the program table and the filter of the
      streams ([programs_refine_table], [stream_is_filter]); times
      ([rfc3339_correct]); the answer of a command and the console stream
      ([exec_reports_answer], [stream_console_exact]).
    - Start-up: a configuration is what its file says ([config_roundtrip]); a
      daemon that starts again serves the images of the last one
      ([restart_keeps_images]).
    - REST: with requests over both interfaces a VM thread still belongs to a
      running sandbox, and stopping or destroying leaves none
      ([rest_leaves_no_vm]); a creation ends in a running sandbox or changes
      nothing ([rest_create_exact]); a command gets the
      answer gRPC gives ([rest_exec_agrees]); base64 is inverted by a decoder
      ([base64_roundtrip]).
    - Clients: whatever commands the users of novactl give, the VMs that run
      are those of running sandboxes, and stopped or removed sandboxes leave
      none ([commands_leave_order]); a command shows the guest's output and
      ends with its status ([exec_status]); the shell removes what it made
      ([shell_leaves_nothing]); setup installs the assets
      ([extract_all_exact]); the desktop client recovers the body of any
      chunked response, and which of its routes exist ([response_parsed],
      [desktop_routes]); its quoting survives the shell, and a start reports
      success only after an answer of the daemon ([quoting_exact],
      [start_stop_asked]).

    Where the code does not do what it means to, the theorem or an example
    beside it states what it does: [image_remove_deletes_siblings],
    [inject_agent_unreadable], [network_nat_lifecycle], [start_stop_race],
    [pool_serves_any], [boot_unchecked], [drop_prompt], [spurious_watchdog],
    [serve_takes_over], [signals_end_nothing], [greetings_dropped],
    [mounts_as_meant] and the examples of [Registry], [GuestImage], [Daemon],
    [Config], [Rest], [Sensors], [Desktop], [Novactl], [Cli] and [Wsl].

    ** Loops and fuel

    [walk_chain] has the queue size as fuel, as in the source (its loop is
    bounded by the size).  [tx_loop] and [rx_loop] have 65537 steps:
    [process_tx_terminates] shows that no run uses them up, because each step
    moves the 16-bit ring index towards a value that does not change
    meanwhile.  [note_loop] has one step more than the image has bytes (every
    note advances by at least twelve), the cpio reader one more than the
    archive, [year_loop] one more than the days divided by 365; printing a
    number in base 16 takes at most 16 digits, decoding text at most its
    length.  The desktop client's [decode_chunks] has one step more than the
    text has characters, which is enough because each chunk consumes its size
    line ([decode_ends]); the readers of words and line ends have the text's
    length.  The agent's [command_loop] takes its fuel as an argument, and
    [agent_session_exact] says which is enough.  The vCPU loops, the wait for
    a command's answer and the console stream are unbounded in the source or
    bounded by a clock; here they run over a list of what the environment
    does in each iteration, and their theorems hold for every such list.
    Every other recursion is structural.

    ** What is not modelled

    - Concurrency other than that of the pool, of the daemon's requests with
      the VM threads' output, and of the race [start_stop_race] states:
      requests are served one after the other, and a VM thread's calls are
      not interleaved with those of another.
    - The guest's own stores to its memory between exits: the loops show the
      memory as the devices leave it; a VM thread's checkpoint has them as an
      argument.
    - Closing of KVM handles and mappings when a VM is dropped on an error
      path, threads and timers other than through what they produce, and
      logging.
    - Symbolic links and file modes of the host in extracted images; the
      clones that copy-on-write file systems make.
    - Parsing of the programs' arguments (clap), the colours, table frames and
      JSON format of novactl, the diagnostics nova-eye-agent prints at its
      start, and what tonic and axum do with a connection before a handler
      is called and after it has answered.
    - The integration tests (tests/), the unit tests and the build scripts.
    - wasmtime, aya, tonic, hyper and the other crates the program calls. *)

From stdpp Require Export base gmap list strings list_numbers.
From Stdlib Require Export ZArith Lia Sorting.Sorted.
From coqutil Require Byte LittleEndianList.

#[export] Set Default Goal Selector "!".
#[global] Open Scope Z_scope.

Declare Scope nova_scope.
Delimit Scope nova_scope with nova.
#[global] Open Scope nova_scope.

(** ** Bytes *)

Abbreviation byte := Corelib.Init.Byte.byte.
Abbreviation x00 := Corelib.Init.Byte.x00.

Definition b2z (b : byte) : Z := Byte.byte.unsigned b.
Definition z2b (z : Z) : byte := Byte.byte.of_Z z.

(** The bytes of a string literal. *)
Definition string_bytes (s : string) : list byte :=
  (λ a, Ascii.byte_of_ascii a) <$> String.list_ascii_of_string s.

(** The string of some bytes (a [String] is its UTF-8 bytes). *)
Definition bytes_string (l : list byte) : string :=
  String.string_of_list_ascii (Ascii.ascii_of_byte <$> l).

(** [String::from_utf8]: well-formed UTF-8 (no overlong forms, no surrogates,
    nothing above U+10FFFF). *)
Definition utf8_cont (b : byte) : bool := (0x80 <=? b2z b) && (b2z b <=? 0xBF).

Fixpoint utf8_valid (l : list byte) : bool :=
  match l with
  | [] => true
  | b0 :: l1 =>
      let c := b2z b0 in
      if c <? 0x80 then utf8_valid l1 else
      match l1 with
      | [] => false
      | b1 :: l2 =>
          if (0xC2 <=? c) && (c <=? 0xDF) then utf8_cont b1 && utf8_valid l2 else
          match l2 with
          | [] => false
          | b2 :: l3 =>
              if (0xE0 <=? c) && (c <=? 0xEF) then
                (if c =? 0xE0 then 0xA0 <=? b2z b1 else true) &&
                (if c =? 0xED then b2z b1 <=? 0x9F else true) &&
                utf8_cont b1 && utf8_cont b2 && utf8_valid l3
              else
              match l3 with
              | [] => false
              | b3 :: l4 =>
                  (0xF0 <=? c) && (c <=? 0xF4) &&
                  (if c =? 0xF0 then 0x90 <=? b2z b1 else true) &&
                  (if c =? 0xF4 then b2z b1 <=? 0x8F else true) &&
                  utf8_cont b1 && utf8_cont b2 && utf8_cont b3 && utf8_valid l4
              end
          end
      end
  end.

Definition from_utf8 (l : list byte) : option string :=
  if utf8_valid l then Some (bytes_string l) else None.

(** Little-endian encoding and decoding of [n]-byte words
    ([u16::to_le_bytes], [u32::from_le_bytes], ...), from coqutil. *)
Definition le_enc (n : nat) (z : Z) : list byte := LittleEndianList.le_split n z.
Definition le_dec (bs : list byte) : Z := LittleEndianList.le_combine bs.

(** Big-endian words ([u32::to_be_bytes], [u32::from_be_bytes]). *)
Definition be_enc (n : nat) (z : Z) : list byte := reverse (le_enc n z).
Definition be_dec (bs : list byte) : Z := le_dec (reverse bs).

(** ** Machine-width integers

    A [w]-bit unsigned integer is a [Z] in [0, 2^w); the release profile of
    the workspace has no overflow checks, so [+] and [wrapping_add] wrap. *)

Definition wrap (w z : Z) : Z := z mod 2 ^ w.
Abbreviation wrap8 := (wrap 8).
Abbreviation wrap16 := (wrap 16).
Abbreviation wrap32 := (wrap 32).
Abbreviation wrap64 := (wrap 64).

Definition fits (w z : Z) : Prop := 0 ≤ z < 2 ^ w.
#[export] Instance fits_dec w z : Decision (fits w z).
Proof. unfold fits. apply _. Defined.

Definition add64 (a b : Z) : Z := wrap64 (a + b).
Infix "⊞" := add64 (at level 50, left associativity) : nova_scope.

(** ** Results, errors and panics

    A Rust function returning [Result<T, E>] either returns [Ok], returns
    [Err], or panics (the release profile aborts the process on a panic). *)

Inductive panic_reason : Type :=
| PanicDivZero      (* remainder or division by zero *)
| PanicBounds       (* slice or vector index out of range *)
| PanicUnwrap       (* [unwrap] of a [None] or an [Err] *)
| PanicCapacity.    (* a collection larger than [isize::MAX] bytes *)

Inductive outcome (E A : Type) : Type :=
| Ok (a : A)
| Err (e : E)
| Panic (r : panic_reason).
Arguments Ok {E A} a.
Arguments Err {E A} e.
Arguments Panic {E A} r.

#[export] Instance outcome_ret {E} : MRet (outcome E) := λ A a, Ok a.
#[export] Instance outcome_bind {E} : MBind (outcome E) := λ A B f m,
  match m with Ok a => f a | Err e => Err e | Panic r => Panic r end.
#[export] Instance outcome_fmap {E} : FMap (outcome E) := λ A B f m,
  match m with Ok a => Ok (f a) | Err e => Err e | Panic r => Panic r end.

(** [Result::map_err]. *)
Definition map_err {E F A} (f : E → F) (m : outcome E A) : outcome F A :=
  match m with Ok a => Ok a | Err e => Err (f e) | Panic r => Panic r end.

Definition is_ok {E A} (m : outcome E A) : bool :=
  match m with Ok _ => true | _ => false end.
Definition is_err {E A} (m : outcome E A) : bool :=
  match m with Err _ => true | _ => false end.

(** [Option::ok_or], and a third-party call that succeeds ([inr]) or fails. *)
Definition ok_or {E A} (e : E) (m : option A) : outcome E A :=
  match m with Some a => Ok a | None => Err e end.
Definition of_sum {E A} (r : E + A) : outcome E A :=
  match r with inl e => Err e | inr a => Ok a end.

(** A computation over a mutable state [S] that can fail; the state survives
    an error, as it does behind a [&mut] reference. *)
Definition stm (S E A : Type) : Type := S → outcome E A * S.

#[export] Instance stm_ret {S E} : MRet (stm S E) := λ A a s, (Ok a, s).
#[export] Instance stm_bind {S E} : MBind (stm S E) := λ A B f m s,
  match m s with
  | (Ok a, s') => f a s'
  | (Err e, s') => (Err e, s')
  | (Panic r, s') => (Panic r, s')
  end.
Definition throw {S E A} (e : E) : stm S E A := λ s, (Err e, s).
Definition lift {S E A} (r : outcome E A) : stm S E A := λ s, (r, s).
Definition gets {S E A} (f : S → A) : stm S E A := λ s, (Ok (f s), s).
Definition modify {S E} (f : S → S) : stm S E unit := λ s, (Ok tt, f s).

(** [for x in l { f(x)?; }]. *)
Fixpoint for_each {S E A} (f : A → stm S E unit) (l : list A) : stm S E unit :=
  match l with
  | [] => mret tt
  | x :: l => f x ≫= λ _, for_each f l
  end.

(** ** Lists indexed by [Z] *)

(** [&l[off .. off + len]] of an in-range slice. *)
Definition sub_list {A} (off len : Z) (l : list A) : list A :=
  take (Z.to_nat len) (drop (Z.to_nat off) l).

(** [l[off .. off + d.len()].copy_from_slice(d)] of an in-range slice. *)
Definition splice {A} (off : Z) (d l : list A) : list A :=
  take (Z.to_nat off) l ++ d ++ drop (Z.to_nat off + length d) l.

(** [slice.len()] as a [usize]. *)
Definition zlen {A} (l : list A) : Z := Z.of_nat (length l).

#[export] Instance byte_eq_dec : EqDecision byte := Stdlib.Strings.Byte.byte_eq_dec.

(** ** Plain-old-data types

    [read_obj::<T>] and [write_obj::<T>] copy the [size_of::<T>()] bytes of a
    [repr(C)] value; [Pod] gives that layout, and [PodOk] its laws. *)

Record Pod (T : Type) : Type := {
  pod_size : Z;
  pod_enc : T → list byte;
  pod_dec : list byte → T;
}.
Arguments pod_size {T} p.
Arguments pod_enc {T} p x.
Arguments pod_dec {T} p bs.

Class PodOk {T} (P : Pod T) (dom : T → Prop) : Prop := {
  pod_size_pos : 0 < pod_size P;
  pod_enc_len : ∀ x, zlen (pod_enc P x) = pod_size P;
  pod_dec_enc : ∀ x, dom x → pod_dec P (pod_enc P x) = x;
  pod_dec_dom : ∀ bs, zlen bs = pod_size P → dom (pod_dec P bs);
}.

Definition pod_u8 : Pod Z :=
  {| pod_size := 1; pod_enc := le_enc 1; pod_dec := le_dec |}.
Definition pod_u16 : Pod Z :=
  {| pod_size := 2; pod_enc := le_enc 2; pod_dec := le_dec |}.
Definition pod_u32 : Pod Z :=
  {| pod_size := 4; pod_enc := le_enc 4; pod_dec := le_dec |}.
Definition pod_u64 : Pod Z :=
  {| pod_size := 8; pod_enc := le_enc 8; pod_dec := le_dec |}.

#[global] Arguments sub_list : simpl never.
#[global] Arguments splice : simpl never.
#[global] Arguments le_enc : simpl never.
#[global] Arguments le_dec : simpl never.
#[global] Arguments wrap : simpl never.
#[global] Arguments add64 : simpl never.

(** ** Tactics *)

(** Case analysis on a [match] or [if] of a hypothesis, simplifying it. *)
Ltac case_in H :=
  let E := fresh "E" in
  match type of H with
  | context [match ?x with _ => _ end] => destruct x eqn:E; simplify_eq/=
  end.

(** All the branches of the computation in [H]. *)
Ltac inv_branches H := repeat (case_in H; try done).

(** Boolean comparisons of the code as propositions. *)
Ltac to_prop :=
  repeat match goal with
  | H : _ && _ = true |- _ => apply andb_prop in H as [? ?]
  | H : _ && _ = false |- _ => apply andb_false_iff in H
  | H : _ || _ = false |- _ => apply orb_false_elim in H as [? ?]
  | H : _ || _ = true |- _ => apply orb_prop in H
  | H : negb _ = true |- _ => apply negb_true_iff in H
  | H : negb _ = false |- _ => apply negb_false_iff in H
  | H : (_ <? _) = true |- _ => apply Z.ltb_lt in H
  | H : (_ <? _) = false |- _ => apply Z.ltb_ge in H
  | H : (_ <=? _) = true |- _ => apply Z.leb_le in H
  | H : (_ <=? _) = false |- _ => apply Z.leb_gt in H
  | H : (_ =? _) = true |- _ => apply Z.eqb_eq in H
  | H : (_ =? _) = false |- _ => apply Z.eqb_neq in H
  | H : (_ >? _) = true |- _ => rewrite Z.gtb_ltb in H
  | H : (_ >? _) = false |- _ => rewrite Z.gtb_ltb in H
  | H : (_ >=? _) = true |- _ => rewrite Z.geb_leb in H
  | H : (_ >=? _) = false |- _ => rewrite Z.geb_leb in H
  | H : bool_decide _ = true |- _ => apply bool_decide_eq_true in H
  | H : bool_decide _ = false |- _ => apply bool_decide_eq_false in H
  end.

(** Linear arithmetic about widths: unfolds [fits] and [wrap] and evaluates
    the powers of two. *)
Ltac width_lia :=
  unfold fits, wrap, add64 in *;
  change (2 ^ 8) with 256 in *;
  change (2 ^ 16) with 65536 in *;
  change (2 ^ 32) with 4294967296 in *;
  change (2 ^ 64) with 18446744073709551616 in *;
  try (Z.div_mod_to_equations; lia).

Create HintDb nova discriminated.
Create Rewrite HintDb zlen.

(** ** Machine integers *)

Lemma wrap_fits w z : 0 ≤ w → fits w (wrap w z).
Proof. intros. unfold fits, wrap. apply Z.mod_pos_bound. by apply Z.pow_pos_nonneg. Qed.

Lemma wrap_small w z : fits w z → wrap w z = z.
Proof. intros. by apply Z.mod_small. Qed.

Lemma wrap_wrap w z : wrap w (wrap w z) = wrap w z.
Proof. apply Zmod_mod. Qed.

Lemma wrap_idemp_add_l w a b : wrap w (wrap w a + b) = wrap w (a + b).
Proof. apply Zplus_mod_idemp_l. Qed.

Lemma add64_small a b : fits 64 (a + b) → a ⊞ b = a + b.
Proof. apply wrap_small. Qed.

Lemma fits_mono w w' z : w ≤ w' → fits w z → fits w' z.
Proof.
  intros Hw [H0 H1]. split; [done|].
  eapply Z.lt_le_trans; [exact H1|]. apply Z.pow_le_mono_r; lia.
Qed.

#[export] Hint Resolve wrap_fits : nova.

Lemma lor_fits w a b : 0 ≤ w → fits w a → fits w b → fits w (Z.lor a b).
Proof.
  intros Hw Ha Hb. apply wrap_small in Ha, Hb. rewrite <- Ha, <- Hb.
  unfold wrap. rewrite <- !Z.land_ones, <- Z.land_lor_distr_l, Z.land_ones by done.
  by apply wrap_fits.
Qed.

Lemma lor_disjoint a b : Z.land a b = 0 → Z.lor a b = a + b.
Proof. intros Hab. by rewrite Z.add_nocarry_lxor, Z.lxor_lor. Qed.

Lemma land_shiftl_low a b n : 0 ≤ n → fits n a → Z.land a (Z.shiftl b n) = 0.
Proof.
  intros Hn Ha. apply Z.bits_inj'. intros i Hi. rewrite Z.land_spec, Z.bits_0.
  destruct (decide (i < n)).
  - by rewrite Z.shiftl_spec_low, andb_false_r.
  - destruct (decide (a = 0)) as [->|]; [by rewrite Z.bits_0|].
    rewrite (Z.bits_above_log2 a i); [done|unfold fits in Ha; lia|].
    eapply Z.lt_le_trans; [|apply Z.nlt_ge; eassumption].
    apply Z.log2_lt_pow2; unfold fits in Ha; lia.
Qed.

(** ** Lists *)

Lemma zlen_nonneg {A} (l : list A) : 0 ≤ zlen l.
Proof. unfold zlen. lia. Qed.

Lemma zlen_app {A} (l k : list A) : zlen (l ++ k) = zlen l + zlen k.
Proof. unfold zlen. rewrite length_app. lia. Qed.

Lemma zlen_nil {A} : zlen (@nil A) = 0.
Proof. done. Qed.

Lemma zlen_cons {A} (x : A) l : zlen (x :: l) = 1 + zlen l.
Proof. unfold zlen. simpl. lia. Qed.

Lemma zlen_replicate {A} n (x : A) : zlen (replicate n x) = Z.of_nat n.
Proof. unfold zlen. by rewrite length_replicate. Qed.

Lemma zlen_sub_list {A} off len (l : list A) :
  0 ≤ off → 0 ≤ len → off + len ≤ zlen l → zlen (sub_list off len l) = len.
Proof. unfold zlen, sub_list. intros. rewrite length_take, length_drop. lia. Qed.

Lemma zlen_splice {A} off (d l : list A) :
  0 ≤ off → off + zlen d ≤ zlen l → zlen (splice off d l) = zlen l.
Proof.
  unfold zlen, splice. intros. rewrite !length_app, length_take, length_drop. lia.
Qed.

Lemma zlen_drop {A} n (l : list A) : zlen (drop n l) = Z.max 0 (zlen l - Z.of_nat n).
Proof. unfold zlen. rewrite length_drop. lia. Qed.

#[export] Hint Rewrite @zlen_app @zlen_nil @zlen_cons @zlen_replicate @zlen_drop : zlen.

Lemma sub_list_splice_same {A} off (d l : list A) :
  0 ≤ off → off ≤ zlen l → sub_list off (zlen d) (splice off d l) = d.
Proof.
  unfold zlen, sub_list, splice. intros.
  rewrite drop_app_length' by (rewrite length_take; lia).
  rewrite Nat2Z.id. by rewrite take_app_length.
Qed.

Lemma lookup_splice {A} off (d l : list A) (i : nat) :
  0 ≤ off → off ≤ zlen l →
  splice off d l !! i =
    if decide (off ≤ Z.of_nat i < off + zlen d) then d !! (i - Z.to_nat off)%nat else l !! i.
Proof.
  unfold zlen, splice. intros Ho Hl.
  destruct (decide (Z.of_nat i < off)).
  { rewrite decide_False by lia.
    rewrite lookup_app_l by (rewrite length_take; lia). apply lookup_take_lt. lia. }
  rewrite lookup_app_r by (rewrite length_take; lia). rewrite length_take.
  replace (Z.to_nat off `min` length l)%nat with (Z.to_nat off) by lia.
  destruct (decide (Z.of_nat i < off + Z.of_nat (length d))).
  - rewrite decide_True by lia. apply lookup_app_l. lia.
  - rewrite decide_False by lia.
    rewrite lookup_app_r by lia. rewrite lookup_drop. f_equal. lia.
Qed.

Lemma lookup_sub_list {A} off len (l : list A) (i : nat) :
  0 ≤ off → Z.of_nat i < len → sub_list off len l !! i = l !! (Z.to_nat off + i)%nat.
Proof.
  unfold sub_list. intros. rewrite lookup_take_lt by lia. by rewrite lookup_drop.
Qed.

Lemma zlen_splice_ge {A} off (d l : list A) :
  0 ≤ off → off ≤ zlen l → zlen l ≤ zlen (splice off d l).
Proof.
  unfold zlen, splice. intros. rewrite !length_app, length_take, length_drop. lia.
Qed.

(** Reading a range of a spliced list that the write does not touch. *)
Lemma sub_list_splice_other {A} off (d l : list A) a n :
  0 ≤ off → off ≤ zlen l → 0 ≤ a → 0 ≤ n → a + n ≤ zlen l →
  a + n ≤ off ∨ off + zlen d ≤ a →
  sub_list a n (splice off d l) = sub_list a n l.
Proof.
  intros Ho Hd Ha Hn Hl Hdisj. pose proof (zlen_splice_ge off d l Ho Hd).
  apply list_eq. intros i.
  destruct (decide (Z.of_nat i < n)).
  - rewrite !lookup_sub_list by lia. rewrite lookup_splice by done.
    by rewrite decide_False by lia.
  - rewrite !lookup_ge_None_2; [done| |].
    + pose proof (zlen_sub_list a n l). unfold zlen in *. lia.
    + pose proof (zlen_sub_list a n (splice off d l)). unfold zlen in *. lia.
Qed.

(** Reading inside the written range. *)
Lemma sub_list_splice_inside {A} off (d l : list A) a n :
  0 ≤ off → off ≤ zlen l → off ≤ a → 0 ≤ n → a + n ≤ off + zlen d →
  sub_list a n (splice off d l) = sub_list (a - off) n d.
Proof.
  intros Ho Hl Ha Hn Hd. unfold splice, sub_list.
  rewrite drop_app_ge by (unfold zlen in *; rewrite length_take; lia).
  rewrite length_take. unfold zlen in *.
  rewrite drop_app_le by lia. rewrite take_app_le by (rewrite length_drop; lia).
  do 2 f_equal. lia.
Qed.

Lemma sub_list_take {A} a n k (l : list A) :
  0 ≤ a → 0 ≤ n → a + n ≤ k → sub_list a n (take (Z.to_nat k) l) = sub_list a n l.
Proof.
  intros. unfold sub_list. rewrite skipn_firstn_comm, take_take. f_equal. lia.
Qed.

Lemma sub_list_sub_list {A} a n b k (l : list A) :
  0 ≤ a → 0 ≤ n → 0 ≤ b → a + n ≤ k → sub_list a n (sub_list b k l) = sub_list (b + a) n l.
Proof.
  intros. unfold sub_list at 2. rewrite sub_list_take by lia. unfold sub_list.
  rewrite drop_drop. do 2 f_equal. lia.
Qed.

Lemma sub_list_app_l {A} a n (l k : list A) :
  0 ≤ a → 0 ≤ n → a + n ≤ zlen l → sub_list a n (l ++ k) = sub_list a n l.
Proof.
  unfold sub_list, zlen. intros. rewrite drop_app_le by lia.
  by rewrite take_app_le by (rewrite length_drop; lia).
Qed.

(** Pointwise-equal views of two ranges. *)
Lemma filter_none {A} (P : A → Prop) `{!∀ x, Decision (P x)} (l : list A) :
  Forall (λ x, ¬ P x) l → filter P l = [].
Proof. induction 1; [done|]. by rewrite filter_cons_False. Qed.

Lemma StronglySorted_lookup {A} (R : A → A → Prop) (l : list A) (i j : nat) x y :
  StronglySorted R l → (i < j)%nat → l !! i = Some x → l !! j = Some y → R x y.
Proof.
  intros Hs. revert i j. induction Hs as [|z l Hs IH Hall]; intros i j Hij Hi Hj; [done|].
  destruct j as [|j]; [lia|]. destruct i as [|i]; simplify_eq/=.
  - rewrite Forall_lookup in Hall. by eapply Hall.
  - apply (IH i j); [lia|done..].
Qed.

Lemma fmap_seqZ_ext {A} (f g : Z → A) a b n :
  (∀ i, 0 ≤ i < n → f (a + i) = g (b + i)) → f <$> seqZ a n = g <$> seqZ b n.
Proof.
  intros Hfg. apply list_eq. intros j. rewrite !list_lookup_fmap.
  destruct (decide (Z.of_nat j < n)).
  - rewrite !lookup_seqZ_lt by lia. simpl. f_equal. apply Hfg. lia.
  - by rewrite !lookup_seqZ_ge by lia.
Qed.

Lemma zlen_fmap_seqZ {A} (f : Z → A) a n : 0 ≤ n → zlen (f <$> seqZ a n) = n.
Proof. intros. unfold zlen. rewrite length_fmap, length_seqZ. lia. Qed.

Lemma drop_fmap_seqZ {A} (f : Z → A) a n k :
  0 ≤ k → drop (Z.to_nat k) (f <$> seqZ a n) = f <$> seqZ (a + k) (n - k).
Proof.
  intros Hk. apply list_eq. intros j. rewrite lookup_drop, !list_lookup_fmap.
  destruct (decide (Z.of_nat j < n - k)).
  - rewrite !lookup_seqZ_lt by lia. simpl. do 2 f_equal. lia.
  - by rewrite !lookup_seqZ_ge by lia.
Qed.

Lemma take_fmap_seqZ {A} (f : Z → A) a n k :
  0 ≤ k ≤ n → take (Z.to_nat k) (f <$> seqZ a n) = f <$> seqZ a k.
Proof.
  intros Hk. apply list_eq. intros j. rewrite !list_lookup_fmap.
  destruct (decide (Z.of_nat j < k)).
  - rewrite lookup_take_lt, list_lookup_fmap, !lookup_seqZ_lt by lia. done.
  - rewrite lookup_take_ge by lia. by rewrite lookup_seqZ_ge by lia.
Qed.

(** A list is the view of its own cells. *)
Lemma fmap_seqZ_list {A} (d : A) (l : list A) a (f : Z → A) :
  (∀ i, a ≤ i < a + zlen l → f i = default d (l !! Z.to_nat (i - a))) →
  f <$> seqZ a (zlen l) = l.
Proof.
  intros Hf. apply list_eq. intros j. rewrite list_lookup_fmap.
  destruct (decide (Z.of_nat j < zlen l)) as [Hj|Hj].
  - rewrite lookup_seqZ_lt by done. simpl. rewrite Hf by lia.
    replace (Z.to_nat (a + Z.of_nat j - a)) with j by lia.
    destruct (lookup_lt_is_Some_2 l j) as [x Hx]; [unfold zlen in Hj; lia|by rewrite Hx].
  - rewrite lookup_seqZ_ge by lia. symmetry. apply lookup_ge_None_2. unfold zlen in Hj. lia.
Qed.

(** ** Bytes and words *)

Lemma b2z_fits b : fits 8 (b2z b).
Proof. apply Byte.byte.unsigned_range. Qed.

Lemma b2z_z2b z : b2z (z2b z) = wrap8 z.
Proof. apply Byte.byte.unsigned_of_Z. Qed.

Lemma z2b_b2z b : z2b (b2z b) = b.
Proof. apply Byte.byte.of_Z_unsigned. Qed.

Lemma length_le_enc n z : length (le_enc n z) = n.
Proof. apply LittleEndianList.length_le_split. Qed.

Lemma zlen_le_enc n z : zlen (le_enc n z) = Z.of_nat n.
Proof. unfold zlen. by rewrite length_le_enc. Qed.

#[export] Hint Rewrite @zlen_le_enc : zlen.

Lemma le_dec_enc n z : le_dec (le_enc n z) = wrap (Z.of_nat n * 8) z.
Proof. apply LittleEndianList.le_combine_split. Qed.

Lemma le_enc_dec bs : le_enc (length bs) (le_dec bs) = bs.
Proof. apply LittleEndianList.split_le_combine. Qed.

Lemma le_dec_fits bs : fits (8 * zlen bs) (le_dec bs).
Proof. apply LittleEndianList.le_combine_bound. Qed.

Lemma le_dec_app bs1 bs2 : le_dec (bs1 ++ bs2) = le_dec bs1 + 2 ^ (8 * zlen bs1) * le_dec bs2.
Proof.
  unfold le_dec at 1. rewrite LittleEndianList.le_combine_app, (Z.mul_comm (Z.of_nat _) 8).
  fold (zlen bs1). fold (le_dec bs1). fold (le_dec bs2). pose proof (zlen_nonneg bs1).
  rewrite lor_disjoint.
  - rewrite Z.shiftl_mul_pow2; lia.
  - apply land_shiftl_low; [lia|]. apply le_dec_fits.
Qed.

(** A word is its byte ranges put together. *)
Lemma le_dec_sub_split (n1 n2 : Z) bs :
  0 ≤ n1 → 0 ≤ n2 → zlen bs = n1 + n2 →
  le_dec (sub_list 0 n1 bs) + 2 ^ (8 * n1) * le_dec (sub_list n1 n2 bs) = le_dec bs.
Proof.
  intros H1 H2 Hl. rewrite <- (firstn_skipn (Z.to_nat n1) bs) at 3. rewrite le_dec_app.
  unfold sub_list, zlen in *. simpl. rewrite drop_0, length_take.
  rewrite (firstn_all2 (drop _ _)) by (rewrite length_drop; lia).
  do 4 f_equal. lia.
Qed.

Lemma be_dec_enc n z : be_dec (be_enc n z) = wrap (Z.of_nat n * 8) z.
Proof. unfold be_dec, be_enc. by rewrite reverse_involutive, le_dec_enc. Qed.

Lemma length_be_enc n z : length (be_enc n z) = n.
Proof. unfold be_enc. by rewrite length_reverse, length_le_enc. Qed.

Lemma pod_word_ok (n : nat) (w : Z) :
  (0 < n)%nat → w = 8 * Z.of_nat n →
  PodOk {| pod_size := Z.of_nat n; pod_enc := le_enc n; pod_dec := le_dec |} (fits w).
Proof.
  intros Hn ->. split; simpl; intros.
  - lia.
  - apply zlen_le_enc.
  - rewrite le_dec_enc, Z.mul_comm. by apply wrap_small.
  - rewrite <- H. apply le_dec_fits.
Qed.

#[export] Instance pod_u8_ok : PodOk pod_u8 (fits 8).
Proof. apply (pod_word_ok 1); lia. Qed.
#[export] Instance pod_u16_ok : PodOk pod_u16 (fits 16).
Proof. apply (pod_word_ok 2); lia. Qed.
#[export] Instance pod_u32_ok : PodOk pod_u32 (fits 32).
Proof. apply (pod_word_ok 4); lia. Qed.
#[export] Instance pod_u64_ok : PodOk pod_u64 (fits 64).
Proof. apply (pod_word_ok 8); lia. Qed.

(** Fields of a [repr(C)] layout: reading one back out of a concatenation. *)
Lemma sub_list_here {A} n (x y : list A) : zlen x = n → sub_list 0 n (x ++ y) = x.
Proof.
  unfold sub_list, zlen. intros <-. rewrite Nat2Z.id. simpl. apply take_app_length.
Qed.

Lemma sub_list_all {A} n (x : list A) : zlen x = n → sub_list 0 n x = x.
Proof. unfold sub_list, zlen. intros <-. rewrite Nat2Z.id. simpl. by apply firstn_all. Qed.

Lemma sub_list_skip {A} off n (x y : list A) :
  zlen x ≤ off → sub_list off n (x ++ y) = sub_list (off - zlen x) n y.
Proof.
  unfold sub_list, zlen. intros. rewrite drop_app_ge by lia. do 2 f_equal. lia.
Qed.

Ltac eval_offset :=
  match goal with
  | |- context [sub_list ?o _ _] =>
      let o' := eval vm_compute in o in progress change o with o'
  end.
Ltac pod_field :=
  repeat (rewrite sub_list_skip by (rewrite ?zlen_le_enc; lia);
          rewrite ?zlen_le_enc; eval_offset);
  first [rewrite sub_list_here by (rewrite zlen_le_enc; lia)
        |rewrite sub_list_all by (rewrite zlen_le_enc; lia)];
  rewrite le_dec_enc; apply wrap_small.

Lemma le_dec_sub_fits (w off n : Z) (bs : list byte) :
  0 ≤ off → 0 ≤ n → off + n ≤ zlen bs → w = 8 * n → fits w (le_dec (sub_list off n bs)).
Proof.
  intros ? ? ? ->. pose proof (le_dec_fits (sub_list off n bs)) as Hf.
  by rewrite zlen_sub_list in Hf by lia.
Qed.

(** ** The monad laws of [stm] used by the components *)

Lemma stm_bind_ok {S E A B} (m : stm S E A) (f : A → stm S E B) s r s' :
  (m ≫= f) s = (Ok r, s') ↔ ∃ a s1, m s = (Ok a, s1) ∧ f a s1 = (Ok r, s').
Proof.
  unfold mbind, stm_bind. destruct (m s) as [[a|e|p] s1]; split; try by intros [=].
  - by eauto.
  - by intros (? & ? & [= -> ->] & ?).
  - by intros (? & ? & [=] & ?).
  - by intros (? & ? & [=] & ?).
Qed.

Lemma for_each_app {S E A} (f : A → stm S E unit) (l k : list A) s :
  for_each f (l ++ k) s = (for_each f l ≫= λ _, for_each f k) s.
Proof.
  revert s. induction l as [|x l IH]; intros s; [done|]. simpl.
  unfold mbind, stm_bind in *. destruct (f x s) as [[[]|e|p] s']; [apply IH|done..].
Qed.

Lemma for_each_fmap {S E A B} (f : B → stm S E unit) (g : A → B) (l : list A) s :
  for_each f (g <$> l) s = for_each (λ x, f (g x)) l s.
Proof.
  revert s. induction l as [|x l IH]; intros s; [done|]. simpl.
  unfold mbind, stm_bind in *. destruct (f (g x) s) as [[[]|e|p] s']; [apply IH|done..].
Qed.

Lemma outcome_bind_ok {E A B} (m : outcome E A) (f : A → outcome E B) r :
  (m ≫= f) = Ok r ↔ ∃ a, m = Ok a ∧ f a = Ok r.
Proof.
  destruct m; split; try by intros [=].
  - by eauto.
  - by intros (? & [= ->] & ?).
  - by intros (? & [=] & ?).
  - by intros (? & [=] & ?).
Qed.

#[global] Opaque le_enc le_dec.

(** [Vec::retain] and the length of a range. *)

Lemma filter_length_le {A} (f : A → bool) l : zlen (List.filter f l) ≤ zlen l.
Proof. induction l as [|x l IH]; simpl; [done|]. destruct (f x); autorewrite with zlen; lia. Qed.

Lemma filter_all {A} (f : A → bool) l : forallb f l = true → List.filter f l = l.
Proof.
  induction l as [|x l IH]; simpl; [done|]. intros [-> ?]%andb_prop. by rewrite IH.
Qed.

Lemma filter_sub {A} (f : A → bool) l : List.filter f l ⊆+ l.
Proof. induction l as [|x l IH]; simpl; [done|]. destruct (f x); [by constructor|by constructor]. Qed.

Lemma zlen_seqZ a n : 0 ≤ n → zlen (seqZ a n) = n.
Proof. intros. unfold zlen. rewrite length_seqZ. lia. Qed.
