(* ===== verification/GuestMem.v ===== *)
(** * Guest physical memory (crates/nova-mem)

    [GuestMemoryMmap] is a sorted vector of mmap'd regions.  A region's host
    memory is a sparse map from offsets to bytes (an anonymous mapping reads
    as zeroes), so that concrete layouts of gigabytes stay executable.

    [ByteMemory] is the interface the device models and the loaders use
    ([read_slice]/[write_slice]); [ByteMemoryLaws] is its specification
    against a flat address space, and [GuestMemoryMmap] its instance. *)

From S2P Require Import Prelude.

(** ** Guest addresses (guest_address.rs) *)

Module GuestAddress.

(** [GuestAddress(pub u64)] is its raw [u64]. *)
Definition checked_add (a offset : Z) : option Z :=
  if a + offset <? 2 ^ 64 then Some (a + offset) else None.

Definition checked_sub (a b : Z) : option Z :=
  if b <=? a then Some (a - b) else None.

Definition offset_from (a base : Z) : option Z := checked_sub a base.

(** [impl Add<u64>]: plain [+], which wraps in the release profile. *)
Definition add (a rhs : Z) : Z := a ⊞ rhs.

(** [impl Sub<GuestAddress>]. *)
Definition sub (a b : Z) : Z := wrap64 (a - b).

End GuestAddress.

(** ** Errors (error.rs) *)

Inductive MemError : Type :=
| Mmap (errno : Z)
| Munmap (errno : Z)
| OutOfBounds (offset size region_size : Z)
| NoRegion (addr : Z)
| Overflow (a b : Z)
| DirtyLog (errno : Z).

(** ** mmap'd host memory (mmap.rs) *)

Record MmapRegion : Type := {
  mm_addr : Z;                (* host virtual address *)
  mm_size : Z;
  mm_hugetlb : bool;
  mm_data : gmap Z byte;      (* contents by offset; absent offsets read 0 *)
}.

Definition region_byte (r : MmapRegion) (off : Z) : byte := default x00 (mm_data r !! off).

(** [ptr::copy_nonoverlapping] out of and into the mapping. *)
Definition copy_out (r : MmapRegion) (off n : Z) : list byte :=
  region_byte r <$> seqZ off n.

Fixpoint store_bytes (d : gmap Z byte) (off : Z) (bs : list byte) : gmap Z byte :=
  match bs with
  | [] => d
  | b :: bs => store_bytes (<[off := b]> d) (off + 1) bs
  end.

Definition copy_in (r : MmapRegion) (off : Z) (bs : list byte) : MmapRegion :=
  {| mm_addr := mm_addr r; mm_size := mm_size r; mm_hugetlb := mm_hugetlb r;
     mm_data := store_bytes (mm_data r) off bs |}.

(** The [mmap] system call is the host kernel's: [K] is its state, the
    result an errno or the address, and for a file mapping the bytes the file
    holds in the mapped range. *)
Section Syscalls.
Context {K : Type}.
Variable sys_mmap_anon : K → Z → bool → (Z + Z) * K.
Variable sys_mmap_file : K → Z → Z → Z → (Z + Z * gmap Z byte) * K.

Definition MmapRegion_new (k : K) (sz : Z) (huge : bool) : outcome MemError MmapRegion * K :=
  let mk a h := {| mm_addr := a; mm_size := sz; mm_hugetlb := h; mm_data := ∅ |} in
  match sys_mmap_anon k sz huge with
  | (inr a, k) => (Ok (mk a huge), k)
  | (inl e, k) =>
      if huge
      then match sys_mmap_anon k sz false with
           | (inr a, k) => (Ok (mk a false), k)
           | (inl e, k) => (Err (Mmap e), k)
           end
      else (Err (Mmap e), k)
  end.

Definition MmapRegion_from_file (k : K) (fd sz off : Z) : outcome MemError MmapRegion * K :=
  match sys_mmap_file k fd sz off with
  | (inr (a, d), k) =>
      (Ok {| mm_addr := a; mm_size := sz; mm_hugetlb := false; mm_data := d |}, k)
  | (inl e, k) => (Err (Mmap e), k)
  end.

End Syscalls.

(** ** Guest memory (guest_memory.rs) *)

Record GuestRegion : Type := { guest_base : Z; mmap : MmapRegion }.

Record GuestMemoryMmap : Type := { regions : list GuestRegion }.

(** [slice::sort_by_key], a stable sort: insertion keeps equal keys in order. *)
Fixpoint insert_by_base (r : GuestRegion) (rs : list GuestRegion) : list GuestRegion :=
  match rs with
  | [] => [r]
  | r' :: rs' => if guest_base r <=? guest_base r' then r :: rs
                 else r' :: insert_by_base r rs'
  end.

Definition sort_by_base (rs : list GuestRegion) : list GuestRegion :=
  foldr insert_by_base [] rs.

Section Construct.
Context {K : Type}.
Variable sys_mmap_anon : K → Z → bool → (Z + Z) * K.
Variable sys_mmap_file : K → Z → Z → Z → (Z + Z * gmap Z byte) * K.

Fixpoint map_anon (k : K) (layout : list (Z * Z)) (huge : bool)
    : outcome MemError (list GuestRegion) * K :=
  match layout with
  | [] => (Ok [], k)
  | (base, sz) :: layout =>
      match MmapRegion_new sys_mmap_anon k sz huge with
      | (Ok m, k) =>
          match map_anon k layout huge with
          | (Ok rs, k) => (Ok ({| guest_base := base; mmap := m |} :: rs), k)
          | (Err e, k) => (Err e, k)
          | (Panic p, k) => (Panic p, k)
          end
      | (Err e, k) => (Err e, k)
      | (Panic p, k) => (Panic p, k)
      end
  end.

Definition GuestMemoryMmap_new (k : K) (layout : list (Z * Z)) (huge : bool)
    : outcome MemError GuestMemoryMmap * K :=
  let '(r, k) := map_anon k layout huge in
  ((λ rs, {| regions := sort_by_base rs |}) <$> r, k).

Fixpoint map_files (k : K) (fd : Z) (layout : list (Z * Z * Z))
    : outcome MemError (list GuestRegion) * K :=
  match layout with
  | [] => (Ok [], k)
  | (base, sz, off) :: layout =>
      match MmapRegion_from_file sys_mmap_file k fd sz off with
      | (Ok m, k) =>
          match map_files k fd layout with
          | (Ok rs, k) => (Ok ({| guest_base := base; mmap := m |} :: rs), k)
          | (Err e, k) => (Err e, k)
          | (Panic p, k) => (Panic p, k)
          end
      | (Err e, k) => (Err e, k)
      | (Panic p, k) => (Panic p, k)
      end
  end.

Definition GuestMemoryMmap_from_file (k : K) (fd : Z) (layout : list (Z * Z * Z))
    : outcome MemError GuestMemoryMmap * K :=
  let '(r, k) := map_files k fd layout in
  ((λ rs, {| regions := sort_by_base rs |}) <$> r, k).

End Construct.

(** The first region containing [a], with its index and the offset into it. *)
Fixpoint find_region_from (i : nat) (rs : list GuestRegion) (a : Z)
    : outcome MemError (nat * Z) :=
  match rs with
  | [] => Err (NoRegion a)
  | r :: rs =>
      if (guest_base r <=? a) && (a - guest_base r <? mm_size (mmap r))
      then Ok (i, a - guest_base r)
      else find_region_from (S i) rs a
  end.

Definition find_region (m : GuestMemoryMmap) (a : Z) : outcome MemError (nat * Z) :=
  find_region_from 0 (regions m) a.

(** [self.regions[idx]] for an index [find_region] returned. *)
Definition region_at (m : GuestMemoryMmap) (i : nat) : outcome MemError GuestRegion :=
  match regions m !! i with Some r => Ok r | None => Panic PanicBounds end.

Definition check_bounds (r : GuestRegion) (off n : Z) : outcome MemError unit :=
  if mm_size (mmap r) <? off ⊞ n then Err (OutOfBounds off n (mm_size (mmap r))) else Ok tt.

Definition read_slice (m : GuestMemoryMmap) (a n : Z) : outcome MemError (list byte) :=
  '(idx, off) ← find_region m a;
  r ← region_at m idx;
  _ ← check_bounds r off n;
  Ok (copy_out (mmap r) off n).

Definition write_slice (m : GuestMemoryMmap) (a : Z) (bs : list byte)
    : outcome MemError GuestMemoryMmap :=
  '(idx, off) ← find_region m a;
  r ← region_at m idx;
  _ ← check_bounds r off (zlen bs);
  Ok {| regions := <[idx := {| guest_base := guest_base r;
                               mmap := copy_in (mmap r) off bs |}]> (regions m) |}.

(** The raw host pointer of a guest address. *)
Definition as_ptr (m : GuestMemoryMmap) (a : Z) : outcome MemError Z :=
  '(idx, off) ← find_region m a;
  r ← region_at m idx;
  Ok (mm_addr (mmap r) + off).

Definition num_regions (m : GuestMemoryMmap) : nat := length (regions m).

Definition iter_regions (m : GuestMemoryMmap) : list (Z * Z * Z) :=
  (λ r, (guest_base r, mm_size (mmap r), mm_addr (mmap r))) <$> regions m.

Definition total_size (m : GuestMemoryMmap) : Z :=
  foldl (λ acc r, acc ⊞ mm_size (mmap r)) 0 (regions m).

Definition region_host_addr (m : GuestMemoryMmap) (i : nat) : option Z :=
  (λ r, mm_addr (mmap r)) <$> regions m !! i.

Definition region_info (m : GuestMemoryMmap) (i : nat) : option (Z * Z) :=
  (λ r, (guest_base r, mm_size (mmap r))) <$> regions m !! i.

(** ** The byte-memory interface *)

Class ByteMemory (M : Type) : Type := {
  bm_read : M → Z → Z → outcome MemError (list byte);
  bm_write : M → Z → list byte → outcome MemError M;
}.

#[export] Instance GuestMemoryMmap_memory : ByteMemory GuestMemoryMmap :=
  {| bm_read := read_slice; bm_write := write_slice |}.

(** [read_obj::<T>] and [write_obj::<T>] are the same accesses at the bytes
    of a [T: Copy]. *)
Definition read_obj `{ByteMemory M} {T} (P : Pod T) (m : M) (a : Z) : outcome MemError T :=
  pod_dec P <$> bm_read m a (pod_size P).

Definition write_obj `{ByteMemory M} {T} (P : Pod T) (m : M) (a : Z) (x : T)
    : outcome MemError M :=
  bm_write m a (pod_enc P x).

(** The specification: memory is a function from guest addresses to bytes,
    of which some ranges are accessible; an access succeeds exactly on an
    accessible range and touches nothing else. *)
Class ByteMemoryLaws (M : Type) `{ByteMemory M} : Type := {
  bm_wf : M → Prop;
  bm_byte : M → Z → byte;
  bm_mapped : M → Z → Z → Prop;
  bm_mapped_dec m a n : Decision (bm_mapped m a n);
  bm_read_ok m a n : bm_wf m → fits 63 n → bm_mapped m a n →
    bm_read m a n = Ok (bm_byte m <$> seqZ a n);
  bm_read_err m a n : bm_wf m → fits 63 n → ¬ bm_mapped m a n →
    ∃ e, bm_read m a n = Err e;
  bm_write_ok m a d : bm_wf m → fits 63 (zlen d) → bm_mapped m a (zlen d) →
    ∃ m', bm_write m a d = Ok m' ∧ bm_wf m' ∧
      (∀ b k, bm_mapped m' b k ↔ bm_mapped m b k) ∧
      (∀ i, bm_byte m' i =
        if decide (a ≤ i < a + zlen d)
        then default x00 (d !! Z.to_nat (i - a)) else bm_byte m i);
  bm_write_err m a d : bm_wf m → fits 63 (zlen d) → ¬ bm_mapped m a (zlen d) →
    ∃ e, bm_write m a d = Err e;
  bm_mapped_sub m a n k j : bm_mapped m a n → 0 ≤ k → k < n → 0 ≤ j → k + j ≤ n →
    bm_mapped m (a + k) j;
  bm_mapped_range m a n : bm_wf m → bm_mapped m a n → 0 ≤ a ∧ a < 2 ^ 64 ∧ a + n ≤ 2 ^ 64;
}.
#[export] Existing Instance bm_mapped_dec.

(** ** Well-formed layouts *)

Definition region_end (r : GuestRegion) : Z := guest_base r + mm_size (mmap r).

Record region_wf (r : GuestRegion) : Prop := {
  rwf_base : 0 ≤ guest_base r;
  rwf_size : fits 63 (mm_size (mmap r));
  rwf_end : region_end r ≤ 2 ^ 64;
}.

(** Two regions do not overlap. *)
Definition regions_disjoint (r r' : GuestRegion) : Prop :=
  region_end r ≤ guest_base r' ∨ region_end r' ≤ guest_base r.

Record mem_wf (m : GuestMemoryMmap) : Prop := {
  mwf_regions : Forall region_wf (regions m);
  mwf_disjoint : ∀ i j r r', i ≠ j →
    regions m !! i = Some r → regions m !! j = Some r' → regions_disjoint r r';
}.

Definition contains (r : GuestRegion) (a n : Z) : Prop :=
  guest_base r ≤ a ∧ a < region_end r ∧ a + n ≤ region_end r.
#[export] Instance contains_dec r a n : Decision (contains r a n).
Proof. unfold contains. apply _. Defined.

Definition mem_mapped (m : GuestMemoryMmap) (a n : Z) : Prop :=
  Exists (λ r, contains r a n) (regions m).
#[export] Instance mem_mapped_dec m a n : Decision (mem_mapped m a n).
Proof. unfold mem_mapped. apply _. Defined.

(** The byte the flat address space holds at [a] (zero where unmapped). *)
Definition mem_byte (m : GuestMemoryMmap) (a : Z) : byte :=
  match find_region m a with
  | Ok (idx, off) =>
      match regions m !! idx with Some r => region_byte (mmap r) off | None => x00 end
  | _ => x00
  end.

(** ** Dirty-page tracking (dirty.rs) *)

Record DirtyLogTracker : Type := { pages_per_slot : list Z }.

Definition div_ceil (a b : Z) : Z := (a + b - 1) / b.

Definition DirtyLogTracker_new (slot_sizes : list Z) : DirtyLogTracker :=
  {| pages_per_slot := (λ sz, div_ceil sz 4096) <$> slot_sizes |}.

(** [vm.get_dirty_log(slot, &mut bitmap)] is the KVM ioctl. *)
Definition get_dirty_log (t : DirtyLogTracker) (slot : nat)
    (ioctl : nat → list Z → outcome MemError (list Z)) : outcome MemError (list Z) :=
  match pages_per_slot t !! slot with
  | None => Panic PanicBounds
  | Some num_pages =>
      ioctl slot (replicate (Z.to_nat (div_ceil num_pages 64)) 0)
  end.

Definition word_pages (i : nat) (word : Z) : list nat :=
  if word =? 0 then []
  else bit ← seq 0 64;
       if negb (Z.land word (Z.shiftl 1 (Z.of_nat bit)) =? 0)
       then [(i * 64 + bit)%nat] else [].

Definition dirty_pages (bitmap : list Z) : list nat :=
  mjoin (imap word_pages bitmap).

(** ** Host memory lemmas *)

Lemma zlen_copy_out r off n : 0 ≤ n → zlen (copy_out r off n) = n.
Proof. intros. unfold zlen, copy_out. rewrite length_fmap, length_seqZ. lia. Qed.

Lemma store_bytes_lookup d off bs i :
  store_bytes d off bs !! i =
    if decide (off ≤ i < off + zlen bs) then bs !! Z.to_nat (i - off) else d !! i.
Proof.
  revert d off. induction bs as [|b bs IH]; intros d off; simpl.
  { rewrite decide_False; [done|]. rewrite zlen_nil. lia. }
  rewrite IH, zlen_cons. pose proof (zlen_nonneg bs).
  destruct (decide (i = off)) as [->|Hne].
  - rewrite decide_False, decide_True by lia.
    rewrite lookup_insert_eq. by replace (off - off) with 0 by lia.
  - destruct (decide (off + 1 ≤ i < off + 1 + zlen bs)).
    + rewrite decide_True by lia.
      by replace (Z.to_nat (i - off)) with (S (Z.to_nat (i - (off + 1)))) by lia.
    + rewrite decide_False by lia. by rewrite lookup_insert_ne by lia.
Qed.

Lemma region_byte_copy_in r off bs i :
  region_byte (copy_in r off bs) i =
    if decide (off ≤ i < off + zlen bs) then default x00 (bs !! Z.to_nat (i - off))
    else region_byte r i.
Proof.
  unfold region_byte, copy_in. simpl. rewrite store_bytes_lookup. by case_decide.
Qed.

(** ** Region lookup *)

Lemma find_region_from_ok i rs a j off :
  find_region_from i rs a = Ok (j, off) ↔
  ∃ r, (i ≤ j)%nat ∧ rs !! (j - i)%nat = Some r ∧ off = a - guest_base r ∧
       contains r a 0 ∧ (∀ k r', (i ≤ k < j)%nat → rs !! (k - i)%nat = Some r' → ¬ contains r' a 0).
Proof.
  revert i. induction rs as [|r rs IH]; intros i; simpl.
  { split; [done|]. by intros (r & _ & [=] & _). }
  destruct (_ && _) eqn:Hc; to_prop.
  - assert (Hr : contains r a 0) by (unfold contains, region_end; lia). split.
    + intros [= <- <-]. exists r. rewrite Nat.sub_diag. repeat split; try done; lia || apply Hr.
    + intros (r' & Hij & Hr' & -> & Hin & Hno).
      destruct (decide (i = j)) as [<-|Hne].
      * rewrite Nat.sub_diag in Hr'. by simplify_eq/=.
      * destruct (Hno i r); [lia|by rewrite Nat.sub_diag|done].
  - assert (Hr : ¬ contains r a 0) by (unfold contains, region_end; lia).
    rewrite IH. split.
    + intros (r' & Hij & Hr' & -> & Hin & Hno). exists r'.
      repeat split; try apply Hin; try lia.
      * by replace (j - i)%nat with (S (j - S i)) by lia.
      * intros k r'' Hk Hr''. destruct (decide (k = i)) as [->|].
        -- rewrite Nat.sub_diag in Hr''. by simplify_eq/=.
        -- apply (Hno k); [lia|]. by replace (k - i)%nat with (S (k - S i)) in Hr'' by lia.
    + intros (r' & Hij & Hr' & -> & Hin & Hno).
      destruct (decide (i = j)) as [<-|Hne].
      { rewrite Nat.sub_diag in Hr'. by simplify_eq/=. }
      exists r'. replace (j - i)%nat with (S (j - S i)) in Hr' by lia.
      repeat split; try apply Hin; try done; try lia.
      intros k r'' Hk Hr''. apply (Hno k); [lia|].
      by replace (k - i)%nat with (S (k - S i)) by lia.
Qed.

Lemma find_region_from_no_panic i rs a :
  (∃ x, find_region_from i rs a = Ok x) ∨ find_region_from i rs a = Err (NoRegion a).
Proof. revert i. induction rs; intros i; simpl; [by right|]. case_match; eauto. Qed.

Lemma find_region_from_none i rs a :
  Forall (λ r, ¬ contains r a 0) rs → find_region_from i rs a = Err (NoRegion a).
Proof.
  intros Hrs. revert i. induction Hrs as [|r rs Hr _ IH]; intros i; simpl; [done|].
  destruct (_ && _) eqn:Hc; [|done]. to_prop.
  destruct Hr. unfold contains, region_end. lia.
Qed.

Lemma contains_0 r a n : 0 ≤ n → contains r a n → contains r a 0.
Proof. unfold contains. lia. Qed.

Lemma regions_unique m i j r r' a :
  mem_wf m → regions m !! i = Some r → regions m !! j = Some r' →
  contains r a 0 → contains r' a 0 → i = j.
Proof.
  intros Hwf Hi Hj Hr Hr'. destruct (decide (i = j)); [done|].
  destruct (mwf_disjoint _ Hwf i j r r'); try done; unfold contains in *; lia.
Qed.

Lemma find_region_unique m i r a :
  mem_wf m → regions m !! i = Some r → contains r a 0 →
  find_region m a = Ok (i, a - guest_base r).
Proof.
  intros Hwf Hi Hr. apply find_region_from_ok. exists r.
  rewrite Nat.sub_0_r. repeat split; try done; [lia|apply Hr..|].
  intros k r' Hk Hr' Hin. rewrite Nat.sub_0_r in Hr'.
  pose proof (regions_unique _ _ _ _ _ _ Hwf Hi Hr' Hr Hin). lia.
Qed.

Lemma find_region_cases m a :
  (∃ i r, regions m !! i = Some r ∧ contains r a 0 ∧ find_region m a = Ok (i, a - guest_base r))
  ∨ (Forall (λ r, ¬ contains r a 0) (regions m) ∧ find_region m a = Err (NoRegion a)).
Proof.
  destruct (find_region_from_no_panic 0 (regions m) a) as [[[i off] H]|H].
  - left. pose proof H as H'. apply find_region_from_ok in H' as (r & _ & Hr & -> & Hin & _).
    rewrite Nat.sub_0_r in Hr. by exists i, r.
  - right. split; [|done]. apply Forall_forall. intros r [i Hi]%list_elem_of_lookup Hin.
    assert (∃ x, find_region_from 0 (regions m) a = Ok x) as [x Hx]; [|congruence].
    clear H. revert i Hi. generalize 0%nat.
    induction (regions m) as [|r' rs IH]; intros k i Hi; [done|]. simpl.
    destruct (_ && _) eqn:Hc; [eauto|].
    destruct i; simplify_eq/=; [|by eapply IH].
    to_prop. unfold contains, region_end in *. lia.
Qed.

Lemma mem_byte_at m i r a :
  mem_wf m → regions m !! i = Some r → contains r a 0 →
  mem_byte m a = region_byte (mmap r) (a - guest_base r).
Proof.
  intros Hwf Hi Hr. unfold mem_byte. by rewrite (find_region_unique _ _ _ _ Hwf Hi Hr), Hi.
Qed.

(** ** The flat-memory refinement *)

Lemma check_bounds_ok r off n :
  fits 63 off → fits 63 n →
  check_bounds r off n =
    if decide (off + n ≤ mm_size (mmap r)) then Ok tt
    else Err (OutOfBounds off n (mm_size (mmap r))).
Proof.
  intros Ho Hn. unfold check_bounds.
  rewrite add64_small by (unfold fits in *; lia).
  destruct (_ <? _) eqn:E; to_prop; case_decide; done || lia.
Qed.

(** Where an access of [n] bytes at [a] lands: the region and offset. *)
Lemma locate_ok m a n {A} (k : nat → GuestRegion → Z → outcome MemError A) :
  mem_wf m → fits 63 n →
  ('(idx, off) ← find_region m a; r ← region_at m idx; _ ← check_bounds r off n; k idx r off) =
  match find_region m a with
  | Ok (idx, off) =>
      match regions m !! idx with
      | Some r => if decide (contains r a n) then k idx r off
                  else Err (OutOfBounds off n (mm_size (mmap r)))
      | None => Panic PanicBounds
      end
  | Err e => Err e
  | Panic p => Panic p
  end.
Proof.
  intros Hwf Hn. destruct (find_region_cases m a) as [(i & r & Hi & Hin & Hf)|[_ Hf]];
    rewrite Hf; simpl; [|done].
  unfold region_at. rewrite Hi. simpl.
  pose proof (proj1 (Forall_lookup _ _) (mwf_regions _ Hwf) _ _ Hi) as [Hb Hs He].
  unfold contains, region_end, fits in *.
  rewrite check_bounds_ok by (unfold fits; lia).
  destruct (decide (a - guest_base r + n ≤ mm_size (mmap r))).
  - by rewrite decide_True by lia.
  - by rewrite decide_False by lia.
Qed.

Lemma mem_mapped_elim m a n :
  mem_wf m → 0 ≤ n → mem_mapped m a n →
  ∃ i r, regions m !! i = Some r ∧ contains r a n ∧
         find_region m a = Ok (i, a - guest_base r).
Proof.
  intros Hwf Hn (r & [i Hi]%list_elem_of_lookup & Hin)%Exists_exists.
  exists i, r. split; [done|]. split; [done|].
  eapply find_region_unique; [done..|]. by eapply contains_0.
Qed.

Lemma mem_mapped_intro m a n i r :
  regions m !! i = Some r → contains r a n → mem_mapped m a n.
Proof. intros Hi Hin. apply Exists_exists. exists r. split; [|done]. by eapply list_elem_of_lookup_2. Qed.

Lemma read_slice_mapped m a n :
  mem_wf m → fits 63 n → mem_mapped m a n →
  read_slice m a n = Ok (mem_byte m <$> seqZ a n).
Proof.
  intros Hwf Hn (i & r & Hi & Hin & Hf)%mem_mapped_elim; [|done|apply Hn].
  unfold read_slice.
  rewrite (locate_ok m a n (λ idx r off, Ok (copy_out (mmap r) off n))) by done.
  rewrite Hf, Hi, decide_True by done. f_equal. apply fmap_seqZ_ext. intros j Hj.
  unfold contains in Hin. rewrite (mem_byte_at m i r) by (done || unfold contains; lia).
  f_equal. lia.
Qed.

(** An access that is not inside one region fails: [locate_ok]'s other branch. *)
Lemma unmapped_err m a n {A} (k : nat → GuestRegion → Z → outcome MemError A) :
  mem_wf m → fits 63 n → ¬ mem_mapped m a n →
  ∃ e, ('(idx, off) ← find_region m a; r ← region_at m idx;
        _ ← check_bounds r off n; k idx r off) = Err e.
Proof.
  intros Hwf Hn Hno. rewrite locate_ok by done.
  destruct (find_region_cases m a) as [(i & r & Hi & _ & ->)|[_ ->]]; [|by eexists].
  rewrite Hi, decide_False; [by eexists|].
  intros Hin. by eapply Hno, mem_mapped_intro.
Qed.

Section write.
Context (m : GuestMemoryMmap) (a : Z) (bs : list byte) (i : nat) (r : GuestRegion).
Context (Hwf : mem_wf m) (Hi : regions m !! i = Some r) (Hin : contains r a (zlen bs)).

Definition written_region : GuestRegion :=
  {| guest_base := guest_base r; mmap := copy_in (mmap r) (a - guest_base r) bs |}.
Definition written : GuestMemoryMmap :=
  {| regions := <[i := written_region]> (regions m) |}.

Lemma written_lookup j r' :
  regions written !! j = Some r' →
  ∃ r0, regions m !! j = Some r0 ∧ guest_base r' = guest_base r0 ∧
        mm_size (mmap r') = mm_size (mmap r0).
Proof using Hi.
  unfold written. simpl. destruct (decide (i = j)) as [<-|].
  - rewrite list_lookup_insert_eq by (by eapply lookup_lt_Some).
    intros [= <-]. by exists r.
  - rewrite list_lookup_insert_ne by done. eauto.
Qed.

Lemma written_lookup_inv j r0 :
  regions m !! j = Some r0 →
  ∃ r', regions written !! j = Some r' ∧ guest_base r' = guest_base r0 ∧
        mm_size (mmap r') = mm_size (mmap r0).
Proof using Hi.
  unfold written. simpl. destruct (decide (i = j)) as [<-|]; intros Hj; simplify_eq.
  - exists written_region. by rewrite list_lookup_insert_eq by (by eapply lookup_lt_Some).
  - exists r0. by rewrite list_lookup_insert_ne by done.
Qed.

Lemma contains_same r1 r2 b k :
  guest_base r1 = guest_base r2 → mm_size (mmap r1) = mm_size (mmap r2) →
  contains r1 b k ↔ contains r2 b k.
Proof using. unfold contains, region_end. by intros -> ->. Qed.

Lemma written_mapped b k : mem_mapped written b k ↔ mem_mapped m b k.
Proof using Hi.
  split; intros (r' & [j Hj]%list_elem_of_lookup & Hr')%Exists_exists.
  - apply written_lookup in Hj as (r0 & Hj & Hb & Hs).
    eapply mem_mapped_intro; [done|]. by eapply contains_same.
  - apply written_lookup_inv in Hj as (r0 & Hj & Hb & Hs).
    eapply mem_mapped_intro; [done|]. by eapply contains_same.
Qed.

Lemma written_wf : mem_wf written.
Proof using Hwf Hi.
  destruct Hwf as [Hr Hd]. rewrite Forall_lookup in Hr. split.
  - rewrite Forall_lookup. intros j r' (r0 & Hj & Hb & Hs)%written_lookup.
    destruct (Hr _ _ Hj) as [? ? ?]. split; unfold region_end in *; by rewrite ?Hb, ?Hs.
  - intros j k r1 r2 Hjk (r10 & Hj & Hb1 & Hs1)%written_lookup
      (r20 & Hk & Hb2 & Hs2)%written_lookup.
    specialize (Hd j k r10 r20 Hjk Hj Hk).
    unfold regions_disjoint, region_end in *. by rewrite Hb1, Hb2, Hs1, Hs2.
Qed.

Lemma written_byte b :
  mem_byte written b =
    if decide (a ≤ b < a + zlen bs) then default x00 (bs !! Z.to_nat (b - a))
    else mem_byte m b.
Proof using Hwf Hi Hin.
  destruct (find_region_cases m b) as [(j & r0 & Hj & Hr0 & _)|[Hno Hf]].
  - destruct (written_lookup_inv _ _ Hj) as (r1 & Hj1 & Hb & Hs).
    rewrite (mem_byte_at written j r1 b) by
      (apply written_wf || done || by eapply contains_same).
    rewrite (mem_byte_at m j r0 b) by done.
    rewrite Hb. destruct (decide (i = j)) as [<-|Hne].
    + unfold written in Hj1. simpl in Hj1.
      rewrite list_lookup_insert_eq in Hj1 by (by eapply lookup_lt_Some). simplify_eq.
      simpl. rewrite region_byte_copy_in. unfold contains in *.
      repeat case_decide; try lia; [|done]. do 2 f_equal. lia.
    + unfold written in Hj1. simpl in Hj1. rewrite list_lookup_insert_ne in Hj1 by done.
      simplify_eq. rewrite decide_False; [done|]. intros Hab. destruct Hne.
      eapply regions_unique; [done|exact Hi|exact Hj| |exact Hr0].
      unfold contains in *. lia.
  - destruct (find_region_cases written b) as [(j & r1 & Hj & Hr1 & _)|[Hno' Hf']].
    { apply written_lookup in Hj as (r0 & Hj & Hb & Hs).
      rewrite Forall_lookup in Hno. destruct (Hno _ _ Hj). by eapply contains_same. }
    unfold mem_byte. rewrite Hf, Hf', decide_False; [done|].
    intros Hab. rewrite Forall_lookup in Hno. destruct (Hno _ _ Hi).
    unfold contains in *. lia.
Qed.

End write.

Lemma write_slice_mapped m a bs :
  mem_wf m → fits 63 (zlen bs) → mem_mapped m a (zlen bs) →
  ∃ i r, regions m !! i = Some r ∧ contains r a (zlen bs) ∧
         write_slice m a bs = Ok (written m a bs i r).
Proof.
  intros Hwf Hn (i & r & Hi & Hin & Hf)%mem_mapped_elim; [|done|apply Hn].
  exists i, r. split; [done|]. split; [done|]. unfold write_slice.
  rewrite (locate_ok m a (zlen bs) (λ idx r off, Ok {| regions :=
    <[idx := {| guest_base := guest_base r; mmap := copy_in (mmap r) off bs |}]> (regions m) |}))
    by done.
  by rewrite Hf, Hi, decide_True by done.
Qed.

#[export] Program Instance GuestMemoryMmap_laws : ByteMemoryLaws GuestMemoryMmap :=
  {| bm_wf := mem_wf; bm_byte := mem_byte; bm_mapped := mem_mapped;
     bm_mapped_dec := mem_mapped_dec |}.
Next Obligation. intros. by apply read_slice_mapped. Qed.
Next Obligation. intros m a n ? ? ?. by apply unmapped_err. Qed.
Next Obligation.
  intros m a d Hwf Hn Hm.
  destruct (write_slice_mapped m a d) as (i & r & Hi & Hin & Hw); [done..|].
  exists (written m a d i r). split; [done|]. split; [by apply written_wf|].
  split; intros; [by apply written_mapped|by apply written_byte].
Qed.
Next Obligation. intros m a d ? ? ?. by apply unmapped_err. Qed.
Next Obligation.
  intros m a n k j Hm ? ? ? ?. unfold mem_mapped in *.
  eapply Exists_impl; [exact Hm|]. intros r. unfold contains. simpl. lia.
Qed.
Next Obligation.
  intros m a n Hwf (r & [i Hi]%list_elem_of_lookup & Hin)%Exists_exists.
  pose proof (proj1 (Forall_lookup _ _) (mwf_regions _ Hwf) _ _ Hi) as [? ? ?].
  unfold contains in Hin. lia.
Qed.

(** ** Clients of the interface *)

Section ByteMemoryClients.
Context `{ByteMemoryLaws M} {T : Type} (P : Pod T) {dom : T → Prop} `{!PodOk P dom}.
Context (pod_small : fits 63 (pod_size P)).
Implicit Types (m : M) (a : Z) (x : T).

Lemma read_obj_ok m a :
  bm_wf m → bm_mapped m a (pod_size P) →
  read_obj P m a = Ok (pod_dec P (bm_byte m <$> seqZ a (pod_size P))).
Proof using pod_small. intros. unfold read_obj. by rewrite bm_read_ok. Qed.

Lemma read_obj_dom m a x : bm_wf m → read_obj P m a = Ok x → dom x.
Proof using All.
  intros Hwf Hr. destruct (decide (bm_mapped m a (pod_size P))).
  - rewrite read_obj_ok in Hr by done. simplify_eq. apply pod_dec_dom.
    rewrite zlen_fmap_seqZ; [done|]. pose proof (@pod_size_pos _ P dom _). lia.
  - destruct (bm_read_err m a (pod_size P)) as [e He]; [done..|].
    unfold read_obj in Hr. by rewrite He in Hr.
Qed.

Lemma read_obj_not_panic m a p : bm_wf m → read_obj P m a ≠ Panic p.
Proof using All.
  intros Hwf Hr. destruct (decide (bm_mapped m a (pod_size P))).
  - by rewrite read_obj_ok in Hr by done.
  - destruct (bm_read_err m a (pod_size P)) as [e He]; [done..|].
    unfold read_obj in Hr. by rewrite He in Hr.
Qed.

(** What a [write_obj] to a mapped address does to the flat memory. *)
Lemma write_obj_ok m a x :
  bm_wf m → bm_mapped m a (pod_size P) →
  ∃ m', write_obj P m a x = Ok m' ∧ bm_wf m' ∧
    (∀ b k, bm_mapped m' b k ↔ bm_mapped m b k) ∧
    (∀ i, ¬ (a ≤ i < a + pod_size P) → bm_byte m' i = bm_byte m i) ∧
    bm_byte m' <$> seqZ a (pod_size P) = pod_enc P x.
Proof using All.
  intros Hwf Hm. pose proof (@pod_enc_len _ P dom _ x) as Hl.
  destruct (bm_write_ok m a (pod_enc P x)) as (m' & Hw & Hwf' & Hmap & Hb);
    [done|by rewrite Hl..|].
  exists m'. split; [done|]. split; [done|]. split; [done|]. split.
  - intros i Hi. rewrite Hb, Hl. by rewrite decide_False.
  - rewrite <- Hl. eapply (fmap_seqZ_list x00). intros i Hi. rewrite Hb. by rewrite decide_True.
Qed.

Lemma write_obj_mapped m a x m' :
  bm_wf m → write_obj P m a x = Ok m' → bm_mapped m a (pod_size P).
Proof using All.
  intros Hwf Hw. pose proof (@pod_enc_len _ P dom _ x) as Hl.
  destruct (decide (bm_mapped m a (pod_size P))); [done|].
  destruct (bm_write_err m a (pod_enc P x)) as [e He]; rewrite ?Hl; try done.
  unfold write_obj in Hw. congruence.
Qed.

Lemma write_obj_spec m a x m' :
  bm_wf m → write_obj P m a x = Ok m' →
  bm_wf m' ∧ (∀ b k, bm_mapped m' b k ↔ bm_mapped m b k) ∧
  (∀ i, ¬ (a ≤ i < a + pod_size P) → bm_byte m' i = bm_byte m i) ∧
  (dom x → read_obj P m' a = Ok x).
Proof using All.
  intros Hwf Hw. pose proof (write_obj_mapped _ _ _ _ Hwf Hw) as Hm.
  destruct (write_obj_ok m a x) as (m1 & Hw1 & Hwf' & Hmap & Hf & Hsame); [done..|].
  rewrite Hw in Hw1. simplify_eq. split_and!; try done.
  intros Hx. rewrite read_obj_ok by (done || by apply Hmap). f_equal.
  rewrite Hsame. by eapply pod_dec_enc.
Qed.

End ByteMemoryClients.

(** Reading back what was written. *)
Lemma bm_write_read `{ByteMemoryLaws M} (m m' : M) a d :
  bm_wf m → fits 63 (zlen d) → bm_write m a d = Ok m' → bm_read m' a (zlen d) = Ok d.
Proof.
  intros Hwf Hn Hw. destruct (decide (bm_mapped m a (zlen d))) as [Hm|Hm].
  - destruct (bm_write_ok m a d) as (m1 & Hw1 & Hwf' & Hmap & Hb); [done..|].
    rewrite Hw in Hw1. simplify_eq. rewrite bm_read_ok by (done || by apply Hmap). f_equal.
    eapply (fmap_seqZ_list x00). intros i Hi. rewrite Hb. by rewrite decide_True.
  - destruct (bm_write_err m a d) as [e He]; [done..|]. congruence.
Qed.

(** Memory that agrees on a range reads the same there. *)
Lemma bm_read_frame `{ByteMemoryLaws M} (m m' : M) a n :
  bm_wf m → bm_wf m' → fits 63 n →
  (∀ b k, bm_mapped m' b k ↔ bm_mapped m b k) →
  (∀ i, a ≤ i < a + n → bm_byte m' i = bm_byte m i) →
  bm_mapped m a n → bm_read m' a n = bm_read m a n.
Proof.
  intros ? ? ? Hmap Hb ?. rewrite !bm_read_ok by (done || by apply Hmap). f_equal.
  apply fmap_seqZ_ext. intros. apply Hb. lia.
Qed.

Lemma bm_write_not_panic `{ByteMemoryLaws M} (m : M) a d p :
  bm_wf m → fits 63 (zlen d) → bm_write m a d ≠ Panic p.
Proof.
  intros Hwf Hn Hw. destruct (decide (bm_mapped m a (zlen d))).
  - destruct (bm_write_ok m a d) as (m' & Hw' & _); [done..|]. congruence.
  - destruct (bm_write_err m a d) as [e He]; [done..|]. congruence.
Qed.

(** A successful write leaves the memory well-formed, with the same mapped
    ranges, reads back, and does not touch a disjoint range. *)
Lemma bm_write_effect `{ByteMemoryLaws M} (m m' : M) a d :
  bm_wf m → fits 63 (zlen d) → bm_write m a d = Ok m' →
  bm_wf m' ∧ bm_mapped m a (zlen d) ∧ (∀ b k, bm_mapped m' b k ↔ bm_mapped m b k) ∧
  bm_read m' a (zlen d) = Ok d ∧
  (∀ b k, fits 63 k → bm_mapped m b k → b + k ≤ a ∨ a + zlen d ≤ b →
     bm_read m' b k = bm_read m b k).
Proof.
  intros Hwf Hn Hw. assert (Hm : bm_mapped m a (zlen d)).
  { destruct (decide (bm_mapped m a (zlen d))) as [?|Hm]; [done|].
    destruct (bm_write_err m a d) as [e He]; [done..|]. congruence. }
  destruct (bm_write_ok m a d) as (m1 & Hw1 & Hwf' & Hmap & Hb); [done..|].
  rewrite Hw in Hw1. simplify_eq. repeat split; try done; try by apply Hmap.
  - by apply (bm_write_read m).
  - intros b k Hk Hbk Hd. apply bm_read_frame; try done.
    intros i Hi. rewrite Hb. rewrite decide_False by lia. done.
Qed.

(** ** Sequences of writes

    Loaders write several slices in a row and stop at the first error. *)
Section Writes.
Context `{ByteMemoryLaws M}.
Implicit Types (m : M) (ws : list (Z * list byte)).

Definition store {E} (err : MemError → E) (a : Z) (d : list byte) : stm M E unit :=
  λ m, match bm_write m a d with
       | Ok m' => (Ok tt, m')
       | Err e => (Err (err e), m)
       | Panic p => (Panic p, m)
       end.

Definition store_all {E} (err : MemError → E) (ws : list (Z * list byte)) : stm M E unit :=
  for_each (λ w, store err w.1 w.2) ws.

(** The flat memory after the writes. *)
Definition overlay1 (f : Z → byte) (w : Z * list byte) (i : Z) : byte :=
  if decide (w.1 ≤ i < w.1 + zlen w.2) then default x00 (w.2 !! Z.to_nat (i - w.1)) else f i.
Definition overlay (f : Z → byte) ws : Z → byte := foldl overlay1 f ws.

Definition write_ok (m : M) (w : Z * list byte) : Prop := bm_mapped m w.1 (zlen w.2).

Lemma overlay_ext f g ws i : (∀ i, f i = g i) → overlay f ws i = overlay g ws i.
Proof.
  revert f g. induction ws as [|w ws IH]; intros f g Hfg; [apply Hfg|]. simpl.
  apply IH. intros j. unfold overlay1. by rewrite Hfg.
Qed.

Lemma store_all_spec {E} (err : MemError → E) ws m :
  bm_wf m → Forall (λ w, fits 63 (zlen w.2)) ws →
  match store_all err ws m with
  | (Ok _, m') => bm_wf m' ∧ (∀ b k, bm_mapped m' b k ↔ bm_mapped m b k) ∧
      Forall (write_ok m) ws ∧ (∀ i, bm_byte m' i = overlay (bm_byte m) ws i)
  | (Err _, m') => ¬ Forall (write_ok m) ws
  | (Panic _, _) => False
  end.
Proof.
  revert m. induction ws as [|[a d] ws IH]; intros m Hwf Hl; [done|].
  apply Forall_cons in Hl as [Hd Hl]. simpl in Hd.
  unfold store_all. simpl. unfold mbind, stm_bind, store at 1. simpl.
  destruct (decide (bm_mapped m a (zlen d))) as [Hm|Hm].
  - destruct (bm_write_ok m a d Hwf Hd Hm) as (m1 & -> & Hwf1 & Hmap1 & Hb1).
    specialize (IH m1 Hwf1 Hl). unfold store_all in IH.
    assert (Hok : Forall (write_ok m) ((a, d) :: ws) ↔ Forall (write_ok m1) ws).
    { rewrite Forall_cons. unfold write_ok. simpl. rewrite !Forall_forall.
      split; [intros [_ Hws] | intros Hws; split; [done|]]; intros w Hw; by apply Hmap1, Hws. }
    destruct (for_each _ ws m1) as [[[]|e|p] m'].
    + destruct IH as (Hwf' & Hmap' & Hws & Hb'). split_and!; [done| |by apply Hok|].
      * intros. by rewrite Hmap'.
      * intros i. rewrite Hb'. apply overlay_ext. intros j. by rewrite Hb1.
    + by rewrite Hok.
    + done.
  - destruct (bm_write_err m a d Hwf Hd Hm) as [e ->].
    intros Hall. apply Forall_cons in Hall as [Hall _]. done.
Qed.

Lemma overlay_out f ws i :
  Forall (λ w, ¬ (w.1 ≤ i < w.1 + zlen w.2)) ws → overlay f ws i = f i.
Proof.
  revert f. induction ws as [|w ws IH]; intros f Hall; [done|].
  apply Forall_cons in Hall as [Hw Hall]. simpl. rewrite IH by done.
  unfold overlay1. by rewrite decide_False.
Qed.

(** Writes in increasing, disjoint address order. *)
Definition ascending ws : Prop := StronglySorted (λ w w', w.1 + zlen w.2 ≤ w'.1) ws.

Lemma overlay_in f ws w i :
  ascending ws → w ∈ ws → w.1 ≤ i < w.1 + zlen w.2 →
  overlay f ws i = default x00 (w.2 !! Z.to_nat (i - w.1)).
Proof.
  intros Hs. revert f. induction Hs as [|w' ws Hs IH Hall]; intros f Hin Hi; [by apply not_elem_of_nil in Hin|].
  simpl. apply elem_of_cons in Hin as [->|Hin]; [|by apply IH].
  rewrite overlay_out.
  - unfold overlay1. by rewrite decide_True.
  - eapply Forall_impl; [exact Hall|]. simpl. intros. lia.
Qed.

(** What a range written by one of the writes reads as. *)
Lemma store_all_read {E} (err : MemError → E) ws m m' r w :
  bm_wf m → Forall (λ w, fits 63 (zlen w.2)) ws → ascending ws →
  store_all err ws m = (Ok r, m') → w ∈ ws → bm_read m' w.1 (zlen w.2) = Ok w.2.
Proof.
  intros Hwf Hl Hs Hr Hw. pose proof (store_all_spec err ws m Hwf Hl) as Hspec.
  rewrite Hr in Hspec. destruct Hspec as (Hwf' & Hmap & Hok & Hb).
  rewrite Forall_forall in Hl, Hok. rewrite bm_read_ok; [|done|by apply Hl|by apply Hmap, Hok].
  f_equal. eapply (fmap_seqZ_list x00). intros i Hi. rewrite Hb. by apply overlay_in.
Qed.

(** The last write to a range is what it reads as. *)
Lemma store_all_read_last {E} (err : MemError → E) ws1 w ws2 m m' r :
  bm_wf m → Forall (λ w, fits 63 (zlen w.2)) (ws1 ++ w :: ws2) →
  Forall (λ w', w.1 + zlen w.2 ≤ w'.1 ∨ w'.1 + zlen w'.2 ≤ w.1) ws2 →
  store_all err (ws1 ++ w :: ws2) m = (Ok r, m') → bm_read m' w.1 (zlen w.2) = Ok w.2.
Proof.
  intros Hwf Hl Hd Hr. pose proof (store_all_spec err _ m Hwf Hl) as Hspec.
  rewrite Hr in Hspec. destruct Hspec as (Hwf' & Hmap & Hok & Hb).
  apply Forall_app in Hl as [_ Hl], Hok as [_ Hok]. apply Forall_cons in Hl as [Hl _], Hok as [Hok _].
  rewrite bm_read_ok; [|done..|by apply Hmap].
  f_equal. eapply (fmap_seqZ_list x00). intros i Hi. rewrite Hb. unfold overlay.
  rewrite foldl_app. cbn [foldl]. fold (overlay (overlay1 (foldl overlay1 (bm_byte m) ws1) w) ws2).
  rewrite overlay_out; [unfold overlay1; by rewrite decide_True|].
  eapply Forall_impl; [exact Hd|]. simpl. intros. lia.
Qed.

(** A range none of the writes touches reads as before. *)
Lemma store_all_frame {E} (err : MemError → E) ws m m' r a n :
  bm_wf m → Forall (λ w, fits 63 (zlen w.2)) ws →
  store_all err ws m = (Ok r, m') → fits 63 n → bm_mapped m a n →
  Forall (λ w, a + n ≤ w.1 ∨ w.1 + zlen w.2 ≤ a) ws →
  bm_read m' a n = bm_read m a n.
Proof.
  intros Hwf Hl Hr Hn Ha Hd. pose proof (store_all_spec err ws m Hwf Hl) as Hspec.
  rewrite Hr in Hspec. destruct Hspec as (Hwf' & Hmap & Hok & Hb).
  apply bm_read_frame; try done. intros i Hi. rewrite Hb. apply overlay_out.
  eapply Forall_impl; [exact Hd|]. simpl. intros. lia.
Qed.

End Writes.

(** ** Construction *)

Lemma insert_by_base_perm r rs : insert_by_base r rs ≡ₚ r :: rs.
Proof.
  induction rs as [|r' rs IH]; simpl; [done|]. case_match; [done|].
  rewrite IH. by apply perm_swap.
Qed.

Lemma sort_by_base_perm rs : sort_by_base rs ≡ₚ rs.
Proof. induction rs as [|r rs IH]; simpl; [done|]. by rewrite insert_by_base_perm, IH. Qed.

Definition base_le (r r' : GuestRegion) : Prop := guest_base r ≤ guest_base r'.

Lemma insert_by_base_sorted r rs :
  StronglySorted base_le rs → StronglySorted base_le (insert_by_base r rs).
Proof.
  induction 1 as [|r' rs Hs IH Hall]; simpl.
  { by repeat constructor. }
  case_match; to_prop.
  - constructor; [by constructor|]. constructor; [done|].
    eapply Forall_impl; [exact Hall|]. unfold base_le. simpl. lia.
  - constructor; [done|]. rewrite insert_by_base_perm. constructor; [unfold base_le; lia|done].
Qed.

Lemma sort_by_base_sorted rs : StronglySorted base_le (sort_by_base rs).
Proof. induction rs; simpl; [constructor|by apply insert_by_base_sorted]. Qed.

(** The (base, size) pairs of a region list. *)
Definition extents (rs : list GuestRegion) : list (Z * Z) :=
  (λ r, (guest_base r, mm_size (mmap r))) <$> rs.

Record layout_ok (layout : list (Z * Z)) : Prop := {
  lok_range : Forall (λ '(b, s), 0 ≤ b ∧ fits 63 s ∧ b + s ≤ 2 ^ 64) layout;
  lok_disjoint : ∀ i j b s b' s', i ≠ j → layout !! i = Some (b, s) →
    layout !! j = Some (b', s') → b + s ≤ b' ∨ b' + s' ≤ b;
}.

Lemma layout_ok_perm l l' : l ≡ₚ l' → layout_ok l → layout_ok l'.
Proof.
  intros Hp [Hr Hd]. split; [by rewrite <- Hp|].
  symmetry in Hp. apply Permutation_inj in Hp as (_ & f & Hinj & Hf).
  intros i j b s b' s' Hij Hi Hj. rewrite Hf in Hi, Hj.
  eapply (Hd (f i) (f j)); try done. by intros ?%Hinj.
Qed.

Lemma layout_ok_wf rs : layout_ok (extents rs) → mem_wf {| regions := rs |}.
Proof.
  intros [Hr Hd]. unfold extents in *. split; simpl.
  - rewrite Forall_fmap in Hr. eapply Forall_impl; [exact Hr|].
    intros r (? & ? & ?). by split.
  - intros i j r r' Hij Hi Hj. unfold regions_disjoint, region_end.
    eapply (Hd i j); [done|by rewrite list_lookup_fmap, ?Hi, ?Hj..].
Qed.

Lemma map_anon_spec {K} (sys : K → Z → bool → (Z + Z) * K) k layout huge rs k' :
  map_anon sys k layout huge = (Ok rs, k') →
  extents rs = layout ∧ Forall (λ r, mm_data (mmap r) = ∅) rs.
Proof.
  revert k rs k'. induction layout as [|[b s] layout IH]; intros k rs k' Hm; simpl in Hm.
  { by simplify_eq. }
  destruct (MmapRegion_new sys k s huge) as [[m| |] k1] eqn:Hn; simplify_eq.
  destruct (map_anon sys k1 layout huge) as [[rs'| |] k2] eqn:Hm'; simplify_eq.
  destruct (IH _ _ _ Hm') as [Hx Hd]. unfold MmapRegion_new in Hn.
  assert (mm_size m = s ∧ mm_data m = ∅) as [<- ?] by (repeat case_match; by simplify_eq).
  split; [|by constructor]. unfold extents in *. simpl. by f_equal.
Qed.

(** ** Dirty bitmap *)

Lemma elem_of_word_pages i w p :
  fits 64 w →
  p ∈ word_pages i w ↔ (i * 64 ≤ p < i * 64 + 64)%nat ∧ Z.testbit w (Z.of_nat p - Z.of_nat (i * 64)) = true.
Proof.
  intros Hw. unfold word_pages. destruct (w =? 0) eqn:Hz; to_prop.
  { subst. rewrite Z.testbit_0_l. split; [by intros ?%not_elem_of_nil|by intros [_ ?]]. }
  rewrite list_elem_of_bind. split.
  - intros (bit & Hp & Hb). apply elem_of_seq in Hb. case_match eqn:Ht; [|by apply not_elem_of_nil in Hp].
    apply list_elem_of_singleton in Hp as ->. to_prop.
    split; [lia|]. replace (_ - _) with (Z.of_nat bit) by lia.
    destruct (Z.testbit w (Z.of_nat bit)) eqn:Hbit; [done|]. destruct Ht.
    apply Z.bits_inj'. intros n Hn. rewrite Z.land_spec, Z.shiftl_1_l, Z.pow2_bits_eqb by lia.
    rewrite Z.bits_0. destruct (Z.eqb_spec (Z.of_nat bit) n) as [<-|]; [by rewrite Hbit|].
    by rewrite andb_false_r.
  - intros [Hp Hbit]. exists (p - i * 64)%nat. rewrite elem_of_seq. split; [|lia].
    replace (Z.of_nat p - Z.of_nat (i * 64)) with (Z.of_nat (p - i * 64)) in Hbit by lia.
    destruct (_ =? 0) eqn:Ht; simpl; to_prop.
    + exfalso. apply (f_equal (λ z, Z.testbit z (Z.of_nat (p - i * 64)))) in Ht.
      rewrite Z.land_spec, Z.shiftl_1_l, Z.pow2_bits_true, Z.bits_0, Hbit in Ht by lia. done.
    + apply list_elem_of_singleton. lia.
Qed.

Lemma word_pages_sorted i w : StronglySorted lt (word_pages i w).
Proof.
  unfold word_pages. case_match; [constructor|].
  assert (Hlow : ∀ s n (f : nat → bool), StronglySorted lt
     (bit ← seq s n; if f bit then [(i * 64 + bit)%nat] else [])
     ∧ Forall (λ p, i * 64 + s ≤ p)%nat (bit ← seq s n; if f bit then [(i * 64 + bit)%nat] else [])).
  { intros s n f. revert s. induction n as [|n IH]; intros s; simpl; [by split; constructor|].
    destruct (IH (S s)) as [Hs Hf]. destruct (f s); simpl; split; try done.
    - constructor; [done|]. eapply Forall_impl; [exact Hf|]. simpl. lia.
    - constructor; [lia|]. eapply Forall_impl; [exact Hf|]. simpl. lia.
    - eapply Forall_impl; [exact Hf|]. simpl. lia. }
  apply (Hlow 0%nat 64%nat).
Qed.

Lemma StronglySorted_app_lt (l k : list nat) b :
  StronglySorted lt l → StronglySorted lt k →
  Forall (λ x, x < b)%nat l → Forall (λ x, b ≤ x)%nat k → StronglySorted lt (l ++ k).
Proof.
  induction 1 as [|x l Hs IH Hx]; intros Hk Hl Hb; simpl; [done|].
  inversion_clear Hl. constructor; [by apply IH|].
  apply Forall_app. split; [done|]. eapply Forall_impl; [exact Hb|]. simpl. lia.
Qed.

Lemma dirty_sorted (k : nat) bitmap :
  Forall (fits 64) bitmap →
  StronglySorted lt (mjoin (imap (λ i, word_pages (k + i)) bitmap)) ∧
  Forall (λ p, k * 64 ≤ p)%nat (mjoin (imap (λ i, word_pages (k + i)) bitmap)).
Proof.
  intros Hb. revert k. induction Hb as [|w ws Hw _ IH]; intros k; [by repeat constructor|].
  rewrite imap_cons. simpl. rewrite Nat.add_0_r.
  rewrite (imap_ext _ (λ i, word_pages (S k + i))) by (intros; simpl; f_equal; lia).
  destruct (IH (S k)) as [Hs Hf].
  assert (Hin : Forall (λ p, k * 64 ≤ p < k * 64 + 64)%nat (word_pages k w)).
  { apply Forall_forall. intros p Hp. by apply elem_of_word_pages in Hp as [? _]. }
  split.
  - eapply StronglySorted_app_lt; [by apply word_pages_sorted|done|..].
    + eapply Forall_impl; [exact Hin|]. simpl. intros p Hp. exact (proj2 Hp).
    + eapply Forall_impl; [exact Hf|]. simpl. lia.
  - apply Forall_app. split.
    + eapply Forall_impl; [exact Hin|]. simpl. lia.
    + eapply Forall_impl; [exact Hf|]. simpl. lia.
Qed.

Lemma read_obj_frame `{ByteMemoryLaws M} {T} (P : Pod T) (m m' : M) a :
  bm_wf m → bm_wf m' → fits 63 (pod_size P) →
  (∀ b k, bm_mapped m' b k ↔ bm_mapped m b k) →
  (∀ i, a ≤ i < a + pod_size P → bm_byte m' i = bm_byte m i) →
  bm_mapped m a (pod_size P) → read_obj P m' a = read_obj P m a.
Proof. intros. unfold read_obj. f_equal. by apply bm_read_frame. Qed.

(** ** Properties *)

(** C1. [read_slice] refines a flat byte memory: it succeeds exactly on the
    ranges that lie inside one region, returns the bytes at those guest
    addresses, and otherwise reports an error (it never panics). *)
Theorem read_slice_refines_flat m a n :
  mem_wf m → fits 63 n →
  (mem_mapped m a n ∧ read_slice m a n = Ok (mem_byte m <$> seqZ a n)) ∨
  (¬ mem_mapped m a n ∧ ∃ e, read_slice m a n = Err e).
Proof.
  intros. destruct (decide (mem_mapped m a n)).
  - left. split; [done|]. by apply read_slice_mapped.
  - right. split; [done|]. by apply unmapped_err.
Qed.

(** [write_slice] refines the flat memory's update: inside one region it
    succeeds, changes exactly the written bytes, preserves the layout, and
    reading the range back returns the data; otherwise it reports an error. *)
Theorem write_slice_refines_flat m a d :
  mem_wf m → fits 63 (zlen d) →
  (mem_mapped m a (zlen d) ∧ ∃ m', write_slice m a d = Ok m' ∧ mem_wf m' ∧
     iter_regions m' = iter_regions m ∧
     (∀ i, mem_byte m' i = if decide (a ≤ i < a + zlen d)
                           then default x00 (d !! Z.to_nat (i - a)) else mem_byte m i) ∧
     read_slice m' a (zlen d) = Ok d) ∨
  (¬ mem_mapped m a (zlen d) ∧ ∃ e, write_slice m a d = Err e).
Proof.
  intros Hwf Hn. destruct (decide (mem_mapped m a (zlen d))).
  - left. split; [done|].
    destruct (write_slice_mapped m a d) as (i & r & Hi & Hin & Hw); [done..|].
    exists (written m a d i r). split; [done|]. split; [by apply written_wf|].
    split; [|split].
    + unfold iter_regions, written. simpl. rewrite list_fmap_insert.
      apply list_insert_id. by rewrite list_lookup_fmap, Hi.
    + intros. by apply written_byte.
    + exact (bm_write_read m _ a d Hwf Hn Hw).
  - right. split; [done|]. by apply unmapped_err.
Qed.

(** A memory built by [GuestMemoryMmap::new] has exactly the requested
    (base, size) regions, sorted by base address, reads as zeroes, and is well
    formed whenever the requested layout has no overlap. *)
Theorem guest_memory_new_ok {K} (sys : K → Z → bool → (Z + Z) * K) k layout huge m k' :
  GuestMemoryMmap_new sys k layout huge = (Ok m, k') →
  StronglySorted base_le (regions m) ∧ extents (regions m) ≡ₚ layout ∧
  (∀ a, mem_byte m a = x00) ∧ (layout_ok layout → mem_wf m).
Proof.
  unfold GuestMemoryMmap_new. intros Hm.
  destruct (map_anon sys k layout huge) as [[rs| |] k1] eqn:Ha; simplify_eq/=.
  destruct (map_anon_spec _ _ _ _ _ _ Ha) as [<- Hd].
  rewrite <- (sort_by_base_perm rs) in Hd.
  assert (Hp : extents (sort_by_base rs) ≡ₚ extents rs)
    by (unfold extents; by rewrite sort_by_base_perm).
  split_and!; [by apply sort_by_base_sorted|done| |].
  - intros a. unfold mem_byte. repeat case_match; try done. simpl in *.
    rewrite Forall_lookup in Hd. unfold region_byte. by erewrite Hd, lookup_empty by done.
  - intros Hok. apply layout_ok_wf. by eapply layout_ok_perm.
Qed.

(** [dirty_pages] lists, in increasing order and without duplicates,
    exactly the pages whose bit is set in the KVM bitmap. *)
Theorem dirty_pages_spec bitmap :
  Forall (fits 64) bitmap →
  StronglySorted lt (dirty_pages bitmap) ∧
  ∀ p, p ∈ dirty_pages bitmap ↔
    ∃ w, bitmap !! (p / 64)%nat = Some w ∧ Z.testbit w (Z.of_nat (p mod 64)) = true.
Proof.
  unfold dirty_pages.
  intros Hb. split.
  - apply (dirty_sorted 0). done.
  - intros p. rewrite list_elem_of_join. split.
    + intros (l & Hp & (i & w & -> & Hi)%elem_of_lookup_imap).
      rewrite elem_of_word_pages in Hp by (by eapply Forall_lookup_1).
      destruct Hp as [Hp Ht]. exists w.
      assert (p / 64 = i)%nat as -> by (symmetry; apply (Nat.div_unique p 64 i (p - i * 64)); lia).
      split; [done|]. rewrite <- Ht. f_equal.
      rewrite <- (Nat.mod_unique p 64 i (p - i * 64)); lia.
    + intros (w & Hi & Ht). exists (word_pages (p / 64) w). split.
      * rewrite elem_of_word_pages by (by eapply Forall_lookup_1).
        pose proof (Nat.div_mod_eq p 64). pose proof (Nat.mod_upper_bound p 64).
        split; [lia|]. rewrite <- Ht. f_equal. lia.
      * apply elem_of_lookup_imap. eauto.
Qed.

(** ** Witnesses *)

(** Two pages with a hole between them. *)
Definition two_pages : GuestMemoryMmap :=
  let r b := {| guest_base := b; mmap := {| mm_addr := 65536 + b; mm_size := 4096;
                                            mm_hugetlb := false; mm_data := ∅ |} |} in
  {| regions := [r 0; r 8192] |}.

Lemma two_pages_wf : mem_wf two_pages.
Proof.
  apply layout_ok_wf. split.
  - by repeat constructor.
  - intros [|[|i]] [|[|j]] b s b' s' ? ? ?; simplify_eq/=; lia.
Qed.

Lemma read_slice_refines_flat_witness :
  (mem_mapped two_pages 8200 4 ∧
   read_slice two_pages 8200 4 = Ok (mem_byte two_pages <$> seqZ 8200 4)) ∨
  (¬ mem_mapped two_pages 8200 4 ∧ ∃ e, read_slice two_pages 8200 4 = Err e).
Proof.
  apply (read_slice_refines_flat two_pages 8200 4 two_pages_wf).
  unfold fits. lia.
Defined.

Lemma write_slice_refines_flat_witness :
  let d := le_enc 4 3735928559 in
  (mem_mapped two_pages 4000 (zlen d) ∧ ∃ m', write_slice two_pages 4000 d = Ok m' ∧
     mem_wf m' ∧ iter_regions m' = iter_regions two_pages ∧
     (∀ i, mem_byte m' i = if decide (4000 ≤ i < 4000 + zlen d)
        then default x00 (d !! Z.to_nat (i - 4000)) else mem_byte two_pages i) ∧
     read_slice m' 4000 (zlen d) = Ok d) ∨
  (¬ mem_mapped two_pages 4000 (zlen d) ∧ ∃ e, write_slice two_pages 4000 d = Err e).
Proof.
  intros d. apply (write_slice_refines_flat two_pages 4000 d two_pages_wf).
  vm_compute. split; [intros [=]|reflexivity].
Defined.

(** A kernel that hands out increasing addresses and has no huge pages. *)
Definition demo_mmap (next : Z) (sz : Z) (huge : bool) : (Z + Z) * Z :=
  if huge then (inl 12, next) else (inr next, next + sz).

Definition demo_layout : list (Z * Z) := [(8192, 4096); (0, 4096)].

Lemma guest_memory_new_ok_witness :
  ∃ m, GuestMemoryMmap_new demo_mmap 65536 demo_layout true = (Ok m, 73728) ∧
  StronglySorted base_le (regions m) ∧ extents (regions m) ≡ₚ demo_layout ∧
  (∀ a, mem_byte m a = x00) ∧ (layout_ok demo_layout → mem_wf m).
Proof.
  eexists. split; [reflexivity|].
  apply (guest_memory_new_ok demo_mmap 65536 demo_layout true _ 73728). reflexivity.
Defined.

Lemma dirty_pages_spec_witness :
  let b := [0; 5] in
  StronglySorted lt (dirty_pages b) ∧
  ∀ p, p ∈ dirty_pages b ↔
    ∃ w, b !! (p / 64)%nat = Some w ∧ Z.testbit w (Z.of_nat (p mod 64)) = true.
Proof. apply dirty_pages_spec. repeat constructor; vm_compute; done. Defined.
