(* ===== verification/Virtqueue.v ===== *)
(** * Split virtqueues (crates/nova-virtio/src/queue.rs, error.rs)

    The device side of a virtqueue over any [ByteMemory].  [avail_fifo] and
    [used_slot] are the abstract views of the two rings; the theorems show
    that [pop] dequeues the available FIFO, that a popped chain is exactly the
    chain in the descriptor table, and what [add_used] publishes. *)

From S2P Require Import Prelude GuestMem.

Inductive VirtioError : Type :=
| InvalidChain (msg : string)
| QueueNotReady
| Memory (e : MemError)
| IoError (errno : Z)
| ActivationError (msg : string)
| InvalidMmioAccess (offset size : Z).

Definition MAX_QUEUE_SIZE : Z := 1024.

Record VirtqDesc : Type := {
  desc_addr : Z;   (* u64 *)
  desc_len : Z;    (* u32 *)
  desc_flags : Z;  (* u16 *)
  desc_next : Z;   (* u16 *)
}.

Definition VIRTQ_DESC_F_NEXT : Z := 1.
Definition VIRTQ_DESC_F_WRITE : Z := 2.
Definition VIRTQ_DESC_F_INDIRECT : Z := 4.

Definition pod_desc : Pod VirtqDesc :=
  {| pod_size := 16;
     pod_enc d := le_enc 8 (desc_addr d) ++ le_enc 4 (desc_len d) ++
                  le_enc 2 (desc_flags d) ++ le_enc 2 (desc_next d);
     pod_dec bs := {| desc_addr := le_dec (sub_list 0 8 bs);
                      desc_len := le_dec (sub_list 8 4 bs);
                      desc_flags := le_dec (sub_list 12 2 bs);
                      desc_next := le_dec (sub_list 14 2 bs) |} |}.

Record VirtqUsedElem : Type := { used_id : Z; used_len : Z }.

Definition pod_used_elem : Pod VirtqUsedElem :=
  {| pod_size := 8;
     pod_enc e := le_enc 4 (used_id e) ++ le_enc 4 (used_len e);
     pod_dec bs := {| used_id := le_dec (sub_list 0 4 bs);
                      used_len := le_dec (sub_list 4 4 bs) |} |}.

Record DescriptorChain : Type := {
  head_index : Z;
  descriptors : list VirtqDesc;
}.

Definition has_flag (d : VirtqDesc) (f : Z) : bool := negb (Z.land (desc_flags d) f =? 0).

Definition readable (c : DescriptorChain) : list VirtqDesc :=
  filter (λ d, has_flag d VIRTQ_DESC_F_WRITE = false) (descriptors c).
Definition writable (c : DescriptorChain) : list VirtqDesc :=
  filter (λ d, has_flag d VIRTQ_DESC_F_WRITE = true) (descriptors c).

Record Queue : Type := {
  max_size : Z;
  q_size : Z;
  ready : bool;
  desc_table : Z;
  avail_ring : Z;
  used_ring : Z;
  next_avail : Z;
  next_used : Z;
}.

Definition Queue_new (max_sz : Z) : Queue :=
  {| max_size := max_sz; q_size := max_sz; ready := false; desc_table := 0;
     avail_ring := 0; used_ring := 0; next_avail := 0; next_used := 0 |}.

Definition Queue_from_saved (max_sz sz : Z) (rdy : bool) (dt ar ur na nu : Z) : Queue :=
  {| max_size := max_sz; q_size := sz; ready := rdy; desc_table := dt;
     avail_ring := ar; used_ring := ur; next_avail := na; next_used := nu |}.

Definition set_next_avail (q : Queue) (v : Z) : Queue :=
  {| max_size := max_size q; q_size := q_size q; ready := ready q;
     desc_table := desc_table q; avail_ring := avail_ring q; used_ring := used_ring q;
     next_avail := v; next_used := next_used q |}.
Definition set_next_used (q : Queue) (v : Z) : Queue :=
  {| max_size := max_size q; q_size := q_size q; ready := ready q;
     desc_table := desc_table q; avail_ring := avail_ring q; used_ring := used_ring q;
     next_avail := next_avail q; next_used := v |}.

(** [a % b] on [u16]: a zero divisor panics, also in release builds. *)
Definition rem_checked {E} (a b : Z) : outcome E Z :=
  if b =? 0 then Panic PanicDivZero else Ok (a mod b).

Section Ops.
Context `{ByteMemory M}.

(** [mem.read_obj(..)?] under [VirtioError: From<MemError>]. *)
Definition vread {T} (P : Pod T) (m : M) (a : Z) : outcome VirtioError T :=
  map_err Memory (read_obj P m a).

Definition read_desc (q : Queue) (m : M) (idx : Z) : outcome VirtioError VirtqDesc :=
  vread pod_desc m (desc_table q ⊞ idx * 16).

(** The walk of [pop]; [n] is [size - seen]. *)
Fixpoint walk_chain (n : nat) (q : Queue) (m : M) (idx : Z)
    : outcome VirtioError (list VirtqDesc) :=
  match n with
  | O => Err (InvalidChain "descriptor chain too long")
  | S n =>
      d ← read_desc q m idx;
      if has_flag d VIRTQ_DESC_F_NEXT
      then ds ← walk_chain n q m (desc_next d); Ok (d :: ds)
      else Ok [d]
  end.

Definition pop_chain (q : Queue) (m : M) : outcome VirtioError (option DescriptorChain) :=
  if negb (ready q) then Err QueueNotReady else
  avail_idx ← vread pod_u16 m (avail_ring q ⊞ 2);
  if next_avail q =? avail_idx then Ok None else
  slot ← rem_checked (next_avail q) (q_size q);
  desc_idx ← vread pod_u16 m (avail_ring q ⊞ (4 + slot * 2));
  ds ← walk_chain (Z.to_nat (q_size q)) q m desc_idx;
  Ok (Some {| head_index := desc_idx; descriptors := ds |}).

(** [pop]: [next_avail] moves only on the path that returns a chain. *)
Definition pop (q : Queue) (m : M) : outcome VirtioError (option DescriptorChain) * Queue :=
  match pop_chain q m with
  | Ok (Some c) => (Ok (Some c), set_next_avail q (wrap16 (next_avail q + 1)))
  | r => (r, q)
  end.

(** [add_used]: the element, then the index; the queue's cached index has
    already moved when the second write fails. *)
Definition add_used (q : Queue) (m : M) (head len : Z)
    : outcome VirtioError unit * (Queue * M) :=
  match rem_checked (E:=VirtioError) (next_used q) (q_size q) with
  | Ok slot =>
      match write_obj pod_used_elem m (used_ring q ⊞ (4 + slot * 8))
              {| used_id := head; used_len := len |} with
      | Ok m1 =>
          let q1 := set_next_used q (wrap16 (next_used q + 1)) in
          match write_obj pod_u16 m1 (used_ring q ⊞ 2) (next_used q1) with
          | Ok m2 => (Ok tt, (q1, m2))
          | Err e => (Err (Memory e), (q1, m1))
          | Panic p => (Panic p, (q1, m1))
          end
      | Err e => (Err (Memory e), (q, m))
      | Panic p => (Panic p, (q, m))
      end
  | Err e => (Err e, (q, m))
  | Panic p => (Panic p, (q, m))
  end.

Definition needs_notification (q : Queue) (m : M) : outcome VirtioError bool :=
  flags ← vread pod_u16 m (avail_ring q);
  Ok (Z.land flags 1 =? 0).

Definition has_pending (q : Queue) (m : M) : outcome VirtioError bool :=
  avail_idx ← vread pod_u16 m (avail_ring q ⊞ 2);
  Ok (negb (next_avail q =? avail_idx)).

(** ** Abstract views *)

(** The chain the descriptor table holds from [idx]. *)
Inductive chain_at (q : Queue) (m : M) : Z → list VirtqDesc → Prop :=
| chain_last idx d :
    read_desc q m idx = Ok d → has_flag d VIRTQ_DESC_F_NEXT = false →
    chain_at q m idx [d]
| chain_next idx d ds :
    read_desc q m idx = Ok d → has_flag d VIRTQ_DESC_F_NEXT = true →
    chain_at q m (desc_next d) ds → chain_at q m idx (d :: ds).

(** [n] consecutive descriptors from [idx] that all have a successor. *)
Fixpoint runs_on (n : nat) (q : Queue) (m : M) (idx : Z) : Prop :=
  match n with
  | O => True
  | S n => ∃ d, read_desc q m idx = Ok d ∧ has_flag d VIRTQ_DESC_F_NEXT = true ∧
                runs_on n q m (desc_next d)
  end.

(** The [i]-th ring entry, by free-running index. *)
Definition avail_slot (q : Queue) (m : M) (i : Z) : outcome VirtioError Z :=
  vread pod_u16 m (avail_ring q ⊞ (4 + wrap16 i mod q_size q * 2)).

Definition used_slot (q : Queue) (m : M) (i : Z) : outcome MemError VirtqUsedElem :=
  read_obj pod_used_elem m (used_ring q ⊞ (4 + wrap16 i mod q_size q * 8)).

(** Heads the guest has published and the device has not taken, oldest first. *)
Definition pending (q : Queue) (avail_idx : Z) : Z := wrap16 (avail_idx - next_avail q).

Definition avail_fifo (q : Queue) (m : M) : outcome VirtioError (list (outcome VirtioError Z)) :=
  avail_idx ← vread pod_u16 m (avail_ring q ⊞ 2);
  Ok (avail_slot q m <$> seqZ (next_avail q) (pending q avail_idx)).

(** Publishing a list of (head, len) completions. *)
Fixpoint add_used_all (q : Queue) (m : M) (l : list (Z * Z))
    : outcome VirtioError unit * (Queue * M) :=
  match l with
  | [] => (Ok tt, (q, m))
  | (h, n) :: l =>
      match add_used q m h n with
      | (Ok tt, (q, m)) => add_used_all q m l
      | r => r
      end
  end.

End Ops.

(** The queue's fields are in range, as their Rust types require. *)
Record queue_wf (q : Queue) : Prop := {
  qwf_size : fits 16 (q_size q);
  qwf_desc : fits 64 (desc_table q);
  qwf_avail : fits 64 (avail_ring q);
  qwf_used : fits 64 (used_ring q);
  qwf_next_avail : fits 16 (next_avail q);
  qwf_next_used : fits 16 (next_used q);
}.

(** The layout the spec asks of a driver's used ring. *)
Definition used_ring_mapped `{ByteMemoryLaws M} (q : Queue) (m : M) : Prop :=
  bm_mapped m (used_ring q) (4 + q_size q * 8).

#[export] Instance pod_desc_ok : PodOk pod_desc (λ d,
  fits 64 (desc_addr d) ∧ fits 32 (desc_len d) ∧ fits 16 (desc_flags d) ∧ fits 16 (desc_next d)).
Proof.
  split; simpl.
  - lia.
  - intros. by autorewrite with zlen.
  - intros [a l f n] (? & ? & ? & ?); simpl in *. f_equal; by pod_field.
  - intros bs Hbs. split_and!; eapply le_dec_sub_fits; lia.
Qed.

#[export] Instance pod_used_elem_ok : PodOk pod_used_elem (λ e,
  fits 32 (used_id e) ∧ fits 32 (used_len e)).
Proof.
  split; simpl.
  - lia.
  - intros. by autorewrite with zlen.
  - intros [a l] (? & ?); simpl in *. f_equal; by pod_field.
  - intros bs Hbs. split_and!; eapply le_dec_sub_fits; lia.
Qed.

(** ** Walking a chain *)

Section Walk.
Context `{ByteMemory M}.
Implicit Types (q : Queue) (m : M).

Lemma walk_chain_ok n q m idx ds :
  walk_chain n q m idx = Ok ds ↔ chain_at q m idx ds ∧ (length ds ≤ n)%nat.
Proof.
  split.
  - revert idx ds. induction n as [|n IH]; intros idx ds; simpl; [done|].
    destruct (read_desc q m idx) as [d| |] eqn:Hd; simpl; [|done..].
    destruct (has_flag d VIRTQ_DESC_F_NEXT) eqn:Hf.
    + destruct (walk_chain n q m (desc_next d)) as [ds'| |] eqn:Hw; simpl; intros; simplify_eq.
      destruct (IH _ _ Hw). split; [by eapply chain_next|simpl; lia].
    + intros; simplify_eq. split; [by apply chain_last|simpl; lia].
  - intros [Hc Hn]. revert n Hn. induction Hc as [idx d Hd Hf|idx d ds Hd Hf Hc IH];
      intros [|n] Hn; simpl in *; try lia; rewrite Hd; simpl; rewrite Hf; [done|].
    by rewrite IH by lia.
Qed.

Lemma walk_chain_too_long n q m idx s :
  walk_chain n q m idx = Err (InvalidChain s) → runs_on n q m idx.
Proof.
  revert idx. induction n as [|n IH]; intros idx; simpl; [done|].
  unfold read_desc, vread.
  destruct (read_obj pod_desc m _) as [d| |] eqn:Hd; simpl; [|done..].
  destruct (has_flag d VIRTQ_DESC_F_NEXT) eqn:Hf; [|done].
  destruct (walk_chain n q m (desc_next d)) eqn:Hw; simpl; intros; simplify_eq.
  exists d. eauto.
Qed.

Lemma runs_on_walk n q m idx :
  runs_on n q m idx → walk_chain n q m idx = Err (InvalidChain "descriptor chain too long").
Proof.
  revert idx. induction n as [|n IH]; intros idx; simpl; [done|].
  intros (d & -> & Hf & Hr). simpl. by rewrite Hf, IH.
Qed.

Lemma chain_at_det q m idx ds ds' : chain_at q m idx ds → chain_at q m idx ds' → ds = ds'.
Proof.
  intros Hc. revert ds'. induction Hc as [idx d Hd Hf|idx d ds Hd Hf Hc IH]; intros ds';
    inversion_clear 1 as [? d' Hd'|? d' ds'' Hd']; rewrite Hd in Hd'; simplify_eq; try congruence.
  f_equal. by apply IH.
Qed.

Lemma pop_chain_not_panic `{!ByteMemoryLaws M} q m :
  bm_wf m → q_size q ≠ 0 → ∀ p, pop_chain q m ≠ Panic p.
Proof.
  intros Hwf Hs p. unfold pop_chain, rem_checked, read_desc, vread.
  destruct (negb _); [done|].
  destruct (read_obj pod_u16 m _) as [i| |p'] eqn:Hr; simpl; [|done|].
  2:{ apply (read_obj_not_panic pod_u16) in Hr; done. }
  case_match; [done|]. case_match; to_prop; [done|]. simpl.
  destruct (read_obj pod_u16 m (_ ⊞ (4 + _))) as [h| |p'] eqn:Hr'; simpl; [|done|].
  2:{ apply (read_obj_not_panic pod_u16) in Hr'; done. }
  assert (Hw : ∀ n idx p, walk_chain n q m idx ≠ Panic p).
  { induction n as [|n IH]; intros idx p'; simpl; [done|]. unfold read_desc, vread.
    destruct (read_obj pod_desc m _) as [d| |p''] eqn:Hd; simpl; [|done|].
    2:{ apply (read_obj_not_panic pod_desc) in Hd; done. }
    case_match; [|done]. specialize (IH (desc_next d)).
    destruct (walk_chain n q m _) as [| |r]; simpl; [done|done|by destruct (IH r)]. }
  specialize (Hw (Z.to_nat (q_size q)) h).
  destruct (walk_chain _ q m h) as [| |r]; simpl; [done|done|by destruct (Hw r)].
Qed.

End Walk.

(** ** Popping *)

Lemma pop_chain_some `{ByteMemory M} q (m : M) c :
  pop_chain q m = Ok (Some c) →
  ∃ i, vread pod_u16 m (avail_ring q ⊞ 2) = Ok i ∧ next_avail q ≠ i ∧ q_size q ≠ 0 ∧
    ready q = true ∧
    vread pod_u16 m (avail_ring q ⊞ (4 + next_avail q mod q_size q * 2)) = Ok (head_index c) ∧
    chain_at q m (head_index c) (descriptors c) ∧
    (length (descriptors c) ≤ Z.to_nat (q_size q))%nat.
Proof.
  unfold pop_chain, rem_checked. intros Hp.
  destruct (ready q) eqn:Hrdy; simpl in Hp; [|done].
  destruct (vread pod_u16 m (avail_ring q ⊞ 2)) as [i| |]; simpl in Hp; [|done..].
  exists i. destruct (next_avail q =? i) eqn:Hi; [done|].
  destruct (q_size q =? 0) eqn:Hz; simpl in Hp; [done|]. to_prop.
  destruct (vread pod_u16 m _) as [h| |]; simpl in Hp; [|done..].
  destruct (walk_chain _ _ _ _) as [ds| |] eqn:Hw; simpl in Hp; simplify_eq/=.
  apply walk_chain_ok in Hw as [? ?]. split_and!; try done.
Qed.

Lemma pop_chain_some_intro `{ByteMemory M} q (m : M) i c :
  vread pod_u16 m (avail_ring q ⊞ 2) = Ok i → next_avail q ≠ i → q_size q ≠ 0 →
  ready q = true →
  vread pod_u16 m (avail_ring q ⊞ (4 + next_avail q mod q_size q * 2)) = Ok (head_index c) →
  chain_at q m (head_index c) (descriptors c) →
  (length (descriptors c) ≤ Z.to_nat (q_size q))%nat →
  pop_chain q m = Ok (Some c).
Proof.
  intros Hi Hne Hz Hr Hh Hc Hl. unfold pop_chain, rem_checked. rewrite Hr, Hi. simpl.
  rewrite (proj2 (Z.eqb_neq _ _) Hne), (proj2 (Z.eqb_neq _ _) Hz). simpl.
  rewrite Hh. simpl. rewrite (proj2 (walk_chain_ok _ _ _ _ _) (conj Hc Hl)). by destruct c.
Qed.

Lemma avail_slot_next `{ByteMemory M} q (m : M) :
  fits 16 (next_avail q) →
  avail_slot q m (next_avail q) =
    vread pod_u16 m (avail_ring q ⊞ (4 + next_avail q mod q_size q * 2)).
Proof. intros. unfold avail_slot. by rewrite wrap_small. Qed.

(** ** Publishing *)

Section Publish.
Context `{ByteMemoryLaws M}.
Implicit Types (q : Queue) (m : M).

Lemma slot_range q i : 0 < q_size q → 0 ≤ wrap16 i mod q_size q < q_size q.
Proof. intros. by apply Z.mod_pos_bound. Qed.

Lemma used_slot_addr q m i :
  bm_wf m → 0 < q_size q → used_ring_mapped q m →
  let s := wrap16 i mod q_size q in
  used_ring q ⊞ (4 + s * 8) = used_ring q + (4 + s * 8) ∧
  bm_mapped m (used_ring q + (4 + s * 8)) 8.
Proof.
  intros Hwf Hs Hm s. assert (0 ≤ s < q_size q) by (by apply slot_range).
  pose proof (bm_mapped_range _ _ _ Hwf Hm).
  split.
  - apply add64_small. unfold fits. lia.
  - eapply bm_mapped_sub; [exact Hm|lia..].
Qed.

Lemma used_idx_addr q m :
  bm_wf m → 0 < q_size q → used_ring_mapped q m →
  used_ring q ⊞ 2 = used_ring q + 2 ∧ bm_mapped m (used_ring q + 2) 2.
Proof.
  intros Hwf Hs Hm. pose proof (bm_mapped_range _ _ _ Hwf Hm). split.
  - apply add64_small. unfold fits. lia.
  - eapply bm_mapped_sub; [exact Hm|lia..].
Qed.

(** Bytes [add_used] may change: the element's slot and the index. *)
Definition used_footprint (q : Queue) (a : Z) : Prop :=
  let e := used_ring q + (4 + wrap16 (next_used q) mod q_size q * 8) in
  e ≤ a < e + 8 ∨ used_ring q + 2 ≤ a < used_ring q + 4.

Lemma add_used_ok q m head len :
  bm_wf m → queue_wf q → 0 < q_size q → used_ring_mapped q m →
  ∃ m', add_used q m head len = (Ok tt, (set_next_used q (wrap16 (next_used q + 1)), m')) ∧
    bm_wf m' ∧ (∀ b k, bm_mapped m' b k ↔ bm_mapped m b k) ∧
    (∀ a, ¬ used_footprint q a → bm_byte m' a = bm_byte m a) ∧
    (fits 32 head → fits 32 len →
     used_slot q m' (next_used q) = Ok {| used_id := head; used_len := len |}) ∧
    read_obj pod_u16 m' (used_ring q ⊞ 2) = Ok (wrap16 (next_used q + 1)).
Proof.
  intros Hwf Hq Hs Hm. pose proof (slot_range q (next_used q) Hs) as Hsl.
  destruct (used_slot_addr q m (next_used q) Hwf Hs Hm) as [Ha Hma].
  destruct (used_idx_addr q m Hwf Hs Hm) as [Hi Hmi].
  rewrite (wrap_small 16 (next_used q)) in Ha, Hma, Hsl by apply Hq.
  set (e := {| used_id := head; used_len := len |}).
  destruct (write_obj_ok pod_used_elem) with (m:=m) (x:=e) (a:=used_ring q + (4 + next_used q mod q_size q * 8))
    as (m1 & Hw1 & Hwf1 & Hmap1 & Hf1 & Hsame1); [done..|].
  destruct (write_obj_ok pod_u16) with (m:=m1) (a:=used_ring q + 2) (x:=wrap16 (next_used q + 1))
    as (m2 & Hw2 & Hwf2 & Hmap2 & Hf2 & Hsame2); [done|done|by apply Hmap1|].
  exists m2. split_and!.
  - unfold add_used, rem_checked. rewrite (proj2 (Z.eqb_neq _ _)) by lia.
    fold e. rewrite Ha, Hw1. simpl. by rewrite Hi, Hw2.
  - done.
  - intros b k. by rewrite Hmap2, Hmap1.
  - intros a Hn. unfold used_footprint in Hn. rewrite wrap_small in Hn by apply Hq.
    simpl in *. rewrite Hf2 by lia. apply Hf1. lia.
  - intros Hh Hl. unfold used_slot. rewrite wrap_small, Ha by apply Hq.
    rewrite (read_obj_frame _ m1 m2) by
      (done || (by apply Hmap1) || intros; apply Hf2; simpl in *; lia).
    rewrite read_obj_ok by (done || by apply Hmap1). rewrite Hsame1. f_equal.
    by apply (@pod_dec_enc _ _ _ pod_used_elem_ok).
  - rewrite Hi, read_obj_ok by (done || by apply Hmap2, Hmap1). rewrite Hsame2. f_equal.
    apply (@pod_dec_enc _ _ _ pod_u16_ok). by apply wrap_fits.
Qed.

(** A completion leaves the ring's other slots alone. *)
Lemma used_slot_frame q m m' j :
  bm_wf m → bm_wf m' → 0 < q_size q → used_ring_mapped q m →
  (∀ b k, bm_mapped m' b k ↔ bm_mapped m b k) →
  (∀ a, ¬ used_footprint q a → bm_byte m' a = bm_byte m a) →
  wrap16 (next_used q) mod q_size q ≠ wrap16 j mod q_size q →
  used_slot q m' j = used_slot q m j.
Proof.
  intros Hwf Hwf' Hs Hm Hmap Hb Hj. unfold used_slot.
  destruct (used_slot_addr q m j Hwf Hs Hm) as [-> Hmj].
  pose proof (slot_range q j Hs). pose proof (slot_range q (next_used q) Hs).
  apply read_obj_frame; try done. intros a Ha. apply Hb. unfold used_footprint.
  simpl in *. lia.
Qed.

Lemma used_slot_set q m j v : used_slot (set_next_used q v) m j = used_slot q m j.
Proof. done. Qed.

Lemma wrap_slot s a : 0 < s → (s | 2 ^ 16) → wrap16 a mod s = a mod s.
Proof. intros. unfold wrap. by apply Z.mod_mod_divide. Qed.

Lemma slots_differ s a d : 0 < d < s → (a + d) mod s ≠ a mod s.
Proof.
  intros Hd Heq. pose proof (Z.div_mod (a + d) s). pose proof (Z.div_mod a s).
  assert (d = s * ((a + d) / s - a / s)) by lia.
  generalize dependent ((a + d) / s - a / s). intros k. intros.
  assert (k ≤ 0 ∨ 1 ≤ k) as [|] by lia; nia.
Qed.

Lemma add_used_all_ok q m l :
  bm_wf m → queue_wf q → 0 < q_size q → (q_size q | 2 ^ 16) → used_ring_mapped q m →
  zlen l ≤ q_size q → Forall (λ '(h, n), fits 32 h ∧ fits 32 n) l →
  ∃ m', add_used_all q m l =
      (Ok tt, (set_next_used q (wrap16 (next_used q + zlen l)), m')) ∧
    bm_wf m' ∧ (∀ b k, bm_mapped m' b k ↔ bm_mapped m b k) ∧
    (∀ j, (∀ k, 0 ≤ k < zlen l → (next_used q + k) mod q_size q ≠ j mod q_size q) →
       used_slot q m' j = used_slot q m j) ∧
    (∀ i h n, l !! i = Some (h, n) →
       used_slot q m' (next_used q + Z.of_nat i) = Ok {| used_id := h; used_len := n |}) ∧
    (l ≠ [] ∨ read_obj pod_u16 m (used_ring q ⊞ 2) = Ok (next_used q) →
     read_obj pod_u16 m' (used_ring q ⊞ 2) = Ok (wrap16 (next_used q + zlen l))).
Proof.
  intros Hwf Hq Hs Hdiv Hm Hl Hfit. revert q m Hwf Hq Hs Hdiv Hm Hl.
  induction l as [|[h n] l IH]; intros q m Hwf Hq Hs Hdiv Hm Hl; simpl.
  { exists m. rewrite zlen_nil, Z.add_0_r, wrap_small by apply Hq.
    split_and!; try done; [by destruct q|by intros [|]]. }
  apply Forall_cons in Hfit as [[Hh Hn] Hfit]. rewrite zlen_cons in *.
  pose proof (zlen_nonneg l).
  destruct (add_used_ok q m h n) as (m1 & -> & Hwf1 & Hmap1 & Hb1 & Hslot & Hidx); [done..|].
  set (q1 := set_next_used q (wrap16 (next_used q + 1))).
  destruct (IH Hfit q1 m1) as (m' & -> & Hwf' & Hmap' & Hframe & Hslots & Hidx');
    try (done || simpl; lia).
  { destruct Hq. by split; [done..|apply wrap_fits]. }
  { by apply Hmap1. }
  assert (Hnext : ∀ k, wrap16 (wrap16 (next_used q + 1) + k) = wrap16 (next_used q + (1 + k))).
  { intros k. rewrite wrap_idemp_add_l. f_equal. lia. }
  assert (Hmod : ∀ k, (wrap16 (next_used q + 1) + k) mod q_size q = (next_used q + (1 + k)) mod q_size q).
  { intros k. rewrite <- (wrap_slot _ (wrap16 _ + k)), Hnext by done. by apply wrap_slot. }
  exists m'. split_and!; try done.
  - unfold q1, set_next_used. simpl. by rewrite Hnext.
  - intros b k. by rewrite Hmap', Hmap1.
  - intros j Hj. change (used_slot q1 m' j = used_slot q m j). rewrite Hframe.
    + apply (used_slot_frame q m m1); try done. rewrite !wrap_slot by done.
      specialize (Hj 0). rewrite Z.add_0_r in Hj. apply Hj. lia.
    + intros k Hk. simpl. rewrite Hmod. apply Hj. lia.
  - intros [|i] h' n' Hi; simplify_eq/=.
    + rewrite Z.add_0_r, <- Hslot by done. apply (Hframe (next_used q)).
      intros k Hk. simpl. rewrite Hmod. apply slots_differ. lia.
    + rewrite <- (Hslots _ _ _ Hi). unfold used_slot. simpl. do 4 f_equal. rewrite !wrap_slot by done.
      rewrite Hmod. f_equal. lia.
  - intros _. change (used_ring q) with (used_ring q1). rewrite Hidx' by (right; exact Hidx).
    f_equal. unfold q1. simpl. by rewrite Hnext.
Qed.

End Publish.

(** ** Properties *)

(** C2. [pop] returns a chain exactly when the queue is ready, the driver's
    index has moved, and the descriptor table holds a chain of at most [size]
    descriptors from the head in the next ring slot; it returns that chain,
    and advances [next_avail] by one (modulo 2^16).  On every other path, the
    errors included, the queue is unchanged. *)
Theorem pop_sound_complete `{ByteMemory M} q (m : M) c q' :
  q_size q ≠ 0 →
  (pop q m = (Ok (Some c), q') ↔
   ready q = true ∧ q' = set_next_avail q (wrap16 (next_avail q + 1)) ∧
   (∃ i, vread pod_u16 m (avail_ring q ⊞ 2) = Ok i ∧ next_avail q ≠ i) ∧
   vread pod_u16 m (avail_ring q ⊞ (4 + next_avail q mod q_size q * 2)) = Ok (head_index c) ∧
   chain_at q m (head_index c) (descriptors c) ∧
   (length (descriptors c) ≤ Z.to_nat (q_size q))%nat) ∧
  ((∀ c', (pop q m).1 ≠ Ok (Some c')) → (pop q m).2 = q).
Proof.
  intros Hz. unfold pop. split; [split|].
  - intros Hp. destruct (pop_chain q m) as [[c'|]| |] eqn:Hc; simplify_eq.
    apply pop_chain_some in Hc as (i & ? & ? & ? & ? & ? & ? & ?). eauto 10.
  - intros (Hr & -> & (i & Hi & Hne) & Hh & Hc & Hl).
    by rewrite (pop_chain_some_intro q m i c).
  - intros Hno. destruct (pop_chain q m) as [[c'|]| |] eqn:Hc; try done.
    simpl in Hno. by destruct (Hno c').
Qed.

(** On a well-formed memory and a queue of non-zero size, [pop] never
    panics, and it reports a chain that is too long exactly when following
    the NEXT flags visits [size] descriptors without reaching a last one (so
    a cyclic chain is rejected and the walk terminates). *)
Theorem pop_rejects_long_chains `{ByteMemoryLaws M} q (m : M) i h :
  bm_wf m → q_size q ≠ 0 → ready q = true →
  vread pod_u16 m (avail_ring q ⊞ 2) = Ok i → next_avail q ≠ i →
  vread pod_u16 m (avail_ring q ⊞ (4 + next_avail q mod q_size q * 2)) = Ok h →
  (∀ p, (pop q m).1 ≠ Panic p) ∧
  ((∃ s, (pop q m).1 = Err (InvalidChain s)) ↔ runs_on (Z.to_nat (q_size q)) q m h).
Proof.
  intros Hwf Hz Hr Hi Hne Hh. split.
  - intros p. pose proof (pop_chain_not_panic q m Hwf Hz p). unfold pop.
    by destruct (pop_chain q m) as [[|]| |].
  - assert (Hp : (∃ s, (pop q m).1 = Err (InvalidChain s)) ↔
                 ∃ s, walk_chain (Z.to_nat (q_size q)) q m h = Err (InvalidChain s)).
    { unfold pop, pop_chain, rem_checked. rewrite Hr, Hi. simpl.
      rewrite (proj2 (Z.eqb_neq _ _) Hne), (proj2 (Z.eqb_neq _ _) Hz). simpl.
      rewrite Hh. simpl. destruct (walk_chain _ q m h); simpl;
        split; intros [s Hs]; simplify_eq; eauto. }
    rewrite Hp. split.
    + intros [s Hs]. by eapply walk_chain_too_long.
    + intros Hl. rewrite (runs_on_walk _ _ _ _ Hl). eauto.
Qed.

(** [pop] implements a FIFO: when the driver's index and the ring are
    readable, it returns [None] exactly on an empty FIFO, and a successful
    [pop] takes the oldest entry and leaves the rest, across the wrap-around
    of the 16-bit indices. *)
Theorem pop_refines_fifo `{ByteMemory M} q (m : M) fifo :
  fits 16 (next_avail q) → q_size q ≠ 0 → ready q = true →
  (∀ i, vread pod_u16 m (avail_ring q ⊞ 2) = Ok i → fits 16 i) →
  avail_fifo q m = Ok fifo →
  match pop q m with
  | (Ok None, q') => fifo = [] ∧ q' = q
  | (Ok (Some c), q') => ∃ rest, fifo = Ok (head_index c) :: rest ∧ avail_fifo q' m = Ok rest
  | (_, q') => fifo ≠ [] ∧ q' = q
  end.
Proof.
  intros Hn Hz Hr Hfits Hf. unfold avail_fifo in Hf.
  destruct (vread pod_u16 m (avail_ring q ⊞ 2)) as [i| |] eqn:Hi; simplify_eq/=.
  specialize (Hfits i eq_refl).
  unfold pop, pop_chain, rem_checked. rewrite Hr, Hi. simpl.
  destruct (next_avail q =? i) eqn:Hne; to_prop.
  { subst i. unfold pending. by rewrite Z.sub_diag, seqZ_nil by done. }
  assert (Hpos : 0 < pending q i) by (unfold pending; width_lia).
  rewrite (proj2 (Z.eqb_neq _ _) Hz). simpl.
  rewrite seqZ_cons, fmap_cons, avail_slot_next by done.
  destruct (vread pod_u16 m (_ ⊞ (4 + _))) as [h| |]; simpl; [|done..].
  destruct (walk_chain _ q m h) as [ds| |]; simpl; [|done..].
  eexists. split; [done|]. unfold avail_fifo. simpl. rewrite Hi. simpl. f_equal.
  replace (pending _ i) with (Z.pred (pending q i)) by (unfold pending; simpl; width_lia).
  apply fmap_seqZ_ext. intros j _. unfold avail_slot. simpl.
  by rewrite wrap_idemp_add_l.
Qed.

(** C3. Publishing a batch of at most [size] completions on a mapped used
    ring whose size divides 2^16: every completion is readable in its own
    slot (none overwrites another, across the index wrap-around), and the
    ring's index has advanced by the number of completions. *)
Theorem add_used_publishes `{ByteMemoryLaws M} q (m : M) l :
  bm_wf m → queue_wf q → 0 < q_size q → (q_size q | 2 ^ 16) → used_ring_mapped q m →
  l ≠ [] → zlen l ≤ q_size q → Forall (λ '(h, n), fits 32 h ∧ fits 32 n) l →
  ∃ m', add_used_all q m l =
      (Ok tt, (set_next_used q (wrap16 (next_used q + zlen l)), m')) ∧
    (∀ i h n, l !! i = Some (h, n) →
       used_slot q m' (next_used q + Z.of_nat i) = Ok {| used_id := h; used_len := n |}) ∧
    read_obj pod_u16 m' (used_ring q ⊞ 2) = Ok (wrap16 (next_used q + zlen l)).
Proof.
  intros. edestruct (add_used_all_ok q m l) as (m' & ? & ? & ? & ? & ? & Hi); [done..|].
  exists m'. eauto.
Qed.

(** A driver that sets the queue size to zero makes the next [pop] of a
    non-empty queue divide by zero, whatever the memory holds. *)
Theorem pop_zero_size_panics `{ByteMemory M} q (m : M) i :
  q_size q = 0 → ready q = true →
  vread pod_u16 m (avail_ring q ⊞ 2) = Ok i → next_avail q ≠ i →
  pop q m = (Panic PanicDivZero, q).
Proof.
  intros Hz Hr Hi Hne. unfold pop, pop_chain, rem_checked. rewrite Hr, Hi. simpl.
  by rewrite (proj2 (Z.eqb_neq _ _) Hne), Hz.
Qed.

(** ** Witnesses *)

(** A 64 KiB guest with a queue of four descriptors: descriptor 2 chains to
    descriptor 0; one head is available, at the index wrap-around. *)
Definition demo_queue (sz : Z) : Queue :=
  {| max_size := 256; q_size := sz; ready := true; desc_table := 4096;
     avail_ring := 8192; used_ring := 12288; next_avail := 65535; next_used := 65534 |}.

Definition demo_desc (a l f n : Z) : list byte :=
  pod_enc pod_desc {| desc_addr := a; desc_len := l; desc_flags := f; desc_next := n |}.

Definition demo_mem (bytes : list (Z * list byte)) : GuestMemoryMmap :=
  {| regions := [{| guest_base := 0; mmap :=
       {| mm_addr := 65536; mm_size := 65536; mm_hugetlb := false;
          mm_data := foldl (λ d '(a, bs), store_bytes d a bs) ∅ bytes |} |}] |}.

Lemma demo_mem_wf bytes : mem_wf (demo_mem bytes).
Proof.
  apply layout_ok_wf. split.
  - by repeat constructor.
  - intros [|i] [|j] b s b' s' ? ? ?; simplify_eq/=.
Qed.

Definition demo_ring : list (Z * list byte) :=
  [(4096, demo_desc 20480 8 2 0); (4128, demo_desc 16384 16 1 0);
   (8194, le_enc 2 0); (8202, le_enc 2 2)].

Definition demo_chain : DescriptorChain :=
  {| head_index := 2;
     descriptors := [{| desc_addr := 16384; desc_len := 16; desc_flags := 1; desc_next := 0 |};
                     {| desc_addr := 20480; desc_len := 8; desc_flags := 2; desc_next := 0 |}] |}.

Example pop_demo :
  pop (demo_queue 4) (demo_mem demo_ring) =
    (Ok (Some demo_chain), set_next_avail (demo_queue 4) 0).
Proof. vm_compute. reflexivity. Qed.

Lemma pop_sound_complete_witness :
  pop (demo_queue 4) (demo_mem demo_ring) =
    (Ok (Some demo_chain), set_next_avail (demo_queue 4) 0) ∧
  chain_at (demo_queue 4) (demo_mem demo_ring) 2 (descriptors demo_chain).
Proof.
  pose proof (pop_sound_complete (demo_queue 4) (demo_mem demo_ring) demo_chain
    (set_next_avail (demo_queue 4) 0)) as Hp.
  split; [exact pop_demo|].
  destruct Hp as [Hp _]; [done|]. apply Hp. exact pop_demo.
Defined.

(** The same ring with a descriptor that chains to itself. *)
Definition demo_cycle : list (Z * list byte) :=
  [(4128, demo_desc 16384 16 1 2); (8194, le_enc 2 0); (8202, le_enc 2 2)].

Lemma pop_rejects_long_chains_witness :
  (∀ p, (pop (demo_queue 4) (demo_mem demo_cycle)).1 ≠ Panic p) ∧
  ((∃ s, (pop (demo_queue 4) (demo_mem demo_cycle)).1 = Err (InvalidChain s)) ↔
   runs_on 4 (demo_queue 4) (demo_mem demo_cycle) 2).
Proof.
  apply (pop_rejects_long_chains (demo_queue 4) (demo_mem demo_cycle) 0 2);
    first [exact (demo_mem_wf _)|done|vm_compute; reflexivity].
Defined.

Definition demo_fifo : list (outcome VirtioError Z) := [Ok 2].

Lemma pop_refines_fifo_witness :
  avail_fifo (demo_queue 4) (demo_mem demo_ring) = Ok demo_fifo ∧
  match pop (demo_queue 4) (demo_mem demo_ring) with
  | (Ok None, q') => demo_fifo = [] ∧ q' = demo_queue 4
  | (Ok (Some c), q') => ∃ rest, demo_fifo = Ok (head_index c) :: rest ∧
                                 avail_fifo q' (demo_mem demo_ring) = Ok rest
  | (_, q') => demo_fifo ≠ [] ∧ q' = demo_queue 4
  end.
Proof.
  assert (Hf : avail_fifo (demo_queue 4) (demo_mem demo_ring) = Ok demo_fifo)
    by (vm_compute; reflexivity).
  split; [exact Hf|].
  apply (pop_refines_fifo (demo_queue 4) (demo_mem demo_ring) demo_fifo); try done.
  intros i Hi. vm_compute in Hi. by simplify_eq.
Defined.

Lemma add_used_publishes_witness :
  let q := demo_queue 4 in let m := demo_mem demo_ring in
  let l := [(2, 8); (0, 16); (1, 0)] in
  ∃ m', add_used_all q m l =
      (Ok tt, (set_next_used q (wrap16 (next_used q + zlen l)), m')) ∧
    (∀ i h n, l !! i = Some (h, n) →
       used_slot q m' (next_used q + Z.of_nat i) = Ok {| used_id := h; used_len := n |}) ∧
    read_obj pod_u16 m' (used_ring q ⊞ 2) = Ok (wrap16 (next_used q + zlen l)).
Proof.
  intros q m l. apply (add_used_publishes q m l).
  - exact (demo_mem_wf _).
  - split; vm_compute; by split.
  - done.
  - by exists 16384.
  - apply Exists_cons_hd. vm_compute. by repeat split.
  - done.
  - done.
  - by repeat constructor.
Defined.

Lemma pop_zero_size_panics_witness :
  pop (demo_queue 0) (demo_mem demo_ring) = (Panic PanicDivZero, demo_queue 0).
Proof.
  apply (pop_zero_size_panics (demo_queue 0) (demo_mem demo_ring) 0); done || reflexivity.
Defined.
