(* ===== verification/Mmio.v ===== *)
(** * The virtio-mmio transport (crates/nova-virtio/src/mmio.rs)

    [VirtioDevice] is the trait of the device models, as a class over the
    device state [D], the guest memory [M] and the host [W] (TAP devices,
    eventfds, KVM).  [MmioTransport] is the register file in front of a
    device; [write] is the whole register dispatch, device calls included. *)

From S2P Require Import Prelude GuestMem Virtqueue.

(** ** The host's side effects

    The system calls of the device models: [read]/[write] on a TAP fd, the
    eventfd that injects an interrupt, and the KVM_IRQ_LINE ioctl.
    [tap_read] yields the empty list when the call returns 0 or an error. *)
Class HostIo (W : Type) : Type := {
  tap_read : W → Z → Z → list byte * W;
  tap_write : W → Z → list byte → W;
  eventfd_signal : W → Z → W;
  irq_line : W → Z → Z → Z → W;
}.

(** A method without a [Result]: it returns or panics.  A loop whose bound is
    not structural is run with fuel, and [OutOfFuel] marks a run that did not
    end within it; [Net.tx_terminates] shows when the fuel is enough. *)
Inductive unfinished : Type := OutOfFuel.
Abbreviation infallible := (outcome unfinished).

Class VirtioDevice (D M W : Type) : Type := {
  device_type : D → Z;
  num_queues : D → nat;
  device_features : D → Z → Z;
  ack_features : D → Z → Z → D;
  read_config : D → Z → Z → list byte;       (* offset, data.len() *)
  write_config : D → Z → list byte → D;
  activate : D → list Queue → outcome VirtioError unit * D;
  queue_notify : D → Z → M → W → infallible (D * M * W);
  device_reset : D → D;
  device_poll : D → M → W → infallible (bool * (D * M * W));
  device_set_tap_fd : D → Z → D;
  activated_queues : D → option (list Queue);
}.

Definition VIRTIO_MMIO_MAGIC : Z := 0x74726976.
Definition VIRTIO_MMIO_VERSION : Z := 2.
Definition VIRTIO_F_VERSION_1_PAGE1 : Z := 1.
Definition MMIO_MAGIC_VALUE : Z := 0x000.
Definition MMIO_VERSION : Z := 0x004.
Definition MMIO_DEVICE_ID : Z := 0x008.
Definition MMIO_VENDOR_ID : Z := 0x00C.
Definition MMIO_DEVICE_FEATURES : Z := 0x010.
Definition MMIO_DEVICE_FEATURES_SEL : Z := 0x014.
Definition MMIO_DRIVER_FEATURES : Z := 0x020.
Definition MMIO_DRIVER_FEATURES_SEL : Z := 0x024.
Definition MMIO_QUEUE_SEL : Z := 0x030.
Definition MMIO_QUEUE_NUM_MAX : Z := 0x034.
Definition MMIO_QUEUE_NUM : Z := 0x038.
Definition MMIO_QUEUE_READY : Z := 0x044.
Definition MMIO_QUEUE_NOTIFY : Z := 0x050.
Definition MMIO_INTERRUPT_STATUS : Z := 0x060.
Definition MMIO_INTERRUPT_ACK : Z := 0x064.
Definition MMIO_STATUS : Z := 0x070.
Definition MMIO_QUEUE_DESC_LOW : Z := 0x080.
Definition MMIO_QUEUE_DESC_HIGH : Z := 0x084.
Definition MMIO_QUEUE_AVAIL_LOW : Z := 0x090.
Definition MMIO_QUEUE_AVAIL_HIGH : Z := 0x094.
Definition MMIO_QUEUE_USED_LOW : Z := 0x0A0.
Definition MMIO_QUEUE_USED_HIGH : Z := 0x0A4.
Definition MMIO_CONFIG_GENERATION : Z := 0x0FC.
Definition MMIO_CONFIG_SPACE : Z := 0x100.

Definition STATUS_ACKNOWLEDGE : Z := 1.
Definition STATUS_DRIVER : Z := 2.
Definition STATUS_FEATURES_OK : Z := 8.
Definition STATUS_DRIVER_OK : Z := 4.
Definition STATUS_FAILED : Z := 128.

(** [guest_memory: Option<Arc<_>>] is whether the handle is set; the memory
    it shares with the other holders of the [Arc] is threaded through. *)
Record MmioTransport (D : Type) : Type := {
  device : D;
  queues : list Queue;
  queue_sel : Z;
  status : Z;
  interrupt_status : Z;
  device_features_sel : Z;
  driver_features_sel : Z;
  driver_features : Z * Z;
  config_generation : Z;
  activated : bool;
  guest_memory : bool;
}.
Arguments device {D} _.
Arguments queues {D} _.
Arguments queue_sel {D} _.
Arguments status {D} _.
Arguments interrupt_status {D} _.
Arguments device_features_sel {D} _.
Arguments driver_features_sel {D} _.
Arguments driver_features {D} _.
Arguments config_generation {D} _.
Arguments activated {D} _.
Arguments guest_memory {D} _.

(** Assignments to single fields. *)
Section Setters.
Context {D : Type}.
Implicit Types (t : MmioTransport D).

Definition set_device t d : MmioTransport D := {| device := d; queues := queues t; queue_sel := queue_sel t;
  status := status t; interrupt_status := interrupt_status t;
  device_features_sel := device_features_sel t; driver_features_sel := driver_features_sel t;
  driver_features := driver_features t; config_generation := config_generation t;
  activated := activated t; guest_memory := guest_memory t |}.
Definition set_queues t qs : MmioTransport D := {| device := device t; queues := qs; queue_sel := queue_sel t;
  status := status t; interrupt_status := interrupt_status t;
  device_features_sel := device_features_sel t; driver_features_sel := driver_features_sel t;
  driver_features := driver_features t; config_generation := config_generation t;
  activated := activated t; guest_memory := guest_memory t |}.
Definition set_queue_sel t v : MmioTransport D := {| device := device t; queues := queues t; queue_sel := v;
  status := status t; interrupt_status := interrupt_status t;
  device_features_sel := device_features_sel t; driver_features_sel := driver_features_sel t;
  driver_features := driver_features t; config_generation := config_generation t;
  activated := activated t; guest_memory := guest_memory t |}.
Definition set_status t v : MmioTransport D := {| device := device t; queues := queues t; queue_sel := queue_sel t;
  status := v; interrupt_status := interrupt_status t;
  device_features_sel := device_features_sel t; driver_features_sel := driver_features_sel t;
  driver_features := driver_features t; config_generation := config_generation t;
  activated := activated t; guest_memory := guest_memory t |}.
Definition set_interrupt_status t v : MmioTransport D := {| device := device t; queues := queues t;
  queue_sel := queue_sel t; status := status t; interrupt_status := v;
  device_features_sel := device_features_sel t; driver_features_sel := driver_features_sel t;
  driver_features := driver_features t; config_generation := config_generation t;
  activated := activated t; guest_memory := guest_memory t |}.
Definition set_device_features_sel t v : MmioTransport D := {| device := device t; queues := queues t;
  queue_sel := queue_sel t; status := status t; interrupt_status := interrupt_status t;
  device_features_sel := v; driver_features_sel := driver_features_sel t;
  driver_features := driver_features t; config_generation := config_generation t;
  activated := activated t; guest_memory := guest_memory t |}.
Definition set_driver_features_sel t v : MmioTransport D := {| device := device t; queues := queues t;
  queue_sel := queue_sel t; status := status t; interrupt_status := interrupt_status t;
  device_features_sel := device_features_sel t; driver_features_sel := v;
  driver_features := driver_features t; config_generation := config_generation t;
  activated := activated t; guest_memory := guest_memory t |}.
Definition set_driver_features t v : MmioTransport D := {| device := device t; queues := queues t;
  queue_sel := queue_sel t; status := status t; interrupt_status := interrupt_status t;
  device_features_sel := device_features_sel t; driver_features_sel := driver_features_sel t;
  driver_features := v; config_generation := config_generation t;
  activated := activated t; guest_memory := guest_memory t |}.
Definition set_config_generation t v : MmioTransport D := {| device := device t; queues := queues t;
  queue_sel := queue_sel t; status := status t; interrupt_status := interrupt_status t;
  device_features_sel := device_features_sel t; driver_features_sel := driver_features_sel t;
  driver_features := driver_features t; config_generation := v;
  activated := activated t; guest_memory := guest_memory t |}.
Definition set_activated t v : MmioTransport D := {| device := device t; queues := queues t;
  queue_sel := queue_sel t; status := status t; interrupt_status := interrupt_status t;
  device_features_sel := device_features_sel t; driver_features_sel := driver_features_sel t;
  driver_features := driver_features t; config_generation := config_generation t;
  activated := v; guest_memory := guest_memory t |}.
Definition set_memory t v : MmioTransport D := {| device := device t; queues := queues t;
  queue_sel := queue_sel t; status := status t; interrupt_status := interrupt_status t;
  device_features_sel := device_features_sel t; driver_features_sel := driver_features_sel t;
  driver_features := driver_features t; config_generation := config_generation t;
  activated := activated t; guest_memory := v |}.

End Setters.

Definition set_q_size (q : Queue) (v : Z) : Queue :=
  {| max_size := max_size q; q_size := v; ready := ready q; desc_table := desc_table q;
     avail_ring := avail_ring q; used_ring := used_ring q;
     next_avail := next_avail q; next_used := next_used q |}.
Definition set_ready (q : Queue) (b : bool) : Queue :=
  {| max_size := max_size q; q_size := q_size q; ready := b; desc_table := desc_table q;
     avail_ring := avail_ring q; used_ring := used_ring q;
     next_avail := next_avail q; next_used := next_used q |}.
Definition set_desc_table (q : Queue) (a : Z) : Queue :=
  {| max_size := max_size q; q_size := q_size q; ready := ready q; desc_table := a;
     avail_ring := avail_ring q; used_ring := used_ring q;
     next_avail := next_avail q; next_used := next_used q |}.
Definition set_avail_ring (q : Queue) (a : Z) : Queue :=
  {| max_size := max_size q; q_size := q_size q; ready := ready q; desc_table := desc_table q;
     avail_ring := a; used_ring := used_ring q;
     next_avail := next_avail q; next_used := next_used q |}.
Definition set_used_ring (q : Queue) (a : Z) : Queue :=
  {| max_size := max_size q; q_size := q_size q; ready := ready q; desc_table := desc_table q;
     avail_ring := avail_ring q; used_ring := a;
     next_avail := next_avail q; next_used := next_used q |}.

(** [(addr & 0xFFFF_FFFF_0000_0000) | value] and
    [(addr & 0x0000_0000_FFFF_FFFF) | (value << 32)]. *)
Definition with_low (addr v : Z) : Z := Z.lor (Z.land addr 0xFFFFFFFF00000000) v.
Definition with_high (addr v : Z) : Z := Z.lor (Z.land addr 0xFFFFFFFF) (Z.shiftl v 32).

(** [!value] on [u32]. *)
Definition not32 (v : Z) : Z := Z.lxor v 0xFFFFFFFF.

Section Transport.
Context {D M W : Type} `{VirtioDevice D M W}.
Implicit Types (t : MmioTransport D).

(** The class's methods at this device, guest memory and host. *)
Abbreviation dev_type := (device_type (D:=D) (M:=M) (W:=W)).
Abbreviation dev_activate := (activate (D:=D) (M:=M) (W:=W)).

Definition MmioTransport_new (d : D) : MmioTransport D :=
  {| device := d; queues := replicate (num_queues (M:=M) (W:=W) d) (Queue_new 256);
     queue_sel := 0; status := 0; interrupt_status := 0; device_features_sel := 0;
     driver_features_sel := 0; driver_features := (0, 0); config_generation := 0;
     activated := false; guest_memory := false |}.

Definition selected_queue t : option Queue := queues t !! Z.to_nat (queue_sel t).

Definition mmio_read t (offset : Z) : Z :=
  if offset =? MMIO_MAGIC_VALUE then VIRTIO_MMIO_MAGIC
  else if offset =? MMIO_VERSION then VIRTIO_MMIO_VERSION
  else if offset =? MMIO_DEVICE_ID then dev_type (device t)
  else if offset =? MMIO_VENDOR_ID then 0x4E6F7661
  else if offset =? MMIO_DEVICE_FEATURES then
    let features := device_features (M:=M) (W:=W) (device t) (device_features_sel t) in
    if device_features_sel t =? 1 then Z.lor features VIRTIO_F_VERSION_1_PAGE1 else features
  else if offset =? MMIO_QUEUE_NUM_MAX then
    match selected_queue t with Some q => max_size q | None => 0 end
  else if offset =? MMIO_QUEUE_READY then
    match selected_queue t with Some q => Z.b2z (ready q) | None => 0 end
  else if offset =? MMIO_INTERRUPT_STATUS then interrupt_status t
  else if offset =? MMIO_STATUS then status t
  else if offset =? MMIO_CONFIG_GENERATION then config_generation t
  else if MMIO_CONFIG_SPACE <=? offset then
    le_dec (read_config (M:=M) (W:=W) (device t) (offset - MMIO_CONFIG_SPACE) 4)
  else 0.

(** [if let Some(q) = self.queues.get_mut(self.queue_sel as usize)]. *)
Definition update_selected t (f : Queue → Queue) : MmioTransport D :=
  set_queues t (alter f (Z.to_nat (queue_sel t)) (queues t)).

Definition write_driver_features t (value : Z) : MmioTransport D :=
  let page := driver_features_sel t in
  if page <? 2 then
    let '(f0, f1) := driver_features t in
    let t := set_driver_features t (if page =? 0 then (value, f1) else (f0, value)) in
    set_device t (ack_features (M:=M) (W:=W) (device t) page value)
  else t.

(** The STATUS register: reset, or activation on the first DRIVER_OK, which
    drains the transport's queues into the device. *)
Definition write_status t (value : Z) : outcome unfinished (MmioTransport D) :=
  let t := set_status t value in
  if value =? 0 then
    Ok (set_activated (set_device t (device_reset (M:=M) (W:=W) (device t))) false)
  else if negb (Z.land value STATUS_DRIVER_OK =? 0) && negb (activated t) then
    let qs := queues t in
    let t := set_queues t [] in
    if guest_memory t then
      match dev_activate (device t) qs with
      | (Ok _, d) => Ok (set_activated (set_device t d) true)
      | (Err _, d) => Ok (set_status (set_device t d) (Z.lor (status t) STATUS_FAILED))
      | (Panic p, _) => Panic p
      end
    else Ok (set_status t (Z.lor (status t) STATUS_FAILED))
  else Ok t.

Definition write_notify t (value : Z) (m : M) (w : W)
    : infallible (MmioTransport D * M * W) :=
  if guest_memory t then
    '(d, m, w) ← queue_notify (device t) (wrap16 value) m w;
    Ok (set_device t d, m, w)
  else Ok (t, m, w).

Definition mmio_write t (offset value : Z) (m : M) (w : W)
    : infallible (MmioTransport D * M * W) :=
  let ret t := Ok (t, m, w) in
  if offset =? MMIO_DEVICE_FEATURES_SEL then ret (set_device_features_sel t value)
  else if offset =? MMIO_DRIVER_FEATURES then ret (write_driver_features t value)
  else if offset =? MMIO_DRIVER_FEATURES_SEL then ret (set_driver_features_sel t value)
  else if offset =? MMIO_QUEUE_SEL then ret (set_queue_sel t value)
  else if offset =? MMIO_QUEUE_NUM then
    ret (update_selected t (λ q, set_q_size q (wrap16 value)))
  else if offset =? MMIO_QUEUE_READY then
    ret (update_selected t (λ q, set_ready q (value =? 1)))
  else if offset =? MMIO_QUEUE_NOTIFY then write_notify t value m w
  else if offset =? MMIO_INTERRUPT_ACK then
    ret (set_interrupt_status t (Z.land (interrupt_status t) (not32 value)))
  else if offset =? MMIO_STATUS then t ← write_status t value; ret t
  else if offset =? MMIO_QUEUE_DESC_LOW then
    ret (update_selected t (λ q, set_desc_table q (with_low (desc_table q) value)))
  else if offset =? MMIO_QUEUE_DESC_HIGH then
    ret (update_selected t (λ q, set_desc_table q (with_high (desc_table q) value)))
  else if offset =? MMIO_QUEUE_AVAIL_LOW then
    ret (update_selected t (λ q, set_avail_ring q (with_low (avail_ring q) value)))
  else if offset =? MMIO_QUEUE_AVAIL_HIGH then
    ret (update_selected t (λ q, set_avail_ring q (with_high (avail_ring q) value)))
  else if offset =? MMIO_QUEUE_USED_LOW then
    ret (update_selected t (λ q, set_used_ring q (with_low (used_ring q) value)))
  else if offset =? MMIO_QUEUE_USED_HIGH then
    ret (update_selected t (λ q, set_used_ring q (with_high (used_ring q) value)))
  else if MMIO_CONFIG_SPACE <=? offset then
    let t := set_device t (write_config (M:=M) (W:=W) (device t)
                             (offset - MMIO_CONFIG_SPACE) (le_enc 4 value)) in
    ret (set_config_generation t (wrap32 (config_generation t + 1)))
  else ret t.

Definition raise_interrupt t : MmioTransport D :=
  set_interrupt_status t (Z.lor (interrupt_status t) 1).

Definition transport_set_tap_fd t (fd : Z) : MmioTransport D :=
  set_device t (device_set_tap_fd (M:=M) (W:=W) (device t) fd).

(** [self.activated && self.device.poll()]. *)
Definition transport_poll t (m : M) (w : W)
    : infallible (bool * (MmioTransport D * M * W)) :=
  if activated t then
    '(sig, (d, m, w)) ← device_poll (device t) m w;
    let t := set_device t d in
    Ok (sig, ((if sig : bool then raise_interrupt t else t), m, w))
  else Ok (false, (t, m, w)).

Definition set_guest_memory t : MmioTransport D := set_memory t true.

Definition force_activate t (qs : list Queue) : infallible (MmioTransport D) :=
  if guest_memory t then
    match dev_activate (device t) qs with
    | (Ok _, d) =>
        Ok (set_activated (set_status (set_device t d)
             (Z.lor (Z.lor (Z.lor STATUS_ACKNOWLEDGE STATUS_DRIVER) STATUS_FEATURES_OK)
                    STATUS_DRIVER_OK)) true)
    | (Err _, d) => Ok (set_device t d)
    | (Panic p, _) => Panic p
    end
  else Ok t.

Definition get_activated_queue_states t : option (list Queue) :=
  activated_queues (M:=M) (W:=W) (device t).

(** A driver's sequence of register writes. *)
Fixpoint mmio_writes t (ws : list (Z * Z)) (m : M) (w : W)
    : infallible (MmioTransport D * M * W) :=
  match ws with
  | [] => Ok (t, m, w)
  | (off, v) :: ws => '(t, m, w) ← mmio_write t off v m w; mmio_writes t ws m w
  end.

End Transport.

(** ** The driver's initialisation sequence

    What a guest writes: the status handshake, each queue's registers, and
    DRIVER_OK. *)

Record queue_cfg : Type := { c_num : Z; c_desc : Z; c_avail : Z; c_used : Z }.

Record queue_cfg_ok (c : queue_cfg) : Prop := {
  cfg_num : fits 16 (c_num c);
  cfg_desc : fits 64 (c_desc c);
  cfg_avail : fits 64 (c_avail c);
  cfg_used : fits 64 (c_used c);
}.

Definition low32 (a : Z) : Z := a mod 2 ^ 32.
Definition high32 (a : Z) : Z := a / 2 ^ 32.

Definition program_queue (i : nat) (c : queue_cfg) : list (Z * Z) :=
  [(MMIO_QUEUE_SEL, Z.of_nat i); (MMIO_QUEUE_NUM, c_num c);
   (MMIO_QUEUE_DESC_LOW, low32 (c_desc c)); (MMIO_QUEUE_DESC_HIGH, high32 (c_desc c));
   (MMIO_QUEUE_AVAIL_LOW, low32 (c_avail c)); (MMIO_QUEUE_AVAIL_HIGH, high32 (c_avail c));
   (MMIO_QUEUE_USED_LOW, low32 (c_used c)); (MMIO_QUEUE_USED_HIGH, high32 (c_used c));
   (MMIO_QUEUE_READY, 1)].

Fixpoint program_queues (i : nat) (cs : list queue_cfg) : list (Z * Z) :=
  match cs with
  | [] => []
  | c :: cs => program_queue i c ++ program_queues (S i) cs
  end.

Definition driver_init (cs : list queue_cfg) : list (Z * Z) :=
  [(MMIO_STATUS, 1); (MMIO_STATUS, 3); (MMIO_STATUS, 11)] ++
  program_queues 0 cs ++ [(MMIO_STATUS, 15)].

(** The queue a device is handed for a configuration. *)
Definition programmed (c : queue_cfg) : Queue :=
  {| max_size := 256; q_size := c_num c; ready := true; desc_table := c_desc c;
     avail_ring := c_avail c; used_ring := c_used c; next_avail := 0; next_used := 0 |}.

(** ** The calls a device sees *)

Inductive device_call : Type :=
| CallActivate (num : nat) (ok : bool)
| CallReset
| CallNotify
| CallPoll.

(** A device wrapped so that it records the calls made to it. *)
Section Logged.
Context {D M W : Type} `{VirtioDevice D M W}.

#[export] Instance Logged_device : VirtioDevice (D * list device_call) M W := {
  device_type d := device_type (M:=M) (W:=W) d.1;
  num_queues d := num_queues (M:=M) (W:=W) d.1;
  device_features d p := device_features (M:=M) (W:=W) d.1 p;
  ack_features d p v := (ack_features (M:=M) (W:=W) d.1 p v, d.2);
  read_config d o n := read_config (M:=M) (W:=W) d.1 o n;
  write_config d o bs := (write_config (M:=M) (W:=W) d.1 o bs, d.2);
  activate d qs :=
    let '(r, d1) := activate (M:=M) (W:=W) d.1 qs in
    (r, (d1, d.2 ++ [CallActivate (length qs) (is_ok r)]));
  queue_notify d q m w :=
    '(d1, m, w) ← queue_notify d.1 q m w; Ok ((d1, d.2 ++ [CallNotify]), m, w);
  device_reset d := (device_reset (M:=M) (W:=W) d.1, d.2 ++ [CallReset]);
  device_poll d m w :=
    '(sig, (d1, m, w)) ← device_poll d.1 m w; Ok (sig, ((d1, d.2 ++ [CallPoll]), m, w));
  device_set_tap_fd d fd := (device_set_tap_fd (M:=M) (W:=W) d.1 fd, d.2);
  activated_queues d := activated_queues (M:=M) (W:=W) d.1;
}.

End Logged.

(** The device's contract: activation only while inactive, polling only while
    active.  The result is whether the device is active at the end. *)
Fixpoint call_protocol (active : bool) (l : list device_call) : option bool :=
  match l with
  | [] => Some active
  | CallActivate _ ok :: l => if active then None else call_protocol ok l
  | CallReset :: l => call_protocol false l
  | CallNotify :: l => call_protocol active l
  | CallPoll :: l => if active then call_protocol active l else None
  end.

(** What the VMM and the guest do to a transport in normal operation. *)
Inductive transport_op : Type :=
| OpWrite (offset value : Z)
| OpPoll
| OpSetMemory
| OpInterrupt.

Section Run.
Context {D M W : Type} `{VirtioDevice D M W}.

Definition run_op (t : MmioTransport D) (op : transport_op) (m : M) (w : W)
    : infallible (MmioTransport D * M * W) :=
  match op with
  | OpWrite off v => mmio_write t off v m w
  | OpPoll => '(_, s) ← transport_poll t m w; Ok s
  | OpSetMemory => Ok (set_guest_memory t, m, w)
  | OpInterrupt => Ok (raise_interrupt t, m, w)
  end.

Fixpoint run_ops (t : MmioTransport D) (ops : list transport_op) (m : M) (w : W)
    : infallible (MmioTransport D * M * W) :=
  match ops with
  | [] => Ok (t, m, w)
  | op :: ops => '(t, m, w) ← run_op t op m w; run_ops t ops m w
  end.

End Run.

(** ** Register arithmetic *)

Lemma land_low32 a : Z.land a 0xFFFFFFFF = a mod 2 ^ 32.
Proof. by rewrite <- (Z.land_ones a 32) by lia. Qed.

(** Writing both halves of an address register sets the address. *)
Lemma with_low_high a v :
  fits 64 v → with_high (with_low a (low32 v)) (high32 v) = v.
Proof.
  intros Hv. unfold with_high, with_low.
  rewrite land_low32.
  assert (Hlow : Z.lor (Z.land a 0xFFFFFFFF00000000) (low32 v) mod 2 ^ 32 = low32 v).
  { rewrite <- land_low32, Z.land_lor_distr_l, <- Z.land_assoc.
    change (Z.land 0xFFFFFFFF00000000 0xFFFFFFFF) with 0. rewrite Z.land_0_r, Z.lor_0_l.
    rewrite land_low32. unfold low32. apply Zmod_mod. }
  rewrite Hlow, lor_disjoint.
  - rewrite Z.shiftl_mul_pow2 by lia. unfold low32, high32. width_lia.
  - apply land_shiftl_low; [lia|]. unfold fits, low32. width_lia.
Qed.

(** ** Programming the queues *)

Section Driver.
Context {D M W : Type} `{VirtioDevice D M W}.
Implicit Types (t : MmioTransport D) (m : M) (w : W).

Lemma mmio_writes_app t ws ws' m w :
  mmio_writes t (ws ++ ws') m w =
  ('(t, m, w) ← mmio_writes t ws m w; mmio_writes t ws' m w).
Proof.
  revert t m w. induction ws as [|[off v] ws IH]; intros t m w; simpl; [done|].
  destruct (mmio_write t off v m w) as [[[t' m'] w']| |]; simpl; [apply IH|done..].
Qed.

(** The registers of a queue update the selected queue. *)
Lemma mmio_writes_sel t v ws m w :
  mmio_writes t ((MMIO_QUEUE_SEL, v) :: ws) m w = mmio_writes (set_queue_sel t v) ws m w.
Proof. reflexivity. Qed.

Definition queue_reg (off : Z) : option (Z → Queue → Queue) :=
  if off =? MMIO_QUEUE_NUM then Some (λ v q, set_q_size q (wrap16 v))
  else if off =? MMIO_QUEUE_READY then Some (λ v q, set_ready q (v =? 1))
  else if off =? MMIO_QUEUE_DESC_LOW then
    Some (λ v q, set_desc_table q (with_low (desc_table q) v))
  else if off =? MMIO_QUEUE_DESC_HIGH then
    Some (λ v q, set_desc_table q (with_high (desc_table q) v))
  else if off =? MMIO_QUEUE_AVAIL_LOW then
    Some (λ v q, set_avail_ring q (with_low (avail_ring q) v))
  else if off =? MMIO_QUEUE_AVAIL_HIGH then
    Some (λ v q, set_avail_ring q (with_high (avail_ring q) v))
  else if off =? MMIO_QUEUE_USED_LOW then
    Some (λ v q, set_used_ring q (with_low (used_ring q) v))
  else if off =? MMIO_QUEUE_USED_HIGH then
    Some (λ v q, set_used_ring q (with_high (used_ring q) v))
  else None.

Lemma mmio_writes_reg t off f v ws m w :
  queue_reg off = Some f →
  mmio_writes t ((off, v) :: ws) m w = mmio_writes (update_selected t (f v)) ws m w.
Proof.
  unfold queue_reg. intros Hf.
  repeat (case_match; to_prop; [subst off; simplify_eq; reflexivity|]). done.
Qed.

Lemma update_selected_compose t f g :
  update_selected (update_selected t f) g = update_selected t (g ∘ f).
Proof. unfold update_selected, set_queues. simpl. by rewrite list_alter_alter_eq. Qed.

(** One queue's registers: only the selected queue changes. *)
Definition configure (c : queue_cfg) (q : Queue) : Queue :=
  {| max_size := max_size q; q_size := c_num c; ready := true; desc_table := c_desc c;
     avail_ring := c_avail c; used_ring := c_used c;
     next_avail := next_avail q; next_used := next_used q |}.

Lemma program_queue_ok t i c m w :
  queue_cfg_ok c →
  mmio_writes t (program_queue i c) m w =
    Ok (update_selected (set_queue_sel t (Z.of_nat i)) (configure c), m, w).
Proof.
  intros [Hn Hd Ha Hu]. unfold program_queue. rewrite mmio_writes_sel.
  do 8 (erewrite mmio_writes_reg by reflexivity; rewrite ?update_selected_compose).
  cbn [mmio_writes]. do 3 f_equal. unfold update_selected. f_equal.
  apply list_alter_ext; [|done]. intros q _. unfold compose, configure.
  unfold set_ready, set_used_ring, set_avail_ring, set_desc_table, set_q_size.
  cbn [max_size q_size ready desc_table avail_ring used_ring next_avail next_used].
  by rewrite !with_low_high, wrap_small by done.
Qed.

Lemma program_queues_ok (cs : list queue_cfg) t i m w :
  Forall queue_cfg_ok cs → length (queues t) = (i + length cs)%nat →
  (∀ j, (i ≤ j < i + length cs)%nat → queues t !! j = Some (Queue_new 256)) →
  ∃ t', mmio_writes t (program_queues i cs) m w = Ok (t', m, w) ∧
    queues t' = take i (queues t) ++ (programmed <$> cs) ∧
    device t' = device t ∧ status t' = status t ∧ activated t' = activated t ∧
    guest_memory t' = guest_memory t.
Proof.
  intros Hcs. revert t i. induction Hcs as [|c cs Hc Hcs IH]; intros t i Hl Hq; cbn [program_queues].
  { exists t. simpl in *. rewrite Nat.add_0_r in Hl. split_and!; try done.
    rewrite app_nil_r. by rewrite firstn_all2 by lia. }
  rewrite mmio_writes_app, program_queue_ok by done. simpl.
  destruct (IH (update_selected (set_queue_sel t (Z.of_nat i)) (configure c)) (S i))
    as (t' & Hw & Hqs & ? & ? & ? & ?).
  - simpl in *. rewrite length_alter. lia.
  - intros j Hj. simpl in *. rewrite Nat2Z.id, list_lookup_alter_ne by lia. apply Hq. lia.
  - exists t'. split; [exact Hw|]. split; [|done]. rewrite Hqs. simpl. rewrite Nat2Z.id.
    assert (Hi : queues t !! i = Some (Queue_new 256)) by (apply Hq; simpl; lia).
    erewrite take_S_r by (rewrite list_lookup_alter_eq, Hi; done).
    rewrite take_alter_ge by lia. by rewrite <- app_assoc.
Qed.

End Driver.

(** The bookkeeping of calls against the transport's [activated] flag. *)
Section Protocol.
Context {D M W : Type} `{VirtioDevice D M W}.
Implicit Types (t : MmioTransport (D * list device_call)).

Lemma call_protocol_app b l l' :
  call_protocol b (l ++ l') = call_protocol b l ≫= λ b', call_protocol b' l'.
Proof. revert b. induction l as [|[] l IH]; intros b; simpl; try case_match; eauto. Qed.

Definition protocol_ok t : Prop := call_protocol false (device t).2 = Some (activated t).

Lemma mmio_write_protocol t off v (m : M) (w : W) t' m' w' :
  protocol_ok t → mmio_write t off v m w = Ok (t', m', w') → protocol_ok t'.
Proof.
  unfold protocol_ok, mmio_write. intros Ht Hw.
  repeat (destruct (_ =? _); [first [simplify_eq/=; done|shelve]|]).
  destruct (_ <=? _); simplify_eq/=; done.
  Unshelve.
  - unfold write_driver_features in Hw. destruct (driver_features t).
    by repeat case_match; simplify_eq/=.
  - unfold write_notify in Hw. case_match; simplify_eq/=; [|done].
    destruct (queue_notify (device t).1 _ m w) as [[[d1 m1] w1]| |]; simplify_eq/=.
    by rewrite call_protocol_app, Ht.
  - destruct (write_status t v) as [t1| |] eqn:Hs; simplify_eq/=.
    unfold write_status in Hs. case_match; simplify_eq/=.
    { by rewrite call_protocol_app, Ht. }
    destruct (_ && _) eqn:Hc; simplify_eq/=; [|done].
    apply andb_prop in Hc as [_ Hact%negb_true_iff]. rewrite Hact in Ht.
    destruct (guest_memory t); simplify_eq/=; [|by rewrite Ht, Hact].
    destruct (activate (device t).1 (queues t)) as [[u|e|p] d1]; simplify_eq/=;
      by rewrite call_protocol_app, Ht; simpl; rewrite ?Hact.
Qed.

Lemma run_op_protocol t op (m : M) (w : W) t' m' w' :
  protocol_ok t → run_op t op m w = Ok (t', m', w') → protocol_ok t'.
Proof.
  destruct op as [off v| | |]; simpl; intros Ht Hop.
  - by eapply mmio_write_protocol.
  - unfold transport_poll in Hop. destruct (activated t) eqn:Hact; simplify_eq/=; [|done].
    destruct (device_poll (device t).1 m w) as [[sig [[d1 m1] w1]]| |]; simplify_eq/=.
    unfold protocol_ok in *. destruct sig; simpl; by rewrite call_protocol_app, Ht, Hact; simpl.
  - by simplify_eq.
  - by simplify_eq.
Qed.

Lemma run_ops_protocol t ops (m : M) (w : W) t' m' w' :
  protocol_ok t → run_ops t ops m w = Ok (t', m', w') → protocol_ok t'.
Proof.
  revert t m w. induction ops as [|op ops IH]; intros t m w Ht Hr; simpl in Hr.
  { by simplify_eq. }
  destruct (run_op t op m w) as [[[t1 m1] w1]| |] eqn:Hop; simplify_eq/=.
  eapply IH; [|done]. by eapply run_op_protocol.
Qed.

End Protocol.

Section Init.
Context {D M W : Type} `{VirtioDevice D M W}.
Implicit Types (t : MmioTransport D) (m : M) (w : W).

(** A transport before DRIVER_OK: the memory is set, nothing is activated. *)
Definition fresh_transport (d : D) : MmioTransport D :=
  set_guest_memory (MmioTransport_new (M:=M) (W:=W) d).

Lemma write_status_activate t v :
  v ≠ 0 → Z.land v STATUS_DRIVER_OK ≠ 0 → activated t = false → guest_memory t = true →
  write_status (M:=M) (W:=W) t v =
    match activate (M:=M) (W:=W) (device t) (queues t) with
    | (Ok _, d) => Ok (set_activated (set_device (set_queues (set_status t v) []) d) true)
    | (Err _, d) => Ok (set_status (set_device (set_queues (set_status t v) []) d)
                                   (Z.lor v STATUS_FAILED))
    | (Panic p, _) => Panic p
    end.
Proof.
  intros Hv Hok Ha Hm. unfold write_status.
  rewrite (proj2 (Z.eqb_neq _ _) Hv), (proj2 (Z.eqb_neq _ _) Hok). simpl.
  by rewrite Ha, Hm.
Qed.

Lemma mmio_writes_status t v ws m w :
  mmio_writes t ((MMIO_STATUS, v) :: ws) m w =
    (t ← write_status (M:=M) (W:=W) t v; mmio_writes t ws m w).
Proof.
  cbn [mmio_writes]. change (mmio_write t MMIO_STATUS v m w) with
    (t ← write_status (M:=M) (W:=W) t v; Ok (t, m, w) : infallible _).
  by destruct (write_status t v).
Qed.

(** What the transport is after a DRIVER_OK write handed [qs] to the device. *)
Definition after_activate (d : D) (qs : list Queue) (res : infallible (MmioTransport D * M * W))
    (m : M) (w : W) : Prop :=
  match activate (M:=M) (W:=W) d qs with
  | (Ok _, d') => ∃ t', res = Ok (t', m, w) ∧ device t' = d' ∧ activated t' = true ∧
                        status t' = 15 ∧ queues t' = [] ∧ guest_memory t' = true
  | (Err _, d') => ∃ t', res = Ok (t', m, w) ∧ device t' = d' ∧ activated t' = false ∧
                         status t' = 143 ∧ queues t' = [] ∧ guest_memory t' = true
  | (Panic p, _) => res = Panic p
  end.

Lemma driver_init_queues t cs qs m w :
  activated t = false → guest_memory t = true →
  (∃ t', mmio_writes (set_status t 11) (program_queues 0 cs) m w = Ok (t', m, w) ∧
     queues t' = qs ∧ device t' = device t ∧ activated t' = false ∧ guest_memory t' = true) →
  after_activate (device t) qs (mmio_writes t (driver_init cs) m w) m w.
Proof.
  intros Ha Hm (t' & Hw & Hqs & Hd & Ha' & Hm'). unfold driver_init, after_activate.
  cbn [app]. rewrite !mmio_writes_status.
  assert (Hst : ∀ t0 v, v = 1 ∨ v = 3 ∨ v = 11 → write_status (M:=M) (W:=W) t0 v = Ok (set_status t0 v)).
  { by intros t0 v [->|[->| ->]]. }
  rewrite Hst by auto. cbn [mbind outcome_bind]. rewrite !mmio_writes_status, Hst by auto.
  cbn [mbind outcome_bind]. rewrite !mmio_writes_status, Hst by auto. cbn [mbind outcome_bind].
  change (set_status (set_status (set_status t 1) 3) 11) with (set_status t 11).
  rewrite mmio_writes_app, Hw. cbn [mbind outcome_bind].
  rewrite mmio_writes_status, write_status_activate by done. rewrite Hd, Hqs.
  destruct (activate (device t) qs) as [[[]|e|p] d']; cbn [mbind outcome_bind mmio_writes]; [| |done].
  - eexists. split; [done|]. simpl. by rewrite ?Hm'.
  - eexists. split; [done|]. simpl. by rewrite ?Hm', ?Ha'.
Qed.

(** Without queues, programming them is ignored. *)
Lemma program_queues_none t cs i m w :
  queues t = [] → Forall queue_cfg_ok cs →
  ∃ t', mmio_writes t (program_queues i cs) m w = Ok (t', m, w) ∧
    queues t' = [] ∧ device t' = device t ∧ activated t' = activated t ∧
    guest_memory t' = guest_memory t.
Proof.
  intros Hq Hcs. revert t i Hq. induction Hcs as [|c cs Hc _ IH]; intros t i Hq.
  { by exists t. }
  cbn [program_queues]. rewrite mmio_writes_app, program_queue_ok by done. simpl.
  destruct (IH (update_selected (set_queue_sel t (Z.of_nat i)) (configure c)) (S i))
    as (t' & ? & ? & ? & ? & ?); [simpl; by rewrite Hq|]. by exists t'.
Qed.

End Init.

(** ** Properties *)

(** C4. A driver that runs the standard initialisation (status handshake,
    then size, descriptor, available and used address of every queue,
    READY, DRIVER_OK) on a fresh transport activates the device exactly once,
    with one queue per configuration, each holding exactly the programmed
    64-bit addresses and size; a device error is reported as FAILED. *)
Theorem driver_init_activates `{VirtioDevice D M W} (d : D) (cs : list queue_cfg) (m : M) (w : W) :
  Forall queue_cfg_ok cs → length cs = num_queues (M:=M) (W:=W) d →
  after_activate d (programmed <$> cs)
    (mmio_writes (fresh_transport (M:=M) (W:=W) d) (driver_init cs) m w) m w.
Proof.
  intros Hcs Hl.
  destruct (program_queues_ok cs (set_status (fresh_transport (M:=M) (W:=W) d) 11) 0 m w)
    as (t' & Hw & Hqs & Hd & _ & Ha & Hm); [done|..].
  - simpl. by rewrite length_replicate.
  - intros j Hj. simpl in *. apply lookup_replicate_2. lia.
  - apply (driver_init_queues (fresh_transport (M:=M) (W:=W) d)); [done..|].
    exists t'. by rewrite Hqs, Ha, Hm, Hd.
Qed.

(** After a reset the transport has lost its queues: once a driver has
    activated the device, resetting it and running the whole initialisation
    again hands the device an empty list of queues, and QueueNumMax reads 0. *)
Theorem reset_loses_queues `{VirtioDevice D M W} (d d' : D) cs t' (m m' : M) (w w' : W) :
  Forall queue_cfg_ok cs → length cs = num_queues (M:=M) (W:=W) d →
  activate (M:=M) (W:=W) d (programmed <$> cs) = (Ok tt, d') →
  mmio_writes (fresh_transport (M:=M) (W:=W) d) (driver_init cs ++ [(MMIO_STATUS, 0)]) m w
    = Ok (t', m', w') →
  mmio_read (M:=M) (W:=W) t' MMIO_QUEUE_NUM_MAX = 0 ∧
  after_activate (device_reset (M:=M) (W:=W) d') [] (mmio_writes t' (driver_init cs) m' w') m' w'.
Proof.
  intros Hcs Hl Hact Hw. rewrite mmio_writes_app in Hw.
  pose proof (driver_init_activates d cs m w Hcs Hl) as Ha.
  unfold after_activate in Ha. rewrite Hact in Ha.
  destruct Ha as (t1 & Ht1 & Hd & Hact1 & Hst & Hq & Hm).
  rewrite Ht1 in Hw. simpl in Hw. injection Hw as <- <- <-. split.
  - unfold mmio_read, selected_queue. simpl. by rewrite Hq.
  - rewrite <- Hd.
    apply (driver_init_queues (set_activated (set_device (set_status t1 0) _) false)); [done..|].
    destruct (program_queues_none (set_status (set_activated (set_device (set_status t1 0)
      (device_reset (M:=M) (W:=W) (device t1))) false) 11) cs 0 m w) as (t2 & ? & ? & ? & ? & ?);
      [done..|].
    exists t2. split_and!; try done. etransitivity; [eassumption|]. exact Hm.
Qed.


(** The interrupt register: raising sets the used-buffer bit and keeps
    the others, and an acknowledgement clears exactly the bits written. *)
Theorem interrupt_ack_clears `{VirtioDevice D M W} (t t' : MmioTransport D) v (m m' : M) (w w' : W) :
  fits 32 (interrupt_status t) → fits 32 v →
  mmio_write (raise_interrupt t) MMIO_INTERRUPT_ACK v m w = Ok (t', m', w') →
  ∀ i, 0 ≤ i < 32 →
  Z.testbit (mmio_read (M:=M) (W:=W) t' MMIO_INTERRUPT_STATUS) i =
    ((i =? 0) || Z.testbit (interrupt_status t) i) && negb (Z.testbit v i).
Proof.
  intros Hs Hv Hw i Hi.
  change (Ok (set_interrupt_status (raise_interrupt t)
    (Z.land (Z.lor (interrupt_status t) 1) (not32 v)), m, w) = Ok (t', m', w') :> infallible _) in Hw.
  injection Hw as <- <- <-. unfold mmio_read. simpl.
  rewrite Z.land_spec, Z.lor_spec. unfold not32. rewrite Z.lxor_spec.
  change 4294967295 with (Z.ones 32). rewrite Z.ones_spec_low, xorb_true_r by lia.
  f_equal. rewrite orb_comm. f_equal.
Qed.
