(* ===== verification/Devices.v ===== *)
(** * The simple virtio devices (console.rs, blk.rs, balloon.rs, fs.rs, vsock.rs)

    One Module per device: its state, its methods, and its [VirtioDevice]
    instance.  The queue handlers of these five devices only log; the block
    device's sector I/O is reached through [read_sectors]/[write_sectors]. *)

From S2P Require Import Prelude GuestMem Virtqueue Mmio.

(** [value << shift] on [u64]; release builds mask the shift amount. *)
Definition shl64 (v s : Z) : Z := wrap64 (Z.shiftl v (s mod 64)).

(** [self.acked_features |= (value as u64) << (page * 32)]. *)
Definition ack (acked page value : Z) : Z := Z.lor acked (shl64 value (wrap32 (page * 32))).

(** The loop of every [read_config]: byte [i] of the buffer is
    [config.get(offset + i).copied().unwrap_or(0)]. *)
Definition config_window (config : list byte) (offset n : Z) : list byte :=
  (λ i, default x00 (config !! Z.to_nat (offset ⊞ i))) <$> seqZ 0 n.

Module Console.

Record t : Type := {
  acked_features : Z;
  output : list byte;      (* [Arc<Mutex<VecDeque<u8>>>], shared with the VMM *)
  cols : Z;
  rows : Z;
}.

Definition VIRTIO_CONSOLE_DEVICE_TYPE : Z := 3.
Definition VIRTIO_CONSOLE_F_SIZE : Z := 1.

Definition new (out : list byte) : t :=
  {| acked_features := 0; output := out; cols := 80; rows := 25 |}.
Definition set_size (c : t) (cs rs : Z) : t :=
  {| acked_features := acked_features c; output := output c; cols := cs; rows := rs |}.

Definition device_features (page : Z) : Z :=
  if page =? 0 then VIRTIO_CONSOLE_F_SIZE else 0.
Definition ack_features (c : t) (page value : Z) : t :=
  {| acked_features := ack (acked_features c) page value; output := output c;
     cols := cols c; rows := rows c |}.
Definition config_bytes (c : t) : list byte :=
  le_enc 2 (cols c) ++ le_enc 2 (rows c) ++ le_enc 4 1.
Definition read_config (c : t) (offset n : Z) : list byte :=
  config_window (config_bytes c) offset n.
Definition reset (c : t) : t :=
  {| acked_features := 0; output := []; cols := cols c; rows := rows c |}.

#[global] Instance console_device {M W} : VirtioDevice t M W := {
  Mmio.device_type _ := VIRTIO_CONSOLE_DEVICE_TYPE;
  Mmio.num_queues _ := 2%nat;
  Mmio.device_features _ p := device_features p;
  Mmio.ack_features := ack_features;
  Mmio.read_config := read_config;
  Mmio.write_config c _ _ := c;
  Mmio.activate c _ := (Ok tt, c);
  Mmio.queue_notify c _ m w := Ok (c, m, w);
  Mmio.device_reset := reset;
  Mmio.device_poll c m w := Ok (false, (c, m, w));
  Mmio.device_set_tap_fd c _ := c;
  Mmio.activated_queues _ := None;
}.

End Console.

Module Block.

(** A backing [File]: its contents; [None] in [file] is a closed device. *)
Record t : Type := {
  path : string;
  file : option (list byte);
  read_only : bool;
  capacity : Z;            (* in 512-byte sectors *)
  acked_features : Z;
}.

Definition VIRTIO_BLK_DEVICE_TYPE : Z := 2.
Definition VIRTIO_BLK_F_RO : Z := 2 ^ 5.
Definition VIRTIO_BLK_F_BLK_SIZE : Z := 2 ^ 6.
Definition VIRTIO_BLK_F_FLUSH : Z := 2 ^ 9.

(** [open] and [metadata] are the file system's. *)
Definition new (open : string → bool → Z + list byte) (p : string) (ro : bool)
    : outcome Z t :=
  match open p (negb ro) with
  | inl errno => Err errno
  | inr contents =>
      Ok {| path := p; file := Some contents; read_only := ro;
            capacity := zlen contents / 512; acked_features := 0 |}
  end.

(** [file.seek(Start(sector * 512))] then one [read]: the bytes present. *)
Definition read_sectors (b : t) (sector n : Z) : list byte :=
  match file b with
  | Some f => sub_list (wrap64 (sector * 512)) n f
  | None => []
  end.

(** [write] at a position: a gap past the end of the file reads as zeroes. *)
Definition file_write (f : list byte) (pos : Z) (d : list byte) : list byte :=
  match d with
  | [] => f
  | _ => splice pos d (f ++ replicate (Z.to_nat (pos - zlen f)) x00)
  end.

Inductive write_result : Type := Written (n : Z) | PermissionDenied.

Definition write_sectors (b : t) (sector : Z) (d : list byte) : write_result * t :=
  if read_only b then (PermissionDenied, b) else
  match file b with
  | Some f =>
      (Written (zlen d),
       {| path := path b; file := Some (file_write f (wrap64 (sector * 512)) d);
          read_only := read_only b; capacity := capacity b;
          acked_features := acked_features b |})
  | None => (Written 0, b)
  end.

Definition device_features (b : t) (page : Z) : Z :=
  let features := Z.lor VIRTIO_BLK_F_FLUSH VIRTIO_BLK_F_BLK_SIZE in
  let features := if read_only b then Z.lor features VIRTIO_BLK_F_RO else features in
  if page =? 0 then wrap32 features else 0.
Definition ack_features (b : t) (page value : Z) : t :=
  {| path := path b; file := file b; read_only := read_only b; capacity := capacity b;
     acked_features := ack (acked_features b) page value |}.

(** [VirtioBlkConfig] is [repr(C)]: a [u64], three [u32]s and four bytes of
    padding, whose contents the language leaves unspecified. *)
Class Padding : Type := padding : list byte.

Definition config_bytes `{Padding} (b : t) : list byte :=
  le_enc 8 (capacity b) ++ le_enc 4 (2 ^ 20) ++ le_enc 4 128 ++ le_enc 4 512 ++
  take 4 padding.
Definition read_config `{Padding} (b : t) (offset n : Z) : list byte :=
  config_window (config_bytes b) offset n.
Definition reset (b : t) : t :=
  {| path := path b; file := file b; read_only := read_only b; capacity := capacity b;
     acked_features := 0 |}.

#[global] Instance block_device `{Padding} {M W} : VirtioDevice t M W := {
  Mmio.device_type _ := VIRTIO_BLK_DEVICE_TYPE;
  Mmio.num_queues _ := 1%nat;
  Mmio.device_features := device_features;
  Mmio.ack_features := ack_features;
  Mmio.read_config := read_config;
  Mmio.write_config b _ _ := b;
  Mmio.activate b _ := (Ok tt, b);
  Mmio.queue_notify b _ m w := Ok (b, m, w);
  Mmio.device_reset := reset;
  Mmio.device_poll b m w := Ok (false, (b, m, w));
  Mmio.device_set_tap_fd b _ := b;
  Mmio.activated_queues _ := None;
}.

End Block.

Module Balloon.

Record t : Type := { target_pages : Z; actual_pages : Z; acked_features : Z }.

Definition VIRTIO_BALLOON_DEVICE_TYPE : Z := 5.

Definition new : t := {| target_pages := 0; actual_pages := 0; acked_features := 0 |}.
Definition set_target_pages (b : t) (pages : Z) : t :=
  {| target_pages := pages; actual_pages := actual_pages b;
     acked_features := acked_features b |}.
Definition ack_features (b : t) (page value : Z) : t :=
  {| target_pages := target_pages b; actual_pages := actual_pages b;
     acked_features := ack (acked_features b) page value |}.
Definition config_bytes (b : t) : list byte :=
  le_enc 4 (target_pages b) ++ le_enc 4 (actual_pages b).
Definition read_config (b : t) (offset n : Z) : list byte :=
  config_window (config_bytes b) offset n.
Definition write_config (b : t) (offset : Z) (d : list byte) : t :=
  if (offset =? 4) && (4 <=? zlen d) then
    {| target_pages := target_pages b; actual_pages := le_dec (take 4 d);
       acked_features := acked_features b |}
  else b.
Definition reset (b : t) : t :=
  {| target_pages := 0; actual_pages := 0; acked_features := 0 |}.

#[global] Instance balloon_device {M W} : VirtioDevice t M W := {
  Mmio.device_type _ := VIRTIO_BALLOON_DEVICE_TYPE;
  Mmio.num_queues _ := 2%nat;
  Mmio.device_features _ _ := 0;
  Mmio.ack_features := ack_features;
  Mmio.read_config := read_config;
  Mmio.write_config := write_config;
  Mmio.activate b _ := (Ok tt, b);
  Mmio.queue_notify b _ m w := Ok (b, m, w);
  Mmio.device_reset := reset;
  Mmio.device_poll b m w := Ok (false, (b, m, w));
  Mmio.device_set_tap_fd b _ := b;
  Mmio.activated_queues _ := None;
}.

End Balloon.

Module Fs.

Record t : Type := {
  tag : string;
  shared_dir : string;
  num_request_queues : Z;
  acked_features : Z;
}.

Definition VIRTIO_FS_DEVICE_TYPE : Z := 26.

Definition new (tg dir : string) (n : Z) : t :=
  {| tag := tg; shared_dir := dir; num_request_queues := Z.max n 1; acked_features := 0 |}.
Definition ack_features (f : t) (page value : Z) : t :=
  {| tag := tag f; shared_dir := shared_dir f; num_request_queues := num_request_queues f;
     acked_features := ack (acked_features f) page value |}.
(** The tag, cut at 36 bytes and padded with zeroes. *)
Definition config_tag (f : t) : list byte :=
  let b := take 36 (string_bytes (tag f)) in
  b ++ replicate (36 - length b) x00.
Definition config_bytes (f : t) : list byte :=
  config_tag f ++ le_enc 4 (num_request_queues f).
Definition read_config (f : t) (offset n : Z) : list byte :=
  config_window (config_bytes f) offset n.
Definition reset (f : t) : t :=
  {| tag := tag f; shared_dir := shared_dir f; num_request_queues := num_request_queues f;
     acked_features := 0 |}.

#[global] Instance fs_device {M W} : VirtioDevice t M W := {
  Mmio.device_type _ := VIRTIO_FS_DEVICE_TYPE;
  Mmio.num_queues f := S (Z.to_nat (num_request_queues f));
  Mmio.device_features _ _ := 0;
  Mmio.ack_features := ack_features;
  Mmio.read_config := read_config;
  Mmio.write_config f _ _ := f;
  Mmio.activate f _ := (Ok tt, f);
  Mmio.queue_notify f _ m w := Ok (f, m, w);
  Mmio.device_reset := reset;
  Mmio.device_poll f m w := Ok (false, (f, m, w));
  Mmio.device_set_tap_fd f _ := f;
  Mmio.activated_queues _ := None;
}.

End Fs.

Module Vsock.

Record t : Type := { guest_cid : Z; acked_features : Z; vhost_fd : option Z }.

Definition VIRTIO_VSOCK_DEVICE_TYPE : Z := 19.

Definition new (cid : Z) : t := {| guest_cid := cid; acked_features := 0; vhost_fd := None |}.
Definition set_vhost_fd (v : t) (fd : Z) : t :=
  {| guest_cid := guest_cid v; acked_features := acked_features v; vhost_fd := Some fd |}.
Definition ack_features (v : t) (page value : Z) : t :=
  {| guest_cid := guest_cid v; acked_features := ack (acked_features v) page value;
     vhost_fd := vhost_fd v |}.
Definition config_bytes (v : t) : list byte := le_enc 8 (guest_cid v).
Definition read_config (v : t) (offset n : Z) : list byte :=
  config_window (config_bytes v) offset n.
Definition reset (v : t) : t :=
  {| guest_cid := guest_cid v; acked_features := 0; vhost_fd := vhost_fd v |}.

#[global] Instance vsock_device {M W} : VirtioDevice t M W := {
  Mmio.device_type _ := VIRTIO_VSOCK_DEVICE_TYPE;
  Mmio.num_queues _ := 3%nat;
  Mmio.device_features _ _ := 0;
  Mmio.ack_features := ack_features;
  Mmio.read_config := read_config;
  Mmio.write_config v _ _ := v;
  Mmio.activate v _ := (Ok tt, v);
  Mmio.queue_notify v _ m w := Ok (v, m, w);
  Mmio.device_reset := reset;
  Mmio.device_poll v m w := Ok (false, (v, m, w));
  Mmio.device_set_tap_fd v _ := v;
  Mmio.activated_queues _ := None;
}.

End Vsock.

(** ** Configuration windows *)

Lemma config_window_inside c off n :
  0 ≤ off → 0 ≤ n → off + n ≤ zlen c → zlen c < 2 ^ 64 →
  config_window c off n = sub_list off n c.
Proof.
  intros Ho Hn Hl Hc. unfold config_window.
  rewrite <- (zlen_sub_list off n c) at 1 by lia.
  apply (fmap_seqZ_list x00). rewrite zlen_sub_list by lia. intros i Hi.
  rewrite add64_small by (unfold fits; lia).
  rewrite lookup_sub_list by lia. do 2 f_equal. lia.
Qed.

Lemma config_window_outside c off n :
  zlen c ≤ off → off + n ≤ 2 ^ 64 → 0 ≤ n → config_window c off n = replicate (Z.to_nat n) x00.
Proof.
  intros Ho Hc Hn. unfold config_window. pose proof (zlen_nonneg c).
  replace n with (zlen (replicate (Z.to_nat n) x00)) at 1 by (rewrite zlen_replicate; lia).
  apply (fmap_seqZ_list x00). rewrite zlen_replicate. intros i Hi.
  rewrite add64_small by (unfold fits; lia). rewrite lookup_ge_None_2 by (unfold zlen in *; lia).
  rewrite lookup_replicate_2 by lia. done.
Qed.

Section Config.
Context {D M W : Type} `{VirtioDevice D M W}.
Implicit Types (t : MmioTransport D).

Lemma mmio_read_config t off :
  0 ≤ off →
  mmio_read (M:=M) (W:=W) t (MMIO_CONFIG_SPACE + off) =
    le_dec (read_config (M:=M) (W:=W) (device t) off 4).
Proof.
  intros Ho. unfold mmio_read.
  repeat (rewrite (proj2 (Z.eqb_neq _ _)) by
    (unfold MMIO_CONFIG_SPACE, MMIO_MAGIC_VALUE, MMIO_VERSION, MMIO_DEVICE_ID, MMIO_VENDOR_ID,
       MMIO_DEVICE_FEATURES, MMIO_QUEUE_NUM_MAX, MMIO_QUEUE_READY, MMIO_INTERRUPT_STATUS,
       MMIO_STATUS, MMIO_CONFIG_GENERATION; lia)).
  rewrite (proj2 (Z.leb_le _ _)) by lia. do 2 f_equal. lia.
Qed.

End Config.

Lemma file_write_read f pos d :
  0 ≤ pos → sub_list pos (zlen d) (Block.file_write f pos d) = d.
Proof.
  intros Hp. destruct d as [|x d]; [done|]. unfold Block.file_write.
  apply sub_list_splice_same; [done|]. autorewrite with zlen. lia.
Qed.

Lemma file_write_other f pos d a n :
  0 ≤ pos → 0 ≤ a → 0 ≤ n → a + n ≤ zlen f → a + n ≤ pos ∨ pos + zlen d ≤ a →
  sub_list a n (Block.file_write f pos d) = sub_list a n f.
Proof.
  intros Hp Ha Hn Hl Hd. destruct d as [|x d]; [done|]. unfold Block.file_write.
  rewrite sub_list_splice_other; try done; autorewrite with zlen; try lia.
  by apply sub_list_app_l.
Qed.

(** ** Properties *)

(** The block device's registers tell the guest the disk's size: the two
    32-bit reads of the capacity field, put together, are the number of whole
    512-byte sectors of the backing file. *)
Theorem blk_capacity_register `{Block.Padding} {M W} open p ro b (t : MmioTransport Block.t) f :
  Block.new open p ro = Ok b → device t = b → Block.file b = Some f → zlen f < 2 ^ 63 →
  mmio_read (M:=M) (W:=W) t 0x100 + 2 ^ 32 * mmio_read (M:=M) (W:=W) t 0x104 = zlen f / 512.
Proof.
  intros Hnew Ht Hf Hl. unfold Block.new in Hnew.
  destruct (open p (negb ro)) as [|c]; [done|]. injection Hnew as <-. simpl in Hf.
  injection Hf as ->. pose proof (zlen_nonneg f).
  change 0x100 with (MMIO_CONFIG_SPACE + 0). change 0x104 with (MMIO_CONFIG_SPACE + 4).
  rewrite !mmio_read_config by lia. rewrite Ht. simpl. unfold Block.read_config.
  set (b := {| Block.path := p |}).
  assert (Hc : 20 ≤ zlen (Block.config_bytes b) ∧ zlen (Block.config_bytes b) ≤ 24).
  { unfold Block.config_bytes. autorewrite with zlen. unfold zlen.
    rewrite length_take. lia. }
  rewrite !config_window_inside by lia.
  assert (Hsub : ∀ off, 0 ≤ off → off + 4 ≤ 8 →
    sub_list off 4 (Block.config_bytes b) = sub_list off 4 (le_enc 8 (zlen f / 512))).
  { intros off ? ?. apply sub_list_app_l; rewrite ?zlen_le_enc; lia. }
  rewrite !Hsub by lia.
  change (2 ^ 32) with (2 ^ (8 * 4)). rewrite (le_dec_sub_split 4 4) by (rewrite ?zlen_le_enc; lia).
  rewrite le_dec_enc. apply wrap_small. unfold fits. width_lia.
Qed.

(** Sector writes behave like a disk's: what is written to a writable
    device is read back from the same sector, sectors the write does not
    cover keep their contents, and a read-only device refuses the write and
    stays as it was. *)
Theorem blk_write_read b f sector d :
  Block.file b = Some f → fits 64 (sector * 512) → 0 ≤ sector →
  let '(r, b') := Block.write_sectors b sector d in
  if Block.read_only b then r = Block.PermissionDenied ∧ b' = b
  else r = Block.Written (zlen d) ∧ Block.read_sectors b' sector (zlen d) = d ∧
       ∀ s n, 0 ≤ s → 0 ≤ n → s * 512 + n ≤ zlen f → fits 64 (s * 512) →
         s * 512 + n ≤ sector * 512 ∨ sector * 512 + zlen d ≤ s * 512 →
         Block.read_sectors b' s n = Block.read_sectors b s n.
Proof.
  intros Hf Hs H0. unfold Block.write_sectors. destruct (Block.read_only b) eqn:Hro; [done|].
  rewrite Hf. unfold Block.read_sectors. simpl. rewrite (wrap_small 64) by done.
  split; [done|]. split; [by apply file_write_read; lia|].
  intros s n Hs0 Hn Hl Hfit Hdis. rewrite Hf, wrap_small by done.
  apply file_write_other; lia.
Qed.

(** The balloon's registers: the guest's write of [actual] through the
    configuration space is what the host then reads as the reclaimed page
    count and what the guest reads back; the target the host set is untouched
    and readable, and the configuration generation has changed. *)
Theorem balloon_actual_roundtrip {M W} (t t' : MmioTransport Balloon.t) v (m m' : M) (w w' : W) :
  fits 32 v → fits 32 (Balloon.target_pages (device t)) → fits 32 (config_generation t) →
  mmio_write t 0x104 v m w = Ok (t', m', w') →
  Balloon.actual_pages (device t') = v ∧
  mmio_read (M:=M) (W:=W) t' 0x104 = v ∧
  mmio_read (M:=M) (W:=W) t' 0x100 = Balloon.target_pages (device t) ∧
  mmio_read (M:=M) (W:=W) t' MMIO_CONFIG_GENERATION ≠ config_generation t ∧
  m' = m ∧ w' = w.
Proof.
  intros Hv Ht Hg Hw.
  change (Ok (set_config_generation (set_device t (Balloon.write_config (device t) 4 (le_enc 4 v)))
     (wrap32 (config_generation t + 1)), m, w) = Ok (t', m', w') :> infallible _) in Hw.
  unfold Balloon.write_config in Hw. rewrite zlen_le_enc in Hw.
  rewrite firstn_all2 in Hw by (rewrite length_le_enc; lia). simpl in Hw.
  rewrite le_dec_enc, wrap_small in Hw by done. injection Hw as <- <- <-.
  change 0x104 with (MMIO_CONFIG_SPACE + 4). change 0x100 with (MMIO_CONFIG_SPACE + 0).
  rewrite !mmio_read_config by lia. simpl. unfold Balloon.read_config.
  rewrite !config_window_inside by (unfold Balloon.config_bytes; autorewrite with zlen; lia).
  unfold Balloon.config_bytes. simpl.
  split_and!; [done|by pod_field|by pod_field| |done|done].
  unfold mmio_read. simpl. intros Heq. width_lia.
Qed.

(** ** Witnesses *)

Definition demo_cfgs : list queue_cfg :=
  [{| c_num := 128; c_desc := 0x100000000; c_avail := 0x100002000; c_used := 0x100003000 |};
   {| c_num := 64; c_desc := 4096; c_avail := 8192; c_used := 12288 |}].

Lemma demo_cfgs_ok : Forall queue_cfg_ok demo_cfgs.
Proof. repeat constructor; vm_compute; done. Qed.

Lemma driver_init_activates_witness :
  after_activate Balloon.new (programmed <$> demo_cfgs)
    (mmio_writes (fresh_transport (M:=unit) (W:=unit) Balloon.new) (driver_init demo_cfgs) tt tt)
    tt tt.
Proof.
  apply (driver_init_activates Balloon.new demo_cfgs tt tt demo_cfgs_ok). reflexivity.
Defined.

Lemma reset_loses_queues_witness :
  ∃ t', mmio_writes (fresh_transport (M:=unit) (W:=unit) Balloon.new)
          (driver_init demo_cfgs ++ [(MMIO_STATUS, 0)]) tt tt = Ok (t', tt, tt) ∧
  mmio_read (M:=unit) (W:=unit) t' MMIO_QUEUE_NUM_MAX = 0 ∧
  after_activate (device_reset (M:=unit) (W:=unit) Balloon.new) []
    (mmio_writes t' (driver_init demo_cfgs) tt tt) tt tt.
Proof.
  eexists. split; [vm_compute; reflexivity|].
  apply (reset_loses_queues Balloon.new Balloon.new demo_cfgs _ tt tt tt tt demo_cfgs_ok);
    vm_compute; reflexivity.
Defined.

Definition demo_ops : list transport_op :=
  [OpSetMemory; OpWrite MMIO_STATUS 15; OpPoll; OpWrite MMIO_QUEUE_NOTIFY 0;
   OpWrite MMIO_STATUS 15; OpWrite MMIO_STATUS 0; OpWrite MMIO_STATUS 4].


Lemma interrupt_ack_clears_witness :
  let t := set_interrupt_status (MmioTransport_new (M:=unit) (W:=unit) Balloon.new) 2 in
  ∃ t', mmio_write (raise_interrupt t) MMIO_INTERRUPT_ACK 1 tt tt = Ok (t', tt, tt) ∧
  ∀ i, 0 ≤ i < 32 →
  Z.testbit (mmio_read (M:=unit) (W:=unit) t' MMIO_INTERRUPT_STATUS) i =
    ((i =? 0) || Z.testbit (interrupt_status t) i) && negb (Z.testbit 1 i).
Proof.
  intros t. eexists. split; [reflexivity|].
  apply (interrupt_ack_clears t _ 1 tt tt tt tt); [by vm_compute..|reflexivity].
Defined.

Definition demo_disk (p : string) (w : bool) : Z + list byte := inr (replicate 1500 x00).
Definition demo_blk (ro : bool) : Block.t :=
  {| Block.path := "/disk"; Block.file := Some (replicate 1500 x00); Block.read_only := ro;
     Block.capacity := 2; Block.acked_features := 0 |}.

Lemma blk_capacity_register_witness :
  let t := MmioTransport_new (M:=unit) (W:=unit) (H:=Block.block_device (H:=[])) (demo_blk false) in
  mmio_read (M:=unit) (W:=unit) (H:=Block.block_device (H:=[])) t 0x100 +
  2 ^ 32 * mmio_read (M:=unit) (W:=unit) (H:=Block.block_device (H:=[])) t 0x104
    = zlen (replicate 1500 x00) / 512.
Proof.
  intros t.
  apply (blk_capacity_register (H:=[]) demo_disk "/disk" false (demo_blk false) t);
    vm_compute; reflexivity.
Defined.

Lemma blk_write_read_witness :
  let '(r, b') := Block.write_sectors (demo_blk false) 1 (le_enc 8 77) in
  r = Block.Written 8 ∧ Block.read_sectors b' 1 8 = le_enc 8 77.
Proof.
  pose proof (blk_write_read (demo_blk false) (replicate 1500 x00) 1 (le_enc 8 77) eq_refl) as Hb.
  destruct (Block.write_sectors (demo_blk false) 1 (le_enc 8 77)) as [r b'].
  destruct Hb as (Hr & Hrd & _); [by vm_compute|lia|].
  split; [exact Hr|exact Hrd].
Defined.

Lemma balloon_actual_roundtrip_witness :
  let t := MmioTransport_new (M:=unit) (W:=unit) Balloon.new in
  ∃ t', mmio_write t 0x104 512 tt tt = Ok (t', tt, tt) ∧
  Balloon.actual_pages (device t') = 512 ∧ mmio_read (M:=unit) (W:=unit) t' 0x104 = 512 ∧
  mmio_read (M:=unit) (W:=unit) t' 0x100 = Balloon.target_pages (device t) ∧
  mmio_read (M:=unit) (W:=unit) t' MMIO_CONFIG_GENERATION ≠ config_generation t ∧
  tt = tt ∧ tt = tt.
Proof.
  intros t. eexists. split; [vm_compute; reflexivity|].
  apply (balloon_actual_roundtrip t _ 512 tt tt tt tt); by vm_compute.
Defined.
