(* ===== verification/Net.v ===== *)
(** * The virtio network device (crates/nova-virtio/src/net.rs)

    [process_tx] gathers a packet from the readable descriptors of a chain
    and hands it to the TAP; [process_rx] scatters a received frame over the
    writable ones.  The TAP and the interrupt eventfd are the host's
    ([HostIo]). *)

From S2P Require Import Prelude GuestMem Virtqueue Mmio Devices.

Definition VIRTIO_NET_DEVICE_TYPE : Z := 1.
Definition VIRTIO_NET_F_MAC : Z := 2 ^ 5.
Definition VIRTIO_NET_F_STATUS : Z := 2 ^ 16.
Definition MAX_FRAME_SIZE : Z := 1514.
Definition VNET_HDR_SIZE : Z := 12.

Record VirtioNetConfig : Type := { mac : list byte; link_status : Z }.

(** [mem: Option<Arc<GuestMemoryMmap>>] is whether it is set, as in
    [MmioTransport]. *)
Record Net : Type := {
  tap_fd : option Z;
  tap_name : string;
  config : VirtioNetConfig;
  acked_features : Z;
  net_queues : option (list Queue);
  net_mem : bool;
  irq_fd : option Z;
}.

Definition Net_new (name : string) (m : list byte) : Net :=
  {| tap_fd := None; tap_name := name; config := {| mac := m; link_status := 1 |};
     acked_features := 0; net_queues := None; net_mem := false; irq_fd := None |}.

Definition set_tap_fd (n : Net) (fd : Z) : Net :=
  {| tap_fd := Some fd; tap_name := tap_name n; config := config n;
     acked_features := acked_features n; net_queues := net_queues n; net_mem := net_mem n;
     irq_fd := irq_fd n |}.
Definition set_irq_fd (n : Net) (fd : Z) : Net :=
  {| tap_fd := tap_fd n; tap_name := tap_name n; config := config n;
     acked_features := acked_features n; net_queues := net_queues n; net_mem := net_mem n;
     irq_fd := Some fd |}.
Definition set_net_queues (n : Net) (qs : option (list Queue)) (m : bool) : Net :=
  {| tap_fd := tap_fd n; tap_name := tap_name n; config := config n;
     acked_features := acked_features n; net_queues := qs; net_mem := m; irq_fd := irq_fd n |}.
Definition net_ack_features (n : Net) (page value : Z) : Net :=
  {| tap_fd := tap_fd n; tap_name := tap_name n; config := config n;
     acked_features := ack (acked_features n) page value; net_queues := net_queues n;
     net_mem := net_mem n; irq_fd := irq_fd n |}.
Definition net_reset (n : Net) : Net :=
  {| tap_fd := tap_fd n; tap_name := tap_name n; config := config n;
     acked_features := 0; net_queues := None; net_mem := false; irq_fd := irq_fd n |}.

Definition net_device_features (page : Z) : Z :=
  if page =? 0 then wrap32 (Z.lor VIRTIO_NET_F_MAC VIRTIO_NET_F_STATUS) else 0.

Definition net_config_bytes (n : Net) : list byte :=
  mac (config n) ++ le_enc 2 (link_status (config n)).

Section Io.
Context {M W : Type} `{ByteMemory M} `{HostIo W}.

(** The frame of a TX chain: the readable buffers after the first [skip]
    bytes; a buffer that cannot be read contributes nothing. *)
Fixpoint tx_frame (m : M) (skip : Z) (ds : list VirtqDesc) : list byte :=
  match ds with
  | [] => []
  | d :: ds =>
      let len := desc_len d in
      if len <=? skip then tx_frame m (skip - len) ds
      else match bm_read m (desc_addr d ⊞ skip) (len - skip) with
           | Ok buf => buf
           | _ => []
           end ++ tx_frame m 0 ds
  end.

Fixpoint tx_loop (fuel : nat) (fd : Z) (q : Queue) (m : M) (w : W) (count : nat)
    : infallible (nat * (Queue * M * W)) :=
  match fuel with
  | O => Err OutOfFuel
  | S fuel =>
      match pop q m with
      | (Ok (Some c), q) =>
          let frame := tx_frame m VNET_HDR_SIZE (readable c) in
          let w := match frame with [] => w | _ => tap_write w fd frame end in
          match add_used q m (head_index c) 0 with
          | (Panic p, _) => Panic p
          | (_, (q, m)) => tx_loop fuel fd q m w (S count)
          end
      | (Panic p, _) => Panic p
      | (_, q) => Ok (count, (q, m, w))
      end
  end.

(** The ring indices are 16 bits wide, so a run that consumes an entry per
    iteration ends within 2^16 of them. *)
Definition TX_FUEL : nat := Z.to_nat 65537.

Definition process_tx (n : Net) (m : M) (w : W) : infallible (nat * (Net * M * W)) :=
  match tap_fd n with
  | None => Ok (0%nat, (n, m, w))
  | Some fd =>
      match net_queues n, net_mem n with
      | Some qs, true =>
          match qs !! 1%nat with
          | None => Ok (0%nat, (n, m, w))
          | Some q =>
              '(count, (q, m, w)) ← tx_loop TX_FUEL fd q m w 0;
              Ok (count, (set_net_queues n (Some (<[1%nat := q]> qs)) true, m, w))
          end
      | _, _ => Ok (0%nat, (n, m, w))
      end
  end.

(** The payload over the writable buffers; a failed write is ignored, but
    counts as written. *)
Fixpoint rx_scatter (m : M) (payload : list byte) (written : Z) (ds : list VirtqDesc)
    : M * Z :=
  match ds with
  | [] => (m, written)
  | d :: ds =>
      if zlen payload <=? written then (m, written) else
      let write_len := Z.min (desc_len d) (zlen payload - written) in
      let m := match bm_write m (desc_addr d) (sub_list written write_len payload) with
               | Ok m => m
               | _ => m
               end in
      rx_scatter m payload (written + write_len) ds
  end.

Definition vnet_hdr : list byte := replicate 12 x00.

Fixpoint rx_loop (fuel : nat) (fd : Z) (q : Queue) (m : M) (w : W) (received : bool)
    : infallible (bool * (Queue * M * W)) :=
  match fuel with
  | O => Err OutOfFuel
  | S fuel =>
      match tap_read w fd MAX_FRAME_SIZE with
      | ([], w) => Ok (received, (q, m, w))
      | (frame, w) =>
          match pop q m with
          | (Ok (Some c), q) =>
              let '(m, written) := rx_scatter m (vnet_hdr ++ frame) 0 (writable c) in
              match add_used q m (head_index c) (wrap32 written) with
              | (Panic p, _) => Panic p
              | (_, (q, m)) => rx_loop fuel fd q m w true
              end
          | (Panic p, _) => Panic p
          | (_, q) => Ok (received, (q, m, w))
          end
      end
  end.

Definition RX_FUEL : nat := Z.to_nat 65537.

Definition signal_irq (n : Net) (w : W) : W :=
  match irq_fd n with Some fd => eventfd_signal w fd | None => w end.

Definition process_rx (n : Net) (m : M) (w : W) : infallible (bool * (Net * M * W)) :=
  match tap_fd n with
  | None => Ok (false, (n, m, w))
  | Some fd =>
      match net_queues n, net_mem n with
      | Some qs, true =>
          match qs !! 0%nat with
          | None => Ok (false, (n, m, w))
          | Some q =>
              '(received, (q, m, w)) ← rx_loop RX_FUEL fd q m w false;
              let w := if received : bool then signal_irq n w else w in
              Ok (received, (set_net_queues n (Some (<[0%nat := q]> qs)) true, m, w))
          end
      | _, _ => Ok (false, (n, m, w))
      end
  end.

Definition net_queue_notify (n : Net) (idx : Z) (m : M) (w : W) : infallible (Net * M * W) :=
  if idx =? 1 then '(_, s) ← process_tx n m w; Ok s else Ok (n, m, w).

#[global] Instance net_device : VirtioDevice Net M W := {
  device_type _ := VIRTIO_NET_DEVICE_TYPE;
  num_queues _ := 2%nat;
  device_features _ p := net_device_features p;
  ack_features := net_ack_features;
  read_config n off len := config_window (net_config_bytes n) off len;
  write_config n _ _ := n;
  activate n qs := (Ok tt, set_net_queues n (Some qs) true);
  queue_notify := net_queue_notify;
  device_reset := net_reset;
  device_poll := process_rx;
  device_set_tap_fd := set_tap_fd;
  activated_queues := net_queues;
}.

End Io.

(** ** Packets in flat memory *)

Section Packets.
Context `{ByteMemoryLaws M}.
Implicit Types (m : M) (ds : list VirtqDesc).

(** A buffer the guest described properly. *)
Record desc_ok (m : M) (d : VirtqDesc) : Prop := {
  dok_len : fits 32 (desc_len d);
  dok_mapped : bm_mapped m (desc_addr d) (desc_len d);
}.

Definition desc_bytes m (d : VirtqDesc) : list byte :=
  bm_byte m <$> seqZ (desc_addr d) (desc_len d).

Definition gather m ds : list byte := mjoin (desc_bytes m <$> ds).

Definition desc_disjoint (d d' : VirtqDesc) : Prop :=
  desc_addr d + desc_len d ≤ desc_addr d' ∨ desc_addr d' + desc_len d' ≤ desc_addr d.

Lemma desc_ok_mapped m d k n :
  desc_ok m d → 0 ≤ k → k < desc_len d → 0 ≤ n → k + n ≤ desc_len d →
  bm_mapped m (desc_addr d + k) n.
Proof. intros [_ Hm] ? ? ? ?. by eapply bm_mapped_sub. Qed.

Lemma zlen_desc_bytes m d : desc_ok m d → zlen (desc_bytes m d) = desc_len d.
Proof. intros [[? ?] _]. by apply zlen_fmap_seqZ. Qed.

(** The frame handed to the TAP is the packet without its vnet header. *)
Lemma tx_frame_gather m ds skip :
  bm_wf m → Forall (desc_ok m) ds → 0 ≤ skip →
  tx_frame m skip ds = drop (Z.to_nat skip) (gather m ds).
Proof.
  intros Hwf Hds. revert skip. induction Hds as [|d ds Hd _ IH]; intros skip Hs; simpl.
  { unfold gather. simpl. by rewrite drop_nil. }
  pose proof (zlen_desc_bytes m d Hd) as Hl. destruct (dok_len _ _ Hd) as [Hd0 Hd1].
  destruct (desc_len d <=? skip) eqn:E; to_prop.
  - rewrite IH by lia. unfold gather. simpl. rewrite drop_app_ge by (unfold zlen in Hl; lia).
    f_equal. unfold zlen in Hl. lia.
  - pose proof (bm_mapped_range _ _ _ Hwf (dok_mapped _ _ Hd)).
    assert (fits 64 (desc_addr d + skip)) by (unfold fits; lia).
    rewrite add64_small by done.
    rewrite bm_read_ok; [|done|unfold fits in *; lia|apply desc_ok_mapped; lia || done].
    unfold gather. simpl. rewrite IH by lia. unfold gather.
    rewrite drop_app_le by (unfold zlen in Hl; lia). rewrite drop_0. f_equal.
    unfold desc_bytes. by rewrite drop_fmap_seqZ by done.
Qed.

(** What a scatter does to the memory. *)
Record scattered (m m' : M) (ds : list VirtqDesc) : Prop := {
  sc_wf : bm_wf m';
  sc_mapped : ∀ b k, bm_mapped m' b k ↔ bm_mapped m b k;
  sc_frame : ∀ a, (∀ d, d ∈ ds → ¬ (desc_addr d ≤ a < desc_addr d + desc_len d)) →
    bm_byte m' a = bm_byte m a;
}.

Lemma desc_ok_scattered m m' ds d : scattered m m' ds → desc_ok m d → desc_ok m' d.
Proof. intros Hs [? ?]. split; [done|]. by apply (sc_mapped _ _ _ Hs). Qed.

Lemma desc_bytes_scattered m m' ds d :
  scattered m m' ds → (∀ d', d' ∈ ds → desc_disjoint d d') → desc_bytes m' d = desc_bytes m d.
Proof.
  intros Hs Hd. apply fmap_seqZ_ext. intros i Hi. apply (sc_frame _ _ _ Hs).
  intros d' Hd'. specialize (Hd d' Hd'). unfold desc_disjoint in Hd. lia.
Qed.

(** One buffer's write. *)
Lemma scatter_one m d bs :
  bm_wf m → desc_ok m d → zlen bs ≤ desc_len d → bs ≠ [] →
  ∃ m', bm_write m (desc_addr d) bs = Ok m' ∧ scattered m m' [d] ∧
        take (length bs) (desc_bytes m' d) = bs.
Proof.
  intros Hwf Hd Hl Hne. destruct (dok_len _ _ Hd) as [Hd0 Hd1].
  assert (0 < zlen bs) by (destruct bs; [done|rewrite zlen_cons; pose proof (zlen_nonneg bs); lia]).
  assert (Hm : bm_mapped m (desc_addr d) (zlen bs)).
  { replace (desc_addr d) with (desc_addr d + 0) by lia. apply desc_ok_mapped; lia || done. }
  destruct (bm_write_ok m (desc_addr d) bs) as (m' & Hw & Hwf' & Hmap & Hb);
    [done|unfold fits; lia|done|].
  exists m'. split; [done|]. split.
  - split; [done|done|]. intros a Ha. rewrite Hb.
    rewrite decide_False; [done|]. specialize (Ha d). rewrite list_elem_of_singleton in Ha.
    specialize (Ha eq_refl). lia.
  - unfold desc_bytes. replace (length bs) with (Z.to_nat (zlen bs)) by (unfold zlen; lia).
    rewrite take_fmap_seqZ by lia. apply (fmap_seqZ_list x00). intros i Hi.
    rewrite Hb. by rewrite decide_True.
Qed.

Lemma scattered_app m m1 m2 ds ds' :
  scattered m m1 ds → scattered m1 m2 ds' → scattered m m2 (ds ++ ds').
Proof.
  intros [_ Hmap1 Hf1] [? Hmap2 Hf2]. split; [done| |].
  - intros b k. by rewrite Hmap2, Hmap1.
  - intros a Ha. rewrite Hf2 by (intros d Hd; apply Ha, elem_of_app; by right).
    apply Hf1. intros d Hd. apply Ha, elem_of_app. by left.
Qed.

Lemma scattered_refl m ds : bm_wf m → scattered m m ds.
Proof. by split. Qed.

Lemma scattered_mono m m' ds ds' : scattered m m' ds → ds ⊆ ds' → scattered m m' ds'.
Proof. intros [? ? Hf] Hsub. split; [done..|]. intros a Ha. apply Hf. auto. Qed.

(** Bytes the buffers can take. *)
Definition room ds : Z := foldr (λ d n, desc_len d + n) 0 ds.

Lemma room_nonneg ds : Forall (λ d, 0 < desc_len d) ds → 0 ≤ room ds.
Proof. induction 1; simpl; lia. Qed.

Lemma zlen_gather m ds : Forall (desc_ok m) ds → zlen (gather m ds) = room ds.
Proof.
  induction 1 as [|d ds Hd _ IH]; [done|].
  change (gather m (d :: ds)) with (desc_bytes m d ++ gather m ds).
  by rewrite zlen_app, IH, zlen_desc_bytes.
Qed.

(** Scattering a payload that fits: all of it is written, the buffers hold
    exactly the payload, and no other byte of the memory changes. *)
Lemma rx_scatter_ok m payload w ds :
  bm_wf m → Forall (desc_ok m) ds → Forall (λ d, 0 < desc_len d) ds →
  ForallOrdPairs desc_disjoint ds →
  0 ≤ w ≤ zlen payload → zlen payload - w ≤ room ds →
  let '(m', w') := rx_scatter m payload w ds in
  w' = zlen payload ∧ scattered m m' ds ∧
  take (Z.to_nat (zlen payload - w)) (gather m' ds) = drop (Z.to_nat w) payload.
Proof.
  intros Hwf Hok Hpos Hdis. revert m w Hwf Hok.
  induction Hdis as [|d ds Hd Hdis IH]; intros m w Hwf Hok Hw Hroom; simpl in *.
  { split; [lia|]. split; [by apply scattered_refl|].
    replace (zlen payload - w) with 0 by lia. symmetry. apply drop_ge.
    unfold zlen in *. lia. }
  apply Forall_cons in Hok as [Hok1 Hok]. apply Forall_cons in Hpos as [Hpos1 Hpos].
  destruct (zlen payload <=? w) eqn:E; to_prop.
  { split; [lia|]. split; [by apply scattered_refl|].
    replace (zlen payload - w) with 0 by lia. symmetry. apply drop_ge.
    unfold zlen in *. lia. }
  pose proof (room_nonneg ds Hpos).
  remember (Z.min (desc_len d) (zlen payload - w)) as len eqn:Hlen.
  assert (Hbs : zlen (sub_list w len payload) = len) by (apply zlen_sub_list; lia).
  destruct (scatter_one m d (sub_list w len payload)) as (m1 & Hw1 & Hs1 & Ht1);
    [done|done|lia|intros Hnil; rewrite Hnil, zlen_nil in Hbs; lia|].
  rewrite Hw1.
  specialize (IH Hpos m1 (w + len) (sc_wf _ _ _ Hs1)).
  destruct (rx_scatter m1 payload (w + len) ds) as [m2 w2].
  destruct IH as (-> & Hs2 & Ht2).
  { eapply Forall_impl; [exact Hok|]. intros d' Hd'. by eapply desc_ok_scattered. }
  { lia. }
  { lia. }
  split; [done|]. split.
  { by apply (scattered_app m m1 m2 [d] ds). }
  unfold gather in *. simpl.
  rewrite (desc_bytes_scattered m1 m2 ds d) by
    (done || intros d' Hd'; by eapply Forall_forall in Hd).
  assert (Hl : zlen (desc_bytes m1 d) = desc_len d)
    by (apply zlen_desc_bytes; by eapply desc_ok_scattered).
  assert (Hsub : drop (Z.to_nat w) payload = sub_list w len payload ++ drop (Z.to_nat (w + len)) payload).
  { unfold sub_list. replace (Z.to_nat (w + len)) with (Z.to_nat w + Z.to_nat len)%nat by lia.
    by rewrite <- drop_drop, firstn_skipn. }
  rewrite Hsub, <- Ht2.
  destruct (decide (desc_len d ≤ zlen payload - w)) as [Hle|Hgt].
  - assert (len = desc_len d) by lia.
    rewrite take_app_ge by (unfold zlen in Hl; lia). f_equal.
    + rewrite <- Ht1. rewrite firstn_all2; [done|]. unfold zlen in *. lia.
    + f_equal. unfold zlen in *. lia.
  - assert (len = zlen payload - w) by lia.
    rewrite take_app_le by (unfold zlen in Hl; lia).
    replace (zlen payload - (w + len)) with 0 by lia. rewrite take_0, app_nil_r.
    rewrite <- Ht1. f_equal. unfold zlen in *. lia.
Qed.

End Packets.

(** ** The rings during a run *)

(** The used ring does not wrap, and the driver's index word is not in it. *)
Record rings_separate (q : Queue) : Prop := {
  rs_used : used_ring q + (4 + q_size q * 8) ≤ 2 ^ 64;
  rs_avail : avail_ring q + 4 ≤ 2 ^ 64;
  rs_disjoint : used_ring q + (4 + q_size q * 8) ≤ avail_ring q + 2 ∨
                avail_ring q + 4 ≤ used_ring q;
}.

Section Rings.
Context `{ByteMemoryLaws M}.
Implicit Types (q : Queue) (m : M).

(** [add_used] only ever touches the used ring, whatever it returns. *)
Lemma add_used_frame q m h n r q' m' :
  bm_wf m → queue_wf q → rings_separate q → add_used q m h n = (r, (q', m')) →
  bm_wf m' ∧ (∀ b k, bm_mapped m' b k ↔ bm_mapped m b k) ∧
  (∀ a, ¬ (used_ring q ≤ a < used_ring q + (4 + q_size q * 8)) → bm_byte m' a = bm_byte m a) ∧
  (q' = q ∨ q' = set_next_used q (wrap16 (next_used q + 1))).
Proof.
  intros Hwf [[Hs0 _] _ _ [Hu0 _] _ _] [Hu _ _] Ha. unfold add_used, rem_checked in Ha.
  destruct (q_size q =? 0) eqn:Hz; simplify_eq; [by eauto 10|]. to_prop.
  assert (0 ≤ next_used q mod q_size q < q_size q) by (apply Z.mod_pos_bound; lia).
  rewrite !add64_small in Ha by (unfold fits; lia).
  destruct (write_obj pod_used_elem m _ _) as [m1| |] eqn:Hw1; simplify_eq; [|by eauto 10..].
  apply (write_obj_spec pod_used_elem) in Hw1 as (Hwf1 & Hmap1 & Hf1 & _); [|done..].
  simpl in Hf1.
  destruct (write_obj pod_u16 m1 _ _) as [m2| |] eqn:Hw2; simplify_eq.
  2,3: split_and!; try done; [|by right]; intros; apply Hf1; lia.
  apply (write_obj_spec pod_u16) in Hw2 as (Hwf2 & Hmap2 & Hf2 & _); [|done..].
  simpl in Hf2. split_and!; [done| | |by right].
  - intros b k. by rewrite Hmap2, Hmap1.
  - intros a Hn. rewrite Hf2 by lia. apply Hf1. lia.
Qed.

Lemma vread_u16_fits m a i : bm_wf m → vread pod_u16 m a = Ok i → fits 16 i.
Proof.
  intros Hwf Hr. unfold vread in Hr. destruct (read_obj pod_u16 m a) eqn:E; simplify_eq/=.
  by apply (read_obj_dom pod_u16) in E.
Qed.

(** Memory that agrees on the driver's index reads the same index. *)
Lemma avail_idx_frame q m m' :
  bm_wf m → bm_wf m' → 0 ≤ avail_ring q → avail_ring q + 4 ≤ 2 ^ 64 →
  (∀ b k, bm_mapped m' b k ↔ bm_mapped m b k) →
  (∀ a, avail_ring q + 2 ≤ a < avail_ring q + 4 → bm_byte m' a = bm_byte m a) →
  ∀ i, vread pod_u16 m' (avail_ring q ⊞ 2) = Ok i → vread pod_u16 m (avail_ring q ⊞ 2) = Ok i.
Proof.
  intros Hwf Hwf' Hr0 Hr Hmap Hb i. rewrite add64_small by (unfold fits; lia).
  intros Hi. unfold vread in *.
  destruct (decide (bm_mapped m (avail_ring q + 2) 2)) as [Hm|Hm].
  - erewrite <- read_obj_frame; [exact Hi|done..| |exact Hm].
    simpl. intros a Ha. apply Hb. lia.
  - destruct (bm_read_err m' (avail_ring q + 2) 2) as [e He]; [done|done|by rewrite Hmap|].
    unfold read_obj in Hi. simpl in Hi. by rewrite He in Hi.
Qed.

Lemma pop_queue q m r q' :
  pop q m = (r, q') → q' = q ∨ (∃ c, r = Ok (Some c)) ∧ q' = set_next_avail q (wrap16 (next_avail q + 1)).
Proof.
  unfold pop. destruct (pop_chain q m) as [[c|]| |]; intros; simplify_eq; eauto 10.
Qed.

Lemma pop_some_pending q m c q' i :
  queue_wf q → bm_wf m → pop q m = (Ok (Some c), q') → vread pod_u16 m (avail_ring q ⊞ 2) = Ok i →
  0 < pending q i ∧ pending q' i = pending q i - 1 ∧ queue_wf q' ∧
  q' = set_next_avail q (wrap16 (next_avail q + 1)).
Proof.
  intros Hq Hwf Hp Hi. pose proof (vread_u16_fits _ _ _ Hwf Hi) as Hfi.
  unfold pop in Hp. destruct (pop_chain q m) as [[c'|]| |] eqn:Hc; simplify_eq.
  apply pop_chain_some in Hc as (i' & Hi' & Hne & _). rewrite Hi in Hi'. simplify_eq.
  destruct Hq as [? ? ? ? Hna ?]. unfold pending. simpl. split_and!; try by width_lia.
  split; try done. simpl. by apply wrap_fits.
Qed.

Lemma queue_wf_set_next_used q v : queue_wf q → fits 16 v → queue_wf (set_next_used q v).
Proof. intros [? ? ? ? ? ?]. by split. Qed.

End Rings.

Section Loops.
Context {M W : Type} `{ByteMemoryLaws M} `{HostIo W}.
Implicit Types (q : Queue) (m : M) (w : W).

Lemma rings_separate_avail q v : rings_separate q → rings_separate (set_next_avail q v).
Proof. by intros [? ? ?]. Qed.
Lemma rings_separate_used q v : rings_separate q → rings_separate (set_next_used q v).
Proof. by intros [? ? ?]. Qed.

(** The driver's index, read after a completion, is the one read before. *)
Lemma add_used_avail_idx q m h n r q' m' i :
  bm_wf m → queue_wf q → rings_separate q → add_used q m h n = (r, (q', m')) →
  vread pod_u16 m' (avail_ring q ⊞ 2) = Ok i → vread pod_u16 m (avail_ring q ⊞ 2) = Ok i.
Proof.
  intros Hwf Hq Hs Ha. destruct (add_used_frame _ _ _ _ _ _ _ Hwf Hq Hs Ha) as (Hwf' & Hmap & Hb & _).
  destruct Hs as [? ? Hd]. destruct Hq as [? ? [Ha0 _] ? ? ?].
  apply avail_idx_frame; try done. intros a Hr. apply Hb. lia.
Qed.

Lemma tx_loop_terminates fuel fd q m w c :
  bm_wf m → queue_wf q → rings_separate q → (0 < fuel)%nat →
  (∀ i, vread pod_u16 m (avail_ring q ⊞ 2) = Ok i → pending q i < Z.of_nat fuel) →
  tx_loop fuel fd q m w c ≠ Err OutOfFuel ∧
  (∀ n s, tx_loop fuel fd q m w c = Ok (n, s) → (n < c + fuel)%nat).
Proof.
  revert q m w c. induction fuel as [|fuel IH]; intros q m w c Hwf Hq Hs Hf Hp; [lia|]. simpl.
  destruct (pop q m) as [[[ch|]|e|p] q1] eqn:Hpop; try by split; [|intros; simplify_eq; lia].
  assert (∃ i, vread pod_u16 m (avail_ring q ⊞ 2) = Ok i) as [i Hi].
  { unfold pop in Hpop. destruct (pop_chain q m) as [[ch'|]| |] eqn:Hc; simplify_eq.
    apply pop_chain_some in Hc as (i & Hi & _). eauto. }
  destruct (pop_some_pending _ _ _ _ _ Hq Hwf Hpop Hi) as (Hpos & Hdec & Hq1 & Hq1eq).
  specialize (Hp i Hi).
  set (w1 := match tx_frame m VNET_HDR_SIZE (readable ch) with [] => w | _ => _ end).
  clearbody w1.
  assert (Hs1 : rings_separate q1) by (subst q1; by apply rings_separate_avail).
  destruct (add_used q1 m (head_index ch) 0) as [r [q2 m2]] eqn:Ha.
  destruct (add_used_frame _ _ _ _ _ _ _ Hwf Hq1 Hs1 Ha) as (Hwf2 & _ & _ & Hq2).
  assert (Hq2' : queue_wf q2 ∧ rings_separate q2 ∧ avail_ring q2 = avail_ring q1 ∧
                 ∀ j, pending q2 j = pending q1 j).
  { destruct Hq2 as [->| ->]; split_and!; try done.
    - apply queue_wf_set_next_used; [done|by apply wrap_fits].
    - by apply rings_separate_used. }
  destruct Hq2' as (Hq2wf & Hs2 & Har & Hpend).
  assert (Hres : tx_loop fuel fd q2 m2 w1 (S c) ≠ Err OutOfFuel ∧
    ∀ n s, tx_loop fuel fd q2 m2 w1 (S c) = Ok (n, s) → (n < S c + fuel)%nat).
  { apply IH; try done; [lia|]. intros j Hj. rewrite Har in Hj.
    apply (add_used_avail_idx _ _ _ _ _ _ _ _ Hwf Hq1 Hs1 Ha) in Hj.
    assert (j = i) as -> by (subst q1; simpl in Hj; congruence).
    rewrite Hpend. lia. }
  destruct Hres as [Hne Hn].
  destruct r as [u|e|p]; (split; [done|]; intros n s Hr; first [done|specialize (Hn n s Hr); lia]).
Qed.

(** One completed packet, in flat memory. *)
Lemma tx_loop_packet fuel fd q m w c ch q1 :
  bm_wf m → queue_wf q → 0 < q_size q → used_ring_mapped q m →
  pop q m = (Ok (Some ch), q1) → Forall (desc_ok m) (readable ch) → 12 < room (readable ch) →
  ∃ m', tx_loop (S fuel) fd q m w c =
      tx_loop fuel fd (set_next_used q1 (wrap16 (next_used q + 1))) m'
        (tap_write w fd (drop 12 (gather m (readable ch)))) (S c) ∧
    bm_wf m' ∧ (∀ b k, bm_mapped m' b k ↔ bm_mapped m b k) ∧
    (∀ a, ¬ used_footprint q a → bm_byte m' a = bm_byte m a) ∧
    (fits 32 (head_index ch) →
     used_slot q m' (next_used q) = Ok {| used_id := head_index ch; used_len := 0 |}).
Proof.
  intros Hwf Hq Hs Hm Hpop Hok Hroom.
  assert (Hq1 : q1 = set_next_avail q (wrap16 (next_avail q + 1))).
  { destruct (pop_queue _ _ _ _ Hpop) as [->|[_ ?]]; [|done].
    unfold pop in Hpop. destruct (pop_chain q m) as [[?|]| |]; simplify_eq. done. }
  destruct (add_used_ok q1 m (head_index ch) 0) as (m' & Ha & Hwf' & Hmap & Hb & Hslot & _);
    [done| |by subst q1..|].
  { subst q1. destruct Hq. split; try done. simpl. by apply wrap_fits. }
  exists m'. simpl. rewrite Hpop.
  rewrite tx_frame_gather by done.
  destruct (drop (Z.to_nat VNET_HDR_SIZE) (gather m (readable ch))) as [|b0 bs] eqn:Hfr.
  { apply (f_equal zlen) in Hfr. rewrite zlen_drop, zlen_gather in Hfr by done.
    change (zlen []) with 0 in Hfr. unfold VNET_HDR_SIZE in Hfr. lia. }
  rewrite Ha. change (Z.to_nat VNET_HDR_SIZE) with 12%nat in Hfr. rewrite Hfr.
  split; [by subst q1|]. split; [done|]. split; [done|]. subst q1. split.
  - exact Hb.
  - intros Hh. apply Hslot; [done|]. by unfold fits.
Qed.

End Loops.

(** ** Properties *)

(** C6. Transmission terminates: for any contents of memory and any queue
    with in-range fields whose used ring does not overlap the driver's index,
    the fuel of [process_tx] is enough, and at most 2^16 packets are sent. *)
Theorem process_tx_terminates {M W} `{ByteMemoryLaws M} `{HostIo W} n qs q (m : M) (w : W) :
  net_queues n = Some qs → qs !! 1%nat = Some q →
  bm_wf m → queue_wf q → rings_separate q →
  process_tx n m w ≠ Err OutOfFuel ∧
  (∀ count s, process_tx n m w = Ok (count, s) → Z.of_nat count ≤ 2 ^ 16).
Proof.
  intros Hqs Hq Hwf Hqwf Hs. unfold process_tx. rewrite Hqs.
  destruct (tap_fd n) as [fd|]; [|by split; [|intros; simplify_eq; lia]].
  destruct (net_mem n); [|by split; [|intros; simplify_eq; lia]]. rewrite Hq.
  destruct (tx_loop_terminates TX_FUEL fd q m w 0 Hwf Hqwf Hs) as [Hne Hn].
  { unfold TX_FUEL. lia. }
  { intros i _. unfold pending, TX_FUEL. rewrite Z2Nat.id by lia. width_lia. }
  destruct (tx_loop TX_FUEL fd q m w 0) as [[k [[q' m'] w']]|[]|p]; simpl; [|done|done].
  split; [done|]. intros count s ?. simplify_eq.
  specialize (Hn _ _ eq_refl). unfold TX_FUEL in Hn. lia.
Qed.

(** C7. A transmitted packet: with one chain pending whose readable buffers
    are mapped and longer than the header, the TAP receives exactly one
    frame, the concatenation of the buffers' bytes without their first
    twelve; the chain is completed with length 0, and one packet is counted. *)
Theorem process_tx_sends_packet {M W} `{ByteMemoryLaws M} `{HostIo W} n qs q q1 ch fd (m : M) (w : W) :
  tap_fd n = Some fd → net_queues n = Some qs → net_mem n = true → qs !! 1%nat = Some q →
  bm_wf m → queue_wf q → 0 < q_size q → used_ring_mapped q m → rings_separate q →
  pop q m = (Ok (Some ch), q1) →
  vread pod_u16 m (avail_ring q ⊞ 2) = Ok (wrap16 (next_avail q + 1)) →
  Forall (desc_ok m) (readable ch) → 12 < room (readable ch) → fits 32 (head_index ch) →
  ∃ m', process_tx n m w =
      Ok (1%nat, (set_net_queues n (Some (<[1%nat := set_next_used q1 (wrap16 (next_used q + 1))]> qs))
                                 true, m',
                  tap_write w fd (drop 12 (gather m (readable ch))))) ∧
    used_slot q m' (next_used q) = Ok {| used_id := head_index ch; used_len := 0 |}.
Proof.
  intros Hfd Hqs Hmem Hq Hwf Hqwf Hsz Hm Hs Hpop Hidx Hok Hroom Hh.
  unfold process_tx. rewrite Hfd, Hqs, Hmem, Hq.
  assert (∃ k, TX_FUEL = S (S k)) as [k ->] by (exists (Z.to_nat 65535); unfold TX_FUEL; lia).
  destruct (tx_loop_packet (S k) fd q m w 0 ch q1)
    as (m' & -> & Hwf' & Hmap & Hb & Hslot); [done..|].
  destruct (pop_some_pending _ _ _ _ _ Hqwf Hwf Hpop Hidx) as (_ & _ & Hq1 & ->).
  exists m'. split; [|by apply Hslot].
  assert (Hidx' : vread pod_u16 m' (avail_ring q ⊞ 2) = Ok (wrap16 (next_avail q + 1))).
  { rewrite <- Hidx. unfold vread. f_equal. destruct Hs as [Hu Ha Hd].
    pose proof (slot_range q (next_used q) Hsz).
    destruct (decide (bm_mapped m (avail_ring q + 2) 2)) as [Hma|Hma].
    - destruct Hqwf as [? ? [? ?] ? ? ?]. rewrite add64_small by (unfold fits; lia).
      apply read_obj_frame; try done. simpl. intros a Hr. apply Hb. unfold used_footprint. lia.
    - destruct Hqwf as [? ? [? ?] ? ? ?]. rewrite add64_small in Hidx by (unfold fits; lia).
      destruct (bm_read_err m (avail_ring q + 2) 2) as [e He]; [done..|].
      unfold vread, read_obj in Hidx. simpl in Hidx. by rewrite He in Hidx. }
  cbn [tx_loop]. unfold pop at 1, pop_chain at 1. simpl.
  assert (Hr : ready q = true).
  { unfold pop in Hpop. destruct (pop_chain q m) as [[?|]| |] eqn:Hc; simplify_eq.
    apply pop_chain_some in Hc as (? & ? & ? & ? & ? & _). done. }
  rewrite Hr. simpl. rewrite Hidx'. simpl. by rewrite Z.eqb_refl.
Qed.

(** C8. A received packet: when the TAP yields one frame and the receive
    queue offers a chain of mapped, pairwise disjoint writable buffers with
    room for it, the guest's buffers hold a zeroed 12-byte header followed by
    exactly the frame, the completion reports its length, and the interrupt
    is raised once. *)
Theorem process_rx_delivers_frame {M W} `{ByteMemoryLaws M} `{HostIo W}
    n qs q q1 ch fd frame (m : M) (w w1 w2 : W) :
  tap_fd n = Some fd → net_queues n = Some qs → net_mem n = true → qs !! 0%nat = Some q →
  bm_wf m → queue_wf q → 0 < q_size q → used_ring_mapped q m →
  tap_read w fd MAX_FRAME_SIZE = (frame, w1) → 0 < zlen frame ≤ MAX_FRAME_SIZE →
  tap_read w1 fd MAX_FRAME_SIZE = ([], w2) →
  pop q m = (Ok (Some ch), q1) →
  Forall (desc_ok m) (writable ch) → Forall (λ d, 0 < desc_len d) (writable ch) →
  ForallOrdPairs desc_disjoint (writable ch) → 12 + zlen frame ≤ room (writable ch) →
  Forall (λ d, desc_addr d + desc_len d ≤ used_ring q ∨
               used_ring q + (4 + q_size q * 8) ≤ desc_addr d) (writable ch) →
  fits 32 (head_index ch) →
  ∃ m', process_rx n m w =
      Ok (true, (set_net_queues n (Some (<[0%nat := set_next_used q1 (wrap16 (next_used q + 1))]> qs))
                                true, m', signal_irq n w2)) ∧
    take (12 + length frame) (gather m' (writable ch)) = replicate 12 x00 ++ frame ∧
    used_slot q m' (next_used q) =
      Ok {| used_id := head_index ch; used_len := 12 + zlen frame |}.
Proof.
  intros Hfd Hqs Hmem Hq Hwf Hqwf Hsz Hm Hread Hfl Hread2 Hpop Hok Hpos Hdis Hroom Hsep Hh.
  assert (Hq1 : q1 = set_next_avail q (wrap16 (next_avail q + 1))).
  { destruct (pop_queue _ _ _ _ Hpop) as [->|[_ ?]]; [|done].
    unfold pop in Hpop. destruct (pop_chain q m) as [[?|]| |]; simplify_eq. done. }
  assert (Hpl : zlen (vnet_hdr ++ frame) = 12 + zlen frame) by (by rewrite zlen_app).
  pose proof (rx_scatter_ok m (vnet_hdr ++ frame) 0 (writable ch) Hwf Hok Hpos Hdis) as Hsc.
  rewrite Hpl, Z.sub_0_r in Hsc. specialize (Hsc ltac:(lia) ltac:(lia)).
  destruct (rx_scatter m (vnet_hdr ++ frame) 0 (writable ch)) as [m1 wr] eqn:Hrx.
  destruct Hsc as (-> & [Hwf1 Hmap1 Hf1] & Htake).
  assert (Hq1wf : queue_wf q1).
  { subst q1. destruct Hqwf. split; try done. simpl. by apply wrap_fits. }
  destruct (add_used_ok q1 m1 (head_index ch) (12 + zlen frame))
    as (m' & Ha & Hwf' & Hmap & Hb & Hslot & _); [done|done|by subst q1| |].
  { subst q1. by apply Hmap1. }
  assert (∃ k, RX_FUEL = S (S k)) as [k HF] by (exists (Z.to_nat 65535); unfold RX_FUEL; lia).
  exists m'. split; [|split].
  - unfold process_rx. rewrite Hfd, Hqs, Hmem, Hq, HF. cbn [rx_loop]. rewrite Hread.
    destruct frame as [|b bs]; [change (zlen []) with 0 in Hfl; lia|].
    rewrite Hpop, Hrx. rewrite wrap_small by (unfold fits, MAX_FRAME_SIZE in *; lia).
    rewrite Ha, Hread2. by subst q1.
  - replace (12 + length frame)%nat with (Z.to_nat (12 + zlen frame)) by (unfold zlen; lia).
    rewrite Z2Nat.inj_0, drop_0 in Htake. unfold vnet_hdr in Htake. rewrite <- Htake. f_equal.
    unfold gather. f_equal. apply list_fmap_ext. intros i d Hd%list_elem_of_lookup_2.
    apply fmap_seqZ_ext. intros j Hj. apply Hb. unfold used_footprint. subst q1. simpl.
    rewrite Forall_forall in Hsep. specialize (Hsep d Hd).
    pose proof (slot_range q (next_used q) Hsz). lia.
  - subst q1. apply Hslot; [done|]. unfold fits, MAX_FRAME_SIZE in *. lia.
Qed.

(** ** Witnesses *)

(** A host that queues received frames and logs what the VMM does. *)
Record demo_host : Type := {
  rx_frames : list (list byte);
  tx_log : list (Z * list byte);
  irq_log : list Z;
}.

#[export] Instance demo_host_io : HostIo demo_host := {
  tap_read w fd n :=
    match rx_frames w with
    | [] => ([], w)
    | f :: fs => (take (Z.to_nat n) f,
                  {| rx_frames := fs; tx_log := tx_log w; irq_log := irq_log w |})
    end;
  tap_write w fd f :=
    {| rx_frames := rx_frames w; tx_log := tx_log w ++ [(fd, f)]; irq_log := irq_log w |};
  eventfd_signal w fd :=
    {| rx_frames := rx_frames w; tx_log := tx_log w; irq_log := irq_log w ++ [fd] |};
  irq_line w fd irq level :=
    {| rx_frames := rx_frames w; tx_log := tx_log w; irq_log := irq_log w ++ [irq] |};
}.

Definition idle_host : demo_host := {| rx_frames := []; tx_log := []; irq_log := [] |}.

(** A packet of a 12-byte header and "NOVA", in two buffers. *)
Definition demo_packet : list byte := replicate 12 x00 ++ string_bytes "NOVA".

Definition demo_tx_ring : list (Z * list byte) :=
  [(4096, demo_desc 20480 14 1 1); (4112, demo_desc 24576 2 0 0);
   (20480, take 14 demo_packet); (24576, drop 14 demo_packet);
   (8194, le_enc 2 0); (8202, le_enc 2 0)].

Definition demo_net (qs : list Queue) : Net :=
  {| tap_fd := Some 7; tap_name := "nova0"; config := {| mac := []; link_status := 1 |};
     acked_features := 0; net_queues := Some qs; net_mem := true; irq_fd := Some 9 |}.

Lemma demo_queue_wf : queue_wf (demo_queue 4).
Proof. split; vm_compute; by split. Qed.

Lemma demo_rings_separate : rings_separate (demo_queue 4).
Proof. split; simpl; lia. Qed.

Lemma demo_used_mapped bytes : used_ring_mapped (demo_queue 4) (demo_mem bytes).
Proof. apply Exists_cons_hd. unfold contains. vm_compute. by repeat split. Qed.

Lemma demo_desc_ok bytes a n f x :
  0 ≤ a → 0 < n → a + n ≤ 65536 →
  desc_ok (demo_mem bytes)
    {| desc_addr := a; desc_len := n; desc_flags := f; desc_next := x |}.
Proof.
  intros. split; simpl; [unfold fits; lia|]. apply Exists_cons_hd.
  unfold contains, region_end. simpl. lia.
Qed.

Lemma process_tx_terminates_witness :
  let n := demo_net [demo_queue 4; demo_queue 4] in
  let m := demo_mem demo_tx_ring in
  process_tx n m idle_host ≠ Err OutOfFuel ∧
  (∀ count s, process_tx n m idle_host = Ok (count, s) → Z.of_nat count ≤ 2 ^ 16).
Proof.
  intros n m.
  apply (process_tx_terminates n [demo_queue 4; demo_queue 4] (demo_queue 4) m idle_host);
    first [exact (demo_mem_wf _)|exact demo_queue_wf|exact demo_rings_separate|reflexivity].
Defined.

Definition demo_tx_chain : DescriptorChain :=
  {| head_index := 0;
     descriptors := [{| desc_addr := 20480; desc_len := 14; desc_flags := 1; desc_next := 1 |};
                     {| desc_addr := 24576; desc_len := 2; desc_flags := 0; desc_next := 0 |}] |}.

Lemma process_tx_sends_packet_witness :
  let q := demo_queue 4 in
  let m := demo_mem demo_tx_ring in
  drop 12 (gather m (readable demo_tx_chain)) = string_bytes "NOVA" ∧
  ∃ m', process_tx (demo_net [q; q]) m idle_host =
      Ok (1%nat, (set_net_queues (demo_net [q; q])
                    (Some (<[1%nat := set_next_used (set_next_avail q 0) (wrap16 (next_used q + 1))]> [q; q]))
                    true, m',
                  tap_write idle_host 7 (drop 12 (gather m (readable demo_tx_chain))))) ∧
    used_slot q m' (next_used q) = Ok {| used_id := head_index demo_tx_chain; used_len := 0 |}.
Proof.
  intros q m. split; [vm_compute; reflexivity|].
  apply (process_tx_sends_packet (demo_net [q; q]) [q; q] q (set_next_avail q 0) demo_tx_chain 7 m
           idle_host).
  1-4,7: reflexivity.
  - exact (demo_mem_wf _).
  - exact demo_queue_wf.
  - apply demo_used_mapped.
  - exact demo_rings_separate.
  - vm_compute. reflexivity.
  - vm_compute. reflexivity.
  - change (readable demo_tx_chain) with (descriptors demo_tx_chain).
    apply Forall_cons_2; [apply demo_desc_ok; lia|].
    apply Forall_cons_2; [apply demo_desc_ok; lia|apply Forall_nil_2].
  - reflexivity.
  - by split.
Defined.

Definition demo_rx_ring : list (Z * list byte) :=
  [(4096, demo_desc 20480 10 3 1); (4112, demo_desc 24576 100 2 0);
   (8194, le_enc 2 0); (8202, le_enc 2 0)].

Definition demo_rx_chain : DescriptorChain :=
  {| head_index := 0;
     descriptors := [{| desc_addr := 20480; desc_len := 10; desc_flags := 3; desc_next := 1 |};
                     {| desc_addr := 24576; desc_len := 100; desc_flags := 2; desc_next := 0 |}] |}.

Lemma process_rx_delivers_frame_witness :
  let q := demo_queue 4 in
  let m := demo_mem demo_rx_ring in
  let w := {| rx_frames := [string_bytes "PING"]; tx_log := []; irq_log := [] |} in
  ∃ m', process_rx (demo_net [q; q]) m w =
      Ok (true, (set_net_queues (demo_net [q; q])
                   (Some (<[0%nat := set_next_used (set_next_avail q 0) (wrap16 (next_used q + 1))]> [q; q]))
                   true, m', signal_irq (demo_net [q; q]) idle_host)) ∧
    take (12 + length (string_bytes "PING")) (gather m' (writable demo_rx_chain))
      = replicate 12 x00 ++ string_bytes "PING" ∧
    used_slot q m' (next_used q) =
      Ok {| used_id := head_index demo_rx_chain; used_len := 12 + zlen (string_bytes "PING") |}.
Proof.
  intros q m w.
  apply (process_rx_delivers_frame (demo_net [q; q]) [q; q] q (set_next_avail q 0) demo_rx_chain 7
    (string_bytes "PING") m w idle_host idle_host).
  1-4,7: reflexivity.
  - exact (demo_mem_wf _).
  - exact demo_queue_wf.
  - apply demo_used_mapped.
  - vm_compute. reflexivity.
  - by split.
  - reflexivity.
  - vm_compute. reflexivity.
  - change (writable demo_rx_chain) with (descriptors demo_rx_chain).
    apply Forall_cons_2; [apply demo_desc_ok; lia|].
    apply Forall_cons_2; [apply demo_desc_ok; lia|apply Forall_nil_2].
  - change (writable demo_rx_chain) with (descriptors demo_rx_chain). by repeat constructor.
  - change (writable demo_rx_chain) with (descriptors demo_rx_chain).
    repeat constructor; unfold desc_disjoint; simpl; lia.
  - vm_compute. by intros [=].
  - change (writable demo_rx_chain) with (descriptors demo_rx_chain).
    repeat constructor; simpl; lia.
  - by split.
Defined.
