(* ===== verification/DeviceMgr.v ===== *)
(** * The MMIO bus (crates/nova-vmm/src/device_mgr.rs)

    A vector of devices with their address windows: dispatch of guest
    accesses, polling with interrupt injection, and the saving and restoring
    of virtqueue state for snapshots. *)

From S2P Require Import Prelude GuestMem Virtqueue Mmio Devices Net.

Record MmioDevice (D : Type) : Type := {
  base : Z;
  win_size : Z;
  transport : MmioTransport D;
  irq : option Z;
}.
Arguments base {D} _.
Arguments win_size {D} _.
Arguments transport {D} _.
Arguments irq {D} _.

Record MmioBus (D : Type) : Type := { devices : list (MmioDevice D); vm_fd : option Z }.
Arguments devices {D} _.
Arguments vm_fd {D} _.

Definition set_transport {D} (d : MmioDevice D) (t : MmioTransport D) : MmioDevice D :=
  {| base := base d; win_size := win_size d; transport := t; irq := irq d |}.

Definition bus_new {D} : MmioBus D := {| devices := []; vm_fd := None |}.
Definition set_vm_fd {D} (b : MmioBus D) (fd : Z) : MmioBus D :=
  {| devices := devices b; vm_fd := Some fd |}.
Definition register {D} (b : MmioBus D) (ba sz : Z) (t : MmioTransport D) (i : option Z)
    : MmioBus D :=
  {| devices := devices b ++ [{| base := ba; win_size := sz; transport := t; irq := i |}];
     vm_fd := vm_fd b |}.

(** [addr >= dev.base && addr < dev.base + dev.size]. *)
Definition in_window {D} (d : MmioDevice D) (addr : Z) : bool :=
  (base d <=? addr) && (addr <? base d ⊞ win_size d).

(** The saved state of a queue: the tuple of [snapshot_virtio_queues]. *)
Definition saved_queue : Type := Z * Z * bool * Z * Z * Z * Z * Z.

Definition save_queue (q : Queue) : saved_queue :=
  (max_size q, q_size q, ready q, desc_table q, avail_ring q, used_ring q,
   next_avail q, next_used q).

Definition restore_queue (s : saved_queue) : Queue :=
  let '(mx, sz, rdy, dt, ar, ur, na, nu) := s in Queue_from_saved mx sz rdy dt ar ur na nu.

Section Bus.
Context {D M W : Type} `{VirtioDevice D M W} `{HostIo W}.
Implicit Types (ds : list (MmioDevice D)) (b : MmioBus D).

Fixpoint devices_read ds (addr size : Z) : option Z :=
  match ds with
  | [] => None
  | d :: ds =>
      if in_window d addr then
        let offset := addr - base d in
        if size =? 4 then Some (mmio_read (M:=M) (W:=W) (transport d) offset)
        else if size =? 1 then
          let aligned := Z.ldiff offset 3 in
          let byte_idx := Z.land offset 3 in
          Some (Z.land (Z.shiftr (mmio_read (M:=M) (W:=W) (transport d) aligned) (byte_idx * 8)) 0xFF)
        else if size =? 2 then
          let aligned := Z.ldiff offset 3 in
          let hw_idx := Z.shiftr (Z.land offset 3) 1 in
          Some (Z.land (Z.shiftr (mmio_read (M:=M) (W:=W) (transport d) aligned) (hw_idx * 16)) 0xFFFF)
        else devices_read ds addr size
      else devices_read ds addr size
  end.

Definition bus_read b (addr size : Z) : option Z := devices_read (devices b) addr size.

Fixpoint devices_write ds (addr size value : Z) (m : M) (w : W)
    : infallible (bool * (list (MmioDevice D) * M * W)) :=
  match ds with
  | [] => Ok (false, ([], m, w))
  | d :: ds =>
      let next :=
        '(r, (ds, m, w)) ← devices_write ds addr size value m w; Ok (r, (d :: ds, m, w)) in
      if in_window d addr then
        let offset := addr - base d in
        if (size =? 4) || ((size =? 1) || (size =? 2)) then
          '(t, m, w) ← mmio_write (transport d) offset value m w;
          Ok (true, (set_transport d t :: ds, m, w))
        else next
      else next
  end.

Definition bus_write b (addr size value : Z) (m : M) (w : W)
    : infallible (bool * (MmioBus D * M * W)) :=
  '(r, (ds, m, w)) ← devices_write (devices b) addr size value m w;
  Ok (r, ({| devices := ds; vm_fd := vm_fd b |}, m, w)).

Definition device_count b : nat := length (devices b).

(** An edge-triggered interrupt: the line goes high, then low. *)
Definition pulse_irq (w : W) (fd i : Z) : W := irq_line (irq_line w fd i 1) fd i 0.

Fixpoint poll_all (fd : Z) ds (m : M) (w : W)
    : infallible (bool * (list (MmioDevice D) * M * W)) :=
  match ds with
  | [] => Ok (false, ([], m, w))
  | d :: ds =>
      '(sig, (t, m, w)) ← transport_poll (transport d) m w;
      let w := if sig : bool
               then match irq d with Some i => pulse_irq w fd i | None => w end
               else w in
      '(any, (ds, m, w)) ← poll_all fd ds m w;
      Ok (sig || any, (set_transport d t :: ds, m, w))
  end.

Definition poll_devices b (m : M) (w : W) : infallible (bool * (MmioBus D * M * W)) :=
  match vm_fd b with
  | None => Ok (false, (b, m, w))
  | Some fd =>
      '(any, (ds, m, w)) ← poll_all fd (devices b) m w;
      Ok (any, ({| devices := ds; vm_fd := Some fd |}, m, w))
  end.

Definition transport_type (t : MmioTransport D) : Z := device_type (M:=M) (W:=W) (device t).

Definition device_info b : list (Z * Z * Z) :=
  (λ d, (base d, win_size d, transport_type (transport d))) <$> devices b.

(** The first device satisfying [p], updated by [f]. *)
Fixpoint update_first (p : MmioDevice D → bool) (f : MmioDevice D → MmioDevice D) ds
    : option (list (MmioDevice D)) :=
  match ds with
  | [] => None
  | d :: ds => if p d then Some (f d :: ds) else cons d <$> update_first p f ds
  end.

(** [Tap::open] and the drop of a [Tap] are system calls of the host. *)
Definition open_tap_for_net (tap_open : W → string → option Z * W) (tap_close : W → Z → W)
    b (name : string) (w : W) : bool * (MmioBus D * W) :=
  match tap_open w name with
  | (Some fd, w) =>
      match update_first (λ d, transport_type (transport d) =? 1)
              (λ d, set_transport d (transport_set_tap_fd (M:=M) (W:=W) (transport d) fd))
              (devices b) with
      | Some ds => (true, ({| devices := ds; vm_fd := vm_fd b |}, w))
      | None => (false, (b, tap_close w fd))
      end
  | (None, w) => (false, (b, w))
  end.

Fixpoint snapshot_devices ds : list (Z * list saved_queue) :=
  match ds with
  | [] => []
  | d :: ds =>
      match get_activated_queue_states (M:=M) (W:=W) (transport d) with
      | Some qs => (transport_type (transport d), save_queue <$> qs) :: snapshot_devices ds
      | None => snapshot_devices ds
      end
  end.

Definition snapshot_virtio_queues b : list (Z * list saved_queue) :=
  snapshot_devices (devices b).

Fixpoint force_first (ty : Z) (qs : list Queue) ds : infallible (list (MmioDevice D)) :=
  match ds with
  | [] => Ok []
  | d :: ds =>
      if transport_type (transport d) =? ty then
        t ← force_activate (M:=M) (W:=W) (transport d) qs;
        Ok (set_transport d t :: ds)
      else ds ← force_first ty qs ds; Ok (d :: ds)
  end.

Definition force_activate_device b (ty : Z) (qs : list Queue) : infallible (MmioBus D) :=
  ds ← force_first ty qs (devices b);
  Ok {| devices := ds; vm_fd := vm_fd b |}.

End Bus.

(** [Box<dyn VirtioDevice>]: any of the device models. *)
Inductive AnyDevice : Type :=
| DynConsole (c : Console.t)
| DynBlock (b : Block.t)
| DynBalloon (b : Balloon.t)
| DynFs (f : Fs.t)
| DynVsock (v : Vsock.t)
| DynNet (n : Net).

Section Dyn.
Context {M W : Type} `{ByteMemory M} `{HostIo W} `{Block.Padding}.

(** The method call through the vtable: [f] at the device's own type. *)
Definition dyn_get {A} (f : ∀ D, VirtioDevice D M W → D → A) (d : AnyDevice) : A :=
  match d with
  | DynConsole x => f _ _ x
  | DynBlock x => f _ _ x
  | DynBalloon x => f _ _ x
  | DynFs x => f _ _ x
  | DynVsock x => f _ _ x
  | DynNet x => f _ _ x
  end.

Definition dyn_call {A} (f : ∀ D, VirtioDevice D M W → (D → AnyDevice) → D → A) (d : AnyDevice) : A :=
  match d with
  | DynConsole x => f _ _ DynConsole x
  | DynBlock x => f _ _ DynBlock x
  | DynBalloon x => f _ _ DynBalloon x
  | DynFs x => f _ _ DynFs x
  | DynVsock x => f _ _ DynVsock x
  | DynNet x => f _ _ DynNet x
  end.

#[global] Instance dyn_device : VirtioDevice AnyDevice M W := {
  device_type := dyn_get (λ D _, device_type);
  num_queues := dyn_get (λ D _, num_queues);
  device_features d p := dyn_get (λ D _ x, device_features x p) d;
  ack_features d p v := dyn_call (λ D _ k x, k (ack_features x p v)) d;
  read_config d o n := dyn_get (λ D _ x, read_config x o n) d;
  write_config d o bs := dyn_call (λ D _ k x, k (write_config x o bs)) d;
  activate d qs := dyn_call (λ D _ k x, let '(r, x') := activate x qs in (r, k x')) d;
  queue_notify d i m w :=
    dyn_call (λ D _ k x, '(x', m, w) ← queue_notify x i m w; Ok (k x', m, w)) d;
  device_reset d := dyn_call (λ D _ k x, k (device_reset x)) d;
  device_poll d m w :=
    dyn_call (λ D _ k x, '(s, (x', m, w)) ← device_poll x m w; Ok (s, (k x', m, w))) d;
  device_set_tap_fd d fd := dyn_call (λ D _ k x, k (device_set_tap_fd x fd)) d;
  activated_queues := dyn_get (λ D _, activated_queues);
}.

End Dyn.

(** ** Dispatch *)

Definition window_end {D} (d : MmioDevice D) : Z := base d + win_size d.

(** Windows inside the address space that do not overlap. *)
Record bus_wf {D} (ds : list (MmioDevice D)) : Prop := {
  bwf_range : Forall (λ d, 0 ≤ base d ∧ 0 ≤ win_size d ∧ window_end d < 2 ^ 64) ds;
  bwf_disjoint : ∀ i j d d', i ≠ j → ds !! i = Some d → ds !! j = Some d' →
    window_end d ≤ base d' ∨ window_end d' ≤ base d;
}.

Lemma bus_wf_cons {D} (d : MmioDevice D) ds :
  bus_wf (d :: ds) → (0 ≤ base d ∧ 0 ≤ win_size d ∧ window_end d < 2 ^ 64) ∧ bus_wf ds ∧
  ∀ j d', ds !! j = Some d' → window_end d ≤ base d' ∨ window_end d' ≤ base d.
Proof.
  intros [Hr Hd]. apply Forall_cons in Hr as [Hr1 Hr]. split; [done|]. split.
  - split; [done|]. intros i j d1 d2 Hij Hi Hj. apply (Hd (S i) (S j)); [lia|done..].
  - intros j d' Hj. by apply (Hd 0%nat (S j)).
Qed.

Lemma in_window_spec {D} (d : MmioDevice D) a :
  0 ≤ base d → 0 ≤ win_size d → window_end d < 2 ^ 64 →
  in_window d a = true ↔ base d ≤ a < window_end d.
Proof.
  intros Hb Hs He. unfold in_window. rewrite add64_small by (unfold fits, window_end in *; lia).
  rewrite andb_true_iff, Z.leb_le, Z.ltb_lt. unfold window_end. lia.
Qed.

Section Dispatch.
Context {D M W : Type} `{VirtioDevice D M W} `{HostIo W}.
Implicit Types (ds : list (MmioDevice D)) (b : MmioBus D).

(** The window that contains an address is the one that answers. *)
Lemma devices_read_at ds i d a size :
  bus_wf ds → ds !! i = Some d → base d ≤ a < window_end d →
  size = 1 ∨ size = 2 ∨ size = 4 →
  devices_read (M:=M) (W:=W) ds a size = devices_read (M:=M) (W:=W) [d] a size.
Proof.
  intros Hwf Hi Ha Hs. revert i Hi. induction ds as [|d0 ds IH]; intros i Hi; [done|].
  apply bus_wf_cons in Hwf as (Hr & Hwf & Hdis).
  destruct i as [|i]; simplify_eq/=.
  - assert (in_window d a = true) as -> by (apply in_window_spec; tauto || done).
    by destruct Hs as [->|[->| ->]].
  - specialize (Hdis _ _ Hi).
    assert (in_window d0 a = false) as ->.
    { destruct (in_window d0 a) eqn:E; [|done]. apply in_window_spec in E; lia. }
    by eapply IH.
Qed.

Lemma devices_write_at ds i d a size v (m : M) (w : W) :
  bus_wf ds → ds !! i = Some d → base d ≤ a < window_end d →
  size = 1 ∨ size = 2 ∨ size = 4 →
  devices_write ds a size v m w =
    ('(t, m, w) ← mmio_write (transport d) (a - base d) v m w;
     Ok (true, (<[i := set_transport d t]> ds, m, w))).
Proof.
  intros Hwf Hi Ha Hs. revert i Hi. induction ds as [|d0 ds IH]; intros i Hi; [done|].
  apply bus_wf_cons in Hwf as (Hr & Hwf & Hdis).
  destruct i as [|i]; simplify_eq/=.
  - assert (in_window d a = true) as -> by (apply in_window_spec; tauto || done).
    by destruct Hs as [->|[->| ->]].
  - specialize (Hdis _ _ Hi).
    assert (in_window d0 a = false) as ->.
    { destruct (in_window d0 a) eqn:E; [|done]. apply in_window_spec in E; lia. }
    rewrite (IH Hwf i Hi).
    by destruct (mmio_write (transport d) (a - base d) v m w) as [[[t m1] w1]| |].
Qed.

End Dispatch.

Lemma land3 x : Z.land x 3 = x mod 4.
Proof. change 3 with (Z.ones 2). by rewrite Z.land_ones by lia. Qed.

Lemma ldiff3 x : Z.ldiff x 3 = x - x mod 4.
Proof.
  change 3 with (Z.ones 2). rewrite Z.ldiff_ones_r, Z.shiftl_mul_pow2, Z.shiftr_div_pow2 by lia.
  change (2 ^ 2) with 4. Z.div_mod_to_equations. lia.
Qed.

Lemma shiftr_land w k n : 0 ≤ k → 0 ≤ n → Z.land (Z.shiftr w k) (Z.ones n) = w / 2 ^ k mod 2 ^ n.
Proof. intros. by rewrite Z.land_ones, Z.shiftr_div_pow2 by lia. Qed.

Lemma save_restore_queue q : restore_queue (save_queue q) = q.
Proof. by destruct q. Qed.

Lemma restore_save_queues (qs : list Queue) : restore_queue <$> (save_queue <$> qs) = qs.
Proof.
  rewrite <- list_fmap_compose. rewrite <- (list_fmap_id qs) at 2.
  apply list_fmap_ext. intros. apply save_restore_queue.
Qed.

Section Restore.
Context {D M W : Type} `{VirtioDevice D M W}.

Lemma force_first_at ty qs (ds : list (MmioDevice D)) i d :
  ds !! i = Some d → transport_type (M:=M) (W:=W) (transport d) = ty →
  (∀ j d', (j < i)%nat → ds !! j = Some d' → transport_type (M:=M) (W:=W) (transport d') ≠ ty) →
  force_first (M:=M) (W:=W) ty qs ds =
    (t ← force_activate (M:=M) (W:=W) (transport d) qs; Ok (<[i := set_transport d t]> ds)).
Proof.
  revert i. induction ds as [|d0 ds IH]; intros i Hi Hty Hno; [done|]. simpl.
  destruct i as [|i]; simplify_eq/=.
  - rewrite Z.eqb_refl. done.
  - assert (Hd0 : transport_type (M:=M) (W:=W) (transport d0) ≠ transport_type (M:=M) (W:=W) (transport d))
      by (apply (Hno 0%nat); [lia|done]).
    rewrite (proj2 (Z.eqb_neq _ _) Hd0), (IH i) by (done || intros j d' Hj; apply (Hno (S j)); lia).
    by destruct (force_activate (transport d) qs).
Qed.

Lemma snapshot_devices_elem (ds : list (MmioDevice D)) i d qs :
  ds !! i = Some d → get_activated_queue_states (M:=M) (W:=W) (transport d) = Some qs →
  (transport_type (M:=M) (W:=W) (transport d), save_queue <$> qs) ∈ snapshot_devices (M:=M) (W:=W) ds.
Proof.
  revert i. induction ds as [|d0 ds IH]; intros [|i] Hi Hq; simplify_eq/=.
  - rewrite Hq. by left.
  - case_match; [right|]; by eapply IH.
Qed.

End Restore.

(** ** Properties *)

(** Guest accesses reach the right device: on a bus whose windows do not
    overlap, a write of 1, 2 or 4 bytes inside device [i]'s window performs
    exactly that register write on device [i] and leaves every other device
    as it was, and a 4-byte read returns that device's register. *)
Theorem bus_dispatch {D M W} `{VirtioDevice D M W} `{HostIo W} (b : MmioBus D) i d a size v (m : M) (w : W) :
  bus_wf (devices b) → devices b !! i = Some d → base d ≤ a < base d + win_size d →
  size = 1 ∨ size = 2 ∨ size = 4 →
  bus_read (M:=M) (W:=W) b a 4 = Some (mmio_read (M:=M) (W:=W) (transport d) (a - base d)) ∧
  match mmio_write (transport d) (a - base d) v m w with
  | Ok (t, m', w') =>
      ∃ b', bus_write b a size v m w = Ok (true, (b', m', w')) ∧ vm_fd b' = vm_fd b ∧
        devices b' !! i = Some (set_transport d t) ∧
        ∀ j, j ≠ i → devices b' !! j = devices b !! j
  | Err e => bus_write b a size v m w = Err e
  | Panic p => bus_write b a size v m w = Panic p
  end.
Proof.
  intros Hwf Hi Ha Hs. split.
  - unfold bus_read. rewrite (devices_read_at _ i d) by auto.
    pose proof (bwf_range _ Hwf) as Hr. rewrite Forall_lookup in Hr. specialize (Hr _ _ Hi).
    simpl. by rewrite (proj2 (in_window_spec d a ltac:(lia) ltac:(lia) ltac:(lia)) Ha).
  - unfold bus_write. rewrite (devices_write_at _ i d) by done.
    destruct (mmio_write (transport d) (a - base d) v m w) as [[[t m'] w']| |]; simpl; [|done..].
    eexists. split; [done|]. simpl. split; [done|]. split.
    + apply list_lookup_insert_eq. by eapply lookup_lt_Some.
    + intros j Hj. by rewrite list_lookup_insert_ne by done.
Qed.

(** Narrow reads see the bytes of the 32-bit register: at an aligned
    register [a], the four 1-byte reads return the little-endian bytes of the
    word that the 4-byte read returns, and the two 2-byte reads its halves. *)
Theorem bus_subword_reads {D M W} `{VirtioDevice D M W} (b : MmioBus D) i d a word :
  bus_wf (devices b) → devices b !! i = Some d →
  base d ≤ a → a + 4 ≤ base d + win_size d → (a - base d) mod 4 = 0 →
  bus_read (M:=M) (W:=W) b a 4 = Some word →
  (∀ k, 0 ≤ k < 4 → bus_read (M:=M) (W:=W) b (a + k) 1 = Some (word / 2 ^ (8 * k) mod 2 ^ 8)) ∧
  (∀ k, k = 0 ∨ k = 2 → bus_read (M:=M) (W:=W) b (a + k) 2 = Some (word / 2 ^ (8 * k) mod 2 ^ 16)).
Proof.
  intros Hwf Hi Ha Hb Hal Hw. unfold bus_read in *.
  pose proof (bwf_range _ Hwf) as Hr. rewrite Forall_lookup in Hr.
  destruct (Hr _ _ Hi) as (Hb0 & Hs0 & He).
  assert (Hin : ∀ x, base d ≤ x < window_end d → in_window d x = true)
    by (intros; by apply in_window_spec).
  rewrite (devices_read_at _ i d) in Hw by (auto || unfold window_end; lia).
  simpl in Hw. rewrite Hin in Hw by (unfold window_end; lia). simpl in Hw.
  injection Hw as <-.
  assert (Hoff : ∀ k, 0 ≤ k < 4 → Z.land (a + k - base d) 3 = k ∧ Z.ldiff (a + k - base d) 3 = a - base d).
  { intros k Hk. rewrite ldiff3, land3. Z.div_mod_to_equations. lia. }
  split; intros k Hk; rewrite (devices_read_at _ i d) by (auto || unfold window_end; lia);
    simpl; rewrite Hin by (unfold window_end; lia); simpl;
    destruct (Hoff k ltac:(lia)) as [-> ->]; f_equal.
  - change 0xFF with (Z.ones 8). rewrite shiftr_land by lia. by rewrite (Z.mul_comm k 8).
  - change 0xFFFF with (Z.ones 16). destruct Hk as [->| ->]; by rewrite shiftr_land.
Qed.

(** Virtqueue state survives a snapshot: the state saved for a network
    device, restored by [force_activate_device] on a bus with a network
    device whose memory is set, gives an activated device (status 15) with
    the same queues, whose own snapshot is the same saved state; the other
    devices are untouched. *)
Theorem snapshot_restore_queues {M W} `{ByteMemory M} `{HostIo W} `{Block.Padding}
    (b : MmioBus AnyDevice) i d n (qs : list Queue) :
  devices b !! i = Some d → device (transport d) = DynNet n → guest_memory (transport d) = true →
  (∀ j d', (j < i)%nat → devices b !! j = Some d' →
     transport_type (M:=M) (W:=W) (transport d') ≠ VIRTIO_NET_DEVICE_TYPE) →
  ∃ b' d', force_activate_device (M:=M) (W:=W) b VIRTIO_NET_DEVICE_TYPE
             (restore_queue <$> (save_queue <$> qs)) = Ok b' ∧
    devices b' !! i = Some d' ∧ (∀ j, j ≠ i → devices b' !! j = devices b !! j) ∧
    activated (transport d') = true ∧ status (transport d') = 15 ∧
    get_activated_queue_states (M:=M) (W:=W) (transport d') = Some qs ∧
    (VIRTIO_NET_DEVICE_TYPE, save_queue <$> qs) ∈ snapshot_virtio_queues (M:=M) (W:=W) b'.
Proof.
  intros Hi Hn Hm Hno. unfold force_activate_device. rewrite restore_save_queues.
  assert (Hty : transport_type (M:=M) (W:=W) (transport d) = VIRTIO_NET_DEVICE_TYPE)
    by (unfold transport_type; by rewrite Hn).
  rewrite (force_first_at _ _ _ i d) by done. unfold force_activate. rewrite Hm, Hn. simpl.
  eexists _, _. split; [done|]. simpl.
  rewrite list_lookup_insert_eq by (by eapply lookup_lt_Some). split; [done|].
  split; [intros; by rewrite list_lookup_insert_ne by done|]. split_and!; try done.
  unfold snapshot_virtio_queues. simpl.
  match goal with
  | |- _ ∈ snapshot_devices (<[i := ?d']> ?l) =>
      refine (snapshot_devices_elem (M:=M) (W:=W) (<[i := d']> l) i d' qs _ eq_refl)
  end.
  apply list_lookup_insert_eq. by eapply lookup_lt_Some.
Qed.

(** ** Witnesses *)

Definition demo_bus : MmioBus AnyDevice :=
  let t d := set_guest_memory (MmioTransport_new (M:=GuestMemoryMmap) (W:=demo_host)
               (H:=dyn_device (H1:=[])) d) in
  register (register bus_new 0xd0000000 0x1000 (t (DynBalloon Balloon.new)) (Some 5))
           0xd0001000 0x1000 (t (DynNet (Net_new "nova0" [x00; x00; x00; x00; x00; x00]))) (Some 6).

#[export] Instance demo_padding : Block.Padding := [].

Lemma demo_bus_wf : bus_wf (devices demo_bus).
Proof.
  split.
  - repeat constructor; vm_compute; by intros [=].
  - intros [|[|i]] [|[|j]] d d' ? ? ?; simplify_eq/=; unfold window_end; simpl; lia.
Qed.

Definition demo_net_dev : MmioDevice AnyDevice :=
  {| base := 0xd0001000; win_size := 0x1000;
     transport := set_guest_memory (MmioTransport_new (M:=GuestMemoryMmap) (W:=demo_host)
       (DynNet (Net_new "nova0" [x00; x00; x00; x00; x00; x00])));
     irq := Some 6 |}.

Lemma bus_dispatch_witness :
  ∃ b', bus_write demo_bus 0xd0001030 4 1 (demo_mem []) idle_host
          = Ok (true, (b', demo_mem [], idle_host)) ∧
  ∀ j, j ≠ 1%nat → devices b' !! j = devices demo_bus !! j.
Proof.
  destruct (bus_dispatch demo_bus 1 demo_net_dev 0xd0001030 4 1 (demo_mem []) idle_host) as [_ Hw].
  - exact demo_bus_wf.
  - reflexivity.
  - simpl. lia.
  - auto.
  - simpl in Hw. destruct Hw as (b' & Hw & _ & _ & Hj). exists b'. split; [exact Hw|exact Hj].
Defined.

Lemma bus_subword_reads_witness :
  (∀ k, 0 ≤ k < 4 → bus_read (M:=GuestMemoryMmap) (W:=demo_host) demo_bus (0xd0001000 + k) 1
     = Some (0x74726976 / 2 ^ (8 * k) mod 2 ^ 8)) ∧
  (∀ k, k = 0 ∨ k = 2 → bus_read (M:=GuestMemoryMmap) (W:=demo_host) demo_bus (0xd0001000 + k) 2
     = Some (0x74726976 / 2 ^ (8 * k) mod 2 ^ 16)).
Proof.
  apply (bus_subword_reads demo_bus 1 demo_net_dev 0xd0001000 0x74726976);
    [exact demo_bus_wf|reflexivity|simpl; lia|simpl; lia|reflexivity|reflexivity].
Defined.

Lemma snapshot_restore_queues_witness :
  ∃ b' d', force_activate_device (M:=GuestMemoryMmap) (W:=demo_host) demo_bus
      VIRTIO_NET_DEVICE_TYPE (restore_queue <$> (save_queue <$> [demo_queue 4; demo_queue 8])) = Ok b' ∧
    devices b' !! 1%nat = Some d' ∧ (∀ j, j ≠ 1%nat → devices b' !! j = devices demo_bus !! j) ∧
    activated (transport d') = true ∧ status (transport d') = 15 ∧
    get_activated_queue_states (M:=GuestMemoryMmap) (W:=demo_host) (transport d')
      = Some [demo_queue 4; demo_queue 8] ∧
    (VIRTIO_NET_DEVICE_TYPE, save_queue <$> [demo_queue 4; demo_queue 8])
      ∈ snapshot_virtio_queues (M:=GuestMemoryMmap) (W:=demo_host) b'.
Proof.
  apply (snapshot_restore_queues demo_bus 1 demo_net_dev
           (Net_new "nova0" [x00; x00; x00; x00; x00; x00]) [demo_queue 4; demo_queue 8]);
    try reflexivity.
  intros [|j] d' Hj Hd; [|lia]. injection Hd as <-. vm_compute. by intros [=].
Defined.
