(* ===== verification/Serial.v ===== *)
(** * The emulated serial port (SerialState of crates/nova-vmm/src/exit_handler.rs)

    A 16550-style UART behind ports 0x3F8-0x3FF: the registers the Linux 8250
    driver probes, interrupt-driven transmission and a receive queue. *)

From S2P Require Import Prelude.

Record SerialState : Type := {
  ier : Z;
  lcr : Z;
  mcr : Z;
  scr : Z;
  dll : Z;
  dlm : Z;
  thre_pending : bool;
  input_queue : list Z;
}.

Definition SerialState_new : SerialState :=
  {| ier := 0; lcr := 0; mcr := 0; scr := 0; dll := 1; dlm := 0;
     thre_pending := false; input_queue := [] |}.

Definition dlab (s : SerialState) : bool := negb (Z.land (lcr s) 0x80 =? 0).
Definition thre_int_enabled (s : SerialState) : bool := negb (Z.land (ier s) 0x02 =? 0).
Definition rda_int_enabled (s : SerialState) : bool := negb (Z.land (ier s) 0x01 =? 0).

(** Assignments to single fields. *)
Definition set_ier (s : SerialState) (v : Z) : SerialState :=
  {| ier := v; lcr := lcr s; mcr := mcr s; scr := scr s; dll := dll s; dlm := dlm s;
     thre_pending := thre_pending s; input_queue := input_queue s |}.
Definition set_lcr (s : SerialState) (v : Z) : SerialState :=
  {| ier := ier s; lcr := v; mcr := mcr s; scr := scr s; dll := dll s; dlm := dlm s;
     thre_pending := thre_pending s; input_queue := input_queue s |}.
Definition set_mcr (s : SerialState) (v : Z) : SerialState :=
  {| ier := ier s; lcr := lcr s; mcr := v; scr := scr s; dll := dll s; dlm := dlm s;
     thre_pending := thre_pending s; input_queue := input_queue s |}.
Definition set_scr (s : SerialState) (v : Z) : SerialState :=
  {| ier := ier s; lcr := lcr s; mcr := mcr s; scr := v; dll := dll s; dlm := dlm s;
     thre_pending := thre_pending s; input_queue := input_queue s |}.
Definition set_dll (s : SerialState) (v : Z) : SerialState :=
  {| ier := ier s; lcr := lcr s; mcr := mcr s; scr := scr s; dll := v; dlm := dlm s;
     thre_pending := thre_pending s; input_queue := input_queue s |}.
Definition set_dlm (s : SerialState) (v : Z) : SerialState :=
  {| ier := ier s; lcr := lcr s; mcr := mcr s; scr := scr s; dll := dll s; dlm := v;
     thre_pending := thre_pending s; input_queue := input_queue s |}.
Definition set_thre (s : SerialState) (b : bool) : SerialState :=
  {| ier := ier s; lcr := lcr s; mcr := mcr s; scr := scr s; dll := dll s; dlm := dlm s;
     thre_pending := b; input_queue := input_queue s |}.
Definition set_input (s : SerialState) (q : list Z) : SerialState :=
  {| ier := ier s; lcr := lcr s; mcr := mcr s; scr := scr s; dll := dll s; dlm := dlm s;
     thre_pending := thre_pending s; input_queue := q |}.

(** [if self.thre_int_enabled() { self.thre_pending = true }]. *)
Definition schedule_thre (s : SerialState) : SerialState :=
  if thre_int_enabled s then set_thre s true else s.

(** A port write; the result says whether [value] went out on TX. *)
Definition serial_write (s : SerialState) (port value : Z) : bool * SerialState :=
  if port =? 0x3F8 then
    if dlab s then (false, set_dll s value) else (true, schedule_thre s)
  else if port =? 0x3F9 then
    if dlab s then (false, set_dlm s value) else (false, schedule_thre (set_ier s value))
  else if port =? 0x3FA then (false, s)
  else if port =? 0x3FB then (false, set_lcr s value)
  else if port =? 0x3FC then (false, set_mcr s value)
  else if port =? 0x3FF then (false, set_scr s value)
  else (false, s).

Definition queue_input (s : SerialState) (d : list Z) : SerialState :=
  set_input s (input_queue s ++ d).

Definition has_input (s : SerialState) : bool :=
  match input_queue s with [] => false | _ => true end.

Definition serial_read (s : SerialState) (port : Z) : Z * SerialState :=
  if port =? 0x3F8 then
    if dlab s then (dll s, s)
    else match input_queue s with
         | b :: q => (b, set_input s q)
         | [] => (0, s)
         end
  else if port =? 0x3F9 then (if dlab s then dlm s else ier s, s)
  else if port =? 0x3FA then
    if has_input s && rda_int_enabled s then (0x04, s)
    else if thre_pending s then (0x02, set_thre s false)
    else (0x01, s)
  else if port =? 0x3FB then (lcr s, s)
  else if port =? 0x3FC then (mcr s, s)
  else if port =? 0x3FD then (Z.lor 0x60 (if has_input s then 0x01 else 0x00), s)
  else if port =? 0x3FE then (0, s)
  else if port =? 0x3FF then (scr s, s)
  else (0xFF, s).

Definition needs_irq (s : SerialState) : bool :=
  thre_pending s || (has_input s && rda_int_enabled s).

(** Reads of ports outside the UART. *)
Definition default_io_read (port : Z) : Z :=
  if port =? 0x71 then 0x00 else if port =? 0x61 then 0x20 else 0xFF.

(** ** Properties *)

(** [n] reads of the receive buffer. *)
Fixpoint read_rbr (n : nat) (s : SerialState) : list Z * SerialState :=
  match n with
  | O => ([], s)
  | S n => let '(b, s) := serial_read s 0x3F8 in
           let '(bs, s) := read_rbr n s in (b :: bs, s)
  end.

Lemma read_rbr_app (d q : list Z) (s : SerialState) :
  dlab s = false → input_queue s = d ++ q →
  read_rbr (length d) s = (d, set_input s q).
Proof.
  revert s. induction d as [|b d IH]; intros s Hd Hq; simpl.
  { destruct s; simpl in *; by subst. }
  unfold serial_read. simpl. rewrite Hd, Hq. simpl. by rewrite IH.
Qed.

(** The UART asks for an interrupt exactly when the identification
    register has one to report: received data first, which stays reported
    until the data is read, then an empty transmitter, which the read
    acknowledges; and after a read that reports nothing, nothing is asked. *)
Theorem serial_irq_iff_iir s :
  let '(iir, s') := serial_read s 0x3FA in
  (needs_irq s = true ↔ iir ≠ 0x01) ∧
  (iir = 0x04 ↔ has_input s = true ∧ rda_int_enabled s = true) ∧
  (iir = 0x04 → s' = s) ∧
  (iir = 0x02 → thre_pending s = true ∧ thre_pending s' = false ∧ needs_irq s' = false) ∧
  (iir = 0x01 → s' = s) ∧
  input_queue s' = input_queue s.
Proof.
  unfold serial_read, needs_irq. simpl.
  destruct (has_input s) eqn:Hi, (rda_int_enabled s) eqn:Hr, (thre_pending s) eqn:Ht; simpl;
    try (split_and!; try done; naive_solver).
  all: split_and!; try done; try naive_solver.
  all: intros _; change (has_input (set_thre s false)) with (has_input s);
    change (rda_int_enabled (set_thre s false)) with (rda_int_enabled s); rewrite Hi; try done.
  all: by rewrite Hr.
Qed.

(** Received bytes reach the guest in order: whatever is queued while
    the divisor latch is closed comes out of the receive buffer one byte per
    read, behind what was already waiting, and the line status register shows
    data ready exactly while some is left. *)
Theorem serial_input_fifo s d :
  dlab s = false →
  read_rbr (length (input_queue s ++ d)) (queue_input s d) =
    (input_queue s ++ d, set_input s []) ∧
  ∀ s', Z.testbit (serial_read s' 0x3FD).1 0 = true ↔ input_queue s' ≠ [].
Proof.
  intros Hd. split.
  - by rewrite (read_rbr_app _ []) by (done || simpl; by rewrite app_nil_r).
  - intros s'. unfold serial_read, has_input. simpl. by destruct (input_queue s').
Qed.

Lemma serial_input_fifo_witness :
  let s := queue_input SerialState_new [104] in
  read_rbr (length (input_queue s ++ [105; 10])) (queue_input s [105; 10]) =
    (input_queue s ++ [105; 10], set_input s []) ∧
  ∀ s', Z.testbit (serial_read s' 0x3FD).1 0 = true ↔ input_queue s' ≠ [].
Proof. intros s. apply (serial_input_fifo s [105; 10]). reflexivity. Defined.
