(* ===== verification/VcpuLoop.v ===== *)
(** * The vCPU exit loops (crates/nova-vmm/src/exit_handler.rs, nova-kvm/src/vcpu.rs)

    [decode_exit] reads the shared kvm_run page after KVM_RUN; the loops serve
    the exits: port I/O goes to the serial port, MMIO to the bus.  What the
    environment decides in an iteration (the exit, the shared input, the stop
    flag, the clock) is a [loop_env]; a run is a sequence of them. *)

From stdpp Require Import pretty.
From S2P Require Import Prelude GuestMem Virtqueue Mmio Devices Net DeviceMgr Serial.

(** ** Exits (vcpu.rs) *)

Inductive VmExit : Type :=
| MmioRead (addr len : Z)
| MmioWrite (addr : Z) (data : list byte) (len : Z)
| IoIn (port size : Z)
| IoOut (port size data : Z)
| Hlt
| Shutdown
| Interrupted
| InternalError (suberror : Z)
| Unknown (reason : Z).

Definition KVM_EXIT_IO : Z := 2.
Definition KVM_EXIT_HLT : Z := 5.
Definition KVM_EXIT_MMIO : Z := 6.
Definition KVM_EXIT_SHUTDOWN : Z := 8.
Definition KVM_EXIT_INTERNAL_ERROR : Z := 17.
Definition KVM_EXIT_IO_OUT : Z := 1.

(** The kvm_run page: the exit reason, the exit union (at offset 32) and the
    whole page, which port data is read from. *)
Record KvmRun : Type := {
  exit_reason : Z;
  exit_data : list byte;
  run_page : list byte;
}.

Definition field (off n : Z) (d : list byte) : Z := le_dec (sub_list off n d).

(** [KvmRunExitIo] is direction, size, port, count, data_offset;
    [KvmRunExitMmio] is phys_addr, data, len, is_write. *)
Definition decode_exit (r : KvmRun) : VmExit :=
  let d := exit_data r in
  if exit_reason r =? KVM_EXIT_IO then
    let direction := field 0 1 d in
    let size := field 1 1 d in
    let port := field 2 2 d in
    let data_offset := field 8 8 d in
    if direction =? KVM_EXIT_IO_OUT
    then IoOut port size (le_dec (sub_list data_offset size (run_page r)))
    else IoIn port size
  else if exit_reason r =? KVM_EXIT_MMIO then
    let phys_addr := field 0 8 d in
    let len := field 16 4 d in
    if negb (field 20 1 d =? 0)
    then MmioWrite phys_addr (sub_list 8 8 d) len
    else MmioRead phys_addr len
  else if exit_reason r =? KVM_EXIT_HLT then Hlt
  else if exit_reason r =? KVM_EXIT_SHUTDOWN then Shutdown
  else if exit_reason r =? KVM_EXIT_INTERNAL_ERROR then InternalError (field 0 4 d)
  else Unknown (exit_reason r).

Definition EINTR : Z := 4.

(** [VcpuFd::run] on the result of the ioctl: an errno, or the page. *)
Definition vcpu_run (ioctl : Z + KvmRun) : Z + VmExit :=
  match ioctl with
  | inl errno => if errno =? EINTR then inr Interrupted else inl errno
  | inr r => inr (decode_exit r)
  end.

(** ** The loops *)

Inductive CaptureStopReason : Type :=
| StopHlt
| StopShutdown
| StopTimeout
| StopBufferFull
| StopStopped
| StopError (msg : string).

Record CaptureDiagnostics : Type := {
  total_exits : Z;
  io_in_count : Z;
  io_out_count : Z;
  io_out_serial_count : Z;
  mmio_count : Z;
  diag_elapsed : Z;
}.

Definition diag_default : CaptureDiagnostics :=
  {| total_exits := 0; io_in_count := 0; io_out_count := 0; io_out_serial_count := 0;
     mmio_count := 0; diag_elapsed := 0 |}.

(** What the environment supplies in one iteration. *)
Record loop_env : Type := {
  env_stop : bool;              (* the shutdown flag, at the top *)
  env_input : list Z;           (* the bytes in the shared input queue *)
  env_exit : Z + VmExit;        (* [vcpu.run()] *)
  env_stop_late : bool;         (* the shutdown flag, after an interrupt *)
  env_elapsed : Z;              (* [start.elapsed()], in nanoseconds *)
}.

Record CaptureState (D M W : Type) : Type := {
  cs_output : list Z;
  cs_console : list Z;          (* bytes pushed to the shared console output *)
  cs_serial : SerialState;
  cs_diag : CaptureDiagnostics;
  cs_bus : MmioBus D;
  cs_mem : M;
  cs_host : W;
}.
Arguments cs_output {D M W} _.
Arguments cs_console {D M W} _.
Arguments cs_serial {D M W} _.
Arguments cs_diag {D M W} _.
Arguments cs_bus {D M W} _.
Arguments cs_mem {D M W} _.
Arguments cs_host {D M W} _.

(** After an iteration: on to the next (with the bytes written back into
    kvm_run for the guest), stopped with a reason, or failed in [vcpu.run]. *)
Inductive step_result (S : Type) : Type :=
| Next (s : S) (response : list byte)
| Stopped (s : S) (r : CaptureStopReason)
| RunFailed (s : S) (errno : Z).
Arguments Next {S} s response.
Arguments Stopped {S} s r.
Arguments RunFailed {S} s errno.

Inductive ExitAction : Type :=
| ActContinue
| ActShutdown
| ActError (msg : string).

Definition is_com1 (port : Z) : bool := (0x3F8 <=? port) && (port <=? 0x3FF).

Definition mmio_write_value (data : list byte) (len : Z) : Z :=
  if len =? 1 then le_dec (take 1 data)
  else if len =? 2 then le_dec (take 2 data)
  else if len =? 4 then le_dec (take 4 data)
  else 0.

Definition mmio_read_bytes (value len : Z) : list byte :=
  if len =? 1 then le_enc 1 value
  else if len =? 2 then le_enc 2 value
  else if len =? 4 then le_enc 4 value
  else [].

Definition internal_error_msg (suberror : Z) : string :=
  "KVM internal error: suberror=" +:+ pretty suberror.
Definition unknown_exit_msg (reason : Z) : string :=
  "unknown vmexit reason: " +:+ pretty reason.

Section Loops.
Context {D M W : Type} `{VirtioDevice D M W} `{HostIo W}.
Implicit Types (s : CaptureState D M W) (e : loop_env).

(** [inject_serial_irq]: a pulse on IRQ 4. *)
Definition inject_serial_irq (b : MmioBus D) (w : W) : W :=
  match vm_fd b with Some fd => pulse_irq w fd 4 | None => w end.

Definition with_host s (b : MmioBus D) (m : M) (w : W) : CaptureState D M W :=
  {| cs_output := cs_output s; cs_console := cs_console s; cs_serial := cs_serial s;
     cs_diag := cs_diag s; cs_bus := b; cs_mem := m; cs_host := w |}.
Definition with_diag s (d : CaptureDiagnostics) : CaptureState D M W :=
  {| cs_output := cs_output s; cs_console := cs_console s; cs_serial := cs_serial s;
     cs_diag := d; cs_bus := cs_bus s; cs_mem := cs_mem s; cs_host := cs_host s |}.
Definition with_serial s (ser : SerialState) : CaptureState D M W :=
  {| cs_output := cs_output s; cs_console := cs_console s; cs_serial := ser;
     cs_diag := cs_diag s; cs_bus := cs_bus s; cs_mem := cs_mem s; cs_host := cs_host s |}.

Definition elapsed_at s (t : Z) : CaptureState D M W :=
  let d := cs_diag s in
  with_diag s {| total_exits := total_exits d; io_in_count := io_in_count d;
    io_out_count := io_out_count d; io_out_serial_count := io_out_serial_count d;
    mmio_count := mmio_count d; diag_elapsed := t |}.
Definition count_exit s : CaptureState D M W :=
  let d := cs_diag s in
  with_diag s {| total_exits := total_exits d ⊞ 1; io_in_count := io_in_count d;
    io_out_count := io_out_count d; io_out_serial_count := io_out_serial_count d;
    mmio_count := mmio_count d; diag_elapsed := diag_elapsed d |}.
Definition count_in s : CaptureState D M W :=
  let d := cs_diag s in
  with_diag s {| total_exits := total_exits d; io_in_count := io_in_count d ⊞ 1;
    io_out_count := io_out_count d; io_out_serial_count := io_out_serial_count d;
    mmio_count := mmio_count d; diag_elapsed := diag_elapsed d |}.
Definition count_out s (serial : bool) : CaptureState D M W :=
  let d := cs_diag s in
  with_diag s {| total_exits := total_exits d; io_in_count := io_in_count d;
    io_out_count := io_out_count d ⊞ 1;
    io_out_serial_count := if serial then io_out_serial_count d ⊞ 1 else io_out_serial_count d;
    mmio_count := mmio_count d; diag_elapsed := diag_elapsed d |}.
Definition count_mmio s : CaptureState D M W :=
  let d := cs_diag s in
  with_diag s {| total_exits := total_exits d; io_in_count := io_in_count d;
    io_out_count := io_out_count d; io_out_serial_count := io_out_serial_count d;
    mmio_count := mmio_count d ⊞ 1; diag_elapsed := diag_elapsed d |}.

Definition poll s : infallible (bool * CaptureState D M W) :=
  '(any, (b, m, w)) ← poll_devices (cs_bus s) (cs_mem s) (cs_host s);
  Ok (any, with_host s b m w).

(** Raise IRQ 4 when the UART asks for it. *)
Definition serial_irq s : CaptureState D M W :=
  if needs_irq (cs_serial s)
  then with_host s (cs_bus s) (cs_mem s) (inject_serial_irq (cs_bus s) (cs_host s))
  else s.

(** Draining the shared input queue into the UART. *)
Definition drain_input s (bytes : list Z) : CaptureState D M W :=
  match bytes with
  | [] => s
  | _ => serial_irq (with_serial s (queue_input (cs_serial s) bytes))
  end.

(** A byte written to a COM1 register; [live] pushes a transmitted byte to
    the shared console as well. *)
Definition serve_com1_out (live : bool) s (port byte : Z) : CaptureState D M W :=
  let '(tx, ser) := serial_write (cs_serial s) port byte in
  let out := if tx : bool then [byte] else [] in
  serial_irq
    {| cs_output := cs_output s ++ out;
       cs_console := if live then cs_console s ++ out else cs_console s;
       cs_serial := ser; cs_diag := cs_diag s; cs_bus := cs_bus s; cs_mem := cs_mem s;
       cs_host := cs_host s |}.

(** The arms of the capture loops' [match exit] other than [Interrupted]. *)
Definition serve_exit (live : bool) s (x : VmExit) (elapsed : Z)
    : infallible (step_result (CaptureState D M W)) :=
  match x with
  | Interrupted => Ok (Next s [])
  | IoOut port size data =>
      let com1 := is_com1 port && (size =? 1) in
      let s := count_out s com1 in
      if com1 then Ok (Next (serve_com1_out live s port (Z.land data 0xFF)) [])
      else Ok (Next s [])
  | IoIn port size =>
      let s := count_in s in
      let '(v, ser) := if is_com1 port then serial_read (cs_serial s) port
                       else (default_io_read port, cs_serial s) in
      Ok (Next (with_serial s ser) (replicate (Z.to_nat size) (z2b v)))
  | MmioWrite addr data len =>
      let s := count_mmio s in
      '(_, (b, m, w)) ← bus_write (cs_bus s) addr len (mmio_write_value data len)
                          (cs_mem s) (cs_host s);
      Ok (Next (with_host s b m w) [])
  | MmioRead addr len =>
      let s := count_mmio s in
      let v := default 0 (bus_read (M:=M) (W:=W) (cs_bus s) addr len) in
      Ok (Next s (mmio_read_bytes v len))
  | Hlt => '(_, s) ← poll s; Ok (Next s [])
  | Shutdown => Ok (Stopped (elapsed_at s elapsed) StopShutdown)
  | InternalError sub =>
      Ok (Stopped (elapsed_at s elapsed) (StopError (internal_error_msg sub)))
  | Unknown r => Ok (Stopped (elapsed_at s elapsed) (StopError (unknown_exit_msg r)))
  end.

(** The part of an iteration from polling to the exit's handler, with the
    loop's own treatment of an interrupt. *)
Definition run_and_serve (live : bool) s e
    (on_interrupt : CaptureState D M W → step_result (CaptureState D M W))
    : infallible (step_result (CaptureState D M W)) :=
  '(_, s) ← poll s;
  match env_exit e with
  | inl errno => Ok (RunFailed s errno)
  | inr x =>
      let s := count_exit s in
      match x with
      | Interrupted => Ok (on_interrupt s)
      | x => serve_exit live s x (env_elapsed e)
      end
  end.

Definition check_timeout (timeout : Z) e s : step_result (CaptureState D M W) :=
  if timeout <=? env_elapsed e then Stopped (elapsed_at s (env_elapsed e)) StopTimeout
  else Next s [].

(** [run_vcpu_capture_inner]. *)
Definition capture_step (timeout max_output : Z) (console_input : bool) s e
    : infallible (step_result (CaptureState D M W)) :=
  if max_output <=? zlen (cs_output s)
  then Ok (Stopped (elapsed_at s (env_elapsed e)) StopBufferFull)
  else
    let s := if console_input then drain_input s (env_input e) else s in
    run_and_serve false s e (check_timeout timeout e).

(** [run_vcpu_capture_inner_interactive]. *)
Definition interactive_step (timeout max_output : Z) (has_flag : bool) s e
    : infallible (step_result (CaptureState D M W)) :=
  if max_output <=? zlen (cs_output s)
  then Ok (Stopped (elapsed_at s (env_elapsed e)) StopBufferFull)
  else if has_flag && env_stop e
  then Ok (Stopped (elapsed_at s (env_elapsed e)) StopStopped)
  else
    run_and_serve true (drain_input s (env_input e)) e (λ s,
      if has_flag && env_stop_late e then Stopped (elapsed_at s (env_elapsed e)) StopStopped
      else check_timeout timeout e s).

(** [haystack.windows(needle.len()).any(|w| w == needle)]. *)
Definition any_window (needle haystack : list Z) : bool :=
  existsb (λ i, bool_decide (sub_list i (zlen needle) haystack = needle))
          (seqZ 0 (zlen haystack - zlen needle + 1)).

(** The search of [run_vcpu_until_match]: only the last [n + 256] bytes; the
    standard library panics on windows of length 0. *)
Definition match_found (target output : list Z) : infallible bool :=
  if zlen target <=? zlen output then
    let start := Z.max 0 (zlen output - (zlen target + 256)) in
    if zlen target =? 0 then Panic PanicBounds
    else Ok (any_window target (drop (Z.to_nat start) output))
  else Ok false.

(** [run_vcpu_until_match]. *)
Definition until_match_step (timeout : Z) (target : list Z) s e
    : infallible (step_result (CaptureState D M W)) :=
  found ← match_found target (cs_output s);
  if found : bool then Ok (Stopped (elapsed_at s (env_elapsed e)) StopBufferFull)
  else run_and_serve false s e (check_timeout timeout e).

(** A loop over the iterations the environment plays. *)
Fixpoint run_loop (step : CaptureState D M W → loop_env → infallible (step_result (CaptureState D M W)))
    s (envs : list loop_env) : infallible (step_result (CaptureState D M W)) :=
  match envs with
  | [] => Ok (Next s [])
  | e :: envs =>
      r ← step s e;
      match r with
      | Next s _ => run_loop step s envs
      | r => Ok r
      end
  end.

(** The state the loops start in. *)
Definition capture_start (ser : SerialState) (b : MmioBus D) (m : M) (w : W) : CaptureState D M W :=
  {| cs_output := []; cs_console := []; cs_serial := ser; cs_diag := diag_default;
     cs_bus := b; cs_mem := m; cs_host := w |}.

(** [run_vcpu_with_capture], [run_vcpu_resume_capture] and the interactive
    variant: the last two resume a guest whose driver has set IER. *)
Definition run_vcpu_with_capture (timeout max_output : Z) (b : MmioBus D) (m : M) (w : W) envs :=
  run_loop (capture_step timeout max_output false) (capture_start SerialState_new b m w) envs.
Definition run_vcpu_resume_capture (timeout max_output : Z) (b : MmioBus D) (m : M) (w : W) envs :=
  run_loop (capture_step timeout max_output false)
    (capture_start (set_ier SerialState_new 0x02) b m w) envs.
Definition run_vcpu_resume_capture_interactive (timeout max_output : Z) (has_flag : bool)
    (b : MmioBus D) (m : M) (w : W) envs :=
  run_loop (interactive_step timeout max_output has_flag)
    (capture_start (set_ier SerialState_new 0x02) b m w) envs.
Definition run_vcpu_until_match (timeout : Z) (target : list Z) (b : MmioBus D) (m : M) (w : W) envs :=
  run_loop (until_match_step timeout target) (capture_start SerialState_new b m w) envs.

(** [handle_exit] and [run_vcpu_loop]; [print] writes a byte to stdout. *)
Definition handle_exit (print : W → Z → W) (x : VmExit) (b : MmioBus D) (m : M) (w : W)
    : infallible (ExitAction * option (list byte) * (MmioBus D * M * W)) :=
  match x with
  | MmioWrite addr data len =>
      '(_, s) ← bus_write b addr len (mmio_write_value data len) m w;
      Ok (ActContinue, None, s)
  | MmioRead addr len =>
      let v := default 0 (bus_read (M:=M) (W:=W) b addr len) in
      Ok (ActContinue, Some (mmio_read_bytes v len), (b, m, w))
  | IoOut port size data =>
      let w := if (port =? 0x3F8) && (size =? 1) then print w (Z.land data 0xFF) else w in
      Ok (ActContinue, None, (b, m, w))
  | IoIn port _ =>
      Ok (ActContinue, if port =? 0x3FD then Some (le_enc 1 0x60) else None, (b, m, w))
  | Hlt => Ok (ActShutdown, None, (b, m, w))
  | Shutdown => Ok (ActShutdown, None, (b, m, w))
  | Interrupted => Ok (ActContinue, None, (b, m, w))
  | InternalError sub => Ok (ActError (internal_error_msg sub), None, (b, m, w))
  | Unknown r => Ok (ActError (unknown_exit_msg r), None, (b, m, w))
  end.

(** The result of [run_vcpu_loop]: still running, a clean shutdown, or an
    error. *)
Inductive loop_result : Type :=
| LoopRunning
| LoopShutdown
| LoopError (msg : string)
| LoopRunFailed (errno : Z).

Fixpoint run_vcpu_loop (print : W → Z → W) (b : MmioBus D) (m : M) (w : W)
    (exits : list (Z + VmExit)) : infallible (loop_result * (MmioBus D * M * W)) :=
  match exits with
  | [] => Ok (LoopRunning, (b, m, w))
  | x :: exits =>
      '(_, (b, m, w)) ← poll_devices b m w;
      match x with
      | inl errno => Ok (LoopRunFailed errno, (b, m, w))
      | inr Hlt => '(_, (b, m, w)) ← poll_devices b m w; run_vcpu_loop print b m w exits
      | inr x =>
          '(act, _, (b, m, w)) ← handle_exit print x b m w;
          match act with
          | ActContinue => run_vcpu_loop print b m w exits
          | ActShutdown => Ok (LoopShutdown, (b, m, w))
          | ActError msg => Ok (LoopError msg, (b, m, w))
          end
      end
  end.

End Loops.

(** ** The guest-visible serial behaviour of a run *)

(** What one iteration does to the UART, and the byte it transmits: the
    loop's specification, without bus, memory, host or counters. *)
Definition uart_step (input : bool) (ser : SerialState) (e : loop_env) : list Z * SerialState :=
  let ser := if input then match env_input e with [] => ser | b => queue_input ser b end else ser in
  match env_exit e with
  | inr (IoOut port size data) =>
      if is_com1 port && (size =? 1)
      then let byte := Z.land data 0xFF in
           let '(tx, ser) := serial_write ser port byte in
           (if tx : bool then [byte] else [], ser)
      else ([], ser)
  | inr (IoIn port _) => ([], if is_com1 port then (serial_read ser port).2 else ser)
  | _ => ([], ser)
  end.

Fixpoint uart_output (input : bool) (ser : SerialState) (envs : list loop_env) : list Z :=
  match envs with
  | [] => []
  | e :: envs => let '(out, ser) := uart_step input ser e in out ++ uart_output input ser envs
  end.

Lemma uart_step_le input ser e : (length (uart_step input ser e).1 ≤ 1)%nat.
Proof.
  unfold uart_step. repeat case_match; simpl; try lia.
Qed.

Section Runs.
Context {D M W : Type} `{VirtioDevice D M W} `{HostIo W}.
Implicit Types (s : CaptureState D M W) (e : loop_env).

Lemma serial_irq_output s :
  cs_output (serial_irq s) = cs_output s ∧ cs_serial (serial_irq s) = cs_serial s.
Proof. unfold serial_irq. by case_match. Qed.

Lemma drain_input_spec s bytes :
  cs_output (drain_input s bytes) = cs_output s ∧
  cs_serial (drain_input s bytes) =
    match bytes with [] => cs_serial s | _ => queue_input (cs_serial s) bytes end.
Proof.
  destruct bytes as [|b bs]; [done|]. unfold drain_input.
  destruct (serial_irq_output (with_serial s (queue_input (cs_serial s) (b :: bs)))) as [-> ->].
  done.
Qed.

Lemma poll_spec s any s' :
  poll s = Ok (any, s') → cs_output s' = cs_output s ∧ cs_serial s' = cs_serial s.
Proof.
  unfold poll. intros Hp.
  destruct (poll_devices (cs_bus s) (cs_mem s) (cs_host s)) as [[a [[b m] w]]| |]; by simplify_eq/=.
Qed.

(** The handler of an exit transmits what the UART transmits. *)
Lemma serve_exit_uart live s x t r :
  serve_exit live s x t = Ok r →
  let env := {| env_stop := false; env_input := []; env_exit := inr x; env_stop_late := false;
                env_elapsed := t |} in
  match r with
  | Next s' _ => cs_output s' = cs_output s ++ (uart_step false (cs_serial s) env).1 ∧
                 cs_serial s' = (uart_step false (cs_serial s) env).2
  | Stopped s' why => cs_output s' = cs_output s ∧ why ≠ StopHlt ∧ why ≠ StopBufferFull
  | RunFailed _ _ => False
  end.
Proof.
  intros Hr. destruct x; simpl in Hr; unfold uart_step; simpl.
  - simplify_eq. simpl. by rewrite app_nil_r.
  - destruct (bus_write _ _ _ _ _ _) as [[a [[b m] w]]| |]; simplify_eq/=. by rewrite app_nil_r.
  - destruct (is_com1 port); simpl in *.
    + destruct (serial_read (cs_serial s) port); simplify_eq/=. by rewrite app_nil_r.
    + simplify_eq/=. by rewrite app_nil_r.
  - destruct (is_com1 port && (size =? 1)); simplify_eq/=; [|by rewrite app_nil_r].
    unfold serve_com1_out. simpl.
    destruct (serial_write (cs_serial s) port (Z.land data 0xFF)) as [tx ser].
    match goal with |- context [serial_irq ?x] => destruct (serial_irq_output x) as [-> ->] end.
    done.
  - destruct (poll s) as [[a s1]| |] eqn:Hp; simplify_eq/=. rewrite app_nil_r. by eapply poll_spec.
  - simplify_eq. done.
  - simplify_eq. by rewrite app_nil_r.
  - simplify_eq. done.
  - simplify_eq. done.
Qed.

(** An iteration from polling on, when an interrupt does not transmit. *)
Lemma run_and_serve_uart live s e f r :
  run_and_serve live s e f = Ok r →
  (∀ s0 s' resp, f s0 = Next s' resp → cs_output s' = cs_output s0 ∧ cs_serial s' = cs_serial s0) →
  (∀ s0 s' why, f s0 = Stopped s' why → cs_output s' = cs_output s0 ∧ why ≠ StopHlt ∧ why ≠ StopBufferFull) →
  (∀ s0 s' n, f s0 ≠ RunFailed s' n) →
  match r with
  | Next s' _ => cs_output s' = cs_output s ++ (uart_step false (cs_serial s) e).1 ∧
                 cs_serial s' = (uart_step false (cs_serial s) e).2
  | Stopped s' why => cs_output s' = cs_output s ∧ why ≠ StopHlt ∧ why ≠ StopBufferFull
  | RunFailed s' n => env_exit e = inl n ∧ cs_output s' = cs_output s
  end.
Proof.
  intros Hr Hnext Hstop Hfail. unfold run_and_serve in Hr.
  destruct (poll s) as [[a s1]| |] eqn:Hp; simplify_eq/=. apply poll_spec in Hp as [Ho Hs].
  destruct (env_exit e) as [n|x] eqn:Hx; simplify_eq; [done|].
  assert (x = Interrupted ∨ x ≠ Interrupted) as [->|Hne]
    by (destruct x; first [by left|by right]).
  - simplify_eq. destruct (f (count_exit s1)) as [s' resp|s' why|n] eqn:Hf.
    + destruct (Hnext _ _ _ Hf) as [-> ->]. unfold uart_step. rewrite Hx. simpl.
      by rewrite Ho, Hs, app_nil_r.
    + destruct (Hstop _ _ _ Hf) as (-> & ? & ?). by rewrite <- Ho.
    + by destruct (Hfail _ _ _ Hf).
  - assert (Hserve : serve_exit live (count_exit s1) x (env_elapsed e) = Ok r) by by destruct x.
    apply serve_exit_uart in Hserve. unfold uart_step in *. rewrite Hx. simpl in *.
    rewrite Ho, Hs in Hserve. by destruct r.
Qed.

End Runs.

Section CaptureRuns.
Context {D M W : Type} `{VirtioDevice D M W} `{HostIo W}.
Context (timeout max_output : Z) (input : bool).
Implicit Types (s : CaptureState D M W) (e : loop_env).

Lemma check_timeout_cases e s :
  check_timeout timeout e s = Next s [] ∨
  check_timeout timeout e s = Stopped (elapsed_at s (env_elapsed e)) StopTimeout.
Proof using. unfold check_timeout. case_match; auto. Qed.

(** *** The interactive loop

    Its console gets what its output gets. *)
Definition mirrored s : Prop := cs_console s = cs_output s.
Definition result_state (r : step_result (CaptureState D M W)) : CaptureState D M W :=
  match r with Next s _ | Stopped s _ | RunFailed s _ => s end.

Lemma serial_irq_mirrored s : mirrored s → mirrored (serial_irq s).
Proof using. unfold serial_irq. by case_match. Qed.
Lemma drain_input_mirrored s bytes : mirrored s → mirrored (drain_input s bytes).
Proof using. intros Hs. destruct bytes; [done|]. by apply serial_irq_mirrored. Qed.
Lemma poll_mirrored s any s' : poll s = Ok (any, s') → mirrored s → mirrored s'.
Proof using.
  unfold poll. intros Hp Hs.
  destruct (poll_devices (cs_bus s) (cs_mem s) (cs_host s)) as [[a [[b m] w]]| |]; by simplify_eq/=.
Qed.
Lemma serve_exit_mirrored s x t r : serve_exit true s x t = Ok r → mirrored s → mirrored (result_state r).
Proof using.
  intros Hr Hs. destruct x; simpl in Hr; simplify_eq; try done.
  - destruct (bus_write _ _ _ _ _ _) as [[a [[b m] w]]| |]; by simplify_eq/=.
  - destruct (is_com1 port); simpl in *; [destruct (serial_read (cs_serial s) port)|]; by simplify_eq/=.
  - destruct (is_com1 port && (size =? 1)); simplify_eq/=; [|done].
    unfold serve_com1_out. simpl. destruct (serial_write (cs_serial s) port (Z.land data 0xFF)) as [tx ser].
    apply serial_irq_mirrored. unfold mirrored in *. simpl. by rewrite Hs.
  - destruct (poll s) as [[a s1]| |] eqn:Hp; simplify_eq/=. by eapply poll_mirrored.
Qed.

Lemma capture_step_uart s e r :
  capture_step timeout max_output input s e = Ok r →
  match r with
  | Next s' _ => cs_output s' = cs_output s ++ (uart_step input (cs_serial s) e).1 ∧
                 cs_serial s' = (uart_step input (cs_serial s) e).2 ∧
                 zlen (cs_output s) < max_output
  | Stopped s' why => cs_output s' = cs_output s ∧ why ≠ StopHlt ∧
                      (why = StopBufferFull → max_output ≤ zlen (cs_output s))
  | RunFailed _ n => env_exit e = inl n
  end.
Proof using.
  intros Hr. unfold capture_step in Hr. destruct (_ <=? _) eqn:Hmax; to_prop.
  { by simplify_eq. }
  set (s0 := if input then drain_input s (env_input e) else s) in Hr.
  assert (Hs0 : cs_output s0 = cs_output s ∧
    cs_serial s0 = if input then match env_input e with
      [] => cs_serial s | b => queue_input (cs_serial s) b end else cs_serial s).
  { unfold s0. destruct input; [|done].
    destruct (drain_input_spec s (env_input e)) as [-> ->]. by destruct (env_input e). }
  clearbody s0. destruct Hs0 as [Ho Hs].
  apply run_and_serve_uart in Hr.
  - assert (Hst : uart_step false (cs_serial s0) e = uart_step input (cs_serial s) e)
      by (unfold uart_step; by rewrite Hs).
    rewrite Hst, Ho in Hr. destruct r; [|by destruct Hr as (? & ? & ?)|by destruct Hr].
    destruct Hr. auto.
  - intros s1 s' resp. destruct (check_timeout_cases e s1) as [->| ->]; intros; by simplify_eq.
  - intros s1 s' why. destruct (check_timeout_cases e s1) as [->| ->]; intros; by simplify_eq.
  - intros s1 s' n. by destruct (check_timeout_cases e s1) as [->| ->].
Qed.

Lemma capture_run_uart s envs r :
  run_loop (capture_step timeout max_output input) s envs = Ok r →
  zlen (cs_output s) ≤ max_output →
  match r with
  | Next s' _ => cs_output s' = cs_output s ++ uart_output input (cs_serial s) envs ∧
                 zlen (cs_output s') ≤ max_output
  | Stopped s' why =>
      (∃ served, served `prefix_of` envs ∧
         cs_output s' = cs_output s ++ uart_output input (cs_serial s) served) ∧
      zlen (cs_output s') ≤ max_output ∧ why ≠ StopHlt ∧
      (why = StopBufferFull → zlen (cs_output s') = max_output)
  | RunFailed _ n => ∃ e, e ∈ envs ∧ env_exit e = inl n
  end.
Proof using.
  revert s. induction envs as [|e envs IH]; intros s Hr Hmax; simpl in Hr.
  { simplify_eq/=. by rewrite app_nil_r. }
  destruct (capture_step timeout max_output input s e) as [r1| |] eqn:Hst; simplify_eq/=.
  apply capture_step_uart in Hst.
  destruct r1 as [s1 resp|s1 why|s1 n]; simplify_eq/=.
  - destruct Hst as (Ho & Hs & Hlt).
    assert (Hlen : zlen (cs_output s1) ≤ max_output).
    { rewrite Ho, zlen_app. pose proof (uart_step_le input (cs_serial s) e). unfold zlen in *. lia. }
    specialize (IH s1 Hr Hlen). rewrite Ho, Hs in IH.
    destruct (uart_step input (cs_serial s) e) as [out ser] eqn:Hu. simpl in *.
    destruct r as [s' resp'|s' why|s' n].
    + destruct IH as [-> ?]. by rewrite app_assoc.
    + destruct IH as ((served & Hpre & ->) & ? & ? & ?). split; [|done].
      exists (e :: served). split; [by apply prefix_cons|]. simpl. by rewrite Hu, app_assoc.
    + destruct IH as (e' & ? & ?). exists e'. split; [by right|done].
  - destruct Hst as (-> & ? & Hfull). split_and!; try done.
    + exists []. split; [by apply prefix_nil|]. simpl. by rewrite app_nil_r.
    + intros ?. specialize (Hfull ltac:(done)). lia.
  - exists e. split; [by left|done].
Qed.

Lemma interactive_step_uart (flag : bool) s e r :
  interactive_step timeout max_output flag s e = Ok r → mirrored s →
  mirrored (result_state r) ∧
  match r with
  | Next s' _ => cs_output s' = cs_output s ++ (uart_step true (cs_serial s) e).1 ∧
                 cs_serial s' = (uart_step true (cs_serial s) e).2
  | Stopped s' _ | RunFailed s' _ => cs_output s' = cs_output s
  end.
Proof using.
  intros Hr Hm. unfold interactive_step in Hr. destruct (_ <=? _); [by simplify_eq|].
  destruct (flag && env_stop e); [by simplify_eq|].
  set (f := λ s0, if flag && env_stop_late e then Stopped (elapsed_at s0 (env_elapsed e)) StopStopped
                  else check_timeout timeout e s0) in Hr.
  assert (Hf : ∀ s0, f s0 = Next s0 [] ∨ ∃ why, f s0 = Stopped (elapsed_at s0 (env_elapsed e)) why ∧ why ≠ StopHlt ∧ why ≠ StopBufferFull).
  { intros s0. unfold f. destruct (flag && env_stop_late e); [by right; eexists|].
    destruct (check_timeout_cases e s0) as [->| ->]; [by left|by right; eexists]. }
  destruct (drain_input_spec s (env_input e)) as [Ho Hs]. pose proof (drain_input_mirrored s (env_input e) Hm) as Hm'.
  set (s0 := drain_input s (env_input e)) in *. clearbody s0. split.
  - unfold run_and_serve in Hr. destruct (poll s0) as [[a s1]| |] eqn:Hp; simplify_eq/=.
    pose proof (poll_mirrored _ _ _ Hp Hm') as Hm1. destruct (env_exit e) as [n|x]; simplify_eq; [done|].
    destruct x; try (by eapply serve_exit_mirrored; [exact Hr|]). injection Hr as <-.
    destruct (Hf (count_exit s1)) as [->|(why & -> & _)]; done.
  - apply run_and_serve_uart in Hr.
    + assert (Hst : uart_step false (cs_serial s0) e = uart_step true (cs_serial s) e)
        by (unfold uart_step; rewrite Hs; by destruct (env_input e)).
      rewrite Hst, Ho in Hr. destruct r as [s' resp|s' why|s' n]; by destruct Hr.
    + intros s1 s' resp. destruct (Hf s1) as [->|(why & -> & _)]; intros; by simplify_eq.
    + intros s1 s' why'. destruct (Hf s1) as [->|(why & -> & Hw)]; intros; by simplify_eq.
    + intros s1 s' n. by destruct (Hf s1) as [->|(why & -> & _)].
Qed.

Lemma interactive_run_uart (flag : bool) s envs r :
  run_loop (interactive_step timeout max_output flag) s envs = Ok r → mirrored s →
  mirrored (result_state r) ∧
  ∃ served, served `prefix_of` envs ∧ cs_output (result_state r) = cs_output s ++ uart_output true (cs_serial s) served ∧
    match r with Next _ _ => served = envs | _ => True end.
Proof using.
  revert s. induction envs as [|e envs IH]; intros s Hr Hm; simpl in Hr.
  { simplify_eq/=. split; [done|]. exists []. by rewrite app_nil_r. }
  destruct (interactive_step timeout max_output flag s e) as [r1| |] eqn:Hst; simplify_eq/=.
  apply interactive_step_uart in Hst as [Hm1 Hst]; [|done].
  destruct r1 as [s1 resp|s1 why|s1 n]; simplify_eq/=.
  2, 3: split; [done|]; exists []; rewrite app_nil_r; split_and!; [apply prefix_nil|done|done].
  destruct Hst as [Ho Hs]. destruct (IH s1 Hr Hm1) as (Hm2 & served & Hpre & Hout & Hall). split; [done|].
  exists (e :: served). rewrite Hout, Ho, Hs. split_and!.
  - by apply prefix_cons.
  - simpl. destruct (uart_step true (cs_serial s) e) as [out ser]. simpl. by rewrite app_assoc.
  - destruct r; by subst.
Qed.

End CaptureRuns.

(** ** Searching the output *)

Definition occurs (t o : list Z) : Prop := ∃ a b, o = a ++ t ++ b.

Lemma any_window_occurs t o : any_window t o = true ↔ occurs t o.
Proof.
  unfold any_window. rewrite existsb_exists. split.
  - intros (i & Hi & Hw%bool_decide_eq_true). exists (take (Z.to_nat i) o).
    exists (drop (Z.to_nat i + length t) o). rewrite <- Hw at 1.
    unfold sub_list, zlen. rewrite Nat2Z.id.
    by rewrite <- drop_drop, firstn_skipn, firstn_skipn.
  - intros (a & b & ->). exists (zlen a). split.
    + apply list_elem_of_In, elem_of_seqZ. autorewrite with zlen.
      pose proof (zlen_nonneg a). pose proof (zlen_nonneg b). lia.
    + apply bool_decide_eq_true. rewrite sub_list_skip by lia.
      rewrite Z.sub_diag. by apply sub_list_here.
Qed.

Lemma occurs_short t o : occurs t o → zlen t ≤ zlen o.
Proof.
  intros (a & b & ->). autorewrite with zlen. pose proof (zlen_nonneg a).
  pose proof (zlen_nonneg b). lia.
Qed.

Lemma occurs_app_l t o k : occurs t o → occurs t (o ++ k).
Proof. intros (a & b & ->). exists a, (b ++ k). by rewrite !app_assoc. Qed.

Lemma occurs_app_r t o k : occurs t o → occurs t (k ++ o).
Proof. intros (a & b & ->). exists (k ++ a), b. by rewrite !app_assoc. Qed.

(** Looking at the tail is enough when only the last byte is new. *)
Lemma match_found_spec t o :
  t ≠ [] → ¬ occurs t (removelast o) →
  ∃ b, match_found t o = Ok b ∧ (b = true ↔ occurs t o).
Proof.
  intros Ht Hold. unfold match_found. destruct (zlen t <=? zlen o) eqn:Hl; to_prop.
  2:{ exists false. split; [done|]. split; [done|]. intros ?%occurs_short. lia. }
  assert (Hz : (zlen t =? 0) = false).
  { apply Z.eqb_neq. destruct t; [done|]. rewrite zlen_cons. pose proof (zlen_nonneg t). lia. }
  rewrite Hz. eexists. split; [done|]. rewrite any_window_occurs. split.
  - intros Ho. rewrite <- (firstn_skipn (Z.to_nat (Z.max 0 (zlen o - (zlen t + 256)))) o).
    by apply occurs_app_r.
  - intros (a & b & ->).
    destruct (decide (b = [])) as [->|Hb].
    + rewrite app_nil_r in *. exists (drop (Z.to_nat (Z.max 0 (zlen (a ++ t) - (zlen t + 256)))) a), [].
      rewrite app_nil_r, drop_app_le; [done|]. autorewrite with zlen. unfold zlen. lia.
    + destruct Hold. destruct (exists_last Hb) as (b' & x & ->).
      exists a, b'. by rewrite !app_assoc, removelast_last.
Qed.

Section MatchRuns.
Context {D M W : Type} `{VirtioDevice D M W} `{HostIo W}.
Context (timeout : Z) (target : list Z) (Htarget : target ≠ []).
Implicit Types (s : CaptureState D M W) (e : loop_env).

Lemma until_match_step_spec s e r :
  ¬ occurs target (removelast (cs_output s)) →
  until_match_step timeout target s e = Ok r →
  match r with
  | Next s' _ => ¬ occurs target (removelast (cs_output s'))
  | Stopped s' StopBufferFull => occurs target (cs_output s') ∧ ¬ occurs target (removelast (cs_output s'))
  | Stopped s' _ => ¬ occurs target (cs_output s')
  | RunFailed _ _ => True
  end.
Proof using Htarget.
  intros Hold Hr. unfold until_match_step in Hr.
  destruct (match_found_spec target (cs_output s) Htarget Hold) as (b & Hf & Hb).
  rewrite Hf in Hr. simpl in Hr. destruct b.
  { simplify_eq. simpl. split; [by apply Hb|done]. }
  assert (Hno : ¬ occurs target (cs_output s)) by (intros Ho; by apply Hb in Ho).
  apply run_and_serve_uart in Hr.
  - destruct r as [s' resp|s' why|n]; [|by destruct Hr as (-> & ? & ?); destruct why|done].
    destruct Hr as [-> _]. pose proof (uart_step_le false (cs_serial s) e) as Hle.
    destruct (uart_step false (cs_serial s) e) as [[|x [|y l]] ser]; simpl in *; [|by rewrite removelast_last|lia].
    by rewrite app_nil_r.
  - intros s1 s' resp. destruct (check_timeout_cases timeout e s1) as [->| ->]; intros; by simplify_eq.
  - intros s1 s' why. destruct (check_timeout_cases timeout e s1) as [->| ->]; intros; by simplify_eq.
  - intros s1 s' n. by destruct (check_timeout_cases timeout e s1) as [->| ->].
Qed.

Lemma until_match_run s envs r :
  ¬ occurs target (removelast (cs_output s)) →
  run_loop (until_match_step timeout target) s envs = Ok r →
  match r with
  | Next s' _ => ¬ occurs target (removelast (cs_output s'))
  | Stopped s' StopBufferFull => occurs target (cs_output s') ∧ ¬ occurs target (removelast (cs_output s'))
  | Stopped s' _ => ¬ occurs target (cs_output s')
  | RunFailed _ _ => True
  end.
Proof using Htarget.
  revert s. induction envs as [|e envs IH]; intros s Hold Hr; simpl in Hr.
  { by simplify_eq. }
  destruct (until_match_step timeout target s e) as [r1| |] eqn:Hst; simplify_eq/=.
  apply until_match_step_spec in Hst; [|done].
  destruct r1 as [s1 resp|s1 why|s1 n]; simplify_eq/=; [by apply (IH s1)|done|done].
Qed.

End MatchRuns.

(** ** Properties *)

(** A capture run returns what the guest transmitted: for any exits,
    input and timing, the collected output is exactly the byte sequence the
    UART transmits for the iterations served, it never exceeds [max_output],
    and it has that length exactly when the run stops for a full buffer. *)
Theorem capture_output_exact {D M W} `{VirtioDevice D M W} `{HostIo W}
    timeout max_output (b : MmioBus D) (m : M) (w : W) envs r :
  0 ≤ max_output →
  run_vcpu_with_capture timeout max_output b m w envs = Ok r →
  match r with
  | Next s' _ => cs_output s' = uart_output false SerialState_new envs ∧
                 zlen (cs_output s') ≤ max_output
  | Stopped s' why =>
      (∃ served, served `prefix_of` envs ∧
         cs_output s' = uart_output false SerialState_new served) ∧
      zlen (cs_output s') ≤ max_output ∧
      (why = StopBufferFull → zlen (cs_output s') = max_output)
  | RunFailed _ n => ∃ e, e ∈ envs ∧ env_exit e = inl n
  end.
Proof.
  intros Hm Hr. apply capture_run_uart in Hr; [|done].
  destruct r as [s' resp|s' why|n]; [done| |done].
  destruct Hr as (? & ? & _ & ?). done.
Qed.

(** The boot marker: [run_vcpu_until_match], which searches only the
    tail of the output, stops for a match exactly at the first occurrence of
    the marker: the output contains it and, without its last byte, does not;
    and a run that stops for another reason has not seen it. *)
Theorem until_match_first_occurrence {D M W} `{VirtioDevice D M W} `{HostIo W}
    timeout target (b : MmioBus D) (m : M) (w : W) envs s why :
  target ≠ [] →
  run_vcpu_until_match timeout target b m w envs = Ok (Stopped s why) →
  (why = StopBufferFull → occurs target (cs_output s) ∧ ¬ occurs target (removelast (cs_output s))) ∧
  (why ≠ StopBufferFull → ¬ occurs target (cs_output s)).
Proof.
  intros Ht Hr. apply until_match_run in Hr; [|done|].
  - by destruct why.
  - intros Ho%occurs_short. simpl in Ho. destruct target; [done|].
    rewrite zlen_cons, zlen_nil in Ho. pose proof (zlen_nonneg target). lia.
Qed.

(** ** Witnesses *)

Definition demo_env (x : VmExit) : loop_env :=
  {| env_stop := false; env_input := []; env_exit := inr x; env_stop_late := false;
     env_elapsed := 5 |}.

(** "ok" is written after the driver has opened and closed the divisor latch. *)
Definition demo_envs : list loop_env :=
  demo_env <$> [IoOut 0x3FB 1 0x83; IoOut 0x3F8 1 0x0C; IoOut 0x3FB 1 0x03; Hlt;
                IoOut 0x3F8 1 111; Interrupted; IoOut 0x3F8 1 107; Shutdown].

Lemma capture_output_exact_witness :
  ∃ s, run_vcpu_with_capture 100 64 demo_bus (demo_mem []) idle_host demo_envs
         = Ok (Stopped s StopShutdown) ∧ cs_output s = [111; 107] ∧
  (∃ served, served `prefix_of` demo_envs ∧
     cs_output s = uart_output false SerialState_new served) ∧
  zlen (cs_output s) ≤ 64 ∧
  (StopShutdown = StopBufferFull → zlen (cs_output s) = 64).
Proof.
  eexists. split; [vm_compute; reflexivity|]. split; [reflexivity|].
  apply (capture_output_exact 100 64 demo_bus (demo_mem []) idle_host demo_envs (Stopped _ StopShutdown));
    [lia|]. vm_compute. reflexivity.
Defined.

Lemma until_match_first_occurrence_witness :
  ∃ s, run_vcpu_until_match 100 [111; 107] demo_bus (demo_mem []) idle_host demo_envs
         = Ok (Stopped s StopBufferFull) ∧
  (StopBufferFull = StopBufferFull →
     occurs [111; 107] (cs_output s) ∧ ¬ occurs [111; 107] (removelast (cs_output s))) ∧
  (StopBufferFull ≠ StopBufferFull → ¬ occurs [111; 107] (cs_output s)).
Proof.
  eexists. split; [vm_compute; reflexivity|].
  apply (until_match_first_occurrence 100 [111; 107] demo_bus (demo_mem []) idle_host demo_envs);
    [done|]. vm_compute. reflexivity.
Defined.
