(* ===== verification/Watchdog.v ===== *)
(** * The vCPU's watchdog and poll timer (nova-vmm/src/exit_handler.rs)

    Threads that interrupt a vCPU blocked in KVM_RUN: each waits on a
    condition variable and, when its time is over, sets [immediate_exit] in
    the shared page and signals the vCPU's thread; dropping its handle tells
    it to end and joins it.  The threads' steps interleave freely; the mutex
    of a handle is held by its thread from a wake-up until it waits again or
    ends, and by the dropping thread while it sets the flag. *)

From S2P Require Import Prelude.

(** ** State *)

(** [VcpuWatchdog] fires once, [VcpuPollTimer] again and again. *)
Inductive kicker_kind : Type := Watchdog | PollTimer.

(** Where a background thread stands: before it locks the mutex to wait, in
    [wait_timeout], after a wake-up that found [done] unset, after it has set
    [immediate_exit], or at its end. *)
Inductive kicker_pc : Type := Starting | Waiting | Kicking | Kicked | Ended.

Record Kicker : Type := {
  k_kind : kicker_kind;
  k_pc : kicker_pc;
  k_done : bool;       (* the flag behind the mutex *)
  k_notified : bool;   (* a notification the waiting thread has not yet taken *)
  k_joined : bool;     (* [drop] has returned *)
}.
Definition kicker_new (k : kicker_kind) : Kicker :=
  {| k_kind := k; k_pc := Starting; k_done := false; k_notified := false; k_joined := false |}.
Definition at_pc (k : Kicker) (pc : kicker_pc) : Kicker :=
  {| k_kind := k_kind k; k_pc := pc; k_done := k_done k; k_notified := false; k_joined := k_joined k |}.

#[export] Instance kicker_pc_eq_dec : EqDecision kicker_pc.
Proof. solve_decision. Defined.
Definition holds_lock (k : Kicker) : bool := bool_decide (k_pc k = Kicking ∨ k_pc k = Kicked).

(** Where the vCPU's thread stands: outside of [VcpuFd::run], in the ioctl, or
    back from it with [EINTR] and about to clear [immediate_exit]. *)
Inductive vcpu_pc : Type := Outside | InGuest | Leaving.

Record Machine : Type := {
  immediate_exit : bool;
  vcpu : vcpu_pc;
  kickers : list Kicker;
  interrupts : nat;    (* the [Interrupted] exits [run] has returned *)
  owed : list nat;     (* ghost: the kickers that set the flag since the last of them *)
}.
Definition machine_new (ks : list kicker_kind) : Machine :=
  {| immediate_exit := false; vcpu := Outside; kickers := kicker_new <$> ks; interrupts := 0; owed := [] |}.

Definition with_kicker (m : Machine) (i : nat) (k : Kicker) : Machine :=
  {| immediate_exit := immediate_exit m; vcpu := vcpu m; kickers := <[i := k]> (kickers m);
     interrupts := interrupts m; owed := owed m |}.
Definition with_vcpu (m : Machine) (v : vcpu_pc) : Machine :=
  {| immediate_exit := immediate_exit m; vcpu := v; kickers := kickers m;
     interrupts := interrupts m; owed := owed m |}.

(** ** Steps *)

Inductive step_label : Type :=
| Wait (i : nat)        (* the thread locks the mutex and waits *)
| Expire (i : nat)      (* its time is over *)
| Wake (i : nat)        (* it takes the notification *)
| Spurious (i : nat)    (* it wakes up for no reason, as a condition variable may *)
| SetFlag (i : nat)     (* it sets [immediate_exit] *)
| Signal (i : nat)      (* it sends SIGUSR1 *)
| DropHandle (i : nat)  (* [drop] sets [done] and notifies *)
| Join (i : nat)        (* [drop] has joined the thread *)
| Enter                 (* the vCPU's thread calls the ioctl *)
| GuestExit             (* the guest makes an exit of its own *)
| Clear.                (* [run] clears the flag and returns [Interrupted] *)

(** However it wakes up, the thread looks at [done] alone. *)
Definition woken (k : Kicker) : Kicker := at_pc k (if k_done k then Ended else Kicking).

Definition step (l : step_label) (m : Machine) : option Machine :=
  match l with
  | Wait i =>
      k ← kickers m !! i;
      if decide (k_pc k = Starting) then Some (with_kicker m i (at_pc k Waiting)) else None
  | Expire i | Spurious i =>
      k ← kickers m !! i;
      if decide (k_pc k = Waiting) then Some (with_kicker m i (woken k)) else None
  | Wake i =>
      k ← kickers m !! i;
      if decide (k_pc k = Waiting) then
        if k_notified k then Some (with_kicker m i (woken k)) else None
      else None
  | SetFlag i =>
      k ← kickers m !! i;
      if decide (k_pc k = Kicking) then
        Some {| immediate_exit := true; vcpu := vcpu m; kickers := <[i := at_pc k Kicked]> (kickers m);
                interrupts := interrupts m; owed := i :: owed m |}
      else None
  | Signal i =>
      k ← kickers m !! i;
      if decide (k_pc k = Kicked) then
        let m := with_kicker m i (at_pc k (match k_kind k with Watchdog => Ended | PollTimer => Starting end)) in
        Some (with_vcpu m (match vcpu m with InGuest => Leaving | v => v end))
      else None
  | DropHandle i =>
      k ← kickers m !! i;
      if k_done k || holds_lock k then None else
      Some (with_kicker m i {| k_kind := k_kind k; k_pc := k_pc k; k_done := true;
              k_notified := bool_decide (k_pc k = Waiting); k_joined := false |})
  | Join i =>
      k ← kickers m !! i;
      if negb (k_joined k) && k_done k && bool_decide (k_pc k = Ended) then
        Some (with_kicker m i {| k_kind := k_kind k; k_pc := Ended; k_done := true; k_notified := false; k_joined := true |})
      else None
  | Enter =>
      match vcpu m with
      | Outside => Some (with_vcpu m (if immediate_exit m then Leaving else InGuest))
      | _ => None
      end
  | GuestExit => match vcpu m with InGuest => Some (with_vcpu m Outside) | _ => None end
  | Clear =>
      match vcpu m with
      | Leaving => Some {| immediate_exit := false; vcpu := Outside; kickers := kickers m;
                           interrupts := S (interrupts m); owed := [] |}
      | _ => None
      end
  end.

Fixpoint run (ls : list step_label) (m : Machine) : option Machine :=
  match ls with
  | [] => Some m
  | l :: ls => m ← step l m; run ls m
  end.

#[export] Instance step_label_eq_dec : EqDecision step_label.
Proof. solve_decision. Defined.

(** How often a kicker set the flag in a run. *)
Definition kicks (i : nat) (ls : list step_label) : nat :=
  length (filter (λ l, l = SetFlag i) ls).

(** ** Invariants *)

#[local] Arguments step : simpl never.

(** A thread told to end kicks no more, and one that was joined has ended. *)
Definition kicker_ok (k : Kicker) : Prop :=
  (k_done k = true → holds_lock k = false) ∧ (k_joined k = true → k_done k = true ∧ k_pc k = Ended).

(** The flag is set exactly while a kick waits for its [Interrupted] exit, and
    the guest runs under a set flag only until the kicker sends its signal. *)
Record machine_ok (m : Machine) : Prop := {
  ok_kickers : Forall kicker_ok (kickers m);
  ok_owed : immediate_exit m = true ↔ owed m ≠ [];
  ok_guest : vcpu m = InGuest → ∀ i, i ∈ owed m → k_pc <$> kickers m !! i = Some Kicked;
}.

Ltac step_cases :=
  repeat first
    [ progress simplify_eq/=
    | match goal with
      | H : context [ decide ?P ] |- _ => destruct (decide P)
      | H : context [ ?m !! ?i ≫= _ ] |- _ => destruct (m !! i) eqn:?
      | H : match ?x with _ => _ end = Some _ |- _ => destruct x eqn:?
      end ].

Lemma step_interrupts (l : step_label) (m m' : Machine) :
  step l m = Some m' →
  (interrupts m ≤ interrupts m')%nat ∧ (interrupts m' = interrupts m → immediate_exit m = true → immediate_exit m' = true).
Proof. destruct l; intros H; unfold step in H; step_cases; simpl; split; auto; lia. Qed.

Lemma run_interrupts (ls : list step_label) (m m' : Machine) :
  run ls m = Some m' →
  (interrupts m ≤ interrupts m')%nat ∧ (interrupts m' = interrupts m → immediate_exit m = true → immediate_exit m' = true).
Proof.
  revert m. induction ls as [|l ls IH]; intros m H; simplify_eq/=; [auto|].
  destruct (step l m) as [m1|] eqn:E; simplify_eq/=.
  destruct (step_interrupts _ _ _ E), (IH _ H). split; [lia|]. intros. assert (interrupts m1 = interrupts m) by lia.
  auto with lia.
Qed.

Lemma run_app (ls1 ls2 : list step_label) (m : Machine) : run (ls1 ++ ls2) m = run ls1 m ≫= run ls2.
Proof. revert m. induction ls1 as [|l ls1 IH]; intros m; simpl; [done|]. by destruct (step l m); simpl. Qed.

(** With the flag set and the guest not running, the guest does not run again
    before an [Interrupted] exit. *)
Lemma run_flagged (ls : list step_label) (m m' : Machine) :
  run ls m = Some m' → immediate_exit m = true → vcpu m ≠ InGuest → interrupts m' = interrupts m → vcpu m' ≠ InGuest.
Proof.
  revert m. induction ls as [|l ls IH]; intros m H Hf Hv Hi; simplify_eq/=; [done|].
  destruct (step l m) as [m1|] eqn:E; simplify_eq/=.
  destruct (step_interrupts _ _ _ E) as [? Hf1], (run_interrupts _ _ _ H) as [? _].
  apply (IH m1 H); [apply Hf1; [lia|done] | | lia].
  clear IH H. destruct l; unfold step in E; step_cases; rewrite ?Hf; try destruct (vcpu m); congruence.
Qed.

Lemma step_vcpu_signal (i : nat) (m m' : Machine) : step (Signal i) m = Some m' → vcpu m' ≠ InGuest.
Proof. intros H; unfold step in H; step_cases; destruct (vcpu m); congruence. Qed.

Lemma step_setflag (i : nat) (m m' : Machine) :
  step (SetFlag i) m = Some m' → immediate_exit m' = true ∧ interrupts m' = interrupts m.
Proof. intros H; unfold step in H; by step_cases. Qed.

(** A kick whose signal was sent ends in an [Interrupted] exit before the
    guest runs on. *)
Lemma kick_not_lost (i : nat) (ls1 ls2 : list step_label) (m0 m1 m2 : Machine) :
  step (SetFlag i) m0 = Some m1 → run (ls1 ++ Signal i :: ls2) m1 = Some m2 → vcpu m2 = InGuest →
  (interrupts m0 < interrupts m2)%nat.
Proof.
  intros [Hf Hi]%step_setflag H Hg. rewrite run_app in H.
  destruct (run ls1 m1) as [ma|] eqn:Ea; simplify_eq/=.
  destruct (step (Signal i) ma) as [mb|] eqn:Eb; simplify_eq/=.
  destruct (run_interrupts _ _ _ Ea) as [? Ka], (step_interrupts _ _ _ Eb) as [? Kb], (run_interrupts _ _ _ H) as [? _].
  destruct (decide (interrupts m2 = interrupts m0)) as [E|]; [|lia].
  exfalso. refine (run_flagged _ _ _ H _ (step_vcpu_signal _ _ _ Eb) _ Hg); [|lia].
  apply Kb; [lia|]. apply Ka; [lia|done].
Qed.

Lemma machine_new_ok (ks : list kicker_kind) : machine_ok (machine_new ks).
Proof.
  split; simpl.
  - apply Forall_fmap, Forall_true. intros k. by split.
  - split; [done|]. by intros [].
  - done.
Qed.

Lemma holds_lock_done (k : Kicker) : kicker_ok k → holds_lock k = true → k_done k = false.
Proof. intros [H _] Hl. destruct (k_done k); [|done]. by rewrite H in Hl. Qed.

Lemma woken_ok (k : Kicker) : kicker_ok k → k_pc k = Waiting → kicker_ok (woken k).
Proof.
  intros [Hd Hj] Hp. unfold woken. split; simpl; destruct (k_done k); try done.
  all: intros H; destruct (Hj H) as [? E]; congruence.
Qed.

Lemma at_pc_ok (k : Kicker) (pc : kicker_pc) :
  kicker_ok k → k_pc k ≠ Ended → (pc = Kicking ∨ pc = Kicked → k_done k = false) → kicker_ok (at_pc k pc).
Proof.
  intros [Hd Hj] Hp H. split; simpl.
  - intros E. unfold holds_lock. apply bool_decide_eq_false. simpl. intros Hk. rewrite H in E; done.
  - intros E. destruct (Hj E). congruence.
Qed.

Lemma step_kickers_ok (l : step_label) (m m' : Machine) :
  step l m = Some m' → Forall kicker_ok (kickers m) → Forall kicker_ok (kickers m').
Proof.
  intros H Hok. destruct l; unfold step in H; step_cases; try done; apply Forall_insert; try done.
  all: match goal with E : _ !! _ = Some ?k |- _ => pose proof (Forall_lookup_1 _ _ _ _ Hok E) as Hk end.
  all: try (apply woken_ok; done).
  all: try (apply at_pc_ok; [done|congruence|]; intros [|]; try done).
  - apply holds_lock_done; [done|]. by apply bool_decide_eq_true; left.
  - by destruct (k_kind k).
  - by destruct (k_kind k).
  - match goal with E : _ || _ = false |- _ => apply orb_false_iff in E as [_ E] end. by split.
Qed.

Lemma step_owed (l : step_label) (m m' : Machine) :
  step l m = Some m' → (immediate_exit m = true ↔ owed m ≠ []) → (immediate_exit m' = true ↔ owed m' ≠ []).
Proof. intros H Hok. destruct l; unfold step in H; step_cases; simpl; done. Qed.

(** Changing a kicker that is not at [Kicked] keeps the owed ones there. *)
Lemma owed_insert (ks : list Kicker) (i j : nat) (k k' : Kicker) :
  ks !! i = Some k → k_pc k ≠ Kicked → k_pc <$> ks !! j = Some Kicked → k_pc <$> <[i := k']> ks !! j = Some Kicked.
Proof.
  intros E Hp Hj. destruct (decide (i = j)) as [->|Hne]; [by rewrite E in Hj; simplify_eq/=|].
  by rewrite list_lookup_insert_ne.
Qed.

Lemma step_guest (l : step_label) (m m' : Machine) :
  step l m = Some m' → machine_ok m →
  vcpu m' = InGuest → ∀ i, i ∈ owed m' → k_pc <$> kickers m' !! i = Some Kicked.
Proof.
  intros H Hok Hg j Hj. pose proof (ok_guest _ Hok) as Hk. pose proof (proj2 (ok_owed _ Hok)) as Ho.
  destruct l; unfold step in H; step_cases.
  all: try (eapply owed_insert; [eassumption|congruence|auto]; done).
  - apply elem_of_cons in Hj as [->|Hj].
    + by rewrite list_lookup_insert_eq by (by eapply lookup_lt_Some).
    + eapply owed_insert; [eassumption|congruence|auto].
  - by destruct (vcpu m).
  - eapply owed_insert; [eassumption| |auto].
    match goal with E : _ || _ = false |- _ => apply orb_false_iff in E as [_ E] end.
    apply bool_decide_eq_false in Heqb. tauto.
  - eapply owed_insert; [eassumption| |auto].
    match goal with E : _ && _ = true |- _ => apply andb_true_iff in E as [_ E%bool_decide_eq_true] end. congruence.
  - destruct (immediate_exit m); [done|]. destruct (owed m); [by apply elem_of_nil in Hj|]. by discriminate Ho.
Qed.

Lemma run_ok (ls : list step_label) (m m' : Machine) : run ls m = Some m' → machine_ok m → machine_ok m'.
Proof.
  revert m. induction ls as [|l ls IH]; intros m H Hok; simplify_eq/=; [done|].
  destruct (step l m) as [m1|] eqn:E; simplify_eq/=. apply (IH m1 H). split.
  - eauto using step_kickers_ok, ok_kickers.
  - eauto using step_owed, ok_owed.
  - eauto using step_guest.
Qed.

(** A guest that runs under a set flag is about to be signalled. *)
Lemma guest_interruptible (ks : list kicker_kind) (ls : list step_label) (m : Machine) :
  run ls (machine_new ks) = Some m → vcpu m = InGuest → immediate_exit m = true →
  ∃ i m', step (Signal i) m = Some m' ∧ vcpu m' = Leaving.
Proof.
  intros H Hg Hf. pose proof (run_ok _ _ _ H (machine_new_ok ks)) as Hok.
  destruct (owed m) as [|i o] eqn:Eo; [by apply (ok_owed _ Hok) in Hf|].
  pose proof (ok_guest _ Hok Hg i) as Hk. rewrite Eo in Hk. specialize (Hk (list_elem_of_here _ _)).
  apply fmap_Some in Hk as (k & Ek & Hp). exists i. unfold step. rewrite Ek. simpl.
  rewrite decide_True by done. eexists. split; [done|]. by rewrite Hg.
Qed.

(** ** Ending a thread *)

(** A thread that was told to end stays so: it sets the flag and signals the
    vCPU's thread no more. *)
Lemma step_done (l : step_label) (m m' : Machine) (i : nat) :
  step l m = Some m' → machine_ok m → (k_done <$> kickers m !! i = Some true) →
  (k_done <$> kickers m' !! i = Some true) ∧ l ≠ SetFlag i ∧ l ≠ Signal i.
Proof.
  intros H Hok Hd.
  assert (∀ j k k', kickers m !! j = Some k → (i = j → k_done k' = k_done k ∨ k_done k' = true) →
    k_done <$> <[j := k']> (kickers m) !! i = Some true) as Hins.
  { intros j k k' E Hk. destruct (decide (j = i)) as [->|Hne]; [|by rewrite list_lookup_insert_ne].
    rewrite list_lookup_insert_eq by (by eapply lookup_lt_Some). rewrite E in Hd. simpl in *.
    destruct Hk as [->| ->]; done. }
  assert (∀ k, kickers m !! i = Some k → k_pc k ≠ Kicking ∧ k_pc k ≠ Kicked) as Hpc.
  { intros k E. pose proof (Forall_lookup_1 _ _ _ _ (ok_kickers _ Hok) E) as [Hk _].
    rewrite E in Hd. simplify_eq/=. apply Hk, bool_decide_eq_false in Hd. tauto. }
  destruct l; unfold step in H; step_cases; split; try done; try (eapply Hins; [eassumption|by auto]).
  all: split; [|done] || (split; [done|]); intros [= ->]; naive_solver.
Qed.

(** A thread whose handle is being dropped touches the page no more. *)
Lemma dropped_kicks_no_more (ks : list kicker_kind) (ls ls' : list step_label) (m m' : Machine) (i : nat) :
  run ls (machine_new ks) = Some m → k_done <$> kickers m !! i = Some true → run ls' m = Some m' →
  SetFlag i ∉ ls' ∧ Signal i ∉ ls'.
Proof.
  intros H Hd H'. pose proof (run_ok _ _ _ H (machine_new_ok ks)) as Hok. clear H.
  revert m Hd H' Hok. induction ls' as [|l ls' IH]; intros m Hd H' Hok; [split; apply not_elem_of_nil|].
  simplify_eq/=. destruct (step l m) as [m1|] eqn:E; simplify_eq/=.
  destruct (step_done _ _ _ _ E Hok Hd) as (Hd1 & ? & ?).
  assert (machine_ok m1) by (apply (run_ok [l] m); [simpl; by rewrite E|done]).
  destruct (IH m1 Hd1 H' ltac:(done)). by rewrite !not_elem_of_cons.
Qed.

Lemma step_lookup (f : Kicker → Kicker) (l : step_label) (m : Machine) (i : nat) (k : Kicker) :
  kickers m !! i = Some k → step l m = Some (with_kicker m i (f k)) →
  ∃ m', step l m = Some m' ∧ kickers m' !! i = Some (f k).
Proof.
  intros E H. eexists. split; [exact H|]. simpl. by rewrite list_lookup_insert_eq by (by eapply lookup_lt_Some).
Qed.

Lemma wait_steps (m : Machine) (i : nat) (k : Kicker) :
  kickers m !! i = Some k → k_pc k = Starting →
  ∃ m', step (Wait i) m = Some m' ∧ kickers m' !! i = Some (at_pc k Waiting).
Proof.
  intros E Hp. apply (step_lookup (λ k, at_pc k Waiting)); [done|]. unfold step. rewrite E. simpl. by rewrite decide_True.
Qed.

Lemma expire_steps (m : Machine) (i : nat) (k : Kicker) :
  kickers m !! i = Some k → k_pc k = Waiting →
  ∃ m', step (Expire i) m = Some m' ∧ kickers m' !! i = Some (woken k).
Proof. intros E Hp. apply (step_lookup woken); [done|]. unfold step. rewrite E. simpl. by rewrite decide_True. Qed.

Lemma wake_steps (m : Machine) (i : nat) (k : Kicker) :
  kickers m !! i = Some k → k_pc k = Waiting → k_notified k = true →
  ∃ m', step (Wake i) m = Some m' ∧ kickers m' !! i = Some (woken k).
Proof.
  intros E Hp Hn. apply (step_lookup woken); [done|]. unfold step. rewrite E. simpl. by rewrite decide_True, Hn.
Qed.

Lemma join_steps (m : Machine) (i : nat) (k : Kicker) :
  kickers m !! i = Some k → k_pc k = Ended → k_done k = true → k_joined k = false →
  ∃ m', step (Join i) m = Some m' ∧ k_joined <$> kickers m' !! i = Some true.
Proof.
  intros E Hp Hd Hj. edestruct (step_lookup
    (λ k, {| k_kind := k_kind k; k_pc := Ended; k_done := true; k_notified := false; k_joined := true |})
    (Join i)) as (m' & E1 & E2); [exact E| |].
  - unfold step. rewrite E. simpl. by rewrite Hj, Hd, Hp.
  - exists m'. by rewrite E2.
Qed.

(** [drop] can always come to its end within three steps of the thread. *)
Lemma drop_joins (ks : list kicker_kind) (ls : list step_label) (m : Machine) (i : nat) :
  run ls (machine_new ks) = Some m → k_done <$> kickers m !! i = Some true →
  ∃ ls' m', (length ls' ≤ 3)%nat ∧ run ls' m = Some m' ∧ k_joined <$> kickers m' !! i = Some true.
Proof.
  intros H Hd. pose proof (run_ok _ _ _ H (machine_new_ok ks)) as Hok.
  apply fmap_Some in Hd as (k & E & Hd). symmetry in Hd.
  destruct (Forall_lookup_1 _ _ _ _ (ok_kickers _ Hok) E) as [Hl Hj]. clear H.
  destruct (k_joined k) eqn:Ej; [exists [], m; by rewrite E; simpl; rewrite Ej; split_and!; [lia| |]|].
  specialize (Hl Hd). apply bool_decide_eq_false in Hl.
  assert (∀ m k', kickers m !! i = Some k' → k_done k' = true → k_joined k' = false → k_pc k' = Waiting →
    ∃ m', run [Expire i; Join i] m = Some m' ∧ k_joined <$> kickers m' !! i = Some true) as Hw.
  { intros m1 k1 E1 Hd1 Hj1 Hp1. destruct (expire_steps _ _ _ E1 Hp1) as (m2 & S2 & E2).
    edestruct (join_steps m2 i) as (m3 & S3 & E3); [exact E2|..|exists m3; simpl; rewrite S2; simpl; by rewrite S3].
    all: unfold woken; simpl; by rewrite ?Hd1. }
  destruct (k_pc k) eqn:Hp; try tauto.
  - destruct (wait_steps _ _ _ E Hp) as (m1 & S1 & E1).
    destruct (Hw _ _ E1) as (m' & R & J); [done..|].
    exists [Wait i; Expire i; Join i], m'. split_and!; [simpl; lia| |done]. change (step (Wait i) m ≫= run [Expire i; Join i] = Some m').
    by rewrite S1.
  - destruct (Hw _ _ E) as (m' & R & J); [done..|]. exists [Expire i; Join i], m'. split_and!; [simpl; lia|done..].
  - destruct (join_steps _ _ _ E Hp Hd Ej) as (m' & S & J). exists [Join i], m'. simpl. rewrite S. split_and!; [lia|done..].
Qed.

(** The kicks a watchdog's thread still has. *)
Definition shots (k : Kicker) : nat :=
  match k_pc k with Kicked | Ended => 0 | _ => 1 end.

Lemma kicks_single (i : nat) (l : step_label) : kicks i [l] = if decide (l = SetFlag i) then 1%nat else 0%nat.
Proof. unfold kicks. rewrite filter_cons. by destruct (decide (l = SetFlag i)). Qed.

Lemma step_shots (l : step_label) (m m' : Machine) (i : nat) (k : Kicker) :
  step l m = Some m' → kickers m !! i = Some k → k_kind k = Watchdog →
  ∃ k', kickers m' !! i = Some k' ∧ k_kind k' = Watchdog ∧ (kicks i [l] + shots k' ≤ shots k)%nat.
Proof.
  intros H E Hk. rewrite kicks_single. unfold shots.
  destruct l as [j|j|j|j|j|j|j|j| | |]; unfold step in H; step_cases.
  all: try (exists k; split; [done|]; split; [done|]; by repeat case_decide).
  all: destruct (decide (j = i)) as [->|Hne];
    [rewrite list_lookup_insert_eq by (by eapply lookup_lt_Some)
    |rewrite list_lookup_insert_ne, E by done; exists k; split; [done|]; split; [done|];
     repeat case_decide; simplify_eq; done].
  all: eexists; split; [reflexivity|]; simplify_eq; split; [done|].
  all: repeat case_decide; simplify_eq/=; rewrite ?Hk; repeat case_match; simplify_eq; try lia.
Qed.

(** The watchdog kicks at most once. *)
Lemma watchdog_fires_once (ks : list kicker_kind) (ls : list step_label) (m : Machine) (i : nat) :
  run ls (machine_new ks) = Some m → ks !! i = Some Watchdog → (kicks i ls ≤ 1)%nat.
Proof.
  intros H Hi. cut (∀ ls m k, run ls m ≠ None → kickers m !! i = Some k → k_kind k = Watchdog → (kicks i ls ≤ shots k)%nat).
  { intros Hc. apply (Hc ls (machine_new ks) (kicker_new Watchdog)); [congruence| |done]. simpl. by rewrite list_lookup_fmap, Hi. }
  clear. induction ls as [|l ls IH]; intros m k H E Hk; [unfold kicks; simpl; lia|].
  simpl in H. destruct (step l m) as [m1|] eqn:Es; [|done].
  destruct (step_shots _ _ _ _ _ Es E Hk) as (k1 & E1 & Hk1 & Hle). specialize (IH m1 k1 H E1 Hk1).
  assert (kicks i (l :: ls) = kicks i [l] + kicks i ls)%nat; [|lia].
  unfold kicks. change (l :: ls) with ([l] ++ ls). by rewrite filter_app, length_app.
Qed.

(** A handle dropped while its thread waits wakes it at once; dropped before
    the thread has come to wait, the notification is lost, and only the time's
    end (or a wake-up for no reason) frees it. *)
Lemma drop_prompt (m : Machine) (i : nat) (k : Kicker) :
  kickers m !! i = Some k → k_done k = false →
  (k_pc k = Waiting → is_Some (run [DropHandle i; Wake i] m)) ∧
  (k_pc k = Starting → is_Some (run [DropHandle i; Wait i] m) ∧ run [DropHandle i; Wait i; Wake i] m = None).
Proof.
  intros E Hd. set (k' := {| k_kind := k_kind k; k_pc := k_pc k; k_done := true;
    k_notified := bool_decide (k_pc k = Waiting); k_joined := false |}).
  assert (holds_lock k = false → step (DropHandle i) m = Some (with_kicker m i k')) as HD.
  { intros Hl. unfold step. rewrite E. simpl. by rewrite Hd, Hl. }
  assert (kickers (with_kicker m i k') !! i = Some k') as E'.
  { simpl. by rewrite list_lookup_insert_eq by (by eapply lookup_lt_Some). }
  split; intros Hp.
  - simpl. rewrite HD by (unfold holds_lock; by rewrite Hp). simpl.
    destruct (wake_steps _ _ _ E') as (m' & S & _); [done|simpl; by rewrite Hp|]. by rewrite S.
  - assert (holds_lock k = false) as Hl by (unfold holds_lock; by rewrite Hp).
    destruct (wait_steps _ _ _ E' Hp) as (m' & S & Em). simpl. rewrite HD by done. simpl. rewrite S. simpl.
    split; [done|]. unfold step. by rewrite Em.
Qed.


(** ** Witnesses *)

(** A watchdog and a poll timer: the timer fires while the guest runs, and the
    watchdog's handle is dropped before its thread has begun to wait. *)
Local Abbreviation scenario := [DropHandle 0; Wait 1; Enter; Expire 1].


(** A guest that runs under a set flag, before the signal. *)
Example flagged_guest :
  (m ← run (scenario ++ [SetFlag 1]) (machine_new [Watchdog; PollTimer]); Some (vcpu m, immediate_exit m, owed m))
  = Some (InGuest, true, [1%nat]).
Proof. reflexivity. Qed.

(** A wake-up for no reason is taken for the time's end: the watchdog kicks
    the vCPU, and has ended long before its timeout. *)
Example spurious_watchdog :
  k_pc <$> (m ← run [Wait 0; Spurious 0; SetFlag 0; Signal 0] (machine_new [Watchdog]); kickers m !! 0%nat) = Some Ended.
Proof. reflexivity. Qed.
