(* ===== verification/BootParams.v ===== *)
(** * The Linux boot protocol (crates/nova-boot: layout, boot_params, bzimage, cmdline, error)

    The zero page with its setup header and E820 table, the bzImage parser
    and loader, and the kernel command line. *)

From S2P Require Import Prelude GuestMem.

(** ** Memory layout (layout.rs) *)

Definition ZERO_PAGE_ADDR : Z := 0x7000.
Definition KERNEL_LOAD_ADDR : Z := 0x100000.
Definition CMDLINE_ADDR : Z := 0x20000.
Definition CMDLINE_MAX_SIZE : Z := 4096.
Definition INITRD_ADDR : Z := 0x1000000.
Definition E820_RAM : Z := 1.
Definition E820_RESERVED : Z := 2.
Definition E820_ACPI : Z := 3.
Definition E820_MAX_ENTRIES : Z := 128.
Definition SETUP_HEADER_OFFSET : Z := 0x1F1.
Definition HDRS_MAGIC : Z := 0x53726448.
Definition PAGE_TABLE_ADDR : Z := 0x9000.
Definition PDPT_ADDR : Z := 0xA000.
Definition PD_ADDR : Z := 0xB000.
Definition GDT_ADDR : Z := 0x500.
Definition BOOT_STACK_ADDR : Z := 0x8000.

(** ** Errors (error.rs) *)

Inductive BootError : Type :=
| BootIo (errno : Z)
| InvalidBzImageMagic (magic : Z)
| OldBootProtocol (version : Z)
| InvalidElfMagic
| Not64BitElf (class : Z)
| NotExecutableElf (type : Z)
| NoLoadableSegments
| InvalidPvhNote
| KernelTooLarge (size load_addr : Z)
| InitrdTooLarge (size : Z)
| CmdlineTooLong (len max : Z)
| BootMemory (e : MemError).

(** ** Slices of an image

    [image[a..b]] panics unless [a <= b <= len]. *)
Definition slice {E} (l : list byte) (a b : Z) : outcome E (list byte) :=
  if (0 <=? a) && (a <=? b) && (b <=? zlen l) then Ok (sub_list a (b - a) l) else Panic PanicBounds.

(** [uN::from_le_bytes(image[a..a + n].try_into().unwrap())]. *)
Definition slice_le {E} (l : list byte) (a n : Z) : outcome E Z :=
  le_dec <$> slice l a (a ⊞ n).

(** ** The zero page (boot_params.rs) *)

Record E820Entry : Type := { e820_addr : Z; e820_size : Z; e820_type : Z }.

Definition e820_bytes (e : E820Entry) : list byte :=
  le_enc 8 (e820_addr e) ++ le_enc 8 (e820_size e) ++ le_enc 4 (e820_type e).

(** The packed [SetupHeader]: its fields with their sizes, from 0x1F1 on. *)
Definition setup_header_fields : list (string * Z) :=
  [("setup_sects", 1); ("root_flags", 2); ("syssize", 4); ("ram_size", 2); ("vid_mode", 2);
   ("root_dev", 2); ("boot_flag", 2); ("jump", 2); ("header", 4); ("version", 2);
   ("realmode_swtch", 4); ("start_sys_seg", 2); ("kernel_version", 2); ("type_of_loader", 1);
   ("loadflags", 1); ("setup_move_size", 2); ("code32_start", 4); ("ramdisk_image", 4);
   ("ramdisk_size", 4); ("bootsect_kludge", 4); ("heap_end_ptr", 2); ("ext_loader_ver", 1);
   ("ext_loader_type", 1); ("cmd_line_ptr", 4); ("initrd_addr_max", 4); ("kernel_alignment", 4);
   ("relocatable_kernel", 1); ("min_alignment", 1); ("xloadflags", 2); ("cmdline_size", 4);
   ("hardware_subarch", 4); ("hardware_subarch_data", 8); ("payload_offset", 4);
   ("payload_length", 4); ("setup_data", 8); ("pref_address", 8); ("init_size", 4);
   ("handover_offset", 4)]%string.

Fixpoint lookup_field (name : string) (off : Z) (fs : list (string * Z)) : option (Z * Z) :=
  match fs with
  | [] => None
  | (n, sz) :: fs => if String.eqb n name then Some (off, sz) else lookup_field name (off + sz) fs
  end.

(** Offset in the zero page, and size, of a header field. *)
Definition header_field (name : string) : Z * Z :=
  default (0, 0) (lookup_field name SETUP_HEADER_OFFSET setup_header_fields).

Record BootParams : Type := { bp_data : list byte }.

Definition BootParams_new : BootParams := {| bp_data := replicate (Z.to_nat 4096) x00 |}.

Definition get_header (b : BootParams) (name : string) : Z :=
  let '(off, sz) := header_field name in le_dec (sub_list off sz (bp_data b)).

(** An assignment through [setup_header_mut()]. *)
Definition set_header (b : BootParams) (name : string) (v : Z) : BootParams :=
  let '(off, sz) := header_field name in
  {| bp_data := splice off (le_enc (Z.to_nat sz) v) (bp_data b) |}.

Definition set_e820_entry (b : BootParams) (index : Z) (e : E820Entry) : bool * BootParams :=
  if E820_MAX_ENTRIES <=? index then (false, b)
  else (true, {| bp_data := splice (0x2D0 + index * 20) (e820_bytes e) (bp_data b) |}).

Definition set_e820_count (b : BootParams) (count : Z) : BootParams :=
  {| bp_data := splice 0x1E8 (le_enc 1 count) (bp_data b) |}.
Definition e820_count (b : BootParams) : Z := le_dec (sub_list 0x1E8 1 (bp_data b)).
Definition as_bytes (b : BootParams) : list byte := bp_data b.

Definition copy_setup_header_from (b : BootParams) (header_bytes : list byte) : BootParams :=
  let copy_len := Z.min (zlen header_bytes) (4096 - 0x1F1) in
  {| bp_data := splice 0x1F1 (take (Z.to_nat copy_len) header_bytes) (bp_data b) |}.

(** ** bzImage (bzimage.rs) *)

Record BzImage : Type := {
  boot_params : BootParams;
  kernel_code : list byte;
  protocol_version : Z;
  setup_sects : Z;
}.

(** Reading the reader to its end is I/O: an errno or the whole image. *)
Definition BzImage_parse (reader : Z + list byte) : outcome BootError BzImage :=
  match reader with
  | inl errno => Err (BootIo errno)
  | inr image =>
      if zlen image <? 0x268 then Err (InvalidBzImageMagic 0) else
      magic ← slice_le image 0x202 4;
      if negb (magic =? HDRS_MAGIC) then Err (InvalidBzImageMagic magic) else
      version ← slice_le image 0x206 2;
      if version <? 0x0200 then Err (OldBootProtocol version) else
      sects ← slice_le image 0x1F1 1;
      let sects := if sects =? 0 then 4 else sects in
      let setup_size := (1 + sects) * 512 in
      if zlen image <? setup_size then Err (KernelTooLarge (zlen image) 0) else
      header_bytes ← slice image SETUP_HEADER_OFFSET (Z.min setup_size (zlen image));
      code ← slice image setup_size (zlen image);
      Ok {| boot_params := copy_setup_header_from BootParams_new header_bytes;
            kernel_code := code; protocol_version := version; setup_sects := sects |}
  end.

Section Load.
Context `{ByteMemory M}.

(** [load_into_memory]: the header is marked before anything is written. *)
Definition BzImage_load_into_memory (k : BzImage) (m : M)
    : outcome BootError unit * (BzImage * M) :=
  let b := set_header (boot_params k) "type_of_loader" 0xFF in
  let b := set_header b "loadflags" (Z.lor (get_header b "loadflags") 0x01) in
  let k := {| boot_params := b; kernel_code := kernel_code k;
              protocol_version := protocol_version k; setup_sects := setup_sects k |} in
  match bm_write m KERNEL_LOAD_ADDR (kernel_code k) with
  | Ok m1 =>
      match bm_write m1 ZERO_PAGE_ADDR (as_bytes b) with
      | Ok m2 => (Ok tt, (k, m2))
      | Err e => (Err (BootMemory e), (k, m1))
      | Panic p => (Panic p, (k, m1))
      end
  | Err e => (Err (KernelTooLarge (zlen (kernel_code k)) KERNEL_LOAD_ADDR), (k, m))
  | Panic p => (Panic p, (k, m))
  end.

(** ** The command line (cmdline.rs) *)

Record CmdlineBuilder : Type := { parts : list (list byte) }.

Definition CmdlineBuilder_new : CmdlineBuilder := {| parts := [] |}.
Definition cl_arg (c : CmdlineBuilder) (key value : list byte) : CmdlineBuilder :=
  {| parts := parts c ++ [key ++ [z2b 61] ++ value] |}.
Definition cl_flag (c : CmdlineBuilder) (flag : list byte) : CmdlineBuilder :=
  {| parts := parts c ++ [flag] |}.
Definition cl_raw (c : CmdlineBuilder) (s : list byte) : CmdlineBuilder :=
  {| parts := parts c ++ [s] |}.

(** [self.parts.join(" ")], as the bytes of the string. *)
Fixpoint join_space (ps : list (list byte)) : list byte :=
  match ps with
  | [] => []
  | [p] => p
  | p :: ps => p ++ [z2b 32] ++ join_space ps
  end.

Definition cl_build (c : CmdlineBuilder) : list byte := join_space (parts c).

Definition cl_write_to_memory (c : CmdlineBuilder) (m : M) (b : BootParams)
    : outcome BootError unit * (BootParams * M) :=
  let bytes := cl_build c in
  if CMDLINE_MAX_SIZE <=? zlen bytes
  then (Err (CmdlineTooLong (zlen bytes) CMDLINE_MAX_SIZE), (b, m))
  else
    match bm_write m CMDLINE_ADDR (bytes ++ [x00]) with
    | Ok m =>
        let b := set_header b "cmd_line_ptr" CMDLINE_ADDR in
        (Ok tt, (set_header b "cmdline_size" (zlen bytes), m))
    | Err e => (Err (BootMemory e), (b, m))
    | Panic p => (Panic p, (b, m))
    end.

End Load.

(** ** Zero-page lemmas *)

Definition bp_wf (b : BootParams) : Prop := zlen (bp_data b) = 4096.

Lemma BootParams_new_wf : bp_wf BootParams_new.
Proof.
  unfold bp_wf, BootParams_new. cbn [bp_data]. by rewrite zlen_replicate, Z2Nat.id by lia.
Qed.

(** Every field lies in the header, hence in the page. *)
Lemma header_field_range name :
  let '(off, sz) := header_field name in 0 ≤ off ∧ 0 ≤ sz ∧ off + sz ≤ 0x268.
Proof.
  unfold header_field.
  assert (Hgen : ∀ fs off0 off sz, Forall (λ f, 0 ≤ f.2) fs → lookup_field name off0 fs = Some (off, sz) →
    off0 ≤ off ∧ 0 ≤ sz ∧ off + sz ≤ off0 + foldr (λ f acc, f.2 + acc) 0 fs).
  { induction fs as [|[n z] fs IH]; intros off0 off sz Hz Hl; simpl in Hl; [done|].
    apply Forall_cons in Hz as [Hz1 Hz]. simpl in Hz1.
    assert (0 ≤ foldr (λ f acc, f.2 + acc) 0 fs) by (clear -Hz; induction Hz; simpl in *; lia).
    destruct (String.eqb n name); simplify_eq/=; [lia|].
    specialize (IH _ _ _ Hz Hl). lia. }
  destruct (lookup_field name SETUP_HEADER_OFFSET setup_header_fields) as [[off sz]|] eqn:Hl; simpl; [|lia].
  apply Hgen in Hl; [|by repeat constructor]. unfold SETUP_HEADER_OFFSET in Hl.
  change (foldr _ 0 setup_header_fields) with 119 in Hl. lia.
Qed.

Lemma set_header_wf b name v : bp_wf b → bp_wf (set_header b name v).
Proof.
  unfold bp_wf, set_header. intros Hb. pose proof (header_field_range name).
  destruct (header_field name) as [off sz]. simpl. rewrite zlen_splice; rewrite ?zlen_le_enc; lia.
Qed.

Lemma get_set_header b name v :
  bp_wf b → fits (8 * (header_field name).2) v → get_header (set_header b name v) name = v.
Proof.
  unfold bp_wf, set_header, get_header. intros Hb Hv. pose proof (header_field_range name).
  destruct (header_field name) as [off sz]. simpl in *.
  replace sz with (zlen (le_enc (Z.to_nat sz) v)) at 1 by (rewrite zlen_le_enc; lia).
  rewrite sub_list_splice_same by lia. rewrite le_dec_enc. apply wrap_small.
  by rewrite Z2Nat.id, Z.mul_comm by lia.
Qed.

(** Reading any range of the page that a field assignment does not touch. *)
Lemma set_header_other b name v a n :
  bp_wf b → 0 ≤ a → 0 ≤ n → a + n ≤ 4096 →
  (let '(off, sz) := header_field name in a + n ≤ off ∨ off + sz ≤ a) →
  sub_list a n (bp_data (set_header b name v)) = sub_list a n (bp_data b).
Proof.
  unfold bp_wf, set_header. intros Hb Ha Hn Hl Hd. pose proof (header_field_range name).
  destruct (header_field name) as [off sz]. simpl.
  apply sub_list_splice_other; rewrite ?zlen_le_enc; lia.
Qed.

Lemma copy_setup_header_wf b bs : bp_wf b → bp_wf (copy_setup_header_from b bs).
Proof.
  unfold bp_wf, copy_setup_header_from. intros Hb. simpl. pose proof (zlen_nonneg bs).
  rewrite zlen_splice; unfold zlen in *; rewrite ?length_take; lia.
Qed.

(** The offsets of the fields are those of the kernel's headers. *)
Example header_offsets :
  (λ n, (header_field n).1) <$>
    ["header"; "version"; "type_of_loader"; "loadflags"; "ramdisk_image"; "ramdisk_size";
     "cmd_line_ptr"; "cmdline_size"; "handover_offset"]%string
  = [0x202; 0x206; 0x210; 0x211; 0x218; 0x21C; 0x228; 0x238; 0x264].
Proof. reflexivity. Qed.

(** ** Parsing and loading *)

Lemma slice_ok {E} (l : list byte) a b :
  0 ≤ a → a ≤ b → b ≤ zlen l → slice (E:=E) l a b = Ok (sub_list a (b - a) l).
Proof.
  intros. unfold slice. by rewrite !(proj2 (Z.leb_le _ _)) by done.
Qed.

Lemma slice_le_ok {E} (l : list byte) a n :
  0 ≤ a → 0 ≤ n → a + n ≤ zlen l → zlen l < 2 ^ 64 →
  slice_le (E:=E) l a n = Ok (le_dec (sub_list a n l)).
Proof.
  intros. unfold slice_le. rewrite add64_small by (unfold fits; lia).
  rewrite slice_ok by lia. simpl. do 3 f_equal. lia.
Qed.

(** What a parsed image is made of. *)
Record parsed (image : list byte) (k : BzImage) : Prop := {
  pk_len : 0x268 ≤ zlen image;
  pk_magic : le_dec (sub_list 0x202 4 image) = HDRS_MAGIC;
  pk_version : protocol_version k = le_dec (sub_list 0x206 2 image);
  pk_sects : 1 ≤ setup_sects k ≤ 255;
  pk_setup : (1 + setup_sects k) * 512 ≤ zlen image;
  pk_params : boot_params k = copy_setup_header_from BootParams_new
                (sub_list 0x1F1 ((1 + setup_sects k) * 512 - 0x1F1) image);
  pk_code : kernel_code k = drop (Z.to_nat ((1 + setup_sects k) * 512)) image;
}.

Lemma le_dec_fits_n n (l : list byte) : zlen l = n → fits (8 * n) (le_dec l).
Proof. intros <-. apply le_dec_fits. Qed.

Lemma BzImage_parse_spec image :
  zlen image < 2 ^ 63 →
  match BzImage_parse (inr image) with
  | Ok k => parsed image k
  | Err _ => True
  | Panic _ => False
  end.
Proof.
  intros Hl. unfold BzImage_parse. destruct (_ <? _) eqn:Hlen; [done|]. to_prop.
  rewrite !slice_le_ok by lia. simpl.
  destruct (negb _) eqn:Hm; [done|]. to_prop.
  destruct (_ <? _) eqn:Hv; [done|]. to_prop.
  assert (Hs : fits 8 (le_dec (sub_list 0x1F1 1 image)))
    by (apply (le_dec_fits_n 1), zlen_sub_list; lia).
  set (sects := if le_dec (sub_list 0x1F1 1 image) =? 0 then 4 else le_dec (sub_list 0x1F1 1 image)).
  assert (Hsects : 1 ≤ sects ≤ 255).
  { unfold sects. destruct (_ =? 0) eqn:Hz; to_prop; [lia|]. width_lia. }
  clearbody sects. destruct (zlen image <? _) eqn:Hset; [done|]. to_prop.
  rewrite Z.min_l by lia. unfold SETUP_HEADER_OFFSET.
  rewrite !slice_ok by lia. simpl. split; try done; simpl; try lia.
  unfold sub_list. rewrite firstn_all2; [done|]. rewrite length_drop. unfold zlen in *. lia.
Qed.

(** The image's header bytes are in the page. *)
Lemma parsed_header image k a n :
  parsed image k → 0x1F1 ≤ a → 0 ≤ n → a + n ≤ 0x268 →
  sub_list a n (bp_data (boot_params k)) = sub_list a n image.
Proof.
  intros [Hl _ _ Hs Hset Hp _] Ha Hn Hb. rewrite Hp. unfold copy_setup_header_from.
  set (hb := sub_list 0x1F1 ((1 + setup_sects k) * 512 - 0x1F1) image).
  assert (Hhb : zlen hb = (1 + setup_sects k) * 512 - 0x1F1) by (apply zlen_sub_list; lia).
  pose proof BootParams_new_wf as Hw. unfold bp_wf in Hw. cbn [bp_data].
  rewrite sub_list_splice_inside by
    (unfold zlen in *; rewrite ?length_take; lia).
  rewrite sub_list_take by lia. unfold hb. rewrite sub_list_sub_list by lia. f_equal. lia.
Qed.

Lemma header_field_loader : header_field "type_of_loader" = (0x210, 1).
Proof. reflexivity. Qed.
Lemma header_field_flags : header_field "loadflags" = (0x211, 1).
Proof. reflexivity. Qed.
Ltac field_lia := rewrite ?header_field_loader, ?header_field_flags; lia.

(** The header the loader marks: the two assigned bytes, and every other
    header byte as in the image. *)
Definition marked_header (b : BootParams) : BootParams :=
  let b := set_header b "type_of_loader" 0xFF in
  set_header b "loadflags" (Z.lor (get_header b "loadflags") 0x01).

Lemma marked_header_wf b : bp_wf b → bp_wf (marked_header b).
Proof. intros. by do 2 apply set_header_wf. Qed.

Lemma marked_header_spec image k :
  parsed image k →
  get_header (marked_header (boot_params k)) "type_of_loader" = 0xFF ∧
  get_header (marked_header (boot_params k)) "loadflags" =
    Z.lor (le_dec (sub_list 0x211 1 image)) 1 ∧
  (∀ a n, 0x1F1 ≤ a → 0 ≤ n → a + n ≤ 0x268 → a + n ≤ 0x210 ∨ 0x212 ≤ a →
     sub_list a n (bp_data (marked_header (boot_params k))) = sub_list a n image).
Proof.
  intros Hp. pose proof (pk_len _ _ Hp) as Hl.
  assert (Hb0 : bp_wf (boot_params k)).
  { rewrite (pk_params _ _ Hp). apply copy_setup_header_wf, BootParams_new_wf. }
  unfold marked_header. set (b1 := set_header (boot_params k) "type_of_loader" 0xFF).
  assert (Hb1 : bp_wf b1) by by apply set_header_wf.
  assert (Hflags : get_header b1 "loadflags" = le_dec (sub_list 0x211 1 image)).
  { change (get_header b1 "loadflags") with (le_dec (sub_list 0x211 1 (bp_data b1))).
    unfold b1. rewrite set_header_other; [|done|lia..|field_lia].
    f_equal. apply (parsed_header image); (done || lia). }
  rewrite Hflags. split_and!.
  - change (le_dec (sub_list 0x210 1
      (bp_data (set_header b1 "loadflags" (Z.lor (le_dec (sub_list 0x211 1 image)) 1)))) = 0xFF).
    rewrite set_header_other; [|done|lia..|field_lia].
    apply (get_set_header _ "type_of_loader"); [done|]. unfold fits. simpl. lia.
  - apply get_set_header; [done|]. simpl.
    assert (Hf : fits 8 (le_dec (sub_list 0x211 1 image)))
      by (apply (le_dec_fits_n 1), zlen_sub_list; lia).
    apply lor_fits; [lia|done|]. unfold fits. lia.
  - intros a n Ha Hn Hb Hd. rewrite set_header_other; [|done|lia..|field_lia].
    unfold b1. rewrite set_header_other; [|done|lia..|field_lia].
    by apply parsed_header.
Qed.

(** ** Properties *)

(** C9. The bzImage path, from file to guest memory: parsing never panics,
    and loading a parsed image succeeds exactly when both destinations are
    mapped; guest memory then holds the kernel proper (the image after its
    setup sectors) at 1 MiB, and at the zero page the image's own setup
    header with the loader type set to 0xFF and the loaded-high flag added,
    all other header bytes as in the file. *)
Theorem bzimage_parse_load `{ByteMemoryLaws M} image (m : M) :
  zlen image < 2 ^ 63 → bm_wf m →
  match BzImage_parse (inr image) with
  | Ok k =>
      match BzImage_load_into_memory k m with
      | (Ok _, (k', m')) =>
          bm_read m' KERNEL_LOAD_ADDR (zlen (kernel_code k)) =
            Ok (drop (Z.to_nat ((1 + setup_sects k) * 512)) image) ∧
          ∃ page, bm_read m' ZERO_PAGE_ADDR 4096 = Ok page ∧
            page = as_bytes (boot_params k') ∧
            get_header {| bp_data := page |} "type_of_loader" = 0xFF ∧
            get_header {| bp_data := page |} "loadflags" =
              Z.lor (le_dec (sub_list 0x211 1 image)) 1 ∧
            (∀ a n, 0x1F1 ≤ a → 0 ≤ n → a + n ≤ 0x268 → a + n ≤ 0x210 ∨ 0x212 ≤ a →
               sub_list a n page = sub_list a n image)
      | (Err _, _) =>
          ¬ (bm_mapped m KERNEL_LOAD_ADDR (zlen (kernel_code k)) ∧
             bm_mapped m ZERO_PAGE_ADDR 4096)
      | (Panic _, _) => False
      end
  | Err _ => True
  | Panic _ => False
  end.
Proof.
  intros Hl Hwf. pose proof (BzImage_parse_spec image Hl) as Hp.
  destruct (BzImage_parse (inr image)) as [k| |]; [|done..].
  unfold BzImage_load_into_memory.
  fold (marked_header (boot_params k)). cbn [kernel_code].
  assert (Hb0 : bp_wf (boot_params k)).
  { rewrite (pk_params _ _ Hp). apply copy_setup_header_wf, BootParams_new_wf. }
  assert (Hpage : zlen (as_bytes (marked_header (boot_params k))) = 4096)
    by by apply marked_header_wf.
  assert (Hcode : fits 63 (zlen (kernel_code k))).
  { rewrite (pk_code _ _ Hp), zlen_drop. unfold fits. pose proof (zlen_nonneg image). lia. }
  assert (H4096 : fits 63 4096) by (unfold fits; lia).
  destruct (bm_write m KERNEL_LOAD_ADDR (kernel_code k)) as [m1|e|p] eqn:Hw1.
  - destruct (bm_write_effect _ _ _ _ Hwf Hcode Hw1) as (Hwf1 & Hm1 & Hmap1 & Hr1 & _).
    destruct (bm_write m1 ZERO_PAGE_ADDR _) as [m2|e|p] eqn:Hw2.
    + rewrite <- Hpage in H4096.
      destruct (bm_write_effect _ _ _ _ Hwf1 H4096 Hw2) as (_ & _ & _ & Hr2 & Hf2).
      rewrite Hpage in Hr2, Hf2. split.
      * rewrite Hf2; [by rewrite Hr1, (pk_code _ _ Hp)|done|by apply Hmap1|].
        unfold KERNEL_LOAD_ADDR, ZERO_PAGE_ADDR. lia.
      * eexists. split; [exact Hr2|]. split; [done|].
        exact (marked_header_spec _ _ Hp).
    + intros [_ Hm]. rewrite <- Hpage in H4096, Hm.
      destruct (bm_write_ok m1 ZERO_PAGE_ADDR (as_bytes (marked_header (boot_params k))))
        as (m' & Hw & _); [done..|by apply Hmap1|]. congruence.
    + apply (bm_write_not_panic m1 _ _ p Hwf1 ltac:(by rewrite Hpage) Hw2).
  - intros [Hm _]. destruct (bm_write_ok m KERNEL_LOAD_ADDR (kernel_code k))
      as (m' & Hw & _); [done..|]. congruence.
  - apply (bm_write_not_panic m _ _ p Hwf Hcode Hw1).
Qed.

(** ** Witnesses *)

(** Guest RAM of the given size at address 0. *)
Definition boot_ram (size : Z) : GuestMemoryMmap :=
  {| regions := [{| guest_base := 0; mmap :=
       {| mm_addr := 65536; mm_size := size; mm_hugetlb := false; mm_data := ∅ |} |}] |}.

Lemma boot_ram_wf size : 0 ≤ size < 2 ^ 63 → mem_wf (boot_ram size).
Proof.
  intros Hs. split.
  - repeat constructor; unfold region_end, fits; simpl; lia.
  - intros [|i] [|j] r r' ? ? ?; simplify_eq/=.
Qed.

(** One setup sector after the boot sector, then a two-byte kernel. *)
Definition demo_image : list byte :=
  splice 0x211 [z2b 0x80] (splice 0x202 (le_enc 4 HDRS_MAGIC ++ le_enc 2 0x20f)
    (splice 0x1F1 [z2b 1] (replicate 1024 x00))) ++ [z2b 0x90; z2b 0xf4].

Lemma bzimage_parse_load_witness :
  match BzImage_parse (inr demo_image) with
  | Ok k =>
      match BzImage_load_into_memory k (boot_ram 0x200000) with
      | (Ok _, (_, m')) =>
          bm_read m' KERNEL_LOAD_ADDR (zlen (kernel_code k)) = Ok [z2b 0x90; z2b 0xf4] ∧
          ∃ page, bm_read m' ZERO_PAGE_ADDR 4096 = Ok page ∧
                  get_header {| bp_data := page |} "loadflags" = 0x81
      | _ => False
      end
  | _ => False
  end.
Proof.
  assert (Hl : zlen demo_image < 2 ^ 63) by (vm_compute; reflexivity).
  assert (Hwf : bm_wf (boot_ram 0x200000)) by (apply boot_ram_wf; lia).
  pose proof (bzimage_parse_load demo_image _ Hl Hwf) as Hp.
  assert (Hk : is_ok (BzImage_parse (inr demo_image)) = true) by (vm_compute; reflexivity).
  assert (Hd : ∀ k, BzImage_parse (inr demo_image) = Ok k →
    is_ok (BzImage_load_into_memory k (boot_ram 0x200000)).1 = true ∧
    drop (Z.to_nat ((1 + setup_sects k) * 512)) demo_image = [z2b 0x90; z2b 0xf4]).
  { intros k Hk'. vm_compute in Hk'. simplify_eq. split; vm_compute; reflexivity. }
  destruct (BzImage_parse (inr demo_image)) as [k| |]; [|done..].
  destruct (Hd k eq_refl) as [Hok Hcode]. rewrite Hcode in Hp.
  destruct (BzImage_load_into_memory k _) as [[]  [k' m']]; [|done..].
  destruct Hp as (Hr & page & Hpage & _ & _ & Hflags & _).
  split; [exact Hr|]. exists page. split; [exact Hpage|].
  rewrite Hflags. vm_compute. reflexivity.
Defined.
