(* ===== verification/LongMode.v ===== *)
(** * Direct 64-bit and PVH boot state (crates/nova-boot: cpu_setup, pvh)

    The identity-mapped page tables and the GDT the loader writes, the
    register state it programs, and the PVH start-info block; with a
    specification of the processor's long-mode address translation and of
    its segment descriptors, against which they are proved. *)

From S2P Require Import Prelude GuestMem BootParams.

(** ** Register blocks (crates/nova-kvm/src/kvm_bindings.rs) *)

Record KvmRegs : Type := {
  rax : Z; rbx : Z; rcx : Z; rdx : Z; rsi : Z; rdi : Z; rsp : Z; rbp : Z;
  r8 : Z; r9 : Z; r10 : Z; r11 : Z; r12 : Z; r13 : Z; r14 : Z; r15 : Z;
  rip : Z; rflags : Z;
}.

Record KvmSegment : Type := {
  seg_base : Z; limit : Z; selector : Z; type_ : Z; present : Z; dpl : Z; db : Z;
  seg_s : Z; seg_l : Z; seg_g : Z; avl : Z; unusable : Z; padding : Z;
}.

Record KvmDtable : Type := { dt_base : Z; dt_limit : Z; dt_padding : list Z }.

Record KvmSregs : Type := {
  cs : KvmSegment; ds : KvmSegment; es : KvmSegment; fs : KvmSegment; gs : KvmSegment;
  ss : KvmSegment; tr : KvmSegment; ldt : KvmSegment; gdt : KvmDtable; idt : KvmDtable;
  cr0 : Z; cr2 : Z; cr3 : Z; cr4 : Z; cr8 : Z; efer : Z; apic_base : Z;
  interrupt_bitmap : list Z;
}.

(** ** cpu_setup.rs *)

Definition CR0_PE : Z := Z.shiftl 1 0.
Definition CR0_PG : Z := Z.shiftl 1 31.
Definition CR4_PAE : Z := Z.shiftl 1 5.
Definition EFER_LME : Z := Z.shiftl 1 8.
Definition EFER_LMA : Z := Z.shiftl 1 10.
Definition EFER_SCE : Z := Z.shiftl 1 0.
Definition PTE_PRESENT : Z := Z.shiftl 1 0.
Definition PTE_WRITABLE : Z := Z.shiftl 1 1.
Definition PTE_PS : Z := Z.shiftl 1 7.
Definition GDT_ENTRY_SIZE : Z := 8.

Section Setup.
Context `{ByteMemory M}.

(** [mem.write_obj(addr, &v)?] at [u64]; a memory error becomes
    [BootError::Memory]. *)
Definition write_u64 (addr v : Z) : stm M BootError unit := store BootMemory addr (le_enc 8 v).

Definition setup_long_mode_page_tables : stm M BootError unit :=
  let pml4_entry := Z.lor (Z.lor PDPT_ADDR PTE_PRESENT) PTE_WRITABLE in
  _ ← write_u64 PAGE_TABLE_ADDR pml4_entry;
  let pdpt_entry := Z.lor (Z.lor PD_ADDR PTE_PRESENT) PTE_WRITABLE in
  _ ← write_u64 PDPT_ADDR pdpt_entry;
  for_each (λ i,
    let pd_entry := Z.lor (Z.lor (Z.lor (i * 0x200000) PTE_PRESENT) PTE_WRITABLE) PTE_PS in
    write_u64 (PD_ADDR + i * 8) pd_entry) (seqZ 0 512).

Definition gdt_entries : list Z := [0; 0x00AF9A000000FFFF; 0x00CF92000000FFFF].

Definition setup_gdt : stm M BootError unit :=
  for_each (λ '(i, entry), write_u64 (GDT_ADDR + i * GDT_ENTRY_SIZE) entry)
    (zip (seqZ 0 3) gdt_entries).

Definition configure_64bit_sregs (s : KvmSregs) : KvmSregs :=
  let code := {| seg_base := 0; limit := 0xFFFFFFFF; selector := 0x08; type_ := 11;
                 present := 1; dpl := 0; db := 0; seg_s := 1; seg_l := 1; seg_g := 1;
                 avl := 0; unusable := 0; padding := 0 |} in
  let data_seg := {| seg_base := 0; limit := 0xFFFFFFFF; selector := 0x10; type_ := 3;
                     present := 1; dpl := 0; db := 1; seg_s := 1; seg_l := 0; seg_g := 1;
                     avl := 0; unusable := 0; padding := 0 |} in
  {| cs := code; ds := data_seg; es := data_seg; fs := data_seg; gs := data_seg; ss := data_seg;
     tr := tr s; ldt := ldt s;
     gdt := {| dt_base := GDT_ADDR; dt_limit := 3 * GDT_ENTRY_SIZE - 1;
               dt_padding := dt_padding (gdt s) |};
     idt := idt s;
     cr0 := Z.lor CR0_PE CR0_PG; cr2 := cr2 s; cr3 := PAGE_TABLE_ADDR; cr4 := CR4_PAE;
     cr8 := cr8 s; efer := Z.lor (Z.lor EFER_LME EFER_LMA) EFER_SCE;
     apic_base := apic_base s; interrupt_bitmap := interrupt_bitmap s |}.

Definition configure_64bit_regs (r : KvmRegs) (entry : Z) : KvmRegs :=
  {| rax := rax r; rbx := rbx r; rcx := rcx r; rdx := rdx r; rsi := rsi r; rdi := rdi r;
     rsp := BOOT_STACK_ADDR; rbp := rbp r; r8 := r8 r; r9 := r9 r; r10 := r10 r; r11 := r11 r;
     r12 := r12 r; r13 := r13 r; r14 := r14 r; r15 := r15 r; rip := entry; rflags := 0x2 |}.

(** ** pvh.rs *)

Record HvmStartInfo : Type := {
  hsi_magic : Z; hsi_version : Z; hsi_flags : Z; nr_modules : Z; modlist_paddr : Z;
  cmdline_paddr : Z; rsdp_paddr : Z; memmap_paddr : Z; memmap_entries : Z; hsi_pad : Z;
}.

Record HvmMemmapEntry : Type := { hm_addr : Z; hm_size : Z; hm_type : Z; hm_reserved : Z }.

Definition XEN_HVM_START_MAGIC : Z := 0x336EC578.
Definition PVH_START_INFO_ADDR : Z := 0x6000.
Definition PVH_MEMMAP_ADDR : Z := 0x6100.

(** The [repr(C)] bytes of the two structs (no padding is inserted). *)
Definition memmap_entry_bytes (e : HvmMemmapEntry) : list byte :=
  le_enc 8 (hm_addr e) ++ le_enc 8 (hm_size e) ++ le_enc 4 (hm_type e) ++ le_enc 4 (hm_reserved e).
Definition start_info_bytes (s : HvmStartInfo) : list byte :=
  le_enc 4 (hsi_magic s) ++ le_enc 4 (hsi_version s) ++ le_enc 4 (hsi_flags s) ++
  le_enc 4 (nr_modules s) ++ le_enc 8 (modlist_paddr s) ++ le_enc 8 (cmdline_paddr s) ++
  le_enc 8 (rsdp_paddr s) ++ le_enc 8 (memmap_paddr s) ++ le_enc 4 (memmap_entries s) ++
  le_enc 4 (hsi_pad s).

Definition setup_pvh_boot (cmdline_addr : Z) (e820_entries : list E820Entry)
    : stm M BootError Z :=
  if 128 <? zlen e820_entries then throw InvalidPvhNote else
  let memmap := (λ e, {| hm_addr := e820_addr e; hm_size := e820_size e;
                         hm_type := e820_type e; hm_reserved := 0 |}) <$> e820_entries in
  _ ← store BootMemory PVH_MEMMAP_ADDR (memmap ≫= memmap_entry_bytes);
  let start_info :=
    {| hsi_magic := XEN_HVM_START_MAGIC; hsi_version := 1; hsi_flags := 0; nr_modules := 0;
       modlist_paddr := 0; cmdline_paddr := cmdline_addr; rsdp_paddr := 0;
       memmap_paddr := PVH_MEMMAP_ADDR; memmap_entries := wrap 32 (zlen e820_entries);
       hsi_pad := 0 |} in
  _ ← store BootMemory PVH_START_INFO_ADDR (start_info_bytes start_info);
  mret PVH_START_INFO_ADDR.

End Setup.

(** ** What the processor does with it

    A specification of 4-level long-mode translation (Intel SDM vol. 3A
    4.5): the guest physical address a virtual one translates to, or the
    level at which the walk finds a non-present entry. *)

Inductive translation : Type :=
| Translated (pa : Z) (writable : bool)
| NotPresent (level : Z).

Section Translate.
Context `{ByteMemory M}.

Definition entry_addr (e : Z) : Z := Z.land e 0xFFFFFFFFFF000.
Definition va_index (va level : Z) : Z := Z.land (Z.shiftr va (12 + 9 * (level - 1))) 511.

(** [fuel] is the number of levels left: 4 from CR3 down. *)
Fixpoint walk (level : nat) (m : M) (table va : Z) (rw : bool) : outcome MemError translation :=
  match level with
  | O => Ok (Translated (table + Z.land va 0xFFF) rw)
  | S level' =>
      e ← read_obj pod_u64 m (table + 8 * va_index va (Z.of_nat level));
      if negb (Z.testbit e 0) then Ok (NotPresent (Z.of_nat level)) else
      let rw := rw && Z.testbit e 1 in
      if (Nat.eqb level 3 || Nat.eqb level 2) && Z.testbit e 7 then
        let page := 2 ^ (12 + 9 * Z.of_nat level') in
        Ok (Translated (page * (entry_addr e / page) + va mod page) rw)
      else walk level' m (entry_addr e) va rw
  end.

Definition translate (s : KvmSregs) (m : M) (va : Z) : outcome MemError translation :=
  walk 4 m (entry_addr (cr3 s)) va true.

End Translate.

(** Long mode with paging is on: CR0.PE, CR0.PG, CR4.PAE, EFER.LME and EFER.LMA. *)
Definition long_mode (s : KvmSregs) : bool :=
  Z.testbit (cr0 s) 0 && Z.testbit (cr0 s) 31 && Z.testbit (cr4 s) 5 &&
  Z.testbit (efer s) 8 && Z.testbit (efer s) 10.

(** The segment state the processor caches for a descriptor. *)
Definition bit_z (d i : Z) : Z := Z.b2z (Z.testbit d i).
Definition desc_limit (d : Z) : Z :=
  let raw := Z.land d 0xFFFF + Z.shiftl (Z.land (Z.shiftr d 48) 0xF) 16 in
  if Z.testbit d 55 then raw * 4096 + 4095 else raw.
Definition decode_descriptor (sel d : Z) : KvmSegment :=
  {| seg_base := Z.land (Z.shiftr d 16) 0xFFFFFF + Z.shiftl (Z.land (Z.shiftr d 56) 0xFF) 24;
     limit := desc_limit d; selector := sel;
     type_ := Z.land (Z.shiftr d 40) 0xF; present := bit_z d 47;
     dpl := Z.land (Z.shiftr d 45) 3; db := bit_z d 54; seg_s := bit_z d 44;
     seg_l := bit_z d 53; seg_g := bit_z d 55; avl := bit_z d 52; unusable := 0; padding := 0 |}.

(** The same segment with the accessed bit, which the processor sets on load. *)
Definition accessed (s : KvmSegment) : KvmSegment :=
  {| seg_base := seg_base s; limit := limit s; selector := selector s;
     type_ := Z.lor (type_ s) 1; present := present s; dpl := dpl s; db := db s;
     seg_s := seg_s s; seg_l := seg_l s; seg_g := seg_g s; avl := avl s;
     unusable := unusable s; padding := padding s |}.

(** ** The page tables *)

Definition pd_entry (i : Z) : Z :=
  Z.lor (Z.lor (Z.lor (i * 0x200000) PTE_PRESENT) PTE_WRITABLE) PTE_PS.
Definition table_entry (next : Z) : Z := Z.lor (Z.lor next PTE_PRESENT) PTE_WRITABLE.

(** The writes of the two setup functions, in order. *)
Definition page_table_writes : list (Z * list byte) :=
  (PAGE_TABLE_ADDR, le_enc 8 (table_entry PDPT_ADDR)) ::
  (PDPT_ADDR, le_enc 8 (table_entry PD_ADDR)) ::
  ((λ i, (PD_ADDR + i * 8, le_enc 8 (pd_entry i))) <$> seqZ 0 512).
Definition gdt_writes : list (Z * list byte) :=
  (λ p, (GDT_ADDR + p.1 * GDT_ENTRY_SIZE, le_enc 8 p.2)) <$> zip (seqZ 0 3) gdt_entries.

Section SetupProofs.
Context `{ByteMemoryLaws M}.
Implicit Types (m : M).

Lemma setup_page_tables_writes m :
  setup_long_mode_page_tables m = store_all BootMemory page_table_writes m.
Proof.
  unfold setup_long_mode_page_tables, store_all, page_table_writes, write_u64.
  cbn [for_each fst snd]. unfold mbind, stm_bind.
  destruct (store BootMemory PAGE_TABLE_ADDR _ m) as [[[]|e|p] m1]; [|done..].
  destruct (store BootMemory PDPT_ADDR _ m1) as [[[]|e|p] m2]; [|done..].
  by rewrite for_each_fmap.
Qed.

Lemma setup_gdt_writes m : setup_gdt m = store_all BootMemory gdt_writes m.
Proof. done. Qed.

Lemma page_table_writes_small : Forall (λ w, fits 63 (zlen w.2)) page_table_writes.
Proof.
  assert (Hf : ∀ v, fits 63 (zlen (le_enc 8 v))) by (intros; rewrite zlen_le_enc; unfold fits; lia).
  unfold page_table_writes. do 2 (apply Forall_cons; split; [apply Hf|]).
  apply Forall_fmap, Forall_forall. intros. apply Hf.
Qed.

Lemma gdt_writes_small : Forall (λ w, fits 63 (zlen w.2)) gdt_writes.
Proof. repeat constructor; simpl; rewrite zlen_le_enc; unfold fits; lia. Qed.

Lemma page_table_writes_ascending : ascending page_table_writes.
Proof.
  assert (Hpd : ∀ n a, StronglySorted (λ w w', w.1 + zlen w.2 ≤ w'.1)
    ((λ i, (PD_ADDR + i * 8, le_enc 8 (pd_entry i))) <$> seqZ a (Z.of_nat n))).
  { induction n as [|n IH]; intros a; [rewrite seqZ_nil by lia; constructor|].
    rewrite seqZ_cons by lia. simpl. replace (Z.pred (Z.of_nat (S n))) with (Z.of_nat n) by lia.
    constructor; [apply IH|]. apply Forall_fmap, Forall_forall. intros i Hi%elem_of_seqZ.
    simpl. rewrite zlen_le_enc. lia. }
  unfold ascending, page_table_writes.
  constructor; [constructor; [apply (Hpd 512%nat)|]|].
  - apply Forall_fmap, Forall_forall. intros i Hi%elem_of_seqZ. simpl.
    rewrite zlen_le_enc. unfold PDPT_ADDR, PD_ADDR. lia.
  - apply Forall_cons. split; [simpl; rewrite zlen_le_enc; unfold PAGE_TABLE_ADDR, PDPT_ADDR; lia|].
    apply Forall_fmap, Forall_forall. intros i Hi%elem_of_seqZ. simpl.
    rewrite zlen_le_enc. unfold PAGE_TABLE_ADDR, PD_ADDR. lia.
Qed.

Lemma gdt_writes_ascending : ascending gdt_writes.
Proof.
  repeat constructor; simpl; rewrite ?zlen_le_enc; unfold GDT_ADDR, GDT_ENTRY_SIZE; lia.
Qed.

(** The GDT lies below the page tables. *)
Lemma gdt_below_tables a n :
  GDT_ADDR + 24 ≤ a → Forall (λ w, a + n ≤ w.1 ∨ w.1 + zlen w.2 ≤ a) gdt_writes.
Proof.
  intros Ha. repeat constructor; simpl; rewrite ?zlen_le_enc;
    unfold GDT_ADDR, GDT_ENTRY_SIZE in *; lia.
Qed.

(** The bits of a page-directory entry, checked for all 512 of them. *)
Lemma pd_entry_bits i :
  0 ≤ i < 512 →
  fits 64 (pd_entry i) ∧ Z.testbit (pd_entry i) 0 = true ∧ Z.testbit (pd_entry i) 1 = true ∧
  Z.testbit (pd_entry i) 7 = true ∧ entry_addr (pd_entry i) / 2 ^ 21 = i.
Proof.
  intros Hi.
  assert (Hall : forallb (λ i, bool_decide (fits 64 (pd_entry i)) && Z.testbit (pd_entry i) 0 &&
    Z.testbit (pd_entry i) 1 && Z.testbit (pd_entry i) 7 && (entry_addr (pd_entry i) / 2 ^ 21 =? i))
    (seqZ 0 512) = true) by (vm_compute; reflexivity).
  rewrite List.forallb_forall in Hall. specialize (Hall i).
  specialize (Hall ltac:(apply list_elem_of_In, elem_of_seqZ; lia)).
  rewrite !andb_true_iff in Hall. destruct Hall as ((((Hf & ?) & ?) & ?) & ?).
  apply bool_decide_eq_true in Hf. to_prop. done.
Qed.

(** Reading a table entry after a write to it. *)
Lemma read_u64_written m a v : bm_read m a 8 = Ok (le_enc 8 v) → fits 64 v →
  read_obj pod_u64 m a = Ok v.
Proof.
  intros Hr Hv. unfold read_obj. simpl. rewrite Hr. simpl. f_equal.
  rewrite le_dec_enc. by apply wrap_small.
Qed.

(** The tables as they are in memory. *)
Record tables_at m : Prop := {
  ta_pml4 : read_obj pod_u64 m PAGE_TABLE_ADDR = Ok (table_entry PDPT_ADDR);
  ta_pdpt : read_obj pod_u64 m PDPT_ADDR = Ok (table_entry PD_ADDR);
  ta_pd i : 0 ≤ i < 512 → read_obj pod_u64 m (PD_ADDR + 8 * i) = Ok (pd_entry i);
}.

Lemma va_index_small va l : 0 ≤ l → 0 ≤ va < 2 ^ (12 + 9 * l) →
  va_index va (l + 1) = va / 2 ^ (12 + 9 * (l + 1 - 1)) ∧ va_index va (l + 1) = 0.
Proof.
  intros Hl Hva. unfold va_index. rewrite Z.shiftr_div_pow2 by lia.
  replace (12 + 9 * (l + 1 - 1)) with (12 + 9 * l) by lia.
  rewrite Z.div_small by lia. done.
Qed.

Lemma walk_next l m table va rw e :
  read_obj pod_u64 m (table + 8 * va_index va (Z.of_nat (S l))) = Ok e →
  Z.testbit e 0 = true → (Nat.eqb (S l) 3 || Nat.eqb (S l) 2) && Z.testbit e 7 = false →
  walk (S l) m table va rw = walk l m (entry_addr e) va (rw && Z.testbit e 1).
Proof.
  intros Hr H0' H7. unfold walk at 1. fold (@walk M _). rewrite Hr.
  unfold mbind, outcome_bind. by rewrite H0', H7.
Qed.

Lemma walk_large m table va rw e :
  read_obj pod_u64 m (table + 8 * va_index va 2) = Ok e →
  Z.testbit e 0 = true → Z.testbit e 7 = true →
  walk 2 m table va rw =
    Ok (Translated (2 ^ 21 * (entry_addr e / 2 ^ 21) + va mod 2 ^ 21) (rw && Z.testbit e 1)).
Proof.
  intros Hr H0' H7. unfold walk. change (Z.of_nat 2) with 2. rewrite Hr.
  unfold mbind, outcome_bind. by rewrite H0', H7.
Qed.

Lemma walk_tables m va :
  tables_at m → 0 ≤ va < 2 ^ 30 → walk 4 m PAGE_TABLE_ADDR va true = Ok (Translated va true).
Proof.
  intros [H4 H3 H2] Hva.
  assert (Hi4 : va_index va (Z.of_nat 4) = 0) by (apply (va_index_small va 3); simpl; lia).
  assert (Hi3 : va_index va (Z.of_nat 3) = 0) by (apply (va_index_small va 2); simpl; lia).
  assert (Hi2 : va_index va 2 = va / 2 ^ 21).
  { unfold va_index. change (12 + 9 * (2 - 1)) with 21. rewrite Z.shiftr_div_pow2 by lia.
    change 511 with (Z.ones 9). rewrite Z.land_ones by lia. apply Z.mod_small.
    split; [by apply Z.div_pos; lia|]. apply Z.div_lt_upper_bound; lia. }
  assert (Hr : 0 ≤ va / 2 ^ 21 < 512).
  { split; [by apply Z.div_pos; lia|]. apply Z.div_lt_upper_bound; lia. }
  destruct (pd_entry_bits (va / 2 ^ 21) Hr) as (_ & Hb0 & Hb1 & Hb7 & Hdiv).
  rewrite (walk_next 3 _ _ _ _ (table_entry PDPT_ADDR)); [|by rewrite Hi4|done..].
  rewrite (walk_next 2 _ _ _ _ (table_entry PD_ADDR)); [|by rewrite Hi3|done..].
  rewrite (walk_large _ _ _ _ (pd_entry (va / 2 ^ 21)));
    [|rewrite Hi2; by apply H2|done..].
  rewrite Hb1, Hdiv. do 2 f_equal. symmetry. apply Z.div_mod. lia.
Qed.

(** The ranges the setup needs. *)
Definition boot_tables_mapped m : Prop :=
  Forall (write_ok m) page_table_writes ∧ Forall (write_ok m) gdt_writes.

Lemma tables_after m m' :
  bm_wf m → setup_long_mode_page_tables m = (Ok tt, m') → bm_wf m' ∧ tables_at m'.
Proof.
  intros Hwf. rewrite setup_page_tables_writes. intros Hs.
  assert (Hread : ∀ a v, (a, le_enc 8 v) ∈ page_table_writes → fits 64 v → read_obj pod_u64 m' a = Ok v).
  { intros a v Hin Hv. apply read_u64_written; [|done].
    pose proof (store_all_read _ _ _ _ _ _ Hwf page_table_writes_small
      page_table_writes_ascending Hs Hin) as Hr. simpl in Hr. by rewrite zlen_le_enc in Hr. }
  split.
  - pose proof (store_all_spec (E:=BootError) BootMemory _ m Hwf page_table_writes_small) as Hspec.
    rewrite Hs in Hspec. apply Hspec.
  - split.
    + apply Hread; [by left|done].
    + apply Hread; [by right; left|done].
    + intros i Hi. apply Hread; [|by apply pd_entry_bits].
      do 2 right. apply list_elem_of_fmap. exists i. rewrite elem_of_seqZ. split; [|lia].
      by rewrite Z.mul_comm.
Qed.

Lemma tables_survive_gdt m m' :
  bm_wf m → tables_at m → Forall (write_ok m) page_table_writes →
  setup_gdt m = (Ok tt, m') → tables_at m'.
Proof.
  intros Hwf [H4 H3 H2] Hok Hs. rewrite setup_gdt_writes in Hs.
  assert (Hframe : ∀ w, w ∈ page_table_writes → zlen w.2 = 8 ∧ GDT_ADDR + 24 ≤ w.1 →
    read_obj pod_u64 m' w.1 = read_obj pod_u64 m w.1).
  { intros [a d] Hin [Hl Ha]. simpl in Hl, Ha. unfold read_obj. f_equal.
    apply (store_all_frame BootMemory gdt_writes m m' tt); try done.
    - apply gdt_writes_small.
    - rewrite Forall_forall in Hok. specialize (Hok _ Hin). unfold write_ok in Hok.
      simpl in Hok. by rewrite Hl in Hok.
    - by apply gdt_below_tables. }
  split.
  - rewrite <- H4. apply (Hframe (PAGE_TABLE_ADDR, le_enc 8 (table_entry PDPT_ADDR))); [by left|by vm_compute].
  - rewrite <- H3. apply (Hframe (PDPT_ADDR, le_enc 8 (table_entry PD_ADDR))); [by right; left|by vm_compute].
  - intros i Hi. rewrite <- H2 by done.
    apply (Hframe (PD_ADDR + 8 * i, le_enc 8 (pd_entry i))).
    + do 2 right. apply list_elem_of_fmap. exists i. rewrite elem_of_seqZ. split; [|lia].
      by rewrite Z.mul_comm.
    + simpl. rewrite zlen_le_enc. unfold PD_ADDR, GDT_ADDR. lia.
Qed.

End SetupProofs.

(** The PVH block: the start info points at a memory map that holds the
    given entries, and more than 128 of them are refused before anything is
    written. *)
Lemma setup_pvh_boot_spec `{ByteMemoryLaws M} (m : M) cmdline_addr es :
  bm_wf m → Forall (λ e, fits 64 (e820_addr e) ∧ fits 64 (e820_size e) ∧ fits 32 (e820_type e)) es →
  match setup_pvh_boot cmdline_addr es m with
  | (Ok a, m') =>
      a = PVH_START_INFO_ADDR ∧ zlen es ≤ 128 ∧
      bm_read m' PVH_START_INFO_ADDR 56 = Ok (start_info_bytes
        {| hsi_magic := XEN_HVM_START_MAGIC; hsi_version := 1; hsi_flags := 0; nr_modules := 0;
           modlist_paddr := 0; cmdline_paddr := cmdline_addr; rsdp_paddr := 0;
           memmap_paddr := PVH_MEMMAP_ADDR; memmap_entries := zlen es; hsi_pad := 0 |}) ∧
      bm_read m' PVH_MEMMAP_ADDR (24 * zlen es) =
        Ok (es ≫= λ e, le_enc 8 (e820_addr e) ++ le_enc 8 (e820_size e) ++ le_enc 4 (e820_type e) ++
                       le_enc 4 0)
  | (Err e, m') => (128 < zlen es → e = InvalidPvhNote ∧ m' = m)
  | (Panic _, _) => False
  end.
Proof.
  intros Hwf Hes. unfold setup_pvh_boot. destruct (128 <? zlen es) eqn:Hn; [done|]. to_prop.
  pose proof (zlen_nonneg es).
  rewrite list_fmap_bind. unfold memmap_entry_bytes, compose. cbn [hm_addr hm_size hm_type hm_reserved].
  set (bytes := es ≫= _).
  assert (Hlen : zlen bytes = 24 * zlen es).
  { unfold bytes. clear. induction es as [|e es IH]; [done|]. rewrite bind_cons.
    rewrite !zlen_app, !zlen_le_enc, IH, zlen_cons. lia. }
  set (info := start_info_bytes _).
  assert (Hinfo : zlen info = 56) by (unfold info, start_info_bytes; by rewrite !zlen_app, !zlen_le_enc).
  unfold mbind, stm_bind, store.
  destruct (bm_write m PVH_MEMMAP_ADDR bytes) as [m1|e|p] eqn:Hw1; [| lia |].
  - destruct (bm_write_effect m m1 _ _ Hwf ltac:(rewrite Hlen; unfold fits; lia) Hw1)
      as (Hwf1 & Hm1 & Hmap & Hr1 & _).
    destruct (bm_write m1 PVH_START_INFO_ADDR info) as [m2|e|p] eqn:Hw2; [| lia |].
    + destruct (bm_write_effect m1 m2 _ _ Hwf1 ltac:(rewrite Hinfo; unfold fits; lia) Hw2)
        as (Hwf2 & Hm2 & _ & Hr2 & Hf2).
      rewrite Hinfo in Hr2, Hf2. rewrite Hlen in Hr1, Hm1. split_and!; [done|lia| |].
      * rewrite Hr2. unfold info. by rewrite (wrap_small 32 (zlen es)) by (unfold fits; lia).
      * rewrite Hf2; [exact Hr1|unfold fits; lia|by apply Hmap|].
        right. unfold PVH_START_INFO_ADDR, PVH_MEMMAP_ADDR. lia.
    + apply (bm_write_not_panic m1 _ _ p Hwf1 ltac:(rewrite Hinfo; unfold fits; lia) Hw2).
  - apply (bm_write_not_panic m _ _ p Hwf ltac:(rewrite Hlen; unfold fits; lia) Hw1).
Qed.

(** ** Properties *)

(** C10. The 64-bit boot state works as the processor reads it: setting up
    the page tables and the GDT succeeds exactly when their ranges are
    mapped, and then, with the special registers as configured, the
    processor is in long mode, every virtual address below 1 GiB translates
    to itself, writable, through the tables in guest memory, and the code
    and data selectors lie within the GDT limit and name descriptors that
    decode to the segment state the registers cache. *)
Theorem long_mode_boot_state `{ByteMemoryLaws M} (m : M) (s0 : KvmSregs) :
  bm_wf m →
  let s := configure_64bit_sregs s0 in
  match (setup_long_mode_page_tables ≫= λ _, setup_gdt) m with
  | (Ok _, m') =>
      long_mode s = true ∧
      (∀ va, 0 ≤ va < 2 ^ 30 → translate s m' va = Ok (Translated va true)) ∧
      (∀ seg, seg ∈ [cs s; ds s; es s; ss s; fs s; gs s] →
         selector seg + 7 ≤ dt_limit (gdt s) ∧
         ∃ d, read_obj pod_u64 m' (dt_base (gdt s) + selector seg) = Ok d ∧
              accessed (decode_descriptor (selector seg) d) = seg)
  | (Err _, _) => ¬ boot_tables_mapped m
  | (Panic _, _) => False
  end.
Proof.
  intros Hwf s. pose proof (store_all_spec (E:=BootError) BootMemory _ m Hwf page_table_writes_small) as Hpt.
  rewrite <- setup_page_tables_writes in Hpt. unfold mbind, stm_bind.
  destruct (setup_long_mode_page_tables m) as [[[]|e|p] m1] eqn:Hs1; [|by intros [? _]|done].
  destruct Hpt as (_ & Hmap & Hok & _). destruct (tables_after m m1 Hwf Hs1) as [Hwf1 Ht].
  pose proof (store_all_spec (E:=BootError) BootMemory _ m1 Hwf1 gdt_writes_small) as Hg.
  rewrite <- setup_gdt_writes in Hg.
  assert (Hequiv : ∀ ws, Forall (write_ok m1) ws ↔ Forall (write_ok m) ws).
  { intros ws. unfold write_ok. rewrite !Forall_forall. split; intros Hw w Hin; by apply Hmap, Hw. }
  destruct (setup_gdt m1) as [[[]|e|p] m2] eqn:Hs2.
  - split; [done|]. split.
    + intros va Hva. unfold translate. change (entry_addr (cr3 s)) with PAGE_TABLE_ADDR.
      apply walk_tables; [|done]. by apply (tables_survive_gdt m1); rewrite ?Hequiv.
    + assert (Hread : ∀ a v, (a, le_enc 8 v) ∈ gdt_writes → fits 64 v → read_obj pod_u64 m2 a = Ok v).
      { intros a v Hin Hv. apply read_u64_written; [|done].
        pose proof (store_all_read _ _ _ _ _ _ Hwf1 gdt_writes_small gdt_writes_ascending Hs2 Hin) as Hr.
        simpl in Hr. by rewrite zlen_le_enc in Hr. }
      intros seg Hseg. apply elem_of_cons in Hseg as [->|Hseg].
      * split; [by vm_compute|]. exists 0x00AF9A000000FFFF. split; [|by vm_compute].
        apply Hread; [by right; left|by vm_compute].
      * assert (seg = ds s) as ->.
        { repeat (apply elem_of_cons in Hseg as [->|Hseg]; [done|]). by apply not_elem_of_nil in Hseg. }
        split; [by vm_compute|]. exists 0x00CF92000000FFFF. split; [|by vm_compute].
        apply Hread; [by do 2 right; left|by vm_compute].
  - intros [_ Hgok]. by apply Hequiv in Hgok.
  - done.
Qed.

(** ** Witnesses *)

Lemma long_mode_boot_state_witness :
  let s0 := let z := {| seg_base := 0; limit := 0; selector := 0; type_ := 0; present := 0; dpl := 0;
                        db := 0; seg_s := 0; seg_l := 0; seg_g := 0; avl := 0; unusable := 0;
                        padding := 0 |} in
            let d := {| dt_base := 0; dt_limit := 0; dt_padding := [0; 0; 0] |} in
            {| cs := z; ds := z; es := z; fs := z; gs := z; ss := z; tr := z; ldt := z; gdt := d;
               idt := d; cr0 := 0x60000010; cr2 := 0; cr3 := 0; cr4 := 0; cr8 := 0; efer := 0;
               apic_base := 0xfee00900; interrupt_bitmap := [0; 0; 0; 0] |} in
  match (setup_long_mode_page_tables ≫= λ _, setup_gdt) (boot_ram 0x10000) with
  | (Ok _, m') => translate (configure_64bit_sregs s0) m' 0x100200 = Ok (Translated 0x100200 true)
  | _ => False
  end.
Proof.
  intros s0.
  pose proof (long_mode_boot_state (boot_ram 0x10000) s0 (boot_ram_wf 0x10000 ltac:(lia))) as Hp.
  assert (Hok : is_ok ((setup_long_mode_page_tables ≫= λ _, setup_gdt) (boot_ram 0x10000)).1 = true)
    by (vm_compute; reflexivity).
  cbv zeta in Hp.
  destruct ((setup_long_mode_page_tables ≫= λ _, setup_gdt) (boot_ram 0x10000)) as [[r|e|p] m'].
  - destruct Hp as (_ & Ht & _). apply Ht. lia.
  - discriminate.
  - discriminate.
Defined.
