(* ===== verification/Elf.v ===== *)
(** * The ELF kernel loader (crates/nova-boot/src/elf.rs)

    Parsing a vmlinux image, scanning its notes for the PVH entry point, and
    copying its loadable segments into guest memory. *)

From S2P Require Import Prelude GuestMem BootParams.

Definition ELF_MAGIC : list byte := [z2b 0x7F; z2b 69; z2b 76; z2b 70].
Definition ELFCLASS64 : Z := 2.
Definition ET_EXEC : Z := 2.
Definition PT_LOAD : Z := 1.
Definition XEN_ELFNOTE_PHYS_ENTRY : Z := 18.

Record LoadSegment : Type := {
  guest_addr : Z; file_offset : Z; file_size : Z; mem_size : Z;
}.

Record ElfKernel : Type := {
  elf_image : list byte;
  entry_point : Z;
  segments : list LoadSegment;
  pvh_entry : option Z;
}.

(** ** Parsing *)

(** One iteration of the program-header loop: [None] is the [break]. *)
Definition parse_program_header (image : list byte) (ph_offset ph_entry_size i : Z)
    : outcome BootError (option (list LoadSegment)) :=
  let offset := ph_offset ⊞ i * ph_entry_size in
  if zlen image <? offset ⊞ ph_entry_size then Ok None else
  p_type ← slice_le image offset 4;
  if negb (p_type =? PT_LOAD) then Ok (Some []) else
  p_offset ← slice_le image (offset ⊞ 8) 8;
  p_vaddr ← slice_le image (offset ⊞ 16) 8;
  p_paddr ← slice_le image (offset ⊞ 24) 8;
  p_filesz ← slice_le image (offset ⊞ 32) 8;
  p_memsz ← slice_le image (offset ⊞ 40) 8;
  let addr := if negb (p_paddr =? 0) then p_paddr else p_vaddr in
  Ok (Some [{| guest_addr := addr; file_offset := p_offset; file_size := p_filesz;
               mem_size := p_memsz |}]).

Fixpoint parse_program_headers (image : list byte) (ph_offset ph_entry_size : Z) (idx : list Z)
    : outcome BootError (list LoadSegment) :=
  match idx with
  | [] => Ok []
  | i :: idx =>
      r ← parse_program_header image ph_offset ph_entry_size i;
      match r with
      | None => Ok []
      | Some segs => app segs <$> parse_program_headers image ph_offset ph_entry_size idx
      end
  end.

(** [(n + 3) & !3] at [usize]. *)
Definition align4 (n : Z) : Z := Z.land (n ⊞ 3) (2 ^ 64 - 1 - 3).

(** The [while] loop over the notes of a section. The outer option is the
    fuel running out; the result is the entry point if one is found. *)
Fixpoint note_loop (fuel : nat) (image : list byte) (notes_end pos : Z)
    : option (outcome BootError (option Z)) :=
  match fuel with
  | O => None
  | S fuel =>
      if (pos ⊞ 12 <=? notes_end) && (pos ⊞ 12 <=? zlen image) then
        match slice_le image pos 4, slice_le image (pos ⊞ 4) 4, slice_le image (pos ⊞ 8) 4 with
        | Ok namesz, Ok descsz, Ok note_type =>
            let name_start := pos ⊞ 12 in
            let name_end := name_start ⊞ align4 namesz in
            let desc_start := name_end in
            let desc_end := desc_start ⊞ align4 descsz in
            if (note_type =? XEN_ELFNOTE_PHYS_ENTRY) && (8 <=? descsz)
               && (desc_start ⊞ 8 <=? zlen image)
            then Some (Some <$> slice_le image desc_start 8)
            else note_loop fuel image notes_end desc_end
        | Panic p, _, _ | _, Panic p, _ | _, _, Panic p => Some (Panic p)
        | Err e, _, _ | _, Err e, _ | _, _, Err e => Some (Err e)
        end
      else Some (Ok None)
  end.

(** Every note takes at least 12 bytes of the image. *)
Definition note_fuel (image : list byte) : nat := S (length image).

Fixpoint section_loop (image : list byte) (sh_offset sh_entry_size : Z) (idx : list Z)
    : option (outcome BootError (option Z)) :=
  match idx with
  | [] => Some (Ok None)
  | i :: idx =>
      let offset := sh_offset ⊞ i * sh_entry_size in
      if zlen image <? offset ⊞ sh_entry_size then Some (Ok None) else
      match slice_le image (offset ⊞ 4) 4 with
      | Ok sh_type =>
          if negb (sh_type =? 7) then section_loop image sh_offset sh_entry_size idx else
          match slice_le image (offset ⊞ 24) 8, slice_le image (offset ⊞ 32) 8 with
          | Ok note_offset, Ok note_size =>
              match note_loop (note_fuel image) image (note_offset ⊞ note_size) note_offset with
              | Some (Ok None) => section_loop image sh_offset sh_entry_size idx
              | r => r
              end
          | Panic p, _ | _, Panic p => Some (Panic p)
          | Err e, _ | _, Err e => Some (Err e)
          end
      | Panic p => Some (Panic p)
      | Err e => Some (Err e)
      end
  end.

Definition find_pvh_entry (image : list byte) : option (outcome BootError (option Z)) :=
  if zlen image <? 64 then Some (Ok None) else
  let sh_offset := le_dec (sub_list 40 8 image) in
  let sh_entry_size := le_dec (sub_list 58 2 image) in
  let sh_count := le_dec (sub_list 60 2 image) in
  section_loop image sh_offset sh_entry_size (seqZ 0 sh_count).

Definition ElfKernel_parse (reader : Z + list byte) : option (outcome BootError ElfKernel) :=
  match reader with
  | inl errno => Some (Err (BootIo errno))
  | inr image =>
      if zlen image <? 64 then Some (Err InvalidElfMagic) else
      if negb (bool_decide (sub_list 0 4 image = ELF_MAGIC)) then Some (Err InvalidElfMagic) else
      let class := le_dec (sub_list 4 1 image) in
      if negb (class =? ELFCLASS64) then Some (Err (Not64BitElf class)) else
      let e_type := le_dec (sub_list 16 2 image) in
      if negb (e_type =? ET_EXEC) then Some (Err (NotExecutableElf e_type)) else
      let entry := le_dec (sub_list 24 8 image) in
      let ph_offset := le_dec (sub_list 32 8 image) in
      let ph_entry_size := le_dec (sub_list 54 2 image) in
      let ph_count := le_dec (sub_list 56 2 image) in
      match parse_program_headers image ph_offset ph_entry_size (seqZ 0 ph_count) with
      | Ok [] => Some (Err NoLoadableSegments)
      | Ok segs =>
          match find_pvh_entry image with
          | Some (Ok pvh) =>
              Some (Ok {| elf_image := image; entry_point := entry; segments := segs;
                          pvh_entry := pvh |})
          | Some (Err e) => Some (Err e)
          | Some (Panic p) => Some (Panic p)
          | None => None
          end
      | Err e => Some (Err e)
      | Panic p => Some (Panic p)
      end
  end.

(** ** Loading *)

Section Load.
Context `{ByteMemory M}.

(** The body of the loop over the segments. [vec![0u8; n]] panics above
    [isize::MAX]. *)
Definition load_segment (image : list byte) (seg : LoadSegment) : stm M BootError unit :=
  _ ← (if 0 <? file_size seg then
         let end_ := file_offset seg ⊞ file_size seg in
         if zlen image <? end_ then throw (KernelTooLarge end_ (guest_addr seg)) else
         d ← lift (slice image (file_offset seg) end_);
         store BootMemory (guest_addr seg) d
       else mret tt);
  if file_size seg <? mem_size seg then
    let bss_size := mem_size seg - file_size seg in
    let bss_addr := guest_addr seg ⊞ file_size seg in
    if 2 ^ 63 <=? bss_size then lift (Panic PanicCapacity) else
    store BootMemory bss_addr (replicate (Z.to_nat bss_size) x00)
  else mret tt.

Definition ElfKernel_load_into_memory (k : ElfKernel) : stm M BootError unit :=
  for_each (load_segment (elf_image k)) (segments k).

End Load.

(** ** Reading the image without failing *)

Definition word (image : list byte) (off n : Z) : Z := le_dec (sub_list off n image).

Definition e_phoff (image : list byte) : Z := word image 32 8.
Definition e_phentsize (image : list byte) : Z := word image 54 2.
Definition e_phnum (image : list byte) : Z := word image 56 2.
Definition e_shoff (image : list byte) : Z := word image 40 8.
Definition e_shentsize (image : list byte) : Z := word image 58 2.
Definition e_shnum (image : list byte) : Z := word image 60 2.

(** The offsets of the table entries that lie in the image. *)
Definition entries_in (image : list byte) (off size count : Z) : list Z :=
  filter (λ o, o + size ≤ zlen image) ((λ i, off + i * size) <$> seqZ 0 count).

(** What the program header at an offset asks to load, if anything. *)
Definition header_segment (image : list byte) (o : Z) : option LoadSegment :=
  if word image o 4 =? PT_LOAD then
    Some {| guest_addr := if word image (o + 24) 8 =? 0 then word image (o + 16) 8
                          else word image (o + 24) 8;
            file_offset := word image (o + 8) 8;
            file_size := word image (o + 32) 8; mem_size := word image (o + 40) 8 |}
  else None.

Lemma word_fits image o n : 0 ≤ o → 0 ≤ n → o + n ≤ zlen image → fits (8 * n) (word image o n).
Proof. intros. by apply le_dec_sub_fits. Qed.

Lemma slice_word {E} image o n :
  0 ≤ o → 0 ≤ n → o + n ≤ zlen image → zlen image < 2 ^ 64 →
  slice_le (E:=E) image o n = Ok (word image o n).
Proof. apply slice_le_ok. Qed.

Lemma slice_short {E} image o n :
  0 ≤ o → 0 ≤ n → o + n < 2 ^ 64 → zlen image < o + n →
  slice_le (E:=E) image o n = Panic PanicBounds.
Proof.
  intros. unfold slice_le, slice. rewrite add64_small by (unfold fits; lia).
  rewrite (proj2 (Z.leb_gt (o + n) (zlen image))) by lia. by rewrite andb_false_r.
Qed.

Lemma parse_program_header_in image off size i :
  0 ≤ off → 0 ≤ i → 48 ≤ size → off + i * size + size < 2 ^ 64 → zlen image < 2 ^ 63 →
  parse_program_header image off size i =
    Ok (if decide (off + i * size + size ≤ zlen image)
        then Some (option_list (header_segment image (off + i * size))) else None).
Proof.
  intros Hoff Hi Hsz Hw Hl. unfold parse_program_header.
  rewrite (add64_small off) by (unfold fits; lia).
  set (o := off + i * size) in *. rewrite (add64_small o size) by (unfold fits; lia).
  destruct (decide _); [rewrite (proj2 (Z.ltb_ge _ _)) by lia|by rewrite (proj2 (Z.ltb_lt _ _)) by lia].
  assert (0 ≤ o) by (unfold o; nia). clearbody o.
  rewrite !(add64_small o) by (unfold fits; lia). rewrite !slice_word by lia.
  unfold header_segment. unfold mbind, outcome_bind.
  destruct (word image o 4 =? PT_LOAD); [simpl|done].

  by destruct (word image (o + 24) 8 =? 0).
Qed.

(** Offsets increase, so the loop's [break] skips nothing that is in range. *)
Lemma parse_program_headers_in image off size n a :
  0 ≤ off → 0 ≤ a → 48 ≤ size → off + (a + Z.of_nat n) * size < 2 ^ 64 → zlen image < 2 ^ 63 →
  parse_program_headers image off size (seqZ a (Z.of_nat n)) =
    Ok (omap (header_segment image)
          (filter (λ o, o + size ≤ zlen image) ((λ i, off + i * size) <$> seqZ a (Z.of_nat n)))).
Proof.
  intros Hoff Ha Hsz Hw Hl. revert a Ha Hw. induction n as [|n IH]; intros a Ha Hw; [done|].
  rewrite seqZ_cons by lia. replace (Z.pred (Z.of_nat (S n))) with (Z.of_nat n) by lia.
  cbn [parse_program_headers fmap list_fmap]. rewrite parse_program_header_in by nia.
  unfold mbind at 1, outcome_bind. destruct (decide _) as [Hin|Hout].
  - rewrite IH by lia. rewrite filter_cons_True by done. simpl.
    by destruct (header_segment image (off + a * size)).
  - rewrite filter_cons_False by done. f_equal. symmetry.
    rewrite filter_none; [done|].
    apply Forall_fmap, Forall_forall. intros i Hi%elem_of_seqZ. simpl. nia.
Qed.

(** ** Notes *)

Lemma align4_spec n : 0 ≤ n → n + 3 < 2 ^ 64 → align4 n = 4 * ((n + 3) / 4).
Proof.
  intros Hn Hl. unfold align4. rewrite add64_small by (unfold fits; lia).
  change (2 ^ 64 - 1 - 3) with (Z.shiftl (Z.ones 62) 2).
  assert (Z.land (n + 3) (Z.shiftl (Z.ones 62) 2) = Z.shiftl (Z.shiftr (n + 3) 2) 2) as ->.
  { apply Z.bits_inj'. intros i Hi. rewrite Z.land_spec.
    destruct (decide (i < 2)); [rewrite !Z.shiftl_spec_low by lia; by rewrite andb_false_r|].
    rewrite !Z.shiftl_spec, Z.shiftr_spec by lia. replace (i - 2 + 2) with i by lia.
    rewrite Z.testbit_ones by lia. destruct (decide (i < 64)) as [Hi'|Hi'].
    - rewrite (proj2 (Z.leb_le _ _)), (proj2 (Z.ltb_lt _ _)) by lia. by rewrite andb_true_r.
    - rewrite <- (Z.mod_small (n + 3) (2 ^ 64)) by lia. by rewrite Z.mod_pow2_bits_high by lia. }
  rewrite Z.shiftl_mul_pow2, Z.shiftr_div_pow2 by lia. change (2 ^ 2) with 4. apply Z.mul_comm.
Qed.

(** A [XEN_ELFNOTE_PHYS_ENTRY] note of the image and the address it names. *)
Definition pvh_note (image : list byte) (entry : Z) : Prop :=
  ∃ pos, let desc := pos + 12 + 4 * ((word image pos 4 + 3) / 4) in
    0 ≤ pos ∧ word image (pos + 8) 4 = XEN_ELFNOTE_PHYS_ENTRY ∧ 8 ≤ word image (pos + 4) 4 ∧
    desc + 8 ≤ zlen image ∧ entry = word image desc 8.

(** The loop over notes ends within its fuel, never leaves the image, and
    returns the address of a note of the image. *)
Lemma note_loop_spec fuel image notes_end pos :
  zlen image < 2 ^ 63 → 0 ≤ pos → pos + 12 < 2 ^ 64 → zlen image - pos < Z.of_nat fuel * 12 →
  (0 < fuel)%nat →
  ∃ r, note_loop fuel image notes_end pos = Some (Ok r) ∧
       (∀ e, r = Some e → pvh_note image e).
Proof.
  intros Hl. revert pos. induction fuel as [|fuel IH]; intros pos Hp Hw Hf Hfuel; [lia|].
  cbn [note_loop]. rewrite (add64_small pos 12) by (unfold fits; lia).
  destruct (_ && _) eqn:Hc; [|by exists None].
  to_prop. rewrite !(add64_small pos) by (unfold fits; lia).
  rewrite !slice_word by lia.
  pose proof (word_fits image pos 4 ltac:(lia) ltac:(lia) ltac:(lia)) as Hn.
  pose proof (word_fits image (pos + 4) 4 ltac:(lia) ltac:(lia) ltac:(lia)) as Hd.
  unfold fits in Hn, Hd. change (8 * 4) with 32 in *.
  rewrite !align4_spec by lia.
  set (desc := pos + 12 + 4 * ((word image pos 4 + 3) / 4)).
  pose proof (Z.div_mod (word image pos 4 + 3) 4 ltac:(lia)).
  pose proof (Z.mod_pos_bound (word image pos 4 + 3) 4 ltac:(lia)).
  pose proof (Z.div_mod (word image (pos + 4) 4 + 3) 4 ltac:(lia)).
  pose proof (Z.mod_pos_bound (word image (pos + 4) 4 + 3) 4 ltac:(lia)).
  rewrite (add64_small (pos + 12)) by (unfold fits; lia). fold desc.
  rewrite !(add64_small desc) by (unfold fits, desc; lia).
  destruct (_ && _ && _) eqn:Hfound; to_prop.
  - rewrite slice_word by (unfold desc in *; lia). eexists. split; [done|].
    intros e [= <-]. exists pos. by split_and!.
  - apply IH; unfold desc; lia.
Qed.

(** The header conditions under which the scan for notes stays in range. *)
Definition sections_ok (image : list byte) : Prop :=
  e_shnum image = 0 ∨
  (40 ≤ e_shentsize image ∧ e_shoff image + e_shnum image * e_shentsize image < 2 ^ 64 ∧
   ∀ o, o ∈ entries_in image (e_shoff image) (e_shentsize image) (e_shnum image) →
     word image (o + 4) 4 = 7 → word image (o + 24) 8 + 12 < 2 ^ 64).

Lemma section_loop_spec image off size n a :
  0 ≤ off → 0 ≤ a → 40 ≤ size → off + (a + Z.of_nat n) * size < 2 ^ 64 → zlen image < 2 ^ 63 →
  (∀ i, a ≤ i < a + Z.of_nat n → off + i * size + size ≤ zlen image →
     word image (off + i * size + 4) 4 = 7 → word image (off + i * size + 24) 8 + 12 < 2 ^ 64) →
  ∃ r, section_loop image off size (seqZ a (Z.of_nat n)) = Some (Ok r) ∧
       (∀ e, r = Some e → pvh_note image e).
Proof.
  intros Hoff Ha Hsz Hw Hl Hnotes. revert a Ha Hw Hnotes.
  induction n as [|n IH]; intros a Ha Hw Hnotes; [by exists None|].
  rewrite seqZ_cons by lia. replace (Z.pred (Z.of_nat (S n))) with (Z.of_nat n) by lia.
  cbn [section_loop]. rewrite (add64_small off) by (unfold fits; nia).
  assert (Hb : off + a * size + size < 2 ^ 64) by nia.
  assert (Ho : 0 ≤ off + a * size) by nia.
  specialize (Hnotes a ltac:(lia)) as Hna.
  assert (Hrest : ∃ r, section_loop image off size (seqZ (a + 1) (Z.of_nat n)) = Some (Ok r) ∧
    (∀ e, r = Some e → pvh_note image e)).
  { apply IH; [lia|nia|]. intros i Hi. apply Hnotes. lia. }
  change (Z.succ a) with (a + 1) in *. set (o := off + a * size) in *. clearbody o.
  rewrite !(add64_small o) by (unfold fits; lia).
  destruct (zlen image <? o + size) eqn:Hin; [by exists None|]. to_prop.
  rewrite !slice_word by lia. destruct (negb _) eqn:Ht; [exact Hrest|]. to_prop.
  specialize (Hna ltac:(lia) Ht).
  pose proof (word_fits image (o + 24) 8 ltac:(lia) ltac:(lia) ltac:(lia)) as Hf. unfold fits in Hf.
  destruct (note_loop_spec (note_fuel image) image (word image (o + 24) 8 ⊞ word image (o + 32) 8)
    (word image (o + 24) 8)) as (r & -> & Hr); [done|lia|lia| |unfold note_fuel; lia|].
  { unfold note_fuel, zlen. lia. }
  destruct r as [e|]; [|exact Hrest]. eexists. split; [done|exact Hr].
Qed.

Lemma find_pvh_entry_spec image :
  64 ≤ zlen image < 2 ^ 63 → sections_ok image →
  ∃ r, find_pvh_entry image = Some (Ok r) ∧ (∀ e, r = Some e → pvh_note image e).
Proof.
  intros Hl Hs. unfold find_pvh_entry. rewrite (proj2 (Z.ltb_ge _ _)) by lia.
  fold (word image 40 8) (word image 58 2) (word image 60 2).
  fold (e_shoff image) (e_shentsize image) (e_shnum image).
  destruct Hs as [->|(Hsz & Hw & Hn)]; [by exists None|].
  pose proof (word_fits image 40 8 ltac:(lia) ltac:(lia) ltac:(lia)) as Hoff.
  pose proof (word_fits image 60 2 ltac:(lia) ltac:(lia) ltac:(lia)) as Hnum.
  fold (e_shoff image) in Hoff. fold (e_shnum image) in Hnum. unfold fits in Hoff, Hnum.
  rewrite <- (Z2Nat.id (e_shnum image)) by lia. apply section_loop_spec; try lia.
  intros i Hi Hin. apply Hn. unfold entries_in. apply list_elem_of_filter. split; [done|].
  apply list_elem_of_fmap. exists i. split; [done|]. apply elem_of_seqZ. lia.
Qed.

(** ** Loading *)

(** The slices a segment writes: its file bytes, then zeros up to its size
    in memory. *)
Definition segment_writes (image : list byte) (seg : LoadSegment) : list (Z * list byte) :=
  (if 0 <? file_size seg
   then [(guest_addr seg, sub_list (file_offset seg) (file_size seg) image)] else []) ++
  (if file_size seg <? mem_size seg
   then [(guest_addr seg + file_size seg,
          replicate (Z.to_nat (mem_size seg - file_size seg)) x00)] else []).

(** A segment whose bounds are representable. *)
Record segment_fits (seg : LoadSegment) : Prop := {
  sf_addr : 0 ≤ guest_addr seg; sf_off : 0 ≤ file_offset seg;
  sf_fsz : 0 ≤ file_size seg;
  sf_end : file_offset seg + file_size seg < 2 ^ 64;
  sf_mem : mem_size seg < 2 ^ 63;
  sf_mem_end : guest_addr seg + file_size seg < 2 ^ 64;
}.

Definition segment_in_file (image : list byte) (seg : LoadSegment) : Prop :=
  0 < file_size seg → file_offset seg + file_size seg ≤ zlen image.

#[export] Instance segment_in_file_dec image seg : Decision (segment_in_file image seg).
Proof. unfold segment_in_file. apply _. Defined.

Section LoadProofs.
Context `{ByteMemoryLaws M}.
Implicit Types (m : M).

Lemma load_segment_writes image seg m :
  segment_fits seg → segment_in_file image seg →
  load_segment image seg m = store_all BootMemory (segment_writes image seg) m.
Proof.
  intros [Ha Ho Hf He Hm Hme] Hin. unfold load_segment, segment_writes, store_all.
  unfold segment_in_file in Hin.
  assert (Hbss : ∀ m, (if file_size seg <? mem_size seg then
      let bss_size := mem_size seg - file_size seg in
      let bss_addr := guest_addr seg ⊞ file_size seg in
      if 2 ^ 63 <=? bss_size then lift (Panic PanicCapacity)
      else store BootMemory bss_addr (replicate (Z.to_nat bss_size) x00)
    else mret tt) m =
    for_each (λ w, store BootMemory w.1 w.2) (if file_size seg <? mem_size seg
       then [(guest_addr seg + file_size seg,
              replicate (Z.to_nat (mem_size seg - file_size seg)) x00)] else []) m).
  { intros m'. destruct (file_size seg <? mem_size seg) eqn:Hb; [|done]. to_prop. simpl.
    rewrite (proj2 (Z.leb_gt _ _)) by lia. rewrite add64_small by (unfold fits; lia).
    unfold mbind, stm_bind. by destruct (store _ _ _ m') as [[[]|?|?] ?]. }
  rewrite for_each_app. unfold mbind, stm_bind. destruct (0 <? file_size seg) eqn:Hz; to_prop.
  - specialize (Hin Hz). rewrite add64_small by (unfold fits; lia).
    rewrite (proj2 (Z.ltb_ge _ _)) by lia.
    rewrite slice_ok by lia. unfold lift. cbn [for_each fst snd]. unfold mbind, stm_bind.
    replace (file_offset seg + file_size seg - file_offset seg) with (file_size seg) by lia.
    destruct (store _ _ _ m) as [[[]|?|?] m1]; [apply Hbss|done..].
  - apply Hbss.
Qed.

Lemma load_segment_outside image seg m :
  segment_fits seg → ¬ segment_in_file image seg →
  load_segment image seg m =
    (Err (KernelTooLarge (file_offset seg + file_size seg) (guest_addr seg)), m).
Proof.
  intros [Ha Ho Hf He Hm Hme] Hin. unfold load_segment, segment_in_file in *.
  assert (0 < file_size seg) by (destruct (decide (0 < file_size seg)); [done|exfalso; apply Hin; lia]).
  assert (zlen image < file_offset seg + file_size seg)
    by (destruct (decide (zlen image < file_offset seg + file_size seg)); [done|exfalso; apply Hin; lia]).
  rewrite (proj2 (Z.ltb_lt 0 _)) by lia. cbv zeta. rewrite (add64_small (file_offset seg)) by (unfold fits; lia).
  by rewrite (proj2 (Z.ltb_lt (zlen image) _)) by lia.
Qed.

Lemma segment_writes_small image seg :
  segment_fits seg → segment_in_file image seg → zlen image < 2 ^ 63 →
  Forall (λ w, fits 63 (zlen w.2)) (segment_writes image seg).
Proof.
  intros [Ha Ho Hf He Hm Hme] Hin Hl. unfold segment_writes, segment_in_file in *.
  apply Forall_app. split; case_match eqn:Hc; to_prop; repeat constructor; simpl; try apply zlen_nonneg.
  - specialize (Hin Hc). rewrite zlen_sub_list by lia. lia.
  - rewrite zlen_replicate. lia.
Qed.

(** The loop is the sequence of all the segments' writes. *)
Lemma load_writes image segs m :
  Forall segment_fits segs → Forall (segment_in_file image) segs →
  for_each (load_segment image) segs m = store_all BootMemory (segs ≫= segment_writes image) m.
Proof.
  intros Hf Hin. revert m. induction segs as [|seg segs IH]; intros m; [done|].
  apply Forall_cons in Hf as [? ?], Hin as [? ?]. rewrite bind_cons.
  unfold store_all. rewrite for_each_app. cbn [for_each]. unfold mbind at 1, stm_bind.
  rewrite load_segment_writes by done. unfold store_all. unfold mbind at 1, stm_bind.
  destruct (for_each _ (segment_writes image seg) m) as [[[]|?|?] m1]; [|done..]. by apply IH.
Qed.

End LoadProofs.

Lemma load_writes_small image segs :
  zlen image < 2 ^ 63 → Forall segment_fits segs → Forall (segment_in_file image) segs →
  Forall (λ w, fits 63 (zlen w.2)) (segs ≫= segment_writes image).
Proof.
  intros Hl Hfits Hin. induction segs as [|seg segs IH]; [done|].
  apply Forall_cons in Hfits as [? ?], Hin as [? ?]. rewrite bind_cons. apply Forall_app.
  split; [by apply segment_writes_small|by apply IH].
Qed.

(** The loop stops at the first segment outside the file, or runs all of
    them. *)
Lemma load_segments_spec `{ByteMemoryLaws M} image segs (m : M) :
  bm_wf m → zlen image < 2 ^ 63 → Forall segment_fits segs →
  match for_each (load_segment image) segs m with
  | (Ok _, m') =>
      Forall (segment_in_file image) segs ∧
      store_all (E:=BootError) BootMemory (segs ≫= segment_writes image) m = (Ok tt, m')
  | (Err _, _) =>
      ¬ (Forall (segment_in_file image) segs ∧
         Forall (write_ok m) (segs ≫= segment_writes image))
  | (Panic _, _) => False
  end.
Proof.
  intros Hwf Hl Hfits.
  destruct (decide (Forall (segment_in_file image) segs)) as [Hin|Hout].
  - pose proof (load_writes_small image segs Hl Hfits Hin) as Hsmall.
    rewrite load_writes by done.
    pose proof (store_all_spec (E:=BootError) BootMemory _ m Hwf Hsmall) as Hs.
    destruct (store_all _ _ m) as [[[]|?|?] m']; [done| |done]. by intros [_ ?].
  - revert m Hwf Hout. induction segs as [|seg segs IH]; intros m Hwf Hout; [done|].
    apply Forall_cons in Hfits as [Hf Hfs]. cbn [for_each]. unfold mbind, stm_bind.
    destruct (decide (segment_in_file image seg)) as [Hin|Hn];
      [|rewrite load_segment_outside by done; by intros [Hall _]].
    rewrite load_segment_writes by done.
    pose proof (store_all_spec (E:=BootError) BootMemory _ m Hwf
      (segment_writes_small image seg Hf Hin Hl)) as Hs.
    destruct (store_all _ (segment_writes image seg) m) as [[[]|?|?] m1]; [|by intros [Hall _]|done].
    destruct Hs as (Hwf1 & _).
    assert (Hout' : ¬ Forall (segment_in_file image) segs) by (intros ?; apply Hout; by constructor).
    specialize (IH Hfs m1 Hwf1 Hout').
    destruct (for_each _ segs m1) as [[[]|?|?] m2]; [by destruct IH|by intros [Hall _]|done].
Qed.

(** Segments that do not overlap in guest memory. *)
Definition segment_extent (seg : LoadSegment) : Z := Z.max (file_size seg) (mem_size seg).
Definition segments_disjoint (s s' : LoadSegment) : Prop :=
  guest_addr s + segment_extent s ≤ guest_addr s' ∨ guest_addr s' + segment_extent s' ≤ guest_addr s.

Lemma segment_writes_extent image seg w :
  segment_fits seg → segment_in_file image seg → w ∈ segment_writes image seg →
  guest_addr seg ≤ w.1 ∧ w.1 + zlen w.2 ≤ guest_addr seg + segment_extent seg.
Proof.
  intros [Ha Ho Hf He Hm Hme] Hin. unfold segment_writes, segment_extent, segment_in_file in *.
  intros [Hw|Hw]%elem_of_app; case_match eqn:Hc; to_prop; apply list_elem_of_singleton in Hw || by apply not_elem_of_nil in Hw.
  - subst. simpl. specialize (Hin Hc). rewrite zlen_sub_list by lia. lia.
  - subst. simpl. rewrite zlen_replicate. lia.
Qed.

(** A write of a segment, none of whose later writes overlaps it, reads back. *)
Lemma load_read_back `{ByteMemoryLaws M} image segs1 seg segs2 wa w wb (m m' : M) :
  bm_wf m → zlen image < 2 ^ 63 →
  Forall segment_fits (segs1 ++ seg :: segs2) →
  Forall (segment_in_file image) (segs1 ++ seg :: segs2) →
  Forall (segments_disjoint seg) segs2 →
  segment_writes image seg = wa ++ w :: wb →
  Forall (λ w', w.1 + zlen w.2 ≤ w'.1) wb →
  store_all (E:=BootError) BootMemory ((segs1 ++ seg :: segs2) ≫= segment_writes image) m = (Ok tt, m') →
  bm_read m' w.1 (zlen w.2) = Ok w.2.
Proof.
  intros Hwf Hl Hfits Hin Hd Hw Hwb Hs.
  pose proof (load_writes_small image _ Hl Hfits Hin) as Hsmall.
  apply Forall_app in Hfits as [_ [Hf Hfs]%Forall_cons], Hin as [_ [Hi Hins]%Forall_cons].
  assert (Hext : w ∈ segment_writes image seg) by (rewrite Hw; set_solver).
  apply segment_writes_extent in Hext; [|done..].
  rewrite bind_app, bind_cons, Hw in Hs, Hsmall.
  replace ((segs1 ≫= segment_writes image) ++ (wa ++ w :: wb) ++ (segs2 ≫= segment_writes image))
    with (((segs1 ≫= segment_writes image) ++ wa) ++ w :: (wb ++ (segs2 ≫= segment_writes image)))
    in Hs, Hsmall by (by rewrite <- !app_assoc).
  eapply (store_all_read_last BootMemory _ w); [exact Hwf|exact Hsmall| |exact Hs].
  apply Forall_app. split; [eapply Forall_impl; [exact Hwb|]; simpl; lia|].
  apply Forall_forall. intros w' (seg' & Hw' & Hseg')%list_elem_of_bind.
  rewrite Forall_forall in Hd, Hfs, Hins.
  pose proof (segment_writes_extent image seg' w' (Hfs _ Hseg') (Hins _ Hseg') Hw').
  pose proof (Hd _ Hseg') as Hdis. unfold segments_disjoint in Hdis. lia.
Qed.

(** What a loaded segment reads as. *)
Lemma loaded_segment `{ByteMemoryLaws M} image segs1 seg segs2 (m m' : M) :
  bm_wf m → zlen image < 2 ^ 63 →
  Forall segment_fits (segs1 ++ seg :: segs2) →
  Forall (segment_in_file image) (segs1 ++ seg :: segs2) →
  Forall (segments_disjoint seg) segs2 →
  store_all (E:=BootError) BootMemory ((segs1 ++ seg :: segs2) ≫= segment_writes image) m = (Ok tt, m') →
  (0 < file_size seg →
     bm_read m' (guest_addr seg) (file_size seg) =
       Ok (sub_list (file_offset seg) (file_size seg) image)) ∧
  (file_size seg < mem_size seg →
     bm_read m' (guest_addr seg + file_size seg) (mem_size seg - file_size seg) =
       Ok (replicate (Z.to_nat (mem_size seg - file_size seg)) x00)).
Proof.
  intros Hwf Hl Hfits Hin Hd Hs.
  pose proof (λ wa w wb, load_read_back image segs1 seg segs2 wa w wb m m' Hwf Hl Hfits Hin Hd) as Hread.
  apply Forall_app in Hfits as [_ [[] _]%Forall_cons], Hin as [_ [Hseg _]%Forall_cons].
  unfold segment_writes in Hread. split; intros Hpos.
  - rewrite (proj2 (Z.ltb_lt 0 _)) in Hread by done. specialize (Hseg Hpos).
    specialize (Hread [] _ _ eq_refl). cbn [fst snd] in Hread.
    rewrite zlen_sub_list in Hread by lia. apply Hread; [|exact Hs].
    case_match; [|done]. repeat constructor. simpl. lia.
  - rewrite (proj2 (Z.ltb_lt (file_size seg) _)) in Hread by done.
    specialize (Hread _ _ [] eq_refl). cbn [fst snd] in Hread. rewrite zlen_replicate in Hread.
    rewrite Z2Nat.id in Hread by lia. by apply Hread.
Qed.

(** The identification and type checks at the head of the parser. *)
Definition elf_ident_ok (image : list byte) : Prop :=
  64 ≤ zlen image ∧ sub_list 0 4 image = ELF_MAGIC ∧ word image 4 1 = ELFCLASS64 ∧
  word image 16 2 = ET_EXEC.

(** The program-header table has whole entries at representable offsets. *)
Definition phdrs_ok (image : list byte) : Prop :=
  48 ≤ e_phentsize image ∧ e_phoff image + e_phnum image * e_phentsize image < 2 ^ 64.

Lemma parse_headers_ok image :
  64 ≤ zlen image < 2 ^ 63 → phdrs_ok image →
  parse_program_headers image (e_phoff image) (e_phentsize image) (seqZ 0 (e_phnum image)) =
    Ok (omap (header_segment image)
             (entries_in image (e_phoff image) (e_phentsize image) (e_phnum image))).
Proof.
  intros Hl [Hsz Hw].
  pose proof (word_fits image 32 8 ltac:(lia) ltac:(lia) ltac:(lia)) as Hoff.
  pose proof (word_fits image 56 2 ltac:(lia) ltac:(lia) ltac:(lia)) as Hnum.
  fold (e_phoff image) in Hoff. fold (e_phnum image) in Hnum. unfold fits in Hoff, Hnum.
  unfold entries_in. rewrite <- (Z2Nat.id (e_phnum image)) by lia.
  apply parse_program_headers_in; lia.
Qed.

(** ** Properties *)

(** Parsing an ELF kernel whose tables have whole entries terminates
    without a panic: it is accepted exactly when it is a 64-bit executable
    with something to load; the segments are then those of the [PT_LOAD]
    headers that lie in the file, in order, loaded at the physical address
    or, where that is zero, at the virtual one; and a PVH entry point is the
    address in a [XEN_ELFNOTE_PHYS_ENTRY] note of the image. *)
Theorem elf_parse_segments image :
  zlen image < 2 ^ 63 → phdrs_ok image → sections_ok image →
  let segs := omap (header_segment image)
    (entries_in image (e_phoff image) (e_phentsize image) (e_phnum image)) in
  match ElfKernel_parse (inr image) with
  | Some (Ok k) =>
      elf_ident_ok image ∧ segments k = segs ∧ segs ≠ [] ∧ elf_image k = image ∧
      entry_point k = word image 24 8 ∧ (∀ e, pvh_entry k = Some e → pvh_note image e)
  | Some (Err _) => ¬ (elf_ident_ok image ∧ segs ≠ [])
  | Some (Panic _) | None => False
  end.
Proof.
  intros Hl Hph Hsh segs. unfold ElfKernel_parse, elf_ident_ok.
  fold (word image 4 1) (word image 16 2) (word image 32 8) (word image 54 2) (word image 56 2).
  fold (e_phoff image) (e_phentsize image) (e_phnum image).
  destruct (zlen image <? 64) eqn:Hlen; to_prop; [lia|].
  destruct (negb (bool_decide _)) eqn:Hm.
  { apply negb_true_iff, bool_decide_eq_false in Hm. by intros [(_ & ? & _) _]. }
  apply negb_false_iff, bool_decide_eq_true in Hm. cbv zeta.
  destruct (negb (word image 4 1 =? _)) eqn:Hc; to_prop; [by intros [(_ & _ & ? & _) _]|].
  destruct (negb (word image 16 2 =? _)) eqn:Ht; to_prop; [by intros [(_ & _ & _ & ?) _]|].
  rewrite parse_headers_ok by done. fold segs.
  destruct segs as [|seg segs'] eqn:Hsegs; [by intros [_ ?]|].
  destruct (find_pvh_entry_spec image ltac:(lia) Hsh) as (r & -> & Hr). by split_and!.
Qed.

(** Loading a parsed kernel: the loader succeeds exactly when every
    segment lies in the file and every range it writes is mapped, it never
    panics on representable segments, and afterwards guest memory holds at
    each segment's address its bytes of the file, followed by zeros up to its
    size in memory, unless a later segment overlaps it. *)
Theorem elf_load_segments `{ByteMemoryLaws M} k (m : M) :
  bm_wf m → zlen (elf_image k) < 2 ^ 63 → Forall segment_fits (segments k) →
  match ElfKernel_load_into_memory k m with
  | (Ok _, m') =>
      ∀ segs1 seg segs2, segments k = segs1 ++ seg :: segs2 →
        Forall (segments_disjoint seg) segs2 →
        (0 < file_size seg →
           bm_read m' (guest_addr seg) (file_size seg) =
             Ok (sub_list (file_offset seg) (file_size seg) (elf_image k))) ∧
        (file_size seg < mem_size seg →
           bm_read m' (guest_addr seg + file_size seg) (mem_size seg - file_size seg) =
             Ok (replicate (Z.to_nat (mem_size seg - file_size seg)) x00))
  | (Err _, _) =>
      ¬ (Forall (segment_in_file (elf_image k)) (segments k) ∧
         Forall (write_ok m) (segments k ≫= segment_writes (elf_image k)))
  | (Panic _, _) => False
  end.
Proof.
  intros Hwf Hl Hfits. unfold ElfKernel_load_into_memory. set (image := elf_image k) in *.
  pose proof (load_segments_spec image (segments k) m Hwf Hl Hfits) as Hs.
  destruct (for_each _ (segments k) m) as [[[]|?|?] m']; [|done..].
  destruct Hs as [Hin Hs]. intros segs1 seg segs2 Hk Hd. rewrite Hk in Hs, Hin, Hfits.
  by apply (loaded_segment image segs1 seg segs2 m).
Qed.

(** A table entry smaller than the fields read from it: the bounds check
    compares with [e_phentsize], and the slice is out of range. *)
Lemma elf_parse_short_entries_panic image :
  elf_ident_ok image → zlen image < 2 ^ 63 → 0 < e_phnum image →
  e_phoff image + e_phentsize image ≤ zlen image < e_phoff image + 4 →
  ElfKernel_parse (inr image) = Some (Panic PanicBounds).
Proof.
  intros (Hl & Hm & Hc & Ht) Hl' Hn [Hin Hshort]. unfold ElfKernel_parse.
  fold (word image 4 1) (word image 16 2) (word image 32 8) (word image 54 2) (word image 56 2).
  fold (e_phoff image) (e_phentsize image) (e_phnum image).
  pose proof (word_fits image 32 8 ltac:(lia) ltac:(lia) ltac:(lia)) as Hoff.
  pose proof (word_fits image 54 2 ltac:(lia) ltac:(lia) ltac:(lia)) as Hsz.
  fold (e_phoff image) in Hoff. fold (e_phentsize image) in Hsz. unfold fits in Hoff, Hsz.
  rewrite (proj2 (Z.ltb_ge _ _)) by lia. rewrite bool_decide_eq_true_2 by done.
  rewrite Hc, Ht. rewrite seqZ_cons by lia. cbn [parse_program_headers negb].
  unfold parse_program_header. rewrite Z.mul_0_l, (add64_small _ 0), Z.add_0_r by (unfold fits; lia).
  rewrite (add64_small _ (e_phentsize image)) by (unfold fits; lia).
  rewrite (proj2 (Z.ltb_ge (zlen image) _)) by lia.
  by rewrite (slice_short image (e_phoff image) 4) by lia.
Qed.

(** ** Witnesses *)

(** One segment of 4 file bytes and 8 bytes in memory, at 1 MiB. *)
Definition demo_elf : list byte :=
  ELF_MAGIC ++ [z2b 2] ++ replicate 11 x00 ++ le_enc 2 2 ++ replicate 6 x00 ++
  le_enc 8 0x100000 ++ le_enc 8 64 ++ replicate 14 x00 ++ le_enc 2 56 ++ le_enc 2 1 ++
  replicate 6 x00 ++
  le_enc 4 1 ++ le_enc 4 5 ++ le_enc 8 120 ++ le_enc 8 0xC0100000 ++ le_enc 8 0x100000 ++
  le_enc 8 4 ++ le_enc 8 8 ++ le_enc 8 4096 ++
  [z2b 0xfa; z2b 0xf4; z2b 0xeb; z2b 0xfd].

Definition demo_segment : LoadSegment :=
  {| guest_addr := 0x100000; file_offset := 120; file_size := 4; mem_size := 8 |}.
Definition demo_kernel : ElfKernel :=
  {| elf_image := demo_elf; entry_point := 0x100000; segments := [demo_segment];
     pvh_entry := None |}.

Lemma elf_parse_segments_witness :
  ElfKernel_parse (inr demo_elf) = Some (Ok demo_kernel) ∧ elf_ident_ok demo_elf.
Proof.
  assert (Hp : ElfKernel_parse (inr demo_elf) = Some (Ok demo_kernel)) by (vm_compute; reflexivity).
  split; [exact Hp|]. pose proof (elf_parse_segments demo_elf) as Ht.
  cbv zeta in Ht. rewrite Hp in Ht. destruct Ht as [Ht _].
  - vm_compute. reflexivity.
  - split; vm_compute; [discriminate|reflexivity].
  - left. vm_compute. reflexivity.
  - exact Ht.
Defined.

Lemma elf_load_segments_witness :
  match ElfKernel_load_into_memory demo_kernel (boot_ram 0x200000) with
  | (Ok _, m') => bm_read m' 0x100000 4 = Ok [z2b 0xfa; z2b 0xf4; z2b 0xeb; z2b 0xfd] ∧
                  bm_read m' 0x100004 4 = Ok [x00; x00; x00; x00]
  | _ => False
  end.
Proof.
  pose proof (elf_load_segments demo_kernel (boot_ram 0x200000)) as Ht.
  assert (Hok : is_ok (ElfKernel_load_into_memory demo_kernel (boot_ram 0x200000)).1 = true)
    by (vm_compute; reflexivity).
  destruct (ElfKernel_load_into_memory demo_kernel (boot_ram 0x200000)) as [[]  m'].
  - destruct (Ht (boot_ram_wf 0x200000 ltac:(lia)) ltac:(vm_compute; reflexivity)
      ltac:(repeat constructor; vm_compute; congruence) [] demo_segment [] eq_refl ltac:(constructor))
      as [Hf Hb].
    split; [apply Hf; reflexivity|apply Hb; reflexivity].
  - discriminate.
  - discriminate.
Defined.
