(* ===== verification/Initrd.v ===== *)
(** * Initial ramdisks (crates/nova-boot/src/initrd.rs)

    Building "newc" cpio archives from a directory tree, appending files to
    them, and placing one in guest memory; with a reader of the format as the
    specification the writers are proved against. *)

From S2P Require Import Prelude GuestMem BootParams.

(** ** Formatting *)

Local Abbreviation str := string_bytes.

Definition hex_digit (d : Z) : byte := z2b (if d <? 10 then 48 + d else 55 + d).

(** The [k] low hexadecimal digits of [n], most significant first. *)
Fixpoint hexn (k : nat) (n : Z) : list byte :=
  match k with
  | O => []
  | S k => hexn k (n / 16) ++ [hex_digit (n mod 16)]
  end.

(** [{:08X}]: upper-case hexadecimal, zero-padded to at least 8 digits. *)
Definition fmt_08X (n : Z) : list byte :=
  hexn (Nat.max 8 (Z.to_nat (Z.log2 n / 4 + 1))) n.

(** ** Writing entries *)

(** [(4 - (n % 4)) % 4] zero bytes. *)
Definition pad4 (n : Z) : list byte := replicate (Z.to_nat ((4 - n mod 4) mod 4)) x00.

Definition zeros8 : list byte := str "00000000".
Definition TRAILER : list byte := str "TRAILER!!!".

Definition write_cpio_entry (buf name : list byte) (mode : Z) (data : list byte) (ino : Z)
    : list byte :=
  let namesize := zlen name + 1 in
  let header := str "070701" ++ fmt_08X ino ++ fmt_08X mode ++ zeros8 ++ zeros8 ++
    str "00000001" ++ zeros8 ++ fmt_08X (zlen data) ++ zeros8 ++ zeros8 ++ zeros8 ++ zeros8 ++
    fmt_08X namesize ++ zeros8 in
  buf ++ header ++ (name ++ [x00]) ++ pad4 (110 + namesize) ++ data ++ pad4 (zlen data).

Definition inject_file (cpio path data : list byte) (mode : Z) : list byte :=
  write_cpio_entry (write_cpio_entry cpio path mode data 1) TRAILER 0 [] 0.

Definition inject_agent (initrd_data agent_binary : list byte) : list byte :=
  let filename := str "sbin/nova-agent" ++ [x00] in
  let header := str "070701" ++ zeros8 ++ str "000081ED" ++ zeros8 ++ zeros8 ++
    str "00000001" ++ zeros8 ++ fmt_08X (zlen agent_binary) ++ zeros8 ++ zeros8 ++ zeros8 ++
    zeros8 ++ fmt_08X (zlen filename) ++ zeros8 in
  let initrd_data := initrd_data ++ header in
  let header_total := 110 + zlen filename in
  let initrd_data := initrd_data ++ pad4 header_total in
  let initrd_data := initrd_data ++ filename in
  let initrd_data := initrd_data ++ agent_binary in
  let initrd_data := initrd_data ++ pad4 (zlen agent_binary) in
  let trailer_name := TRAILER ++ [x00] in
  let trailer_header := str "070701" ++ zeros8 ++ zeros8 ++ zeros8 ++ zeros8 ++
    str "00000001" ++ zeros8 ++ zeros8 ++ zeros8 ++ zeros8 ++ zeros8 ++ zeros8 ++
    fmt_08X (zlen trailer_name) ++ zeros8 in
  let initrd_data := initrd_data ++ trailer_header in
  let trailer_total := 110 + zlen trailer_name in
  let initrd_data := initrd_data ++ pad4 trailer_total in
  let initrd_data := initrd_data ++ trailer_name in
  initrd_data ++ pad4 (zlen trailer_name).

Fixpoint init_args (cmd : list (list byte)) : list byte :=
  match cmd with
  | [] => []
  | arg :: cmd => (z2b 32 :: arg) ++ init_args cmd
  end.

Definition create_init_script (cmd : list (list byte)) : list byte :=
  str "#!/bin/sh" ++ [z2b 10] ++ str "exec" ++ init_args cmd ++ [z2b 10].

(** ** Directory trees

    What [read_dir], [symlink_metadata], [read] and [read_link] report: a
    directory is a sequence of entries in an arbitrary order that may break
    off with an error. Names are taken as valid UTF-8. *)
Inductive node : Type :=
| File (perm : Z) (content : Z + list byte)
| Symlink (target : Z + list byte)
| Dir (entries : dir)
with dir : Type :=
| DNil
| DError (errno : Z)
| DCons (name : list byte) (n : node) (rest : dir).

Scheme node_ind' := Induction for node Sort Prop
  with dir_ind' := Induction for dir Sort Prop.
Combined Scheme tree_ind from node_ind', dir_ind'.

(** [Path::join] and [str::replace('\\', "/")]. *)
Definition join_path (parent name : list byte) : list byte :=
  match parent with [] => name | _ => parent ++ [z2b 47] ++ name end.
Definition unbackslash (p : list byte) : list byte :=
  (λ b, if bool_decide (b = z2b 92) then z2b 47 else b) <$> p.

(** [collect_entries]: the directory at [current] relative to the root. *)
Fixpoint collect_entries (current : list byte) (d : dir) : outcome Z (list (list byte * node)) :=
  match d with
  | DNil => Ok []
  | DError e => Err e
  | DCons name n rest =>
      let full := join_path current name in
      sub ← match n with
            | Dir d' => collect_entries full d'
            | _ => Ok []
            end;
      others ← collect_entries current rest;
      Ok (((unbackslash full, n) :: sub) ++ others)
  end.

(** [str] comparison is that of the bytes, lexicographically. *)
Fixpoint path_leb (p q : list byte) : bool :=
  match p, q with
  | [], _ => true
  | _, [] => false
  | a :: p, b :: q => (b2z a <? b2z b) || ((b2z a =? b2z b) && path_leb p q)
  end.

(** [sort_by], a stable sort. *)
Fixpoint insert_entry {A} (e : list byte * A) (l : list (list byte * A)) : list (list byte * A) :=
  match l with
  | [] => [e]
  | e' :: l' => if path_leb e.1 e'.1 then e :: l else e' :: insert_entry e l'
  end.
Fixpoint sort_entries {A} (l : list (list byte * A)) : list (list byte * A) :=
  match l with [] => [] | e :: l => insert_entry e (sort_entries l) end.

(** Modes are octal in the source: 0o100000 | (perm & 0o7777) here, and
    0o040755, 0o120777 below. *)
Definition host_file_mode (perm : Z) : Z := Z.lor 0x8000 (Z.land perm 0xFFF).

Definition from_io {A} (r : Z + A) : outcome Z A :=
  match r with inl e => Err e | inr a => Ok a end.

(** The loop of [dir_to_cpio] over the sorted entries. *)
Fixpoint write_entries (cpio : list byte) (ino : Z) (l : list (list byte * node))
    : outcome Z (list byte) :=
  match l with
  | [] => Ok cpio
  | (rel_path, n) :: l =>
      cpio' ← match n with
              | Dir _ => Ok (write_cpio_entry cpio rel_path 0x41ED [] ino)
              | Symlink target =>
                  target_bytes ← from_io target;
                  Ok (write_cpio_entry cpio rel_path 0xA1FF target_bytes ino)
              | File perm content =>
                  data ← from_io content;
                  Ok (write_cpio_entry cpio rel_path (host_file_mode perm) data ino)
              end;
      write_entries cpio' (wrap 32 (ino + 1)) l
  end.

Definition dir_to_cpio (root : dir) : outcome Z (list byte) :=
  entries ← collect_entries [] root;
  cpio ← write_entries [] 1 (sort_entries entries);
  Ok (write_cpio_entry cpio TRAILER 0 [] 0).

(** ** Placing an initrd in guest memory *)

Section Load.
Context `{ByteMemory M}.

Definition load_initrd_at (reader : Z + list byte) (m : M) (b : BootParams) (load_addr : Z)
    : outcome BootError unit * (BootParams * M) :=
  match reader with
  | inl errno => (Err (BootIo errno), (b, m))
  | inr data =>
      if 512 * 1024 * 1024 <? zlen data then (Err (InitrdTooLarge (zlen data)), (b, m)) else
      match bm_write m load_addr data with
      | Ok m' =>
          let b := set_header b "ramdisk_image" (wrap 32 load_addr) in
          (Ok tt, (set_header b "ramdisk_size" (wrap 32 (zlen data)), m'))
      | Err e => (Err (BootMemory e), (b, m))
      | Panic p => (Panic p, (b, m))
      end
  end.

Definition load_initrd (reader : Z + list byte) (m : M) (b : BootParams)
    : outcome BootError unit * (BootParams * M) := load_initrd_at reader m b INITRD_ADDR.

End Load.

(** ** Reading an archive

    The newc format (cpio(5), and init/initramfs.c of Linux): a 110-byte
    header of thirteen 8-digit fields, the NUL-terminated name padded with
    the header to a multiple of 4, the data padded to a multiple of 4. An
    entry named TRAILER!!! ends an archive. *)

Record cpio_entry : Type := { ce_name : list byte; ce_mode : Z; ce_data : list byte }.

Definition unhex_digit (b : byte) : option Z :=
  let z := b2z b in
  if (48 <=? z) && (z <=? 57) then Some (z - 48)
  else if (65 <=? z) && (z <=? 70) then Some (z - 55)
  else if (97 <=? z) && (z <=? 102) then Some (z - 87) else None.

Fixpoint unhex (acc : Z) (bs : list byte) : option Z :=
  match bs with
  | [] => Some acc
  | b :: bs => d ← unhex_digit b; unhex (acc * 16 + d) bs
  end.

(** The [k]-th 8-digit field of a header. *)
Definition cpio_field (hdr : list byte) (k : Z) : option Z := unhex 0 (sub_list (6 + 8 * k) 8 hdr).

Definition round4 (n : Z) : Z := n + (4 - n mod 4) mod 4.

Definition read_entry (bs : list byte) : option (cpio_entry * list byte) :=
  if zlen bs <? 110 then None else
  if bool_decide (sub_list 0 6 bs = str "070701") then
    mode ← cpio_field bs 1;
    filesize ← cpio_field bs 6;
    namesize ← cpio_field bs 11;
    let data_at := round4 (110 + namesize) in
    let next := data_at + round4 filesize in
    if (namesize <? 1) || (zlen bs <? next) then None else
    let name := sub_list 110 namesize bs in
    (* the terminating NUL is the last byte of the name, and its only one *)
    if bool_decide (sub_list (namesize - 1) 1 name = [x00] ∧
                    x00 ∉ take (Z.to_nat (namesize - 1)) name)
    then Some ({| ce_name := take (Z.to_nat (namesize - 1)) name; ce_mode := mode;
                  ce_data := sub_list data_at filesize bs |},
               drop (Z.to_nat next) bs)
    else None
  else None.

(** The entries up to the trailer, and what follows it. *)
Fixpoint read_archive (fuel : nat) (bs : list byte) : option (list cpio_entry * list byte) :=
  match fuel with
  | O => None
  | S fuel =>
      '(e, rest) ← read_entry bs;
      if bool_decide (ce_name e = TRAILER) then Some ([], rest) else
      '(es, rest) ← read_archive fuel rest;
      Some (e :: es, rest)
  end.

(** Concatenated archives, with zero bytes allowed between them. *)
Fixpoint skip_zeros (bs : list byte) : list byte :=
  match bs with
  | [] => []
  | b :: bs' => if bool_decide (b = x00) then skip_zeros bs' else bs
  end.
Fixpoint read_archives (fuel : nat) (bs : list byte) : option (list cpio_entry) :=
  match fuel with
  | O => None
  | S fuel =>
      match skip_zeros bs with
      | [] => Some []
      | bs =>
          '(es, rest) ← read_archive (S (length bs)) bs;
          app es <$> read_archives fuel rest
      end
  end.

(** Every entry takes bytes, so the length of the input is fuel enough. *)
Definition read_cpio (bs : list byte) : option (list cpio_entry) := read_archives (S (length bs)) bs.

Example read_demo :
  read_cpio (inject_file (inject_file [] (str "a") (str "xyz") 0x81A4) (str "init") [] 0x81ED) =
  Some [{| ce_name := str "a"; ce_mode := 0x81A4; ce_data := str "xyz" |};
        {| ce_name := str "init"; ce_mode := 0x81ED; ce_data := [] |}].
Proof. vm_compute. reflexivity. Qed.

#[local] Arguments TRAILER : simpl never.
#[local] Arguments string_bytes : simpl never.

(** ** Hexadecimal fields *)

Lemma hex_digit_unhex d : 0 ≤ d < 16 → unhex_digit (hex_digit d) = Some d.
Proof.
  intros Hd.
  assert (Hall : forallb (λ d, bool_decide (unhex_digit (hex_digit d) = Some d)) (seqZ 0 16) = true)
    by (vm_compute; reflexivity).
  rewrite List.forallb_forall in Hall.
  specialize (Hall d ltac:(apply list_elem_of_In, elem_of_seqZ; lia)).
  by apply bool_decide_eq_true in Hall.
Qed.

Lemma unhex_app acc a b : unhex acc (a ++ b) = unhex acc a ≫= λ x, unhex x b.
Proof.
  revert acc. induction a as [|c a IH]; intros acc; [done|]. simpl.
  destruct (unhex_digit c); [apply IH|done].
Qed.

Lemma unhex_hexn k n acc :
  0 ≤ n < 16 ^ Z.of_nat k → unhex acc (hexn k n) = Some (acc * 16 ^ Z.of_nat k + n).
Proof.
  revert n acc. induction k as [|k IH]; intros n acc Hn.
  - simpl in *. f_equal. lia.
  - rewrite Nat2Z.inj_succ, Z.pow_succ_r in * by lia. cbn [hexn]. rewrite unhex_app.
    rewrite IH by (split; [apply Z.div_pos; lia|apply Z.div_lt_upper_bound; lia]).
    cbn. rewrite hex_digit_unhex by (apply Z.mod_pos_bound; lia). cbn. f_equal.
    pose proof (Z.div_mod n 16 ltac:(lia)). lia.
Qed.

Lemma zlen_hexn k n : zlen (hexn k n) = Z.of_nat k.
Proof.
  revert n. induction k as [|k IH]; intros n; [done|]. cbn [hexn].
  rewrite zlen_app, IH, zlen_cons. change (zlen []) with 0. lia.
Qed.

Lemma fmt_08X_hexn n : fits 32 n → fmt_08X n = hexn 8 n.
Proof.
  intros Hn. unfold fmt_08X. f_equal.
  assert (Z.log2 n ≤ 31).
  { destruct (decide (n = 0)) as [->|]; [done|]. unfold fits in Hn.
    pose proof (Z.log2_lt_pow2 n 32 ltac:(lia)). lia. }
  assert (Z.log2 n / 4 ≤ 31 / 4) by (apply Z.div_le_mono; lia).
  change (31 / 4) with 7 in *. lia.
Qed.

Lemma unhex_fmt n : fits 32 n → unhex 0 (fmt_08X n) = Some n.
Proof. intros Hn. rewrite fmt_08X_hexn by done. by rewrite unhex_hexn. Qed.
Lemma zlen_fmt n : fits 32 n → zlen (fmt_08X n) = 8.
Proof. intros Hn. rewrite fmt_08X_hexn by done. by rewrite zlen_hexn. Qed.

(** ** Headers *)

Definition newc_header (ino mode filesize namesize : Z) : list byte :=
  str "070701" ++ fmt_08X ino ++ fmt_08X mode ++ zeros8 ++ zeros8 ++
  str "00000001" ++ zeros8 ++ fmt_08X filesize ++ zeros8 ++ zeros8 ++ zeros8 ++ zeros8 ++
  fmt_08X namesize ++ zeros8.

Lemma zlen_pad4 n : zlen (pad4 n) = (4 - n mod 4) mod 4.
Proof.
  unfold pad4. rewrite zlen_replicate, Z2Nat.id; [done|]. apply Z.mod_pos_bound. lia.
Qed.

Section Header.
Context (ino mode filesize namesize : Z).
Context (Hi : fits 32 ino) (Hm : fits 32 mode) (Hf : fits 32 filesize) (Hn : fits 32 namesize).

Local Ltac header_lia :=
  repeat first [rewrite zlen_fmt by done | progress change (zlen zeros8) with 8 |
                progress change (zlen (str "00000001")) with 8 |
                progress change (zlen (str "070701")) with 6]; lia.

Lemma zlen_newc_header : zlen (newc_header ino mode filesize namesize) = 110.
Proof using All. unfold newc_header. rewrite !zlen_app. header_lia. Qed.

Local Ltac header_skip :=
  rewrite <- ?app_assoc;
  repeat (rewrite sub_list_skip by header_lia; rewrite ?zlen_fmt by done;
          repeat first [progress change (zlen zeros8) with 8 |
                        progress change (zlen (str "00000001")) with 8 |
                        progress change (zlen (str "070701")) with 6]; eval_offset);
  rewrite sub_list_here by header_lia; by apply unhex_fmt.

Lemma newc_header_mode rest : cpio_field (newc_header ino mode filesize namesize ++ rest) 1 = Some mode.
Proof using All.
  unfold cpio_field, newc_header. change (6 + 8 * 1) with 14. header_skip.
Qed.
Lemma newc_header_filesize rest :
  cpio_field (newc_header ino mode filesize namesize ++ rest) 6 = Some filesize.
Proof using All.
  unfold cpio_field, newc_header. change (6 + 8 * 6) with 54. header_skip.
Qed.
Lemma newc_header_namesize rest :
  cpio_field (newc_header ino mode filesize namesize ++ rest) 11 = Some namesize.
Proof using All.
  unfold cpio_field, newc_header. change (6 + 8 * 11) with 94. header_skip.
Qed.
Lemma newc_header_magic rest :
  sub_list 0 6 (newc_header ino mode filesize namesize ++ rest) = str "070701".
Proof using. clear. unfold newc_header. rewrite <- app_assoc. by apply sub_list_here. Qed.

End Header.

(** ** Reading back an entry *)

Lemma round4_pad n : round4 n = n + zlen (pad4 n).
Proof. unfold round4. by rewrite zlen_pad4. Qed.

Lemma sub_list_middle {A} (x y z : list A) n : n = zlen y → sub_list (zlen x) n (x ++ y ++ z) = y.
Proof.
  intros ->. rewrite sub_list_skip by lia. rewrite Z.sub_diag. by apply sub_list_here.
Qed.

Record entry_ok (name data : list byte) (mode : Z) : Prop := {
  eo_name : zlen name + 1 < 2 ^ 32; eo_nul : x00 ∉ name;
  eo_data : zlen data < 2 ^ 32; eo_mode : fits 32 mode;
}.

Lemma write_cpio_entry_app buf name mode data ino :
  write_cpio_entry buf name mode data ino = buf ++ write_cpio_entry [] name mode data ino.
Proof. done. Qed.

Lemma read_entry_write name mode data ino rest :
  entry_ok name data mode → fits 32 ino →
  read_entry (write_cpio_entry [] name mode data ino ++ rest) =
    Some ({| ce_name := name; ce_mode := mode; ce_data := data |}, rest).
Proof.
  intros [Hn Hnul Hd Hm] Hi. pose proof (zlen_nonneg name). pose proof (zlen_nonneg data).
  unfold write_cpio_entry. fold (newc_header ino mode (zlen data) (zlen name + 1)).
  set (hdr := newc_header _ _ _ _). set (ns := zlen name + 1) in *.
  assert (Hfd : fits 32 (zlen data)) by (unfold fits; lia).
  assert (Hfn : fits 32 ns) by (unfold fits; lia).
  assert (Hhdr : zlen hdr = 110) by by apply zlen_newc_header.
  assert (Hns : zlen (name ++ [x00]) = ns) by (rewrite zlen_app; done).
  change ([] ++ ?x) with x. rewrite <- !app_assoc.
  set (tail := data ++ pad4 (zlen data) ++ rest).
  rewrite (app_assoc name [x00]).
  unfold read_entry. rewrite (proj2 (Z.ltb_ge _ _)) by (rewrite zlen_app, Hhdr;
    pose proof (zlen_nonneg ((name ++ [x00]) ++ pad4 (110 + ns) ++ tail)); lia).
  rewrite bool_decide_eq_true_2 by apply newc_header_magic.
  pose proof (newc_header_mode ino mode (zlen data) ns Hi Hm Hfd Hfn) as Hfmode.
  pose proof (newc_header_filesize ino mode (zlen data) ns Hi Hm Hfd Hfn) as Hfsize.
  pose proof (newc_header_namesize ino mode (zlen data) ns Hi Hm Hfd Hfn) as Hfns.
  fold hdr in Hfmode, Hfsize, Hfns. rewrite Hfmode, Hfsize, Hfns. cbn [mbind option_bind].
  assert (Hbody : sub_list 110 ns (hdr ++ (name ++ [x00]) ++ pad4 (110 + ns) ++ tail) = name ++ [x00]).
  { rewrite <- Hhdr. by apply sub_list_middle. }
  assert (Hat : round4 (110 + ns) = zlen (hdr ++ (name ++ [x00]) ++ pad4 (110 + ns))).
  { rewrite round4_pad, !zlen_app, Hhdr. unfold ns. change (zlen [x00]) with 1. lia. }
  assert (Hbs : hdr ++ (name ++ [x00]) ++ pad4 (110 + ns) ++ tail =
    (hdr ++ (name ++ [x00]) ++ pad4 (110 + ns)) ++ tail) by by rewrite <- !app_assoc.
  rewrite Hat, round4_pad.
  set (front := hdr ++ (name ++ [x00]) ++ pad4 (110 + ns)).
  rewrite (proj2 (Z.ltb_ge ns 1)) by lia.
  rewrite (proj2 (Z.ltb_ge (zlen _) _)) by
    (rewrite Hbs; fold front; unfold tail; rewrite !zlen_app; pose proof (zlen_nonneg rest); lia).
  replace (Z.to_nat (ns - 1)) with (length name) by (unfold ns, zlen; lia).
  cbn [orb]. rewrite bool_decide_eq_true_2.
  2:{ rewrite Hbody, take_app_length. split; [|done].
      replace (ns - 1) with (zlen name) by (unfold ns; lia).
      rewrite sub_list_skip by lia. by rewrite Z.sub_diag. }
  rewrite Hbody, Hbs, take_app_length. fold front. do 3 f_equal.
  - by apply sub_list_middle.
  - unfold tail. rewrite (app_assoc data), (app_assoc front).
    rewrite <- zlen_app, <- zlen_app. unfold zlen. by rewrite Nat2Z.id, drop_app_length.
Qed.

(** ** Reading is stable under appending *)

Lemma cpio_field_app hdr x k :
  0 ≤ k → 6 + 8 * k + 8 ≤ zlen hdr → cpio_field (hdr ++ x) k = cpio_field hdr k.
Proof. intros. unfold cpio_field. by rewrite sub_list_app_l by lia. Qed.

Lemma unhex_nonneg acc bs n : 0 ≤ acc → unhex acc bs = Some n → 0 ≤ n.
Proof.
  revert acc. induction bs as [|b bs IH]; intros acc Ha; simpl; [intros; by simplify_eq|].
  destruct (unhex_digit b) as [d|] eqn:Hd; simpl; [|done]. apply IH.
  unfold unhex_digit in Hd. repeat case_match; simplify_eq; to_prop; lia.
Qed.

Lemma round4_ge n : n ≤ round4 n.
Proof. unfold round4. pose proof (Z.mod_pos_bound (4 - n mod 4) 4 ltac:(lia)). lia. Qed.

Lemma read_entry_app bs x e rest :
  read_entry bs = Some (e, rest) →
  read_entry (bs ++ x) = Some (e, rest ++ x) ∧ (length rest < length bs)%nat.
Proof.
  unfold read_entry. destruct (zlen bs <? 110) eqn:Hl; [done|]. to_prop.
  pose proof (zlen_nonneg x).
  rewrite (proj2 (Z.ltb_ge (zlen (bs ++ x)) _)) by (rewrite zlen_app; lia).
  rewrite (sub_list_app_l 0 6) by lia. destruct (bool_decide _); [|done].
  rewrite !cpio_field_app by lia.
  destruct (cpio_field bs 1) as [mode|]; [|done]. cbn [mbind option_bind].
  destruct (cpio_field bs 6) as [fsz|] eqn:Hf; [|done]. cbn [mbind option_bind].
  destruct (cpio_field bs 11) as [nsz|] eqn:Hn; [|done]. cbn [mbind option_bind].
  apply unhex_nonneg in Hf; [|done].
  destruct (_ || _) eqn:Hnext; [done|]. to_prop.
  pose proof (round4_ge (110 + nsz)). pose proof (round4_ge fsz).
  rewrite (proj2 (Z.ltb_ge nsz 1)), (proj2 (Z.ltb_ge (zlen (bs ++ x)) _))
    by (rewrite ?zlen_app; lia). cbn [orb].
  rewrite !sub_list_app_l by lia. destruct (bool_decide _); [|done]. intros [= <- <-].
  split.
  - do 2 f_equal. rewrite drop_app_le; [done|]. unfold zlen in *. lia.
  - rewrite length_drop. unfold zlen in *. lia.
Qed.

Lemma read_archive_app f bs x es rest f' :
  read_archive f bs = Some (es, rest) → (f ≤ f')%nat →
  read_archive f' (bs ++ x) = Some (es, rest ++ x) ∧ (length rest < length bs)%nat.
Proof.
  revert bs es rest f'. induction f as [|f IH]; intros bs es rest f' Hr Hf; [done|].
  destruct f' as [|f']; [lia|]. cbn [read_archive] in *.
  destruct (read_entry bs) as [[e r]|] eqn:He; [|done]. cbn in Hr.
  destruct (read_entry_app bs x e r He) as [-> Hlen]. cbn.
  destruct (bool_decide (ce_name e = TRAILER)); [by simplify_eq|].
  destruct (read_archive f r) as [[es' r']|] eqn:Ha; [|done]. cbn in Hr. simplify_eq.
  destruct (IH _ _ _ f' Ha ltac:(lia)) as [-> ?]. cbn. split; [done|lia].
Qed.

Lemma read_archive_enough f bs es rest f' :
  read_archive f bs = Some (es, rest) → (length bs < f')%nat → read_archive f' bs = Some (es, rest).
Proof.
  revert bs es rest f'. induction f as [|f IH]; intros bs es rest f' Hr Hf; [done|].
  destruct f' as [|f']; [lia|]. cbn [read_archive] in *.
  destruct (read_entry bs) as [[e r]|] eqn:He; [|done]. cbn in *.
  destruct (read_entry_app bs [] e r He) as [_ Hlen].
  destruct (bool_decide (ce_name e = TRAILER)); [done|].
  destruct (read_archive f r) as [[es' r']|] eqn:Ha; [|done]. cbn in Hr. simplify_eq.
  by rewrite (IH _ _ _ f' Ha) by lia.
Qed.

Lemma skip_zeros_app bs x :
  skip_zeros (bs ++ x) = match skip_zeros bs with [] => skip_zeros x | r => r ++ x end.
Proof. induction bs as [|b bs IH]; [done|]. simpl. by destruct (bool_decide (b = x00)). Qed.

Lemma skip_zeros_length bs : (length (skip_zeros bs) ≤ length bs)%nat.
Proof. induction bs as [|b bs IH]; [done|]. simpl. case_match; simpl; lia. Qed.

(** One step of reading, as an equation. *)
Lemma read_archives_step f bs :
  read_archives (S f) bs =
    match skip_zeros bs with
    | [] => Some []
    | bs => '(es, rest) ← read_archive (S (length bs)) bs; app es <$> read_archives f rest
    end.
Proof. done. Qed.

Lemma read_archives_enough f bs es f' :
  read_archives f bs = Some es → (length bs < f')%nat → read_archives f' bs = Some es.
Proof.
  revert bs es f'. induction f as [|f IH]; intros bs es f' Hr Hf; [done|].
  destruct f' as [|f']; [lia|]. rewrite read_archives_step in *.
  pose proof (skip_zeros_length bs). destruct (skip_zeros bs) as [|b bs'] eqn:Hs; [done|].
  cbv zeta in *.
  destruct (read_archive _ (b :: bs')) as [[es1 rest]|] eqn:Ha; [|done]. cbn in Hr |- *.
  destruct (read_archive_app _ _ [] _ _ _ Ha (le_n _)) as [_ Hlen].
  destruct (read_archives f rest) as [es2|] eqn:Hr2; [|done]. cbn in Hr. simplify_eq.
  by rewrite (IH _ _ f' Hr2) by (cbn in *; lia).
Qed.

(** Reading what follows a readable prefix. *)
Lemma read_archives_app f bs es x :
  read_archives f bs = Some es →
  ∀ g, ∃ g', read_archives (f + g) (bs ++ x) = app es <$> read_archives g' x ∧ (g ≤ g')%nat.
Proof.
  revert bs es. induction f as [|f IH]; intros bs es Hr g; [done|].
  cbn [plus]. rewrite read_archives_step in Hr. rewrite read_archives_step, skip_zeros_app.
  destruct (skip_zeros bs) as [|b bs'] eqn:Hs.
  - simplify_eq. exists (S (f + g)). split; [|lia]. rewrite (read_archives_step (f + g) x).
    destruct (skip_zeros x) as [|c x'] eqn:Hx; [done|]. cbv zeta.
    destruct (read_archive _ (c :: x')) as [[es1 rest]|]; [|done]. cbn.
    by destruct (read_archives (f + g) rest).
  - cbv zeta in *. destruct (read_archive _ (b :: bs')) as [[es1 rest]|] eqn:Ha; [|done]. cbn in Hr.
    destruct (read_archives f rest) as [es2|] eqn:Hr2; [|done]. cbn in Hr. simplify_eq.
    destruct (read_archive_app _ _ x _ _ (S (length ((b :: bs') ++ x))) Ha) as [Ha' _];
      [rewrite length_app; simpl; lia|].
    change ((b :: bs') ++ x) with (b :: (bs' ++ x)) in *. cbv iota. rewrite Ha'. cbn.
    destruct (IH _ _ Hr2 g) as (g' & -> & Hg). exists g'. split; [|done].
    destruct (read_archives g' x); [|done]. cbn. by rewrite app_assoc.
Qed.

Lemma read_cpio_app bs es x es' :
  read_cpio bs = Some es → read_cpio x = Some es' → read_cpio (bs ++ x) = Some (es ++ es').
Proof.
  unfold read_cpio. intros Hb Hx.
  destruct (read_archives_app _ _ _ x Hb (S (length x))) as (g' & Hr & Hg).
  rewrite (read_archives_enough _ _ _ g' Hx) in Hr by lia.
  eapply read_archives_enough; [exact Hr|lia].
Qed.

Lemma read_cpio_app_None bs es x :
  read_cpio bs = Some es → (∀ g, read_archives g x = None) → read_cpio (bs ++ x) = None.
Proof.
  unfold read_cpio. intros Hb Hx.
  destruct (read_archives _ (bs ++ x)) as [es'|] eqn:He; [|done].
  destruct (read_archives_app _ _ _ x Hb (S (length (bs ++ x)))) as (g' & Hr & Hg).
  rewrite Hx in Hr. rewrite (read_archives_enough _ _ _ _ He) in Hr; [done|].
  rewrite length_app. lia.
Qed.

(** ** What the writers write *)

Definition entry_bytes (e : cpio_entry) (ino : Z) : list byte :=
  write_cpio_entry [] (ce_name e) (ce_mode e) (ce_data e) ino.

(** Entries with consecutive inode numbers, as [dir_to_cpio] counts them. *)
Fixpoint entries_bytes (ino : Z) (es : list cpio_entry) : list byte :=
  match es with
  | [] => []
  | e :: es => entry_bytes e ino ++ entries_bytes (wrap 32 (ino + 1)) es
  end.

Definition cpio_entry_ok (e : cpio_entry) : Prop :=
  entry_ok (ce_name e) (ce_data e) (ce_mode e) ∧ ce_name e ≠ TRAILER.

Lemma trailer_ok : entry_ok TRAILER [] 0.
Proof.
  split; [by vm_compute| |by vm_compute|by vm_compute].
  apply (bool_decide_unpack _). vm_compute. done.
Qed.

Definition trailer_bytes : list byte := write_cpio_entry [] TRAILER 0 [] 0.

Lemma read_entries f ino es rest :
  fits 32 ino → Forall cpio_entry_ok es → (length es < f)%nat →
  read_archive f (entries_bytes ino es ++ trailer_bytes ++ rest) = Some (es, rest).
Proof.
  revert f ino. induction es as [|[name mode data] es IH]; intros f ino Hi Hes Hf.
  - destruct f as [|f]; [lia|]. cbn [entries_bytes read_archive].
    change ([] ++ ?x) with x. unfold trailer_bytes.
    rewrite (read_entry_write TRAILER 0 [] 0 rest trailer_ok) by done.
    cbn [mbind option_bind ce_name]. by rewrite bool_decide_eq_true_2.
  - destruct f as [|f]; [cbn in Hf; lia|]. cbn in Hf.
    apply Forall_cons in Hes as [[Hok Hname] Hes].
    cbn [entries_bytes read_archive]. unfold entry_bytes. rewrite <- app_assoc.
    rewrite read_entry_write by done. cbn [mbind option_bind ce_name ce_mode ce_data] in *.
    rewrite bool_decide_eq_false_2 by done.
    rewrite IH; [done|apply wrap_fits; lia|done|lia].
Qed.

(** An archive written entry by entry starts with the magic, not with a zero. *)
Lemma entries_trailer_head ino es rest :
  ∃ b tl, entries_bytes ino es ++ trailer_bytes ++ rest = b :: tl ∧ b ≠ x00.
Proof.
  destruct es as [|e es]; unfold trailer_bytes, write_cpio_entry;
    cbn [entries_bytes]; [|unfold entry_bytes, write_cpio_entry]; by do 2 eexists.
Qed.

Lemma entry_bytes_pos e ino : (1 ≤ length (entry_bytes e ino))%nat.
Proof.
  unfold entry_bytes, write_cpio_entry. rewrite !length_app.
  change (length (str "070701")) with 6%nat. lia.
Qed.

Lemma entries_bytes_length ino es : (length es ≤ length (entries_bytes ino es))%nat.
Proof.
  revert ino. induction es as [|e es IH]; intros ino; [done|]. cbn [entries_bytes length].
  rewrite length_app. pose proof (entry_bytes_pos e ino). specialize (IH (wrap 32 (ino + 1))). lia.
Qed.

Lemma read_written ino es :
  fits 32 ino → Forall cpio_entry_ok es →
  read_cpio (entries_bytes ino es ++ trailer_bytes) = Some es.
Proof.
  intros Hi Hes. unfold read_cpio.
  pose proof (entries_trailer_head ino es []) as (b & tl & Hhd & Hb).
  rewrite app_nil_r in Hhd. rewrite Hhd, read_archives_step. cbn [skip_zeros].
  rewrite bool_decide_eq_false_2 by done. cbv iota. rewrite <- Hhd.
  pose proof (read_entries (S (length (entries_bytes ino es ++ trailer_bytes))) ino es [] Hi Hes) as Hr.
  rewrite app_nil_r in Hr. rewrite Hr
    by (rewrite length_app; pose proof (entries_bytes_length ino es); lia).
  rewrite Hhd. cbn. by rewrite app_nil_r.
Qed.

(** What an entry of the tree becomes in the archive; [None] where it cannot
    be read. *)
Definition node_entry (p : list byte) (n : node) : option cpio_entry :=
  match n with
  | Dir _ => Some {| ce_name := p; ce_mode := 0x41ED; ce_data := [] |}
  | Symlink (inr target) => Some {| ce_name := p; ce_mode := 0xA1FF; ce_data := target |}
  | File perm (inr data) =>
      Some {| ce_name := p; ce_mode := host_file_mode perm; ce_data := data |}
  | _ => None
  end.

Lemma write_entries_spec cpio ino l :
  match write_entries cpio ino l with
  | Ok out => ∃ es, Forall2 (λ x e, node_entry x.1 x.2 = Some e) l es ∧
                    out = cpio ++ entries_bytes ino es
  | Err _ => ∃ x, x ∈ l ∧ node_entry x.1 x.2 = None
  | Panic _ => False
  end.
Proof.
  revert cpio ino. induction l as [|[p n] l IH]; intros cpio ino.
  { exists []. cbn. by rewrite app_nil_r. }
  cbn [write_entries].
  destruct (node_entry p n) as [e|] eqn:He.
  - assert (Hstep : ∃ r : outcome Z (list byte), r = Ok (cpio ++ entry_bytes e ino) ∧
      match n with
      | Dir _ => Ok (write_cpio_entry cpio p 0x41ED [] ino)
      | Symlink target => from_io target ≫= λ t, Ok (write_cpio_entry cpio p 0xA1FF t ino)
      | File perm content => from_io content ≫= λ d,
          Ok (write_cpio_entry cpio p (host_file_mode perm) d ino)
      end = r).
    { eexists. split; [done|]. unfold node_entry in He. repeat case_match; by simplify_eq. }
    destruct Hstep as (r & -> & Hstep). rewrite Hstep. cbn [mbind outcome_bind].
    specialize (IH (cpio ++ entry_bytes e ino) (wrap 32 (ino + 1))).
    destruct (write_entries _ _ l) as [out|err|pp].
    + destruct IH as (es & Hes & ->). exists (e :: es). split; [by constructor|].
      cbn [entries_bytes]. by rewrite app_assoc.
    + destruct IH as (x & Hx & Hn). exists x. split; [by right|done].
    + done.
  - unfold node_entry in He. repeat case_match; simplify_eq; cbn;
      eexists; (split; [by left|done]).
Qed.

(** ** The order of paths *)

Definition path_le (p q : list byte) : Prop := path_leb p q = true.

Lemma path_le_total p q : path_le p q ∨ path_le q p.
Proof.
  unfold path_le. revert q. induction p as [|a p IH]; intros [|b q]; cbn; [by left..|by right|].
  destruct (IH q) as [->| ->];
    destruct (b2z a <? b2z b) eqn:H1, (b2z b <? b2z a) eqn:H2; cbn; auto; to_prop;
    rewrite ?andb_true_r; assert (b2z a = b2z b) as Heq by lia; rewrite Heq, Z.eqb_refl; auto.
Qed.

Lemma path_le_trans p q r : path_le p q → path_le q r → path_le p r.
Proof.
  unfold path_le. revert q r. induction p as [|a p IH]; intros [|b q] [|c r]; cbn; try done.
  rewrite !orb_true_iff, !andb_true_iff, !Z.ltb_lt, !Z.eqb_eq.
  intros [?|[? Hpq]] [?|[? Hqr]]; [left; lia..|]. right. split; [lia|]. by eapply IH.
Qed.

(** A path extending another is not before it. *)
Lemma path_le_extends p c : c ≠ [] → ¬ path_le (p ++ c) p.
Proof.
  unfold path_le. intros Hc. induction p as [|a p IH]; cbn.
  - by destruct c.
  - by rewrite Z.ltb_irrefl, Z.eqb_refl.
Qed.

Section Sorting.
Context {A : Type}.
Implicit Types (l : list (list byte * A)).

Definition entry_le (x y : list byte * A) : Prop := path_le x.1 y.1.

Lemma insert_entry_perm x l : insert_entry x l ≡ₚ x :: l.
Proof.
  induction l as [|y l IH]; [done|]. cbn. case_match; [done|]. rewrite IH. by apply perm_swap.
Qed.

Lemma sort_entries_perm l : sort_entries l ≡ₚ l.
Proof. induction l as [|x l IH]; [done|]. cbn. rewrite insert_entry_perm. by constructor. Qed.

Lemma insert_entry_sorted x l : StronglySorted entry_le l → StronglySorted entry_le (insert_entry x l).
Proof.
  induction 1 as [|y l Hl IH Hall]; [by repeat constructor|]. cbn.
  destruct (path_leb x.1 y.1) eqn:Hxy.
  - constructor; [by constructor|]. constructor; [done|].
    eapply Forall_impl; [exact Hall|]. intros z. by apply path_le_trans.
  - constructor; [done|]. rewrite insert_entry_perm. constructor; [|done].
    unfold entry_le. destruct (path_le_total x.1 y.1) as [Hle|]; [|done].
    unfold path_le in Hle. congruence.
Qed.

Lemma sort_entries_sorted l : StronglySorted entry_le (sort_entries l).
Proof. induction l; [constructor|]. by apply insert_entry_sorted. Qed.

End Sorting.

(** ** Directory trees *)

(** The paths of a tree with their nodes: each directory followed by what is
    under it. *)
Fixpoint dir_files (current : list byte) (d : dir) : list (list byte * node) :=
  match d with
  | DCons name n rest =>
      let p := join_path current name in
      (p, n) :: ((match n with Dir d' => dir_files p d' | _ => [] end) ++ dir_files current rest)
  | _ => []
  end.

(** [read_dir] lists every directory of the tree to its end. *)
Fixpoint listable (d : dir) : Prop :=
  match d with
  | DNil => True
  | DError _ => False
  | DCons _ n rest => match n with Dir d' => listable d' | _ => True end ∧ listable rest
  end.

Definition tree_readable (root : dir) : Prop :=
  listable root ∧ Forall (λ x, node_entry x.1 x.2 ≠ None) (dir_files [] root).

(** Paths without backslashes or NULs, other than TRAILER!!! itself, and
    sizes within the 32-bit fields of the format. *)
Definition file_ok (x : list byte * node) : Prop :=
  (z2b 92 ∉ x.1) ∧ ∀ e, node_entry x.1 x.2 = Some e → cpio_entry_ok e.
Definition tree_ok (root : dir) : Prop := Forall file_ok (dir_files [] root).

Lemma unbackslash_id p : z2b 92 ∉ p → unbackslash p = p.
Proof.
  intros Hp. unfold unbackslash. induction p as [|b p IH]; [done|]. cbn.
  apply not_elem_of_cons in Hp as [Hb Hp].
  rewrite bool_decide_eq_false_2 by (by intros ->). by rewrite IH.
Qed.

Lemma collect_entries_spec :
  (∀ n, ∀ d, n = Dir d → ∀ current, match collect_entries current d with
     | Ok l => l = (λ x, (unbackslash x.1, x.2)) <$> dir_files current d
     | Err _ => ¬ listable d | Panic _ => False end) ∧
  (∀ d, ∀ current, match collect_entries current d with
     | Ok l => l = (λ x, (unbackslash x.1, x.2)) <$> dir_files current d
     | Err _ => ¬ listable d | Panic _ => False end).
Proof.
  apply tree_ind; try done.
  - intros d IH d' [= <-]. exact IH.
  - intros e current. cbn. tauto.
  - intros name n IHn rest IHr current. cbn [collect_entries dir_files listable].
    specialize (IHr current). set (p := join_path current name).
    assert (Hsub : match match n with Dir d' => collect_entries p d' | _ => Ok [] end with
      | Ok l => l = (λ x, (unbackslash x.1, x.2)) <$>
                    match n with Dir d' => dir_files p d' | _ => [] end
      | Err _ => ¬ match n with Dir d' => listable d' | _ => True end
      | Panic _ => False end).
    { destruct n as [| |d']; [done..|]. by apply IHn. }
    destruct (match n with Dir d' => collect_entries p d' | _ => Ok [] end) as [sub|e|]; [|cbn; tauto|done].
    cbn [mbind outcome_bind].
    destruct (collect_entries current rest) as [others|e|]; [|cbn; tauto|done]. cbn.
    subst. by rewrite fmap_app.
Qed.

Lemma collect_entries_ok root :
  tree_ok root →
  match collect_entries [] root with
  | Ok l => l = dir_files [] root
  | Err _ => ¬ listable root
  | Panic _ => False
  end.
Proof.
  intros Hok. pose proof (proj2 collect_entries_spec root []) as Hs.
  destruct (collect_entries [] root) as [l| |]; [|done..]. subst.
  unfold tree_ok in Hok. induction (dir_files [] root) as [|[p n] l IH]; [done|].
  apply Forall_cons in Hok as [[Hp _] Hok]. cbn in *. rewrite unbackslash_id by done.
  f_equal. by apply IH.
Qed.

(** The names written are the sorted paths. *)
Lemma names_sorted l es :
  StronglySorted entry_le l → Forall2 (λ x e, node_entry x.1 x.2 = Some e) l es →
  StronglySorted path_le (ce_name <$> es).
Proof.
  assert (Hname : ∀ (x : list byte * node) e, node_entry x.1 x.2 = Some e → ce_name e = x.1).
  { intros [p n] e He. unfold node_entry in He. repeat case_match; by simplify_eq/=. }
  intros Hs Hes. revert Hs. induction Hes as [|x e l es Hx Hes IH]; intros Hs; [constructor|].
  apply StronglySorted_inv in Hs as [Hs Hall]. constructor; [by apply IH|].
  rewrite (Hname _ _ Hx). clear -Hname Hes Hall.
  induction Hes as [|y e' l es Hy Hes IH]; [constructor|].
  apply Forall_cons in Hall as [Hxy Hall]. constructor; [by rewrite (Hname _ _ Hy)|by apply IH].
Qed.

(** ** Properties *)

(** C16. The archive built from a directory tree holds the tree: when every
    directory and file can be read the archive is built, and a reader of the
    format gets from it exactly the files, links and directories of the tree,
    each once, with its contents, link target and mode, sorted by path, and
    with every directory before anything inside it, as extraction requires. *)
Theorem dir_to_cpio_holds_tree (root : dir) :
  tree_ok root →
  match dir_to_cpio root with
  | Ok bytes =>
      ∃ es, read_cpio bytes = Some es ∧
        Some <$> es ≡ₚ (λ x, node_entry x.1 x.2) <$> dir_files [] root ∧
        StronglySorted path_le (ce_name <$> es) ∧
        (∀ i j e e' c, es !! i = Some e → es !! j = Some e' →
           ce_name e' = ce_name e ++ z2b 47 :: c → (i < j)%nat)
  | Err _ => ¬ tree_readable root
  | Panic _ => False
  end.
Proof.
  intros Hok. unfold dir_to_cpio, tree_readable.
  pose proof (collect_entries_ok root Hok) as Hc.
  destruct (collect_entries [] root) as [l|e|]; cbn [mbind outcome_bind]; [|tauto|done]. subst l.
  set (files := dir_files [] root) in *. pose proof (sort_entries_perm files) as Hperm.
  pose proof (write_entries_spec [] 1 (sort_entries files)) as Hw.
  destruct (write_entries [] 1 (sort_entries files)) as [out|e|]; [| |done].
  2:{ destruct Hw as (x & Hx & Hn). intros [_ Hall]. rewrite Hperm in Hx.
      rewrite Forall_forall in Hall. by apply (Hall x). }
  destruct Hw as (es & Hes & ->). exists es. split_and!.
  - apply read_written; [done|].
    assert (Hok' : Forall file_ok (sort_entries files)) by (by rewrite Hperm).
    clear -Hok' Hes. induction Hes as [|x e l es Hx Hes IH]; [done|].
    apply Forall_cons in Hok' as [[_ He] Hok']. constructor; [by apply He|by apply IH].
  - rewrite <- Hperm. assert (Some <$> es = (λ x, node_entry x.1 x.2) <$> sort_entries files) as ->; [|done].
    clear -Hes. induction Hes as [|x e l es Hx Hes IH]; [done|]. cbn. by rewrite Hx, IH.
  - exact (names_sorted _ _ (sort_entries_sorted _) Hes).
  - intros i j e e' c Hi Hj Hn. apply names_sorted in Hes; [|apply sort_entries_sorted].
    destruct (decide (i < j)%nat) as [|Hij]; [done|]. exfalso.
    apply (path_le_extends (ce_name e) (z2b 47 :: c)); [done|]. rewrite <- Hn.
    destruct (decide (i = j)) as [->|].
    + simplify_eq. destruct (path_le_total (ce_name e) (ce_name e)); done.
    + apply (StronglySorted_lookup path_le (ce_name <$> es) j i);
        rewrite ?list_lookup_fmap, ?Hi, ?Hj; done || lia.
Qed.

(** A file injected into an initrd is there: appending it to any
    readable sequence of archives leaves all of them readable and adds
    exactly that file, with its path, contents and mode, at the end, where
    its version is the one that counts. *)
Theorem inject_file_appends cpio es path data mode :
  read_cpio cpio = Some es → entry_ok path data mode → path ≠ TRAILER →
  read_cpio (inject_file cpio path data mode) =
    Some (es ++ [{| ce_name := path; ce_mode := mode; ce_data := data |}]).
Proof.
  intros Hr Hok Hp. set (e := {| ce_name := path; ce_mode := mode; ce_data := data |}).
  assert (inject_file cpio path data mode = cpio ++ entries_bytes 1 [e] ++ trailer_bytes) as ->.
  { unfold inject_file. rewrite (write_cpio_entry_app (write_cpio_entry _ _ _ _ _)).
    rewrite (write_cpio_entry_app cpio). fold trailer_bytes.
    cbn [entries_bytes]. rewrite app_nil_r. by rewrite <- app_assoc. }
  apply read_cpio_app; [done|]. apply read_written; [done|]. apply Forall_singleton. by split.
Qed.

(** The bytes [inject_agent] adds: its header is followed by the padding and
    then by the name. *)
Lemma inject_agent_app initrd_data agent :
  zlen agent < 2 ^ 32 →
  ∃ rest, inject_agent initrd_data agent =
    initrd_data ++ newc_header 0 0x81ED (zlen agent) 16 ++
      ([x00; x00] ++ str "sbin/nova-agen") ++ [z2b 116; x00] ++ rest.
Proof.
  intros Ha. unfold inject_agent.
  assert (zlen (str "sbin/nova-agent" ++ [x00]) = 16) as -> by done.
  assert (pad4 (110 + 16) = [x00; x00]) as -> by (vm_compute; reflexivity).
  assert (str "sbin/nova-agent" = str "sbin/nova-agen" ++ [z2b 116]) as -> by (vm_compute; reflexivity).
  eexists. unfold newc_header.
  assert (fmt_08X 0 = zeros8) as -> by (vm_compute; reflexivity).
  assert (fmt_08X 0x81ED = str "000081ED") as -> by (vm_compute; reflexivity).
  rewrite <- !app_assoc. do 16 f_equal.
Qed.

(** An entry whose name field does not end in a NUL is refused. *)
Lemma read_entry_unterminated ino mode fsz nsz name rest :
  fits 32 ino → fits 32 mode → fits 32 fsz → fits 32 nsz → zlen name = nsz →
  sub_list (nsz - 1) 1 name ≠ [x00] →
  read_entry (newc_header ino mode fsz nsz ++ name ++ rest) = None.
Proof.
  intros Hi Hm Hf Hn Hl Hlast. pose proof (zlen_newc_header ino mode fsz nsz Hi Hm Hf Hn) as Hhdr.
  unfold read_entry. case_match; [done|]. case_match; [|done].
  rewrite newc_header_mode, newc_header_filesize, newc_header_namesize by done.
  cbn [mbind option_bind]. case_match; [done|].
  assert (Hname : sub_list 110 nsz (newc_header ino mode fsz nsz ++ name ++ rest) = name).
  { rewrite <- Hhdr. by apply sub_list_middle. }
  rewrite Hname. rewrite bool_decide_eq_false_2; [done|]. by intros [? _].
Qed.

(** The agent injected into an initrd is lost: whatever readable archives
    the initrd holds, what [inject_agent] appends is not a readable archive,
    because the alignment padding stands between the header and the name it
    sizes, so that the name read is two NULs and a truncated
    "sbin/nova-agen" without its terminator. *)
Theorem inject_agent_unreadable initrd_data es agent :
  read_cpio initrd_data = Some es → zlen agent < 2 ^ 32 →
  read_cpio (inject_agent initrd_data agent) = None.
Proof.
  intros Hr Ha. destruct (inject_agent_app initrd_data agent Ha) as [rest ->].
  eapply read_cpio_app_None; [exact Hr|]. intros [|g]; [done|].
  rewrite read_archives_step. set (hdr := newc_header _ _ _ _).
  assert (Hskip : ∀ x, skip_zeros (hdr ++ x) = hdr ++ x) by done. rewrite Hskip.
  assert (Hne : ∀ x, ∃ b tl, hdr ++ x = b :: tl) by (intros x; by do 2 eexists).
  destruct (Hne (([x00; x00] ++ str "sbin/nova-agen") ++ [z2b 116; x00] ++ rest)) as (b & tl & Heq).
  rewrite Heq. cbn [read_archive]. rewrite <- Heq. unfold hdr.
  pose proof (zlen_nonneg agent).
  rewrite read_entry_unterminated; [done|done|done|unfold fits; lia|done|done|by vm_compute].
Qed.

(** ** Witnesses *)

Definition demo_tree : dir :=
  DCons (str "init") (File 0x1ED (inr (str "run"))) (
  DCons (str "bin") (Dir (DCons (str "sh") (Symlink (inr (str "busybox"))) (
                          DCons (str "busybox") (File 0x1ED (inr [x00; z2b 7])) DNil))) DNil).

Lemma dir_to_cpio_holds_tree_witness :
  match dir_to_cpio demo_tree with
  | Ok bytes => ∃ es, read_cpio bytes = Some es ∧
      ce_name <$> es = [str "bin"; str "bin/busybox"; str "bin/sh"; str "init"] ∧
      StronglySorted path_le (ce_name <$> es)
  | _ => False
  end.
Proof.
  assert (Hok : tree_ok demo_tree).
  { unfold tree_ok, demo_tree. cbn [dir_files app join_path].
    repeat (apply Forall_cons; split); [..|by constructor];
      (split; [apply (bool_decide_unpack _); vm_compute; exact I|];
       intros e He; cbn in He; injection He as <-; split; [split|];
       first [discriminate | by vm_compute | apply (bool_decide_unpack _); vm_compute; exact I]). }
  pose proof (dir_to_cpio_holds_tree demo_tree Hok) as Ht.
  destruct (dir_to_cpio demo_tree) as [bytes|e|p] eqn:Hd.
  - destruct Ht as (es & Hr & _ & Hs & _). exists es. split; [exact Hr|]. split; [|exact Hs].
    vm_compute in Hd. injection Hd as <-. vm_compute in Hr. injection Hr as <-. reflexivity.
  - vm_compute in Hd. discriminate.
  - vm_compute in Hd. discriminate.
Defined.

Definition demo_initrd : list byte := inject_file [] (str "etc") [] 0x41ED.

Lemma inject_file_appends_witness :
  read_cpio (inject_file demo_initrd (str "init") (str "run") 0x81ED) =
    Some [{| ce_name := str "etc"; ce_mode := 0x41ED; ce_data := [] |};
          {| ce_name := str "init"; ce_mode := 0x81ED; ce_data := str "run" |}].
Proof.
  apply (inject_file_appends demo_initrd [{| ce_name := str "etc"; ce_mode := 0x41ED; ce_data := [] |}]).
  - vm_compute. reflexivity.
  - split; first [by vm_compute | apply (bool_decide_unpack _); vm_compute; exact I].
  - discriminate.
Defined.

Lemma inject_agent_unreadable_witness :
  read_cpio demo_initrd <> None /\ read_cpio (inject_agent demo_initrd (str "agent")) = None.
Proof.
  assert (Hr : read_cpio demo_initrd = Some [{| ce_name := str "etc"; ce_mode := 0x41ED; ce_data := [] |}])
    by (vm_compute; reflexivity).
  split; [rewrite Hr; discriminate|].
  apply (inject_agent_unreadable demo_initrd _ (str "agent") Hr). vm_compute. reflexivity.
Defined.
