(* ===== verification/Pool.v ===== *)
(** * The pre-warmed VM pool (crates/nova-runtime/src/pool.rs)

    The pool's critical sections are functions on [PoolInner] (what the mutex
    protects); the threads that run them (callers, and one replenisher that
    creates VMs outside the lock) interleave in the step relation
    [pool_step].  Payloads come from the caller's factory and are of any type;
    instants are numbers.  Waking order and lost wake-ups are left open: a
    thread whose wait is over may run at any time. *)

From stdpp Require Import relations.
From S2P Require Import Prelude.

(** ** Data *)

Inductive WarmStrategy : Type :=
| ColdBoot
| SnapshotRestore (snapshot_dir : string).

Record PoolVmTemplate : Type := {
  vcpus : Z; memory_mib : Z;
  kernel_path : string; initrd_path : option string; cmdline : string;
}.

Record PoolConfig : Type := {
  target_pool_size : Z;
  max_pool_size : Z;
  warm_strategy : WarmStrategy;
  max_idle_time : Z;
  replenish_interval : Z;
  vm_template : PoolVmTemplate;
}.

Definition validate (c : PoolConfig) : outcome string unit :=
  if target_pool_size c =? 0 then Err "target_pool_size must be > 0" else
  if max_pool_size c <? target_pool_size c then Err "max_pool_size must be >= target_pool_size" else
  if vcpus (vm_template c) =? 0 then Err "vcpus must be > 0" else
  if memory_mib (vm_template c) =? 0 then Err "memory_mib must be > 0" else
  Ok tt.

Record PoolStats : Type := {
  ready_count : Z;
  total_assigned : Z;
  total_created : Z;
  total_expired : Z;
  pool_misses : Z;
}.

Section Pool.
Context {P : Type} (cfg : PoolConfig).

Record WarmVm : Type := {
  vm_id : Z;
  warmed_at : Z;
  origin : WarmStrategy;
  payload : option P;
}.

(** [take_payload], for a payload of the requested type. *)
Definition take_payload (vm : WarmVm) : option P * WarmVm :=
  (payload vm, {| vm_id := vm_id vm; warmed_at := warmed_at vm;
                  origin := origin vm; payload := None |}).

Record PoolInner : Type := {
  ready : list WarmVm;
  stats : PoolStats;
  shutdown : bool;
  next_id : Z;
  target_size : Z;
}.

(** ** The critical sections *)

Definition inner_new : PoolInner :=
  {| ready := [];
     stats := {| ready_count := 0; total_assigned := 0; total_created := 0;
                 total_expired := 0; pool_misses := 0 |};
     shutdown := false;
     next_id := 1;
     target_size := target_pool_size cfg |}.

Definition with_ready (s : PoolInner) (r : list WarmVm) (st : PoolStats) : PoolInner :=
  {| ready := r; stats := st; shutdown := shutdown s;
     next_id := next_id s; target_size := target_size s |}.

(** The common body of the two acquire functions: [pop_front] and counters. *)
Definition take_ready (s : PoolInner) : option (WarmVm * PoolInner) :=
  match ready s with
  | [] => None
  | vm :: r =>
      let st := stats s in
      Some (vm, with_ready s r
        {| ready_count := zlen r; total_assigned := wrap64 (total_assigned st + 1);
           total_created := total_created st; total_expired := total_expired st;
           pool_misses := pool_misses st |})
  end.

Definition count_miss (s : PoolInner) : PoolInner :=
  let st := stats s in
  with_ready s (ready s)
    {| ready_count := ready_count st; total_assigned := total_assigned st;
       total_created := total_created st; total_expired := total_expired st;
       pool_misses := wrap64 (pool_misses st + 1) |}.

Definition acquire (s : PoolInner) : option WarmVm * PoolInner :=
  match take_ready s with
  | Some (vm, s') => (Some vm, s')
  | None => (None, count_miss s)
  end.

(** [acquire_timeout] looks once, waits without the lock, and looks again. *)
Definition acquire_wait_over (timed_out : bool) (s : PoolInner) : bool :=
  timed_out || negb (bool_decide (ready s = []) && negb (shutdown s)).

(** [release]: a full pool drops the VM. *)
Definition release (s : PoolInner) (vm : WarmVm) : PoolInner :=
  if zlen (ready s) <? max_pool_size cfg then
    let st := stats s in
    let r := ready s ++ [vm] in
    with_ready s r
      {| ready_count := zlen r; total_assigned := total_assigned st;
         total_created := total_created st; total_expired := total_expired st;
         pool_misses := pool_misses st |}
  else s.

Definition set_target_size (s : PoolInner) (n : Z) : PoolInner :=
  {| ready := ready s; stats := stats s; shutdown := shutdown s;
     next_id := next_id s; target_size := n |}.

Definition request_shutdown (s : PoolInner) : PoolInner :=
  {| ready := ready s; stats := stats s; shutdown := true;
     next_id := next_id s; target_size := target_size s |}.

(** ** The replenisher *)

(** The [wait_timeout_while] of the loop returns. *)
Definition replenish_wait_over (timed_out : bool) (s : PoolInner) : bool :=
  timed_out || negb (negb (shutdown s) && (target_size s <=? zlen (ready s))).

(** [now.duration_since(vm.warmed_at) < config.max_idle_time]; the difference
    saturates at zero. *)
Definition is_fresh (now : Z) (vm : WarmVm) : bool :=
  Z.max 0 (now - warmed_at vm) <? max_idle_time cfg.

Fixpoint alloc_ids (n : nat) (next : Z) : list Z * Z :=
  match n with
  | O => ([], next)
  | S n => let '(ids, next') := alloc_ids n (wrap64 (next + 1)) in (next :: ids, next')
  end.

(** The first critical section: expire idle VMs, allocate the ids to fill. *)
Definition replenish_begin (now : Z) (s : PoolInner) : list Z * PoolInner :=
  let kept := List.filter (is_fresh now) (ready s) in
  let expired := zlen (ready s) - zlen kept in
  let target := Z.min (target_size s) (max_pool_size cfg) in
  let needed := Z.max 0 (target - zlen kept) in
  let '(ids, next) := alloc_ids (Z.to_nat needed) (next_id s) in
  let st := stats s in
  (ids,
   {| ready := kept;
      stats := {| ready_count := zlen kept; total_assigned := total_assigned st;
                  total_created := total_created st;
                  total_expired := wrap64 (total_expired st + expired);
                  pool_misses := pool_misses st |};
      shutdown := shutdown s; next_id := next; target_size := target_size s |}).

(** VM creation outside the lock, one factory call and one clock reading per
    id; [made] is what those calls returned. *)
Definition make_vm (id : Z) (made : Z * option P) : WarmVm :=
  {| vm_id := id; warmed_at := made.1; origin := warm_strategy cfg; payload := made.2 |}.
Definition make_vms (ids : list Z) (made : list (Z * option P)) : list WarmVm :=
  zip_with make_vm ids made.

Fixpoint push_all (vms : list WarmVm) (s : PoolInner) : PoolInner :=
  match vms with
  | [] => s
  | vm :: vms =>
      push_all vms
        (if zlen (ready s) <? max_pool_size cfg then
           let st := stats s in
           with_ready s (ready s ++ [vm])
             {| ready_count := ready_count st; total_assigned := total_assigned st;
                total_created := wrap64 (total_created st + 1);
                total_expired := total_expired st; pool_misses := pool_misses st |}
         else s)
  end.

(** The second critical section. *)
Definition replenish_push (vms : list WarmVm) (s : PoolInner) : PoolInner :=
  match vms with
  | [] => s
  | _ =>
      let s' := push_all vms s in
      let st := stats s' in
      with_ready s' (ready s')
        {| ready_count := zlen (ready s'); total_assigned := total_assigned st;
           total_created := total_created st; total_expired := total_expired st;
           pool_misses := pool_misses st |}
  end.

(** ** Interleavings *)

(** Where the replenisher thread is: at its wait, outside the lock with the
    ids it allocated, or ended. *)
Inductive worker : Type :=
| Idle
| Creating (ids : list Z)
| Exited.

(** The pool, its replenisher, the VMs callers hold, how many callers wait in
    [acquire_timeout], and how many released VMs went back into the queue. *)
Record Pool : Type := {
  inner : PoolInner;
  replenisher : worker;
  lent : list WarmVm;
  waiting : nat;
  returned : Z;
}.

Definition pool_new : Pool :=
  {| inner := inner_new; replenisher := Idle; lent := []; waiting := 0; returned := 0 |}.

Inductive pool_step : Pool → Pool → Prop :=
| step_acquire s s' w l k n vm :
    acquire s = (vm, s') →
    pool_step {| inner := s; replenisher := w; lent := l; waiting := k; returned := n |}
      {| inner := s'; replenisher := w; lent := option_list vm ++ l; waiting := k; returned := n |}
| step_acquire_timeout_now s s' w l k n vm :
    take_ready s = Some (vm, s') →
    pool_step {| inner := s; replenisher := w; lent := l; waiting := k; returned := n |}
      {| inner := s'; replenisher := w; lent := vm :: l; waiting := k; returned := n |}
| step_acquire_timeout_wait s w l k n :
    take_ready s = None →
    pool_step {| inner := s; replenisher := w; lent := l; waiting := k; returned := n |}
      {| inner := s; replenisher := w; lent := l; waiting := S k; returned := n |}
| step_acquire_timeout_end s s' w l k n timed_out vm :
    acquire_wait_over timed_out s = true → acquire s = (vm, s') →
    pool_step {| inner := s; replenisher := w; lent := l; waiting := S k; returned := n |}
      {| inner := s'; replenisher := w; lent := option_list vm ++ l; waiting := k; returned := n |}
| step_take_payload s w l1 l2 k n vm :
    pool_step {| inner := s; replenisher := w; lent := l1 ++ vm :: l2; waiting := k; returned := n |}
      {| inner := s; replenisher := w; lent := l1 ++ (take_payload vm).2 :: l2; waiting := k;
         returned := n |}
| step_release s w l1 l2 k n vm :
    pool_step {| inner := s; replenisher := w; lent := l1 ++ vm :: l2; waiting := k; returned := n |}
      {| inner := release s vm; replenisher := w; lent := l1 ++ l2; waiting := k;
         returned := if zlen (ready s) <? max_pool_size cfg then n + 1 else n |}
| step_drop s w l1 l2 k n vm :
    pool_step {| inner := s; replenisher := w; lent := l1 ++ vm :: l2; waiting := k; returned := n |}
      {| inner := s; replenisher := w; lent := l1 ++ l2; waiting := k; returned := n |}
| step_set_target s w l k n t :
    fits 64 t →
    pool_step {| inner := s; replenisher := w; lent := l; waiting := k; returned := n |}
      {| inner := set_target_size s t; replenisher := w; lent := l; waiting := k; returned := n |}
| step_shutdown s w l k n :
    pool_step {| inner := s; replenisher := w; lent := l; waiting := k; returned := n |}
      {| inner := request_shutdown s; replenisher := w; lent := l; waiting := k; returned := n |}
| step_replenish_exit s l k n timed_out :
    replenish_wait_over timed_out s = true → shutdown s = true →
    pool_step {| inner := s; replenisher := Idle; lent := l; waiting := k; returned := n |}
      {| inner := s; replenisher := Exited; lent := l; waiting := k; returned := n |}
| step_replenish_begin s s' ids l k n timed_out now :
    replenish_wait_over timed_out s = true → shutdown s = false →
    replenish_begin now s = (ids, s') →
    pool_step {| inner := s; replenisher := Idle; lent := l; waiting := k; returned := n |}
      {| inner := s'; replenisher := Creating ids; lent := l; waiting := k; returned := n |}
| step_replenish_push s ids made l k n :
    length made = length ids →
    pool_step {| inner := s; replenisher := Creating ids; lent := l; waiting := k; returned := n |}
      {| inner := replenish_push (make_vms ids made) s; replenisher := Idle; lent := l; waiting := k;
         returned := n |}.

(** ** The invariant *)

Definition ids_of (l : list WarmVm) : list Z := vm_id <$> l.

(** The ids of the VMs that exist or are being made. *)
Definition in_flight (w : worker) : list Z :=
  match w with Creating ids => ids | _ => [] end.
Definition all_ids (p : Pool) : list Z :=
  ids_of (ready (inner p)) ++ ids_of (lent p) ++ in_flight (replenisher p).

(** Every VM put into the queue was taken out, has expired or is still there
    (the counters wrap at 2^64). *)
Definition conserved (s : PoolInner) (returned : Z) : Prop :=
  (total_created (stats s) + returned - total_assigned (stats s)
   - total_expired (stats s) - zlen (ready s)) mod 2 ^ 64 = 0.

Record inner_ok (s : PoolInner) : Prop := {
  ready_bounded : zlen (ready s) ≤ max_pool_size cfg;
  ready_counted : ready_count (stats s) = zlen (ready s);
}.

Record pool_inv (bound : Z) (p : Pool) : Prop := {
  inv_inner : inner_ok (inner p);
  inv_conserved : conserved (inner p) (returned p);
  inv_unique : NoDup (all_ids p);
  inv_issued : Forall (λ i, 1 ≤ i < next_id (inner p)) (all_ids p);
  inv_next : 1 ≤ next_id (inner p) ≤ bound;
}.

Lemma pool_inv_mono b b' p : b ≤ b' → pool_inv b p → pool_inv b' p.
Proof. intros ? [? ? ? ? []]. split; try done. lia. Qed.

(** A step that issues no id. *)
Lemma pool_inv_shrink b p p' :
  pool_inv b p → inner_ok (inner p') → conserved (inner p') (returned p') →
  next_id (inner p') = next_id (inner p) → all_ids p' ⊆+ all_ids p → pool_inv b p'.
Proof.
  intros [_ _ Hu Hi Hn] ? ? He Hs. split; try done; [| |by rewrite He].
  - apply submseteq_Permutation in Hs as [k Hk]. rewrite Hk in Hu. by apply NoDup_app in Hu as (? & _).
  - rewrite He. rewrite Forall_forall in Hi |- *. eauto using elem_of_submseteq.
Qed.

Lemma pool_new_inv : 0 ≤ max_pool_size cfg → pool_inv 1 pool_new.
Proof.
  intros. split; try done. constructor.
Qed.

Ltac conserve := unfold conserved, wrap in *; simpl in *; autorewrite with zlen in *;
  simpl in *; Z.div_mod_to_equations; lia.

Lemma take_ready_ok s vm s' n :
  take_ready s = Some (vm, s') → inner_ok s → conserved s n →
  inner_ok s' ∧ conserved s' n ∧ next_id s' = next_id s ∧ ready s = vm :: ready s'.
Proof.
  unfold take_ready. intros ? [Hl Hc] Hn. destruct (ready s) as [|v r] eqn:E; simplify_eq/=.
  split_and!; try done.
  - split; [|done]. simpl. rewrite zlen_cons in Hl. lia.
  - unfold conserved in *. rewrite E in Hn. conserve.
Qed.

Lemma acquire_ok s vm s' n :
  acquire s = (vm, s') → inner_ok s → conserved s n →
  inner_ok s' ∧ conserved s' n ∧ next_id s' = next_id s ∧ ready s = option_list vm ++ ready s'.
Proof.
  unfold acquire. intros. destruct (take_ready s) as [[v s1]|] eqn:E; simplify_eq.
  - by eapply take_ready_ok.
  - unfold take_ready in E. destruct (ready s) eqn:Er; [|done]. unfold count_miss.
    destruct H0 as [Hl Hc]. split_and!; try done.
Qed.

Lemma release_ok s vm n :
  inner_ok s → conserved s n →
  inner_ok (release s vm) ∧
  conserved (release s vm) (if zlen (ready s) <? max_pool_size cfg then n + 1 else n) ∧
  next_id (release s vm) = next_id s ∧
  (ready (release s vm) = ready s ++ [vm] ∨ ready (release s vm) = ready s).
Proof.
  intros [Hl Hc] Hn. unfold release. destruct (_ <? _) eqn:E; to_prop; [|by split_and!; [split| | |right]].
  split_and!; [split| | |]; simpl; auto.
  - rewrite zlen_app, zlen_cons, zlen_nil. lia.
  - conserve.
Qed.

Lemma alloc_ids_spec n next :
  0 ≤ next → next + Z.of_nat n < 2 ^ 64 →
  alloc_ids n next = (seqZ next (Z.of_nat n), next + Z.of_nat n).
Proof.
  revert next. induction n as [|n IH]; intros next ? ?.
  { by rewrite Z.add_0_r. }
  cbn [alloc_ids]. rewrite wrap_small by (unfold fits; lia). rewrite IH by lia.
  rewrite (seqZ_cons next) by lia. by rewrite Nat2Z.inj_succ, Z.pred_succ, <- Z.add_assoc, Z.add_1_l.
Qed.

Lemma replenish_begin_spec now s ids s' :
  0 ≤ next_id s → 0 ≤ max_pool_size cfg → next_id s + max_pool_size cfg < 2 ^ 64 →
  replenish_begin now s = (ids, s') →
  ready s' = List.filter (is_fresh now) (ready s) ∧
  ids = seqZ (next_id s) (zlen ids) ∧ next_id s' = next_id s + zlen ids ∧
  zlen ids = Z.max 0 (Z.min (target_size s) (max_pool_size cfg) - zlen (ready s')) ∧
  shutdown s' = shutdown s ∧ target_size s' = target_size s ∧
  total_created (stats s') = total_created (stats s) ∧
  (inner_ok s → inner_ok s') ∧ (∀ n, conserved s n → conserved s' n).
Proof.
  unfold replenish_begin. intros Hn Hm Hf. set (k := List.filter _ _).
  pose proof (zlen_nonneg k). pose proof (filter_length_le (is_fresh now) (ready s)) as Hk. fold k in Hk.
  rewrite alloc_ids_spec by lia. intros; simplify_eq/=.
  rewrite !Z2Nat.id by lia. rewrite !zlen_seqZ by lia.
  split_and!; try done.
  - intros [? ?]. split; simpl; [lia|done].
  - intros n Hc. conserve.
Qed.

Lemma push_all_spec vms s :
  zlen (ready s) ≤ max_pool_size cfg →
  ready (push_all vms s) = ready s ++ take (Z.to_nat (max_pool_size cfg - zlen (ready s))) vms ∧
  next_id (push_all vms s) = next_id s ∧ shutdown (push_all vms s) = shutdown s ∧
  target_size (push_all vms s) = target_size s ∧
  ∀ n, conserved s n → conserved (push_all vms s) n.
Proof.
  revert s. induction vms as [|vm vms IH]; intros s Hl.
  { by rewrite take_nil, app_nil_r. }
  cbn [push_all]. destruct (_ <? _) eqn:E; to_prop.
  - set (s1 := with_ready s _ _).
    assert (Hz : zlen (ready s1) = zlen (ready s) + 1) by (simpl; by rewrite zlen_app).
    destruct (IH s1) as (-> & -> & -> & -> & Hc); [lia|].
    replace (Z.to_nat (max_pool_size cfg - zlen (ready s)))
      with (S (Z.to_nat (max_pool_size cfg - zlen (ready s1)))) by lia.
    split_and!; try done.
    + simpl. by rewrite <- (assoc_L (++)).
    + intros n Hn. apply Hc. unfold s1. conserve.
  - destruct (IH s) as (-> & IH'); [lia|].
    replace (Z.to_nat _) with O by lia. by rewrite !take_0.
Qed.

Lemma replenish_push_spec vms s :
  inner_ok s →
  let s' := replenish_push vms s in
  ready s' = ready s ++ take (Z.to_nat (max_pool_size cfg - zlen (ready s))) vms ∧
  next_id s' = next_id s ∧ shutdown s' = shutdown s ∧ target_size s' = target_size s ∧
  inner_ok s' ∧ ∀ n, conserved s n → conserved s' n.
Proof.
  intros [Hl Hc]. destruct vms as [|vm vms].
  { simpl. rewrite take_nil, app_nil_r. by split_and!. }
  cbv zeta. unfold replenish_push.
  destruct (push_all_spec (vm :: vms) s Hl) as (Hr & Hn & Hs & Ht & Hcons).
  split_and!; try done. split; [|done]. cbn [ready with_ready].
  rewrite Hr, zlen_app. unfold zlen at 2. rewrite length_take. lia.
Qed.

Lemma ids_of_make_vms ids made :
  length made = length ids → ids_of (make_vms ids made) = ids.
Proof.
  revert made. induction ids as [|i ids IH]; intros [|m made] ?; simplify_eq/=; [done|].
  f_equal. by apply IH.
Qed.

Lemma ids_of_app l k : ids_of (l ++ k) = ids_of l ++ ids_of k.
Proof. apply fmap_app. Qed.

(** A caller's step on a pool: the queue loses [out] and gains [back], the
    lent VMs become [l']. *)
Lemma pool_inv_client b s s' w l l' k k' n n' :
  pool_inv b {| inner := s; replenisher := w; lent := l; waiting := k; returned := n |} →
  inner_ok s' → conserved s' n' → next_id s' = next_id s →
  ids_of (ready s') ++ ids_of l' ⊆+ ids_of (ready s) ++ ids_of l →
  pool_inv b {| inner := s'; replenisher := w; lent := l'; waiting := k'; returned := n' |}.
Proof.
  intros Hp Hok Hc Hn Hs. eapply pool_inv_shrink; [exact Hp|done..|].
  unfold all_ids. cbn. rewrite !(assoc_L (++)). by apply submseteq_app.
Qed.

Lemma acquire_inv b s vm s' w l k k' n :
  acquire s = (vm, s') →
  pool_inv b {| inner := s; replenisher := w; lent := l; waiting := k; returned := n |} →
  pool_inv b {| inner := s'; replenisher := w; lent := option_list vm ++ l; waiting := k';
                returned := n |}.
Proof.
  intros Ha Hp. destruct (acquire_ok s vm s' n Ha) as (? & ? & ? & Hr); [apply Hp..|].
  eapply pool_inv_client; [exact Hp|done..|]. rewrite Hr, !ids_of_app, (assoc_L (++)).
  apply submseteq_app; [|done]. by rewrite (comm (++)).
Qed.

Lemma seqZ_issued a n b (l : list Z) :
  0 ≤ n → a + n ≤ b → 1 ≤ a → NoDup l → Forall (λ i, 1 ≤ i < a) l →
  NoDup (l ++ seqZ a n) ∧ Forall (λ i, 1 ≤ i < b) (l ++ seqZ a n).
Proof.
  intros ? ? ? Hu Hl. split.
  - apply NoDup_app. split_and!; [done| |apply NoDup_seqZ].
    intros i Hi Hs. rewrite Forall_forall in Hl. apply Hl in Hi. apply elem_of_seqZ in Hs. lia.
  - apply Forall_app. split; [eapply Forall_impl; [exact Hl|]; simpl; lia|].
    apply Forall_forall. intros i Hi%elem_of_seqZ. lia.
Qed.

Lemma replenish_begin_inv b now s ids s' l k n :
  0 ≤ max_pool_size cfg → b + max_pool_size cfg < 2 ^ 64 →
  replenish_begin now s = (ids, s') →
  pool_inv b {| inner := s; replenisher := Idle; lent := l; waiting := k; returned := n |} →
  pool_inv (b + max_pool_size cfg)
    {| inner := s'; replenisher := Creating ids; lent := l; waiting := k; returned := n |}.
Proof.
  intros Hm Hb Hr [Hok Hc Hu Hi Hn]. simpl in *.
  pose proof (zlen_nonneg ids).
  destruct (replenish_begin_spec now s ids s') as (Hk & He & Hn' & Hlen & _ & _ & _ & Hok' & Hc');
    [lia|done|lia|done|].
  pose proof (zlen_nonneg (ready s')).
  assert (Hsub : ids_of (ready s') ++ ids_of l ⊆+ ids_of (ready s) ++ ids_of l ++ []).
  { rewrite app_nil_r, Hk. apply submseteq_app; [|done]. apply fmap_submseteq, filter_sub. }
  apply submseteq_Permutation in Hsub as [dropped Hp].
  unfold all_ids in Hu, Hi. cbn in Hu, Hi. rewrite Hp in Hu. rewrite Hp in Hi.
  apply NoDup_app in Hu as (Hu & _ & _). apply Forall_app in Hi as [Hi _].
  destruct (seqZ_issued (next_id s) (zlen ids) (next_id s') (ids_of (ready s') ++ ids_of l))
    as [? ?]; [lia|lia|lia|done|done|].
  split; simpl; [auto|auto|..|lia]; unfold all_ids; simpl;
    rewrite (assoc_L (++)), He; done.
Qed.

Lemma replenish_push_inv b s ids made l k n :
  length made = length ids →
  pool_inv b {| inner := s; replenisher := Creating ids; lent := l; waiting := k; returned := n |} →
  pool_inv b {| inner := replenish_push (make_vms ids made) s; replenisher := Idle; lent := l;
                waiting := k; returned := n |}.
Proof.
  intros Hl Hp. destruct (replenish_push_spec (make_vms ids made) s) as (Hr & ? & _ & _ & ? & Hc);
    [apply Hp|].
  eapply pool_inv_shrink; [exact Hp|done|apply Hc, Hp|done|]. unfold all_ids. cbn [inner lent replenisher in_flight].
  rewrite Hr, ids_of_app, app_nil_r, <- (assoc_L (++)). apply submseteq_app; [done|].
  rewrite (comm (++)). apply submseteq_app; [done|].
  rewrite <- (ids_of_make_vms ids made Hl) at 2. apply fmap_submseteq, sublist_submseteq, sublist_take.
Qed.

Lemma pool_step_inv b p p' :
  0 ≤ max_pool_size cfg → b + max_pool_size cfg < 2 ^ 64 →
  pool_step p p' → pool_inv b p → pool_inv (b + max_pool_size cfg) p'.
Proof.
  intros Hm Hb Hs Hp.
  assert (Hweak : pool_inv b p' → pool_inv (b + max_pool_size cfg) p').
  { apply pool_inv_mono. lia. }
  inversion Hs; subst.
  all: lazymatch goal with
       | |- pool_inv _ {| inner := _; replenisher := Creating _; lent := _; waiting := _; returned := _ |} => idtac
       | _ => apply Hweak
       end.
  - by eapply acquire_inv.
  - apply (acquire_inv b s (Some vm) s' w l k k n); [|done]. unfold acquire. by rewrite H.
  - eapply pool_inv_client; [exact Hp|apply Hp|apply Hp|done..].
  - by eapply acquire_inv.
  - eapply pool_inv_client; [exact Hp|apply Hp|apply Hp|done|]. by rewrite !ids_of_app.
  - destruct (release_ok s vm n) as (? & ? & ? & Hr); [apply Hp..|].
    eapply pool_inv_client; [exact Hp|done..|]. rewrite !ids_of_app. cbn.
    rewrite <- Permutation_middle, (assoc_L (++)).
    destruct Hr as [-> | ->]; [|by solve_submseteq].
    rewrite ids_of_app. simpl. by rewrite <- !(assoc_L (++)).
  - eapply pool_inv_client; [exact Hp|apply Hp|apply Hp|done|]. rewrite !ids_of_app. cbn.
    apply submseteq_app; [done|]. apply submseteq_app; [done|]. by apply submseteq_cons.
  - eapply pool_inv_client; [exact Hp|..]; try done; by destruct Hp as [[]].
  - eapply pool_inv_client; [exact Hp|..]; try done; by destruct Hp as [[]].
  - eapply pool_inv_shrink; [exact Hp|apply Hp|apply Hp|done|done].
  - by eapply replenish_begin_inv.
  - by apply replenish_push_inv.
Qed.

Lemma pool_steps_inv n p :
  0 ≤ max_pool_size cfg → 1 + Z.of_nat n * max_pool_size cfg < 2 ^ 64 →
  nsteps pool_step n pool_new p → pool_inv (1 + Z.of_nat n * max_pool_size cfg) p.
Proof.
  intros Hm. revert p. induction n as [|n IH]; intros p Hb Hs.
  { inversion Hs; subst. by apply pool_new_inv. }
  apply nsteps_inv_r in Hs as (p' & Hs & Hstep).
  replace (1 + Z.of_nat (S n) * max_pool_size cfg)
    with (1 + Z.of_nat n * max_pool_size cfg + max_pool_size cfg) in * by lia.
  eapply pool_step_inv; [done|lia|exact Hstep|]. apply IH; [lia|done].
Qed.

(** ** Properties *)

(** C17. However callers, the replenisher and [shutdown] interleave: the
    ready queue stays within [max_pool_size] and its published count is
    exact; no two VMs in the queue, lent out or being created share an id, and
    every id was issued; and the counters conserve VMs (created plus returned
    is assigned plus expired plus ready, modulo 2^64). *)
Theorem pool_invariant n p :
  0 ≤ max_pool_size cfg → 1 + Z.of_nat n * max_pool_size cfg < 2 ^ 64 →
  nsteps pool_step n pool_new p →
  zlen (ready (inner p)) ≤ max_pool_size cfg ∧
  ready_count (stats (inner p)) = zlen (ready (inner p)) ∧
  NoDup (all_ids p) ∧ Forall (λ i, 1 ≤ i < next_id (inner p)) (all_ids p) ∧
  conserved (inner p) (returned p).
Proof.
  intros Hm Hb Hs. by destruct (pool_steps_inv n p Hm Hb Hs) as [[? ?] ? ? ? ?].
Qed.

(** A cycle of the replenisher fills the pool: if no caller took a VM
    while it created the new ones, the queue then holds at least
    [min target max_pool_size] VMs, the new ones behind the old.  After it the
    replenisher waits exactly when the target does not exceed the maximum;
    otherwise its wait ends at once, and as long as no VM is idle too long the
    next cycle creates nothing, so that the thread spins. *)
Theorem replenish_fills_pool now s ids s1 s2 made :
  0 ≤ next_id s → 0 ≤ max_pool_size cfg → next_id s + max_pool_size cfg < 2 ^ 64 →
  replenish_begin now s = (ids, s1) → length made = length ids →
  inner_ok s2 → shutdown s2 = false → target_size s2 = target_size s →
  zlen (ready s1) ≤ zlen (ready s2) →
  let s3 := replenish_push (make_vms ids made) s2 in
  Z.min (target_size s) (max_pool_size cfg) ≤ zlen (ready s3) ≤ max_pool_size cfg ∧
  ready s2 `prefix_of` ready s3 ∧
  (replenish_wait_over false s3 = false ↔ target_size s ≤ max_pool_size cfg) ∧
  (max_pool_size cfg < target_size s →
   ∀ now', forallb (is_fresh now') (ready s3) = true →
     (replenish_begin now' s3).1 = [] ∧ ready (replenish_begin now' s3).2 = ready s3).
Proof.
  intros Hn Hm Hf Hb Hl Hok Hsh Ht Hle s3.
  destruct (replenish_begin_spec now s ids s1 Hn Hm Hf Hb) as (_ & _ & _ & Hlen & _).
  destruct (replenish_push_spec (make_vms ids made) s2 Hok) as (Hr & _ & Hs & Ht3 & [Hb3 _] & _).
  fold s3 in Hr, Hs, Ht3, Hb3.
  assert (Hz : zlen (make_vms ids made) = zlen ids).
  { rewrite <- (ids_of_make_vms ids made Hl) at 2. unfold zlen, ids_of. by rewrite length_fmap. }
  assert (Hz3 : Z.min (target_size s) (max_pool_size cfg) ≤ zlen (ready s3)).
  { rewrite Hr, zlen_app. unfold zlen at 2. rewrite length_take. unfold zlen in *. lia. }
  split_and!; try done.
  - rewrite Hr. by eexists.
  - unfold replenish_wait_over. rewrite Hs, Hsh, Ht3, Ht. simpl. rewrite negb_false_iff, Z.leb_le. lia.
  - intros Hmax now' Hfresh. unfold replenish_begin. rewrite Ht3, Ht, filter_all by done.
    replace (Z.to_nat _) with O by lia. done.
Qed.

End Pool.

(** ** Witnesses *)

Definition demo_cfg : PoolConfig :=
  {| target_pool_size := 1; max_pool_size := 2; warm_strategy := ColdBoot; max_idle_time := 60;
     replenish_interval := 5;
     vm_template := {| vcpus := 1; memory_mib := 128; kernel_path := "vmlinux";
                       initrd_path := None; cmdline := "" |} |}.

(** The replenisher makes a VM, a caller takes it. *)
Definition demo_vm : WarmVm (P := unit) := make_vm demo_cfg 1 (10, Some tt).
Definition demo_begun : PoolInner (P := unit) := (replenish_begin demo_cfg 0 (inner_new demo_cfg)).2.
Definition demo_full : PoolInner (P := unit) := replenish_push demo_cfg [demo_vm] demo_begun.
Definition demo_taken : Pool (P := unit) :=
  {| inner := (acquire demo_full).2; replenisher := Idle; lent := [demo_vm];
     waiting := 0; returned := 0 |}.

Lemma pool_invariant_witness :
  nsteps (pool_step demo_cfg) 3 (pool_new demo_cfg) demo_taken ∧
  total_created (stats (inner demo_taken)) = 1 ∧
  NoDup (all_ids demo_taken).
Proof.
  assert (Hs : nsteps (pool_step demo_cfg) 3 (pool_new demo_cfg) demo_taken).
  { eapply nsteps_l; [eapply (step_replenish_begin demo_cfg _ _ _ _ _ _ false 0); reflexivity|].
    eapply nsteps_l; [eapply (step_replenish_push demo_cfg _ _ [(10, Some tt)]); reflexivity|].
    eapply nsteps_l; [eapply (step_acquire demo_cfg _ _ _ _ _ _ (Some demo_vm)); reflexivity|].
    apply nsteps_O. }
  split; [exact Hs|]. split; [reflexivity|].
  apply (pool_invariant demo_cfg 3 demo_taken); [done|done|exact Hs].
Defined.

(** A target of 5 above the maximum of 2: the pool is full and the replenisher
    does not wait. *)
Definition demo_raised : PoolInner (P := unit) := set_target_size (inner_new demo_cfg) 5.

Lemma replenish_fills_pool_witness :
  let ids := (replenish_begin demo_cfg 0 demo_raised).1 in
  let s1 := (replenish_begin demo_cfg 0 demo_raised).2 in
  let s3 := replenish_push demo_cfg (make_vms demo_cfg ids [(1, None); (2, None)]) s1 in
  zlen (ready s3) = 2 ∧ replenish_wait_over false s3 = true ∧
  (replenish_begin demo_cfg 3 s3).1 = [].
Proof.
  intros ids s1 s3.
  destruct (replenish_fills_pool demo_cfg 0 demo_raised ids s1 s1 [(1, None); (2, None)])
    as (_ & _ & _ & Hspin); [done..|].
  split; [reflexivity|]. split; [reflexivity|]. by apply Hspin.
Defined.
