(* ===== verification/Wasm.v ===== *)
(** * WebAssembly execution (crates/nova-wasm)

    The engine configuration, WASI runs with captured output, the module cache
    and the pool of compiled modules, over the operations of wasmtime and the
    SHA-256 digest, which are third-party ([WasmHost]). *)

From S2P Require Import Prelude.

(** ** The third-party operations *)

Inductive ValType : Type := TI32 | TI64 | TOther.
Inductive Val : Type := VI32 (n : Z) | VI64 (n : Z) | VOther.

(** What the crate uses of wasmtime, sha2 and hex, with the text of their
    errors; a store is part of the instance made in it.  [wasi_call] runs a
    function whose standard output is captured, and returns that output;
    [func_call] takes the number of results the caller has room for. *)
Class WasmHost : Type := {
  Engine : Type;
  Mod : Type;
  Linker : Type;
  Inst : Type;
  Func : Type;
  engine_new : bool → bool → bool → bool → bool → string + Engine;
  engine_default : Engine;
  module_new : Engine → list byte → string + Mod;
  linker_new : Engine → string + Linker;
  linker_empty : Engine → Linker;
  linker_instantiate : Linker → Mod → string + Inst;
  typed_start : Inst → string + Func;
  wasi_call : Func → string + list byte;
  instance_new : Engine → Mod → string + Inst;
  get_func : Inst → string → option Func;
  func_params : Func → list ValType;
  func_results : Func → nat;
  func_call : Func → list Val → nat → string + list Val;
  sha256_hex : list byte → string;
  utf8_error_text : list byte → string;
}.

Inductive WasmError : Type :=
| Compilation (s : string)
| Instantiation (s : string)
| Execution (s : string)
| Wasi (s : string)
| CacheError (s : string).

(** [Display] of the errors. *)
Definition wasm_error_text (e : WasmError) : string :=
  match e with
  | Compilation s => "compilation error: " +:+ s
  | Instantiation s => "instantiation error: " +:+ s
  | Execution s => "execution error: " +:+ s
  | Wasi s => "WASI error: " +:+ s
  | CacheError s => "cache error: " +:+ s
  end.

(** ** The engine *)

Record WasmEngineConfig : Type := {
  optimize : bool;
  simd : bool;
  multi_memory : bool;
  component_model : bool;
  max_memory_pages : Z;
  fuel_limit : Z;
}.

Definition WasmEngineConfig_default : WasmEngineConfig :=
  {| optimize := true; simd := true; multi_memory := true; component_model := true;
     max_memory_pages := 65536; fuel_limit := 0 |}.

Section Wasm.
Context `{WasmHost}.

(** [create_engine]; [max_memory_pages] is not used. *)
Definition create_engine (c : WasmEngineConfig) : outcome WasmError Engine :=
  map_err (λ e, Compilation ("failed to create engine: " +:+ e))
    (of_sum (engine_new (optimize c) (simd c) (multi_memory c) (component_model c) (0 <? fuel_limit c))).

(** ** WASI runs with captured output *)

Definition WasiContextWithCapture_new (engine : Engine) : outcome WasmError Linker :=
  map_err (λ e, Wasi ("failed to add WASI to linker: " +:+ e)) (of_sum (linker_new engine)).

(** [WasiContextWithCapture::run]. *)
Definition capture_run (l : Linker) (m : Mod) : outcome WasmError string :=
  inst ← map_err (λ e, Instantiation ("instantiation failed: " +:+ e)) (of_sum (linker_instantiate l m));
  start ← map_err (λ e, Execution ("no _start function: " +:+ e)) (of_sum (typed_start inst));
  out ← map_err (λ e, Execution ("execution failed: " +:+ e)) (of_sum (wasi_call start));
  ok_or (Execution ("stdout not valid UTF-8: " +:+ utf8_error_text out)) (from_utf8 out).

(** ** The module cache *)

Record CompiledModule : Type := {
  cm_module : Mod;
  cm_name : string;
  cm_digest : string;
  bytecode_size : Z;
}.

Record ModuleCache : Type := {
  mc_engine : Engine;
  cache : gmap string CompiledModule;
}.

Definition ModuleCache_new (engine : Engine) : ModuleCache :=
  {| mc_engine := engine; cache := ∅ |}.

Definition compute_digest (data : list byte) : string := "sha256:" +:+ sha256_hex data.

(** [compile]: a module with the digest in the cache is returned as it is. *)
Definition compile (name : string) (bytes : list byte) : stm ModuleCache WasmError CompiledModule :=
  λ c,
    let digest := compute_digest bytes in
    match cache c !! digest with
    | Some cm => (Ok cm, c)
    | None =>
        match module_new (mc_engine c) bytes with
        | inr m =>
            let cm := {| cm_module := m; cm_name := name; cm_digest := digest;
                         bytecode_size := zlen bytes |} in
            (Ok cm, {| mc_engine := mc_engine c; cache := <[digest := cm]> (cache c) |})
        | inl e => (Err (Compilation ("failed to compile '" +:+ name +:+ "': " +:+ e)), c)
        end
    end.

Definition evict (digest : string) (c : ModuleCache) : bool * ModuleCache :=
  (bool_decide (is_Some (cache c !! digest)),
   {| mc_engine := mc_engine c; cache := delete digest (cache c) |}).

Definition clear (c : ModuleCache) : ModuleCache :=
  {| mc_engine := mc_engine c; cache := ∅ |}.

(** ** The pool of compiled modules *)

Record PoolEntry : Type := { pe_module : Mod; pe_name : string }.

Record InstancePool : Type := {
  ip_engine : Engine;
  ip_pool : list PoolEntry;
  ip_max_size : Z;
}.

Definition InstancePool_new (engine : Engine) (max : Z) : InstancePool :=
  {| ip_engine := engine; ip_pool := []; ip_max_size := max |}.

Definition set_pool (p : InstancePool) (l : list PoolEntry) : InstancePool :=
  {| ip_engine := ip_engine p; ip_pool := l; ip_max_size := ip_max_size p |}.

Definition warm (name : string) (bytes : list byte) : stm InstancePool WasmError unit := λ p,
  if ip_max_size p <=? zlen (ip_pool p) then (Err (CacheError "pool is full"), p) else
  match module_new (ip_engine p) bytes with
  | inr m => (Ok tt, set_pool p (ip_pool p ++ [{| pe_module := m; pe_name := name |}]))
  | inl e => (Err (Compilation ("failed to compile '" +:+ name +:+ "': " +:+ e)), p)
  end.

(** [take]: the first entry of the name leaves the pool. *)
Fixpoint take_entry (name : string) (l : list PoolEntry) : option (Mod * list PoolEntry) :=
  match l with
  | [] => None
  | e :: l =>
      if String.eqb (pe_name e) name then Some (pe_module e, l) else
      '(m, l') ← take_entry name l; Some (m, e :: l')
  end.

Definition take_module (name : string) (p : InstancePool) : option Mod * InstancePool :=
  match take_entry name (ip_pool p) with
  | Some (m, l) => (Some m, set_pool p l)
  | None => (None, p)
  end.

Definition return_module (name : string) (m : Mod) (p : InstancePool) : InstancePool :=
  if zlen (ip_pool p) <? ip_max_size p
  then set_pool p (ip_pool p ++ [{| pe_module := m; pe_name := name |}])
  else p.

(** ** The cache's contents *)

(** Every entry is the compilation of bytes with the digest it is filed
    under. *)
Definition cache_ok (c : ModuleCache) : Prop :=
  ∀ d cm, cache c !! d = Some cm →
    cm_digest cm = d ∧ ∃ bytes, compute_digest bytes = d ∧
      module_new (mc_engine c) bytes = inr (cm_module cm) ∧ bytecode_size cm = zlen bytes.

Lemma compile_ok name bytes c :
  cache_ok c →
  cache_ok (compile name bytes c).2 ∧ mc_engine (compile name bytes c).2 = mc_engine c ∧
  cache c ⊆ cache (compile name bytes c).2 ∧
  ∀ cm, (compile name bytes c).1 = Ok cm →
    cache (compile name bytes c).2 !! compute_digest bytes = Some cm.
Proof.
  intros Hc. unfold compile. destruct (cache c !! _) as [cm|] eqn:E.
  { split_and!; try done. intros cm' [= <-]. done. }
  destruct (module_new _ _) as [e|m] eqn:Em; [by split_and!|].
  split_and!; try done.
  - intros d cm Hd. simpl in Hd. apply lookup_insert_Some in Hd as [[<- <-]|[_ Hd]].
    + split; [done|]. by exists bytes.
    + by apply Hc.
  - by apply insert_subseteq.
  - intros cm [= <-]. simpl. by rewrite lookup_insert_eq.
Qed.

Lemma evict_ok d c : cache_ok c → cache_ok (evict d c).2.
Proof. intros Hc d' cm Hd. simpl in Hd. apply lookup_delete_Some in Hd as [_ Hd]. by apply Hc. Qed.

(** Compiling the same bytes again returns the cached module, under the first
    name, without changing the cache. *)
Lemma compile_again name name' bytes c cm c' :
  compile name bytes c = (Ok cm, c') → cache_ok c → compile name' bytes c' = (Ok cm, c').
Proof.
  intros Hcmp Hc. pose proof (compile_ok name bytes c Hc) as (_ & _ & _ & Hl).
  rewrite Hcmp in Hl. unfold compile. pose proof (Hl cm eq_refl) as Hcm. simpl in Hcm. by rewrite Hcm.
Qed.

Lemma take_entry_spec name l m l' :
  take_entry name l = Some (m, l') →
  ∃ l1 l2, l = l1 ++ {| pe_module := m; pe_name := name |} :: l2 ∧ l' = l1 ++ l2 ∧
    Forall (λ e, pe_name e ≠ name) l1.
Proof.
  revert l'. induction l as [|e l IH]; intros l' Ht; simplify_eq/=.
  destruct (String.eqb_spec (pe_name e) name) as [<-|Hne]; simplify_eq/=.
  { exists [], l'. split_and!; [by destruct e|done|constructor]. }
  destruct (take_entry name l) as [[m1 l1]|] eqn:E; simplify_eq/=.
  destruct (IH l1) as (k1 & k2 & -> & -> & Hk); [done|].
  exists (e :: k1), k2. split_and!; [done|done|by constructor].
Qed.

Lemma take_entry_none name l :
  take_entry name l = None ↔ Forall (λ e, pe_name e ≠ name) l.
Proof.
  induction l as [|e l IH]; simpl; [by split|].
  destruct (String.eqb_spec (pe_name e) name) as [<-|Hne].
  - split; [done|]. by intros [[] _]%Forall_cons.
  - rewrite Forall_cons, <- IH. destruct (take_entry name l) as [[]|]; simpl; split; naive_solver.
Qed.

Lemma pool_bounded name bytes m p :
  zlen (ip_pool p) ≤ ip_max_size p →
  zlen (ip_pool (warm name bytes p).2) ≤ ip_max_size p ∧
  zlen (ip_pool (take_module name p).2) ≤ ip_max_size p ∧
  zlen (ip_pool (return_module name m p)) ≤ ip_max_size p.
Proof.
  intros Hl. split_and!.
  - unfold warm. destruct (_ <=? _) eqn:E; [done|]. to_prop.
    destruct (module_new _ _); simpl; autorewrite with zlen; lia.
  - unfold take_module. destruct (take_entry _ _) as [[m' l']|] eqn:E; [|done].
    apply take_entry_spec in E as (l1 & l2 & E & -> & _). rewrite E in Hl. simpl.
    revert Hl. autorewrite with zlen. lia.
  - unfold return_module. destruct (_ <? _) eqn:E; [|done]. to_prop.
    simpl. autorewrite with zlen. lia.
Qed.

End Wasm.

(** ** A concrete host *)

(** A host whose modules are their bytes: the exports [answer] and [eval]
    of a non-empty module return its length. *)
Definition demo_host : WasmHost := {|
  Engine := unit; Mod := list byte; Linker := unit; Inst := list byte; Func := list byte;
  engine_new := λ _ _ _ _ _, inr tt;
  engine_default := tt; linker_empty := λ _, tt;
  module_new := λ _ bs, match bs with [] => inl "empty" | _ => inr bs end;
  linker_new := λ _, inr tt;
  linker_instantiate := λ _ m, inr m;
  typed_start := λ m, inr m;
  wasi_call := λ m, inr m;
  instance_new := λ _ m, inr m;
  get_func := λ m e, if String.eqb e "answer" || String.eqb e "eval" then Some m else None;
  func_params := λ _, [TI32];
  func_results := λ _, 1%nat;
  func_call := λ m _ _, inr [VI32 (zlen m)];
  sha256_hex := λ _, "00";
  utf8_error_text := λ _, "";
|}.
