(* ===== verification/Sandbox.v ===== *)
(** * Sandboxes and their orchestrator (crates/nova-runtime/src/sandbox)

    [Sandbox] and its transitions (lifecycle.rs), the orchestrator's map of
    sandboxes (orchestrator.rs), Wasm sandboxes included, and an abstract
    lifecycle machine that the orchestrator is proved to implement. *)

From S2P Require Import Prelude Pool Wasm.

Inductive RuntimeError : Type :=
| SandboxNotFound (id : string)
| SandboxExists (id : string)
| InvalidState (id from to : string)
| Image (s : string)
| Network (s : string)
| Io (s : string)
| Config (s : string)
| WasmFailed (s : string)
| Cache (s : string)
| Snapshot (s : string)
| PoolFailed (s : string).

(** ** The sandbox (lifecycle.rs) *)

Inductive SandboxState : Type := Created | Running | Stopped | Error.

#[export] Instance SandboxState_eq_dec : EqDecision SandboxState.
Proof. solve_decision. Defined.

Definition state_text (s : SandboxState) : string :=
  match s with
  | Created => "created" | Running => "running" | Stopped => "stopped" | Error => "error"
  end.

Inductive SandboxKind : Type :=
| Vm
| WasmModule (module_path entry_function : string).

Record NetworkConfig : Type := {
  tap_device : string; guest_ip : string; host_ip : string; mac_address : string;
}.

Record SandboxConfig : Type := {
  vcpus : Z;
  memory_mib : Z;
  kernel : string;
  rootfs : string;
  cmdline : string;
  network : option NetworkConfig;
  kind : SandboxKind;
}.

Record Sandbox : Type := {
  id : string;
  state : SandboxState;
  config : SandboxConfig;
  pid : option Z;
  created_at : Z;
  wasm_output : option string;
  wasm_result : option (list Z);
}.

Definition Sandbox_new (i : string) (c : SandboxConfig) (now : Z) : Sandbox :=
  {| id := i; state := Created; config := c; pid := None; created_at := now;
     wasm_output := None; wasm_result := None |}.

(** The fields the transitions change. *)
Definition with_state (sb : Sandbox) (st : SandboxState) (p : option Z) : Sandbox :=
  {| id := id sb; state := st; config := config sb; pid := p; created_at := created_at sb;
     wasm_output := wasm_output sb; wasm_result := wasm_result sb |}.

Definition invalid {A} (sb : Sandbox) (to : string) : stm Sandbox RuntimeError A :=
  throw (InvalidState (id sb) (state_text (state sb)) to).

(** [start] with the simulated pid; [self_pid] is [std::process::id()]. *)
Definition start (self_pid : Z) : stm Sandbox RuntimeError unit := λ sb,
  if bool_decide (state sb ≠ Created) then invalid sb "running" sb else
  (Ok tt, with_state sb Running (Some (wrap32 (self_pid + 1000)))).

Definition stop : stm Sandbox RuntimeError unit := λ sb,
  if bool_decide (state sb ≠ Running) then invalid sb "stopped" sb else
  (Ok tt, with_state sb Stopped None).

Definition start_with_vm (self_pid : Z) : stm Sandbox RuntimeError unit := λ sb,
  if bool_decide (state sb ≠ Created) then invalid sb "running" sb else
  (Ok tt, with_state sb Running (Some (wrap32 (self_pid + 2000)))).

Definition set_state (st : SandboxState) (sb : Sandbox) : Sandbox := with_state sb st (pid sb).
Definition set_error (sb : Sandbox) : Sandbox := with_state sb Error None.

Definition set_wasm_output (out : string) (sb : Sandbox) : Sandbox :=
  {| id := id sb; state := state sb; config := config sb; pid := pid sb;
     created_at := created_at sb; wasm_output := Some out; wasm_result := wasm_result sb |}.
Definition set_wasm_result (r : list Z) (sb : Sandbox) : Sandbox :=
  {| id := id sb; state := state sb; config := config sb; pid := pid sb;
     created_at := created_at sb; wasm_output := wasm_output sb; wasm_result := Some r |}.

(** ** The orchestrator (orchestrator.rs) *)

Section Orchestrator.
Context {P SC : Type} `{WasmHost}.
(** [std::fs::read] of a module file, with the error's text. *)
Context (read_file : string → string + list byte).

Record SandboxOrchestrator : Type := {
  sandboxes : gmap string Sandbox;
  pool : option (Pool.Pool (P := P));
  snapshot_cache : option SC;
}.

Definition SandboxOrchestrator_new : SandboxOrchestrator :=
  {| sandboxes := ∅; pool := None; snapshot_cache := None |}.

Definition with_caches (pc : option PoolConfig) (sc : option SC) : SandboxOrchestrator :=
  {| sandboxes := ∅; pool := pool_new <$> pc; snapshot_cache := sc |}.
Definition with_pool (pc : PoolConfig) : SandboxOrchestrator := with_caches (Some pc) None.

Definition set_sandboxes (o : SandboxOrchestrator) (m : gmap string Sandbox) : SandboxOrchestrator :=
  {| sandboxes := m; pool := pool o; snapshot_cache := snapshot_cache o |}.

Definition create (i : string) (c : SandboxConfig) (now : Z)
    : stm SandboxOrchestrator RuntimeError unit := λ o,
  match sandboxes o !! i with
  | Some _ => (Err (SandboxExists i), o)
  | None => (Ok tt, set_sandboxes o (<[i := Sandbox_new i c now]> (sandboxes o)))
  end.

(** [self.sandboxes.get_mut(id).ok_or(SandboxNotFound)?] and an operation on
    the sandbox behind the reference. *)
Definition on_sandbox {A} (i : string) (f : stm Sandbox RuntimeError A)
    : stm SandboxOrchestrator RuntimeError A := λ o,
  match sandboxes o !! i with
  | None => (Err (SandboxNotFound i), o)
  | Some sb => let '(r, sb') := f sb in (r, set_sandboxes o (<[i := sb']> (sandboxes o)))
  end.

(** Arguments and results of a called export. *)
Definition default_param (t : ValType) : Val :=
  match t with TI32 => VI32 0 | TI64 => VI64 0 | TOther => VI32 0 end.
Definition val_i64 (v : Val) : Z :=
  match v with VI32 n => n | VI64 n => n | VOther => 0 end.

Definition wasm_failed {A} (pre : string) (r : outcome string A) : outcome RuntimeError A :=
  map_err (λ e, WasmFailed (pre +:+ e)) r.

(** [run_wasm_sandbox]: the captured output of [_start], or the values of the
    named export called with zeroes. *)
Definition run_start (engine : Engine) (m : Mod) : outcome RuntimeError (option string * list Z) :=
  ctx ← wasm_failed "WASI context creation failed: "
          (map_err wasm_error_text (WasiContextWithCapture_new engine));
  out ← wasm_failed "execution failed: " (map_err wasm_error_text (capture_run ctx m));
  Ok (Some out, []).

Definition run_export (engine : Engine) (m : Mod) (entry : string)
    : outcome RuntimeError (option string * list Z) :=
  inst ← wasm_failed "instantiation failed: " (of_sum (instance_new engine m));
  func ← ok_or (WasmFailed ("export '" +:+ entry +:+ "' not found")) (get_func inst entry);
  results ← wasm_failed ("call to '" +:+ entry +:+ "' failed: ")
              (of_sum (func_call func (List.map default_param (func_params func)) (func_results func)));
  Ok (None, List.map val_i64 results).

Definition run_wasm_sandbox (path entry : string)
    : outcome RuntimeError (option string * list Z) :=
  bytes ← wasm_failed ("failed to read module '" +:+ path +:+ "': ") (of_sum (read_file path));
  engine ← wasm_failed "engine creation failed: "
             (map_err wasm_error_text (create_engine WasmEngineConfig_default));
  m ← wasm_failed "module compilation failed: " (of_sum (module_new engine bytes));
  if String.eqb entry "_start" then run_start engine m else run_export engine m entry.

(** The Wasm branch of the orchestrator's [start]. *)
Definition start_wasm (path entry : string) : stm Sandbox RuntimeError unit := λ sb,
  if bool_decide (state sb ≠ Created) then invalid sb "running" sb else
  let sb1 := set_state Running sb in
  match run_wasm_sandbox path entry with
  | Ok (out, values) =>
      let sb2 := match out with Some o => set_wasm_output o sb1 | None => sb1 end in
      let sb3 := match values with [] => sb2 | _ => set_wasm_result values sb2 end in
      (Ok tt, set_state Stopped sb3)
  | Err e => (Err e, set_error sb1)
  | Panic p => (Panic p, sb1)
  end.

Definition orch_start (self_pid : Z) (i : string) : stm SandboxOrchestrator RuntimeError unit :=
  on_sandbox i (λ sb,
    match kind (config sb) with
    | Vm => start self_pid sb
    | WasmModule path entry => start_wasm path entry sb
    end).

Definition orch_stop (i : string) : stm SandboxOrchestrator RuntimeError unit := on_sandbox i stop.

Definition destroy (i : string) : stm SandboxOrchestrator RuntimeError unit := λ o,
  match sandboxes o !! i with
  | None => (Err (SandboxNotFound i), o)
  | Some sb =>
      if bool_decide (state sb = Running) then (Err (InvalidState i "running" "destroyed"), o) else
      (Ok tt, set_sandboxes o (delete i (sandboxes o)))
  end.

Definition get (i : string) (o : SandboxOrchestrator) : outcome RuntimeError Sandbox :=
  match sandboxes o !! i with Some sb => Ok sb | None => Err (SandboxNotFound i) end.

Definition orch_list (o : SandboxOrchestrator) : list Sandbox := (map_to_list (sandboxes o)).*2.
Definition count (o : SandboxOrchestrator) : Z := Z.of_nat (size (sandboxes o)).

(** ** The abstract lifecycle *)

(** A client's requests; [now] and [self_pid] are the environment's. *)
Inductive request : Type :=
| RCreate (i : string) (c : SandboxConfig) (now : Z)
| RStart (i : string) (self_pid : Z)
| RStop (i : string)
| RDestroy (i : string).

Definition serve (r : request) : stm SandboxOrchestrator RuntimeError unit :=
  match r with
  | RCreate i c now => create i c now
  | RStart i p => orch_start p i
  | RStop i => orch_stop i
  | RDestroy i => destroy i
  end.

(** What a client sees of a sandbox, and of a result. *)
Definition view (o : SandboxOrchestrator) : gmap string (SandboxKind * SandboxState) :=
  (λ sb, (kind (config sb), state sb)) <$> sandboxes o.

Inductive reply : Type := Done | NotFound | Exists | Refused | Failed.
Definition reply_of (r : outcome RuntimeError unit) : reply :=
  match r with
  | Ok _ => Done
  | Err (SandboxNotFound _) => NotFound
  | Err (SandboxExists _) => Exists
  | Err (InvalidState _ _ _) => Refused
  | _ => Failed
  end.

(** The transition table: what each request needs and what it leads to. *)
Definition spec_step (r : request) (v : gmap string (SandboxKind * SandboxState))
    : reply * gmap string (SandboxKind * SandboxState) :=
  match r with
  | RCreate i c _ =>
      match v !! i with
      | None => (Done, <[i := (kind c, Created)]> v)
      | Some _ => (Exists, v)
      end
  | RStart i _ =>
      match v !! i with
      | None => (NotFound, v)
      | Some (Vm, Created) => (Done, <[i := (Vm, Running)]> v)
      | Some (WasmModule p e as k, Created) =>
          if is_ok (run_wasm_sandbox p e) then (Done, <[i := (k, Stopped)]> v)
          else (Failed, <[i := (k, Error)]> v)
      | Some _ => (Refused, v)
      end
  | RStop i =>
      match v !! i with
      | None => (NotFound, v)
      | Some (k, Running) => (Done, <[i := (k, Stopped)]> v)
      | Some _ => (Refused, v)
      end
  | RDestroy i =>
      match v !! i with
      | None => (NotFound, v)
      | Some (_, Running) => (Refused, v)
      | Some _ => (Done, delete i v)
      end
  end.

Fixpoint serve_all (rs : list request) (o : SandboxOrchestrator) : list reply * SandboxOrchestrator :=
  match rs with
  | [] => ([], o)
  | r :: rs =>
      let '(a, o1) := serve r o in
      let '(l, o2) := serve_all rs o1 in (reply_of a :: l, o2)
  end.

Fixpoint spec_all (rs : list request) (v : gmap string (SandboxKind * SandboxState))
    : list reply * gmap string (SandboxKind * SandboxState) :=
  match rs with
  | [] => ([], v)
  | r :: rs =>
      let '(a, v1) := spec_step r v in
      let '(l, v2) := spec_all rs v1 in (a :: l, v2)
  end.

(** ** The invariant of a sandbox *)

(** A VM has a pid exactly while it runs; a Wasm sandbox is never at rest in
    the running state, and only a stopped one has results. *)
Record sandbox_ok (i : string) (sb : Sandbox) : Prop := {
  ok_id : id sb = i;
  ok_pid : is_Some (pid sb) ↔ state sb = Running;
  ok_wasm : kind (config sb) ≠ Vm → state sb ≠ Running;
  ok_results : wasm_output sb ≠ None ∨ wasm_result sb ≠ None →
               kind (config sb) ≠ Vm ∧ state sb = Stopped;
}.

Definition orch_ok (o : SandboxOrchestrator) : Prop := map_Forall sandbox_ok (sandboxes o).

(** A Wasm run returns, or fails with a Wasm error. *)
Lemma run_wasm_sandbox_result path entry :
  (∃ r, run_wasm_sandbox path entry = Ok r) ∨ (∃ e, run_wasm_sandbox path entry = Err (WasmFailed e)).
Proof.
  unfold run_wasm_sandbox, run_start, run_export, wasm_failed, create_engine,
    WasiContextWithCapture_new, capture_run.
  destruct (read_file path); simpl; [by eauto|]. destruct (engine_new _ _ _ _ _); simpl; [by eauto|].
  destruct (module_new _ _); simpl; [by eauto|]. destruct (_ =? _)%string.
  - destruct (linker_new _); simpl; [by eauto|]. destruct (linker_instantiate _ _); simpl; [by eauto|].
    destruct (typed_start _); simpl; [by eauto|]. destruct (wasi_call _) as [|out]; simpl; [by eauto|].
    destruct (from_utf8 out); simpl; eauto.
  - destruct (instance_new _ _); simpl; [by eauto|]. destruct (get_func _ _); simpl; [|by eauto].
    destruct (func_call _ _ _); simpl; eauto.
Qed.

Lemma on_sandbox_ok {A} i (f : stm Sandbox RuntimeError A) o :
  (∀ sb, sandbox_ok i sb → sandbox_ok i (f sb).2) → orch_ok o → orch_ok (on_sandbox i f o).2.
Proof.
  intros Hf Ho. unfold on_sandbox. destruct (sandboxes o !! i) as [sb|] eqn:E; [|done].
  specialize (Hf sb (Ho _ _ E)). destruct (f sb) as [r sb'].
  by apply map_Forall_insert_2.
Qed.

Lemma start_ok i p sb : kind (config sb) = Vm → sandbox_ok i sb → sandbox_ok i (start p sb).2.
Proof.
  intros Hk [? ? ? Hr]. unfold start. destruct (bool_decide _) eqn:E; [done|]. to_prop.
  apply dec_stable in E. split; simpl; [done|by split|by rewrite Hk|].
  intros Hs. apply Hr in Hs as [_ Hs]. congruence.
Qed.

Lemma stop_ok i sb : sandbox_ok i sb → sandbox_ok i (stop sb).2.
Proof.
  intros [? ? Hw Hr]. unfold stop. destruct (bool_decide _) eqn:E; [done|]. to_prop.
  apply dec_stable in E. split; simpl; [done| |done|].
  - split; [by intros []|done].
  - intros Hs. apply Hr in Hs as [_ Hs]. congruence.
Qed.

Lemma start_wasm_ok i p e sb :
  kind (config sb) ≠ Vm → sandbox_ok i sb → sandbox_ok i (start_wasm p e sb).2.
Proof.
  intros Hk [? Hpid ? Hr]. unfold start_wasm. destruct (bool_decide _) eqn:E; [done|]. to_prop.
  apply dec_stable in E.
  assert (Hpn : pid sb = None) by (destruct (pid sb); [|done]; assert (state sb = Running) by (apply Hpid; eauto); congruence).
  assert (Hno : ¬ (wasm_output sb ≠ None ∨ wasm_result sb ≠ None)).
  { intros Hs. apply Hr in Hs as [_ Hs]. congruence. }
  destruct (run_wasm_sandbox_result p e) as [[[out vs] ->]|[er ->]].
  - destruct out, vs; split; simpl; try done; rewrite Hpn; by split; [intros []|].
  - split; simpl; try done.
Qed.

Lemma serve_ok r o : orch_ok o → orch_ok (serve r o).2.
Proof.
  intros Ho. destruct r as [i c now|i p|i|i]; simpl.
  - unfold create. destruct (sandboxes o !! i); [done|]. apply map_Forall_insert_2; [|done].
    split; simpl; [done| |done|by intros []]. split; [by intros []|done].
  - apply on_sandbox_ok; [|done]. intros sb Hsb.
    destruct (kind (config sb)) eqn:E; [by apply start_ok|].
    apply start_wasm_ok; [|done]. by rewrite E.
  - apply on_sandbox_ok; [|done]. apply stop_ok.
  - unfold destroy. destruct (sandboxes o !! i); [|done]. case_bool_decide; [done|].
    by apply map_Forall_delete.
Qed.

(** ** One request against the transition table *)

Lemma view_lookup o i : view o !! i = (λ sb, (kind (config sb), state sb)) <$> sandboxes o !! i.
Proof. apply lookup_fmap. Qed.

Lemma on_sandbox_view {A} i (f : stm Sandbox RuntimeError A) o sb :
  sandboxes o !! i = Some sb →
  (on_sandbox i f o).1 = (f sb).1 ∧
  view (on_sandbox i f o).2 = <[i := (kind (config (f sb).2), state (f sb).2)]> (view o).
Proof.
  intros E. unfold on_sandbox. rewrite E. destruct (f sb) as [r sb'].
  split; [done|]. unfold view. simpl. by rewrite fmap_insert.
Qed.

Lemma view_insert_same o i k st :
  view o !! i = Some (k, st) → <[i := (k, st)]> (view o) = view o.
Proof. apply insert_id. Qed.

Lemma serve_step r o :
  (reply_of (serve r o).1, view (serve r o).2) = spec_step r (view o).
Proof.
  destruct r as [i c now|i p|i|i]; simpl; rewrite view_lookup.
  - unfold create. destruct (sandboxes o !! i) eqn:E; simpl; [done|].
    unfold view. simpl. by rewrite fmap_insert.
  - destruct (sandboxes o !! i) as [sb|] eqn:E; simpl; [|unfold orch_start, on_sandbox; by rewrite E].
    pose proof (view_lookup o i) as Hv. rewrite E in Hv. simpl in Hv.
    unfold orch_start. rewrite (proj1 (on_sandbox_view i _ o sb E)), (proj2 (on_sandbox_view i _ o sb E)).
    destruct (kind (config sb)) as [|path entry] eqn:Ek.
    + unfold start. destruct (state sb) eqn:Es; cbn; rewrite ?Ek, ?Es in Hv |- *;
        case_bool_decide; try done; cbn; rewrite ?Ek; first [done|by rewrite Es, insert_id].
    + unfold start_wasm. destruct (state sb) eqn:Es; cbn; rewrite ?Ek, ?Es in Hv |- *;
        case_bool_decide; try done; cbn; rewrite ?Ek; try (by rewrite Es, insert_id).
      destruct (run_wasm_sandbox_result path entry) as [[[out vs] ->]|[er ->]].
      * destruct out, vs; cbn; by rewrite Ek.
      * cbn. by rewrite Ek.
  - destruct (sandboxes o !! i) as [sb|] eqn:E; simpl; [|unfold orch_stop, on_sandbox; by rewrite E].
    pose proof (view_lookup o i) as Hv. rewrite E in Hv. simpl in Hv.
    unfold orch_stop. rewrite (proj1 (on_sandbox_view i _ o sb E)), (proj2 (on_sandbox_view i _ o sb E)).
    unfold stop. destruct (state sb) eqn:Es; cbn; rewrite ?Es in Hv |- *;
      case_bool_decide; try done; cbn; first [done|by rewrite Es, insert_id].
  - unfold destroy. destruct (sandboxes o !! i) as [sb|] eqn:E; simpl; [|done].
    destruct (state sb) eqn:Es; cbn; rewrite ?Es; try done; unfold view; simpl; by rewrite fmap_delete.
Qed.

Lemma serve_all_spec rs o :
  let r := serve_all rs o in (r.1, view r.2) = spec_all rs (view o).
Proof.
  revert o. induction rs as [|r rs IH]; intros o; [done|]. simpl.
  rewrite <- serve_step. destruct (serve r o) as [a o1]. simpl.
  rewrite <- IH. by destruct (serve_all rs o1).
Qed.

Lemma serve_all_ok rs o : orch_ok o → orch_ok (serve_all rs o).2.
Proof.
  revert o. induction rs as [|r rs IH]; intros o Ho; [done|]. simpl.
  pose proof (serve_ok r o Ho) as H1. destruct (serve r o) as [a o1].
  specialize (IH o1 H1). by destruct (serve_all rs o1).
Qed.

(** ** Properties *)

(** The orchestrator implements the lifecycle table: for every sequence
    of create, start, stop and destroy requests its replies and the sandboxes
    it shows are those of the abstract machine (a running sandbox is never
    destroyed, nothing starts twice, a Wasm sandbox ends stopped or in error);
    and every sandbox stays consistent: it is filed under its id, has a pid
    exactly while it runs, and has results only as a stopped Wasm sandbox. *)
Theorem orchestrator_refines rs o :
  orch_ok o →
  ((serve_all rs o).1, view (serve_all rs o).2) = spec_all rs (view o) ∧
  orch_ok (serve_all rs o).2.
Proof. intros Ho. split; [apply serve_all_spec|by apply serve_all_ok]. Qed.

End Orchestrator.

(** ** Witness *)

#[local] Existing Instance demo_host.

Definition demo_files (p : string) : string + list byte :=
  if String.eqb p "a.wasm" then inr [x00; x00] else inl "not found".

Definition demo_config (k : SandboxKind) : SandboxConfig :=
  {| vcpus := 1; memory_mib := 128; kernel := "vmlinux"; rootfs := "root.ext4"; cmdline := "";
     network := None; kind := k |}.

Definition demo_requests : list request :=
  [RCreate "vm" (demo_config Vm) 0; RCreate "w" (demo_config (WasmModule "a.wasm" "answer")) 1;
   RCreate "x" (demo_config (WasmModule "b.wasm" "_start")) 2; RStart "vm" 40; RStart "w" 40;
   RStart "x" 40; RDestroy "vm"; RStop "vm"; RStart "vm" 40; RDestroy "vm"; RStop "vm"].

Definition demo_served : list reply * SandboxOrchestrator (P := unit) (SC := unit) :=
  serve_all demo_files demo_requests SandboxOrchestrator_new.

Lemma orchestrator_refines_witness :
  demo_served.1 = [Done; Done; Done; Done; Done; Failed; Refused; Done; Refused; Done; NotFound] ∧
  (wasm_result <$> sandboxes demo_served.2 !! "w") = Some (Some [2]) ∧
  (view demo_served.2) !! "x" = Some (WasmModule "b.wasm" "_start", Error) ∧
  orch_ok demo_served.2.
Proof.
  destruct (orchestrator_refines demo_files demo_requests
    (SandboxOrchestrator_new (P := unit) (SC := unit))) as [_ Hok].
  { apply map_Forall_empty. }
  split; [reflexivity|]. split; [reflexivity|]. split; [reflexivity|]. exact Hok.
Defined.
