(* ===== verification/Policy.v ===== *)
(** * Admission control and enforcement (crates/nova-policy, policy_server.rs)

    The Wasm policy engine, the bundles of compiled policies, admission
    checks, enforcement rules, and the policy service that holds them.
    wasmtime and SHA-256 are those of [WasmHost]; clock readings are
    arguments. *)

From stdpp Require Import pretty.
From S2P Require Import Prelude Wasm.

(** [serde_json::Value], as far as the crate builds it. *)
Inductive json : Type :=
| JNull
| JBool (b : bool)
| JNumber (n : Z)
| JString (s : string)
| JObject (fields : list (string * json)).

Inductive PolicyError : Type :=
| WasmErr (s : string)
| Evaluation (s : string)
| Bundle (s : string).

Definition policy_error_text (e : PolicyError) : string :=
  match e with
  | WasmErr s => "wasm error: " +:+ s
  | Evaluation s => "evaluation error: " +:+ s
  | Bundle s => "bundle error: " +:+ s
  end.

(** ** Enforcement rules (enforcement.rs, builtin.rs) *)

Inductive EnforcementAction : Type := Allow | Deny | Alert | Kill.

#[export] Instance EnforcementAction_eq_dec : EqDecision EnforcementAction.
Proof. solve_decision. Defined.

Record EnforcementRule : Type := {
  rule_name : string;
  event_type : string;
  action : EnforcementAction;
  enabled : bool;
}.

Record EnforcementEngine : Type := {
  rules : list EnforcementRule;
  decisions : Z;
  denials : Z;
  alerts : Z;
}.

Definition EnforcementEngine_new : EnforcementEngine :=
  {| rules := []; decisions := 0; denials := 0; alerts := 0 |}.

Definition add_rule (e : EnforcementEngine) (r : EnforcementRule) : EnforcementEngine :=
  {| rules := rules e ++ [r]; decisions := decisions e; denials := denials e; alerts := alerts e |}.

Definition severity (a : EnforcementAction) : Z :=
  match a with Allow => 0 | Alert => 1 | Deny => 2 | Kill => 3 end.

Definition most_restrictive (a b : EnforcementAction) : EnforcementAction :=
  if severity b >? severity a then b else a.

(** The test of the loop body, and the loop. *)
Definition rule_matches (ev : string) (r : EnforcementRule) : bool :=
  enabled r && (String.eqb (event_type r) ev || String.eqb (event_type r) "*").

Fixpoint scan_rules (ev : string) (rs : list EnforcementRule) (result : EnforcementAction)
    : EnforcementAction :=
  match rs with
  | [] => result
  | r :: rs =>
      scan_rules ev rs
        (if negb (enabled r) then result else
         if String.eqb (event_type r) ev || String.eqb (event_type r) "*"
         then most_restrictive result (action r) else result)
  end.

Definition enforce (ev : string) (e : EnforcementEngine) : EnforcementAction * EnforcementEngine :=
  let result := scan_rules ev (rules e) Allow in
  (result,
   {| rules := rules e;
      decisions := wrap64 (decisions e + 1);
      denials := match result with Deny | Kill => wrap64 (denials e + 1) | _ => denials e end;
      alerts := match result with Alert => wrap64 (alerts e + 1) | _ => alerts e end |}).

Definition default_rules : list EnforcementRule :=
  [{| rule_name := "audit_process_exec"; event_type := "process_exec"; action := Alert;
      enabled := true |};
   {| rule_name := "audit_net_connect"; event_type := "net_connect"; action := Alert;
      enabled := true |};
   {| rule_name := "audit_file_unlink"; event_type := "file_unlink"; action := Alert;
      enabled := true |}].

Definition strict_rules : list EnforcementRule :=
  default_rules ++
  [{| rule_name := "deny_dns"; event_type := "dns_query"; action := Deny; enabled := false |};
   {| rule_name := "kill_suspicious_http"; event_type := "http_request"; action := Kill;
      enabled := false |}].

(** ** The policy engine (engine.rs) *)

Section Policy.
Context `{WasmHost}.

Record EvalResult : Type := {
  allowed : bool;
  reason : string;
  result_json : json;
  duration_us : Z;
}.

Record PolicyEngine : Type := {
  engine : Engine;
  eval_count : Z;
  denied_count : Z;
  total_eval_us : Z;
}.

Record CompiledPolicy : Type := { policy_module : Mod; policy_name : string }.

Definition PolicyEngine_new : PolicyEngine :=
  {| engine := engine_default; eval_count := 0; denied_count := 0; total_eval_us := 0 |}.

Definition compile_policy (e : PolicyEngine) (name : string) (bytes : list byte)
    : outcome PolicyError CompiledPolicy :=
  m ← map_err (λ t, WasmErr ("failed to compile '" +:+ name +:+ "': " +:+ t))
        (of_sum (module_new (engine e) bytes));
  Ok {| policy_module := m; policy_name := name |}.

(** [results[0].i32().unwrap_or(0)]. *)
Definition result0 (vs : list Val) : Z :=
  match vs with VI32 n :: _ => n | _ => 0 end.

Definition instantiate_policy (e : PolicyEngine) (p : CompiledPolicy) : outcome PolicyError Inst :=
  map_err (λ t, Evaluation ("failed to instantiate '" +:+ policy_name p +:+ "': " +:+ t))
    (of_sum (linker_instantiate (linker_empty (engine e)) (policy_module p))).

(** The counters after a completed evaluation. *)
Definition count_eval (e : PolicyEngine) (ok : bool) (us : Z) : PolicyEngine :=
  {| engine := engine e;
     eval_count := wrap64 (eval_count e + 1);
     denied_count := if ok then denied_count e else wrap64 (denied_count e + 1);
     total_eval_us := wrap64 (total_eval_us e + us) |}.

Definition denial_reason (ok : bool) : string := if ok then "" else "policy denied".

(** [evaluate]: a module without an [eval] export allows. *)
Definition eval_signal (e : PolicyEngine) (p : CompiledPolicy) : outcome PolicyError bool :=
  inst ← instantiate_policy e p;
  match get_func inst "eval" with
  | Some f =>
      vs ← map_err (λ t, Evaluation ("eval call failed for '" +:+ policy_name p +:+ "': " +:+ t))
             (of_sum (func_call f [] 1));
      Ok (negb (result0 vs =? 0))
  | None => Ok true
  end.

Definition evaluate (p : CompiledPolicy) (input : json) (us : Z)
    : stm PolicyEngine PolicyError EvalResult := λ e,
  match eval_signal e p with
  | Ok ok =>
      (Ok {| allowed := ok; reason := denial_reason ok;
             result_json := JObject [("allow", JBool ok); ("policy", JString (policy_name p));
                                     ("input", input)];
             duration_us := us |}, count_eval e ok us)
  | Err err => (Err err, e)
  | Panic r => (Panic r, e)
  end.

(** [evaluate_simple]: the export must exist; it takes the code if it has
    parameters. *)
Definition eval_value (e : PolicyEngine) (p : CompiledPolicy) (code : Z) : outcome PolicyError Z :=
  inst ← instantiate_policy e p;
  f ← ok_or (Evaluation ("no 'eval' export in '" +:+ policy_name p +:+ "'")) (get_func inst "eval");
  vs ← match func_params f with
       | [] => map_err (λ t, Evaluation ("eval() call failed for '" +:+ policy_name p +:+ "': " +:+ t))
                 (of_sum (func_call f [] 1))
       | _ => map_err (λ t, Evaluation ("eval(i32) call failed for '" +:+ policy_name p +:+ "': " +:+ t))
                (of_sum (func_call f [VI32 code] 1))
       end;
  Ok (result0 vs).

Definition evaluate_simple (p : CompiledPolicy) (code us : Z)
    : stm PolicyEngine PolicyError EvalResult := λ e,
  match eval_value e p code with
  | Ok v =>
      let ok := negb (v =? 0) in
      (Ok {| allowed := ok; reason := denial_reason ok;
             result_json := JObject [("allow", JBool ok); ("policy", JString (policy_name p));
                                     ("result", JNumber v)];
             duration_us := us |}, count_eval e ok us)
  | Err err => (Err err, e)
  | Panic r => (Panic r, e)
  end.

Definition avg_eval_us (e : PolicyEngine) : Z :=
  if eval_count e =? 0 then 0 else total_eval_us e / eval_count e.

(** ** Bundles (bundle.rs) *)

Record BundleInfo : Type := {
  bundle_id : string;
  digest : string;
  policy_count : Z;
  loaded_at : Z;
}.

Record BundleManager : Type := {
  bundles : gmap string (BundleInfo * list CompiledPolicy);
  bundle_dir : string;
}.

(** [BundleManager::new]; creating the directory is the filesystem's. *)
Definition BundleManager_new (created : string + unit) (dir : string) : string + BundleManager :=
  match created with
  | inl e => inl e
  | inr _ => inr {| bundles := ∅; bundle_dir := dir |}
  end.

Definition load_bundle (i : string) (bytes : list byte) (e : PolicyEngine) (now : Z)
    : stm BundleManager PolicyError unit := λ b,
  if bool_decide (bytes = []) then (Err (Bundle ("empty bundle: " +:+ i)), b) else
  match compile_policy e i bytes with
  | Ok p =>
      let info := {| bundle_id := i; digest := "sha256:" +:+ sha256_hex bytes;
                     policy_count := 1; loaded_at := now |} in
      (Ok tt, {| bundles := <[i := (info, [p])]> (bundles b); bundle_dir := bundle_dir b |})
  | Err err => (Err err, b)
  | Panic r => (Panic r, b)
  end.

Definition remove_bundle (i : string) : stm BundleManager PolicyError unit := λ b,
  match bundles b !! i with
  | None => (Err (Bundle ("bundle not found: " +:+ i)), b)
  | Some _ => (Ok tt, {| bundles := delete i (bundles b); bundle_dir := bundle_dir b |})
  end.

Definition get_info (b : BundleManager) (i : string) : option BundleInfo := fst <$> bundles b !! i.
Definition get_policies (b : BundleManager) (i : string) : option (list CompiledPolicy) :=
  snd <$> bundles b !! i.
Definition list_bundles (b : BundleManager) : list BundleInfo :=
  List.map (λ kv, fst (snd kv)) (map_to_list (bundles b)).
Definition bundle_count (b : BundleManager) : Z := Z.of_nat (size (bundles b)).

(** ** Admission (admission.rs) *)

Record AdmissionInput : Type := {
  sandbox_id : string;
  image : string;
  vcpus : Z;
  memory_mib : Z;
  uid : Z;
}.

Record AdmissionResult : Type := { admitted : bool; denial : string }.

Record AdmissionChecker : Type := {
  max_vcpus : Z;
  max_memory_mib : Z;
  max_sandboxes : Z;
  allowed_images : list string;
  current_sandboxes : Z;
}.

Definition AdmissionChecker_new : AdmissionChecker :=
  {| max_vcpus := 8; max_memory_mib := 8192; max_sandboxes := 100; allowed_images := [];
     current_sandboxes := 0 |}.

Definition set_max_vcpus (c : AdmissionChecker) (m : Z) : AdmissionChecker :=
  {| max_vcpus := m; max_memory_mib := max_memory_mib c; max_sandboxes := max_sandboxes c;
     allowed_images := allowed_images c; current_sandboxes := current_sandboxes c |}.
Definition set_max_memory_mib (c : AdmissionChecker) (m : Z) : AdmissionChecker :=
  {| max_vcpus := max_vcpus c; max_memory_mib := m; max_sandboxes := max_sandboxes c;
     allowed_images := allowed_images c; current_sandboxes := current_sandboxes c |}.
Definition set_max_sandboxes (c : AdmissionChecker) (m : Z) : AdmissionChecker :=
  {| max_vcpus := max_vcpus c; max_memory_mib := max_memory_mib c; max_sandboxes := m;
     allowed_images := allowed_images c; current_sandboxes := current_sandboxes c |}.
Definition add_allowed_image (c : AdmissionChecker) (p : string) : AdmissionChecker :=
  {| max_vcpus := max_vcpus c; max_memory_mib := max_memory_mib c; max_sandboxes := max_sandboxes c;
     allowed_images := allowed_images c ++ [p]; current_sandboxes := current_sandboxes c |}.
Definition set_current_sandboxes (c : AdmissionChecker) (n : Z) : AdmissionChecker :=
  {| max_vcpus := max_vcpus c; max_memory_mib := max_memory_mib c; max_sandboxes := max_sandboxes c;
     allowed_images := allowed_images c; current_sandboxes := n |}.

Definition deny (why : string) : AdmissionResult := {| admitted := false; denial := why |}.
Definition admit_ok : AdmissionResult := {| admitted := true; denial := "" |}.

Definition check (c : AdmissionChecker) (i : AdmissionInput) : AdmissionResult :=
  if vcpus i >? max_vcpus c then
    deny ("requested " +:+ pretty (vcpus i) +:+ " vCPUs exceeds limit of " +:+ pretty (max_vcpus c))
  else if memory_mib i >? max_memory_mib c then
    deny ("requested " +:+ pretty (memory_mib i) +:+ " MiB memory exceeds limit of "
          +:+ pretty (max_memory_mib c))
  else if current_sandboxes c >=? max_sandboxes c then
    deny ("sandbox limit reached (" +:+ pretty (current_sandboxes c) +:+ "/"
          +:+ pretty (max_sandboxes c) +:+ ")")
  else if negb (bool_decide (allowed_images c = [])) &&
          negb (existsb (λ p, String.prefix p (image i)) (allowed_images c)) then
    deny ("image '" +:+ image i +:+ "' not in allowlist")
  else admit_ok.

(** [check_with_policy]; the engine counts the evaluation. *)
Definition check_with_policy (c : AdmissionChecker) (i : AdmissionInput)
    (policy : option CompiledPolicy) (us : Z) (e : PolicyEngine) : AdmissionResult * PolicyEngine :=
  let builtin := check c i in
  if negb (admitted builtin) then (builtin, e) else
  match policy with
  | None => (admit_ok, e)
  | Some p =>
      match evaluate_simple p 1 us e with
      | (Ok r, e') =>
          if negb (allowed r) then (deny ("wasm policy '" +:+ policy_name p +:+ "' denied"), e')
          else (admit_ok, e')
      | (Err err, e') => (deny ("wasm policy evaluation failed: " +:+ policy_error_text err), e')
      | (Panic _, e') => (deny "", e')
      end
  end.

(** ** The policy service (policy_server.rs) *)

Record PolicyConfig : Type := {
  cfg_admission_enabled : bool;
  cfg_enforcement_enabled : bool;
  cfg_max_vcpus : Z;
  cfg_max_memory_mib : Z;
  cfg_max_sandboxes : Z;
  cfg_allowed_images : list string;
  cfg_bundle_dir : string;
  cfg_enforcement_rules : string;
  cfg_rules : list EnforcementRule;
}.

Definition PolicyConfig_default : PolicyConfig :=
  {| cfg_admission_enabled := true; cfg_enforcement_enabled := false; cfg_max_vcpus := 8;
     cfg_max_memory_mib := 8192; cfg_max_sandboxes := 100; cfg_allowed_images := [];
     cfg_bundle_dir := "/var/lib/nova/policy/bundles"; cfg_enforcement_rules := "default";
     cfg_rules := [] |}.

Record PolicyState : Type := {
  ps_engine : PolicyEngine;
  ps_bundles : BundleManager;
  ps_checker : AdmissionChecker;
  ps_enforcement : EnforcementEngine;
  admission_enabled : bool;
  enforcement_enabled : bool;
}.

(** The rule set the configuration names; an unknown name is none. *)
Definition ruleset (name : string) : list EnforcementRule :=
  if String.eqb name "default" then default_rules else
  if String.eqb name "strict" then strict_rules else [].

(** [from_config]; the directory must be creatable ([expect]). *)
Definition from_config (created : string + unit) (c : PolicyConfig) : outcome string PolicyState :=
  match BundleManager_new created (cfg_bundle_dir c) with
  | inl _ => Panic PanicUnwrap
  | inr b =>
      let k1 := set_max_vcpus AdmissionChecker_new (cfg_max_vcpus c) in
      let k2 := set_max_memory_mib k1 (cfg_max_memory_mib c) in
      let k3 := set_max_sandboxes k2 (cfg_max_sandboxes c) in
      Ok {| ps_engine := PolicyEngine_new;
            ps_bundles := b;
            ps_checker := foldl add_allowed_image k3 (cfg_allowed_images c);
            ps_enforcement := foldl add_rule
              (foldl add_rule EnforcementEngine_new (ruleset (cfg_enforcement_rules c))) (cfg_rules c);
            admission_enabled := cfg_admission_enabled c;
            enforcement_enabled := cfg_enforcement_enabled c |}
  end.

Definition with_engine (s : PolicyState) (e : PolicyEngine) : PolicyState :=
  {| ps_engine := e; ps_bundles := ps_bundles s; ps_checker := ps_checker s;
     ps_enforcement := ps_enforcement s; admission_enabled := admission_enabled s;
     enforcement_enabled := enforcement_enabled s |}.
Definition with_bundles (s : PolicyState) (b : BundleManager) : PolicyState :=
  {| ps_engine := ps_engine s; ps_bundles := b; ps_checker := ps_checker s;
     ps_enforcement := ps_enforcement s; admission_enabled := admission_enabled s;
     enforcement_enabled := enforcement_enabled s |}.

Record EvaluateResponse : Type := {
  resp_allowed : bool;
  resp_reason : string;
  resp_result : option json;
  resp_duration_us : Z;
}.

(** The [evaluate] call: the first policy of the named bundle; a missing
    bundle allows.  [input] is the request's JSON, [JNull] if it does not
    parse. *)
Definition svc_evaluate (path : string) (input : json) (us : Z) (s : PolicyState)
    : EvaluateResponse * PolicyState :=
  match (get_policies (ps_bundles s) path ≫= head) with
  | Some p =>
      match evaluate p input us (ps_engine s) with
      | (Ok r, e) =>
          ({| resp_allowed := allowed r; resp_reason := reason r;
              resp_result := Some (result_json r); resp_duration_us := duration_us r |},
           with_engine s e)
      | (Err err, e) =>
          ({| resp_allowed := false;
              resp_reason := "evaluation failed: " +:+ policy_error_text err;
              resp_result := None; resp_duration_us := 0 |}, with_engine s e)
      | (Panic _, e) =>
          ({| resp_allowed := false; resp_reason := ""; resp_result := None;
              resp_duration_us := 0 |}, with_engine s e)
      end
  | None =>
      ({| resp_allowed := true;
          resp_reason := "no bundle '" +:+ path +:+ "' loaded, default allow";
          resp_result := None; resp_duration_us := 0 |}, s)
  end.

(** [load_bundle]: success, or the error's text in the response. *)
Definition svc_load_bundle (i : string) (bytes : list byte) (now : Z) (s : PolicyState)
    : (bool * string) * PolicyState :=
  match load_bundle i bytes (ps_engine s) now (ps_bundles s) with
  | (Ok _, b) => ((true, ""), with_bundles s b)
  | (Err err, b) => ((false, policy_error_text err), with_bundles s b)
  | (Panic _, b) => ((false, ""), with_bundles s b)
  end.

(** [remove_bundle]: [None], or the text of a not-found status. *)
Definition svc_remove_bundle (i : string) (s : PolicyState) : option string * PolicyState :=
  match remove_bundle i (ps_bundles s) with
  | (Err err, b) => (Some (policy_error_text err), with_bundles s b)
  | (_, b) => (None, with_bundles s b)
  end.

(** [get_status]: bundles, evaluations, denials, average duration. *)
Definition svc_get_status (s : PolicyState) : Z * Z * Z * Z :=
  (wrap32 (bundle_count (ps_bundles s)), eval_count (ps_engine s), denied_count (ps_engine s),
   avg_eval_us (ps_engine s)).


(** ** The daemon's use of the service (server.rs) *)

(** The admission step of [create_sandbox]: the built-in checks, on the
    requested or the default size.  [None] lets the request through. *)
Definition create_admission (s : PolicyState) (sid img : string) (req : option (Z * Z))
    : option string :=
  let vc := match req with Some (v, _) => v | None => 1 end in
  let mem := match req with Some (_, m) => m | None => 128 end in
  if admission_enabled s then
    let r := check (ps_checker s)
      {| sandbox_id := sid; image := img; vcpus := vc; memory_mib := mem; uid := 1000 |} in
    if negb (admitted r) then Some ("admission denied: " +:+ denial r) else None
  else None.

(** [event_type_to_str]. *)
Definition event_type_to_str (t : Z) : string :=
  if t =? 1 then "process_exec" else if t =? 2 then "process_exit" else
  if t =? 3 then "process_fork" else if t =? 10 then "file_open" else
  if t =? 11 then "file_write" else if t =? 12 then "file_unlink" else
  if t =? 20 then "net_connect" else if t =? 21 then "net_accept" else
  if t =? 22 then "net_close" else if t =? 30 then "http_request" else
  if t =? 31 then "http_response" else if t =? 40 then "dns_query" else "unknown".

Definition with_enforcement (s : PolicyState) (e : EnforcementEngine) : PolicyState :=
  {| ps_engine := ps_engine s; ps_bundles := ps_bundles s; ps_checker := ps_checker s;
     ps_enforcement := e; admission_enabled := admission_enabled s;
     enforcement_enabled := enforcement_enabled s |}.

(** The enforcement step of the sensor loop: whether the event is forwarded.
    [locked] is the result of [try_lock]; a busy lock allows. *)
Definition forward_event (locked : bool) (t : Z) (s : PolicyState) : bool * PolicyState :=
  if locked && enforcement_enabled s then
    let '(a, e) := enforce (event_type_to_str t) (ps_enforcement s) in
    (match a with Deny => false | _ => true end, with_enforcement s e)
  else (true, s).

(** The calls that reach the policy state. *)
Inductive svc_call : Type :=
| CEvaluate (path : string) (input : json) (us : Z)
| CLoad (i : string) (bytes : list byte) (now : Z)
| CRemove (i : string)
| CEvent (locked : bool) (t : Z).

Definition svc_serve (c : svc_call) (s : PolicyState) : PolicyState :=
  match c with
  | CEvaluate path input us => (svc_evaluate path input us s).2
  | CLoad i bytes now => (svc_load_bundle i bytes now s).2
  | CRemove i => (svc_remove_bundle i s).2
  | CEvent locked t => (forward_event locked t s).2
  end.

(** ** Lemmas *)

Lemma prefix_spec p s : String.prefix p s = true ↔ ∃ rest, s = p +:+ rest.
Proof.
  revert s. induction p as [|a p IH]; intros [|b s]; simpl; try (split; [done|by intros []]).
  - split; [by exists ""|done].
  - split; [by eexists|done].
  - destruct (Ascii.ascii_dec a b) as [<-|Hne].
    + rewrite IH. split; intros [r Hr]; exists r; [by rewrite Hr|by injection Hr].
    + split; [done|]. intros [r [= ? _]]. done.
Qed.

(** The documented limits. *)
Definition within_limits (c : AdmissionChecker) (i : AdmissionInput) : Prop :=
  vcpus i ≤ max_vcpus c ∧ memory_mib i ≤ max_memory_mib c ∧
  current_sandboxes c < max_sandboxes c ∧
  (allowed_images c = [] ∨ ∃ p rest, p ∈ allowed_images c ∧ image i = p +:+ rest).

Lemma image_allowed ps img :
  negb (bool_decide (ps = [])) && negb (existsb (λ p, String.prefix p img) ps) = false ↔
  ps = [] ∨ ∃ p rest, p ∈ ps ∧ img = p +:+ rest.
Proof.
  rewrite andb_false_iff, !negb_false_iff, bool_decide_eq_true, existsb_exists. f_equiv.
  split.
  - intros (p & Hp & Hpre). apply prefix_spec in Hpre as [r ->]. exists p, r.
    split; [by apply list_elem_of_In|done].
  - intros (p & r & Hp & ->). exists p. split; [by apply list_elem_of_In|].
    apply prefix_spec. by exists r.
Qed.

Lemma check_spec c i : admitted (check c i) = true ↔ within_limits c i.
Proof.
  unfold check, within_limits.
  destruct (vcpus i >? max_vcpus c) eqn:E1; to_prop; [to_prop; split; [done|lia]|].
  destruct (memory_mib i >? max_memory_mib c) eqn:E2; to_prop; [to_prop; split; [done|lia]|].
  destruct (current_sandboxes c >=? max_sandboxes c) eqn:E3; to_prop; [to_prop; split; [done|lia]|].
  to_prop. rewrite <- image_allowed. destruct (_ && _); split; try done; naive_solver lia.
Qed.

Lemma check_reason c i : admitted (check c i) = false → denial (check c i) ≠ "".
Proof. unfold check. by repeat case_match. Qed.

(** What enforcement does to the counters. *)
Definition is_denial (a : EnforcementAction) : bool :=
  match a with Deny | Kill => true | _ => false end.

Lemma most_restrictive_severity a b :
  severity (most_restrictive a b) = Z.max (severity a) (severity b) ∧
  (most_restrictive a b = a ∨ most_restrictive a b = b).
Proof. by destruct a, b; vm_compute; auto. Qed.

Lemma scan_rules_spec ev rs a0 :
  let a := scan_rules ev rs a0 in
  (a = a0 ∨ ∃ r, r ∈ rs ∧ rule_matches ev r = true ∧ action r = a) ∧
  severity a0 ≤ severity a ∧
  (∀ r, r ∈ rs → rule_matches ev r = true → severity (action r) ≤ severity a).
Proof.
  revert a0. induction rs as [|r rs IH]; intros a0; simpl.
  { split_and!; [by left|done|]. intros r Hr. by apply elem_of_nil in Hr. }
  set (a1 := if negb (enabled r) then _ else _).
  assert (H1 : severity a0 ≤ severity a1 ∧ (a1 = a0 ∨ rule_matches ev r = true ∧ a1 = action r) ∧
               (rule_matches ev r = true → severity (action r) ≤ severity a1)).
  { subst a1. unfold rule_matches. destruct (enabled r); simpl; [|by split_and!; [|left|]].
    destruct (_ || _); [|by split_and!; [|left|]].
    destruct (most_restrictive_severity a0 (action r)) as [Hs [Ha|Ha]]; rewrite Hs; split_and!; auto with lia.
  }
  destruct (IH a1) as (Hex & Hle & Hall). destruct H1 as (H1 & H2 & H3). split_and!; [|lia|].
  - destruct Hex as [->|(r' & ? & ? & ?)].
    + destruct H2 as [->|[? ->]]; [by left|]. right. exists r. split; [by left|done].
    + right. exists r'. split; [by right|done].
  - intros r' [->|Hr]%elem_of_cons Hm; [specialize (H3 Hm); lia|by apply Hall].
Qed.

Fixpoint enforce_all (evs : list string) (e : EnforcementEngine)
    : list EnforcementAction * EnforcementEngine :=
  match evs with
  | [] => ([], e)
  | ev :: evs =>
      let '(a, e1) := enforce ev e in
      let '(l, e2) := enforce_all evs e1 in (a :: l, e2)
  end.

Definition count_actions (f : EnforcementAction → bool) (l : list EnforcementAction) : Z :=
  zlen (List.filter f l).

Lemma enforce_counts evs e :
  let r := enforce_all evs e in
  rules r.2 = rules e ∧
  wrap64 (decisions r.2) = wrap64 (decisions e + zlen evs) ∧
  wrap64 (denials r.2) = wrap64 (denials e + count_actions is_denial r.1) ∧
  wrap64 (alerts r.2) = wrap64 (alerts e + count_actions (λ a, bool_decide (a = Alert)) r.1).
Proof.
  revert e. induction evs as [|ev evs IH]; intros e; simpl.
  { unfold count_actions. simpl. change (zlen []) with 0. by rewrite !Z.add_0_r. }
  destruct (enforce ev e) as [a e1] eqn:E. destruct (IH e1) as (H1 & H2 & H3 & H4).
  unfold enforce in E. simplify_eq. destruct (enforce_all evs _) as [l e2]. simpl in *.
  rewrite H1, H2, H3, H4. clear. unfold count_actions. rewrite zlen_cons.
  destruct (scan_rules ev (rules e) Allow); cbn -[zlen];
    repeat first [rewrite bool_decide_eq_true_2 by done | rewrite bool_decide_eq_false_2 by done];
    rewrite ?zlen_cons, ?wrap_idemp_add_l, ?Z.add_assoc; split_and!; try done; f_equal; lia.
Qed.

Lemma enforce_all_rules evs e : rules (enforce_all evs e).2 = rules e.
Proof. apply enforce_counts. Qed.

Lemma enforce_all_lookup evs e k ev :
  evs !! k = Some ev → (enforce_all evs e).1 !! k = Some (scan_rules ev (rules e) Allow).
Proof.
  revert e k. induction evs as [|ev' evs IH]; intros e [|k] Hk; simplify_eq/=;
    destruct (enforce_all evs _) as [l e2] eqn:E; simpl; [done|].
  change l with (l, e2).1. rewrite <- E. by rewrite IH.
Qed.

(** An evaluation completes with a value, or fails and counts nothing. *)
Lemma evaluate_simple_cases p code us e :
  (∃ v, eval_value e p code = Ok v ∧
     ∃ r, evaluate_simple p code us e = (Ok r, count_eval e (negb (v =? 0)) us) ∧
       allowed r = negb (v =? 0)) ∨
  (∃ err, eval_value e p code = Err err ∧ evaluate_simple p code us e = (Err err, e)).
Proof.
  unfold evaluate_simple. destruct (eval_value e p code) as [v|err|pr] eqn:E.
  - left. exists v. split; [done|]. by eexists.
  - right. by exists err.
  - exfalso. revert E. unfold eval_value, instantiate_policy.
    destruct (linker_instantiate _ _) as [|inst]; [done|]. simpl.
    destruct (get_func inst "eval") as [f|]; [|done]. simpl.
    destruct (func_params f); by destruct (func_call _ _ _).
Qed.

Lemma foldl_add_image c ps :
  foldl add_allowed_image c ps =
  {| max_vcpus := max_vcpus c; max_memory_mib := max_memory_mib c; max_sandboxes := max_sandboxes c;
     allowed_images := allowed_images c ++ ps; current_sandboxes := current_sandboxes c |}.
Proof.
  revert c. induction ps as [|p ps IH]; intros c; simpl.
  { rewrite app_nil_r. by destruct c. }
  rewrite IH. simpl. by rewrite <- (assoc_L (++)).
Qed.

Lemma svc_serve_frame c s :
  ps_checker (svc_serve c s) = ps_checker s ∧
  admission_enabled (svc_serve c s) = admission_enabled s.
Proof.
  destruct c as [path input us|i bytes now|i|locked t]; simpl.
  - unfold svc_evaluate. destruct (_ ≫= _) as [p|]; [|done].
    by destruct (evaluate p input us _) as [[]].
  - unfold svc_load_bundle. by destruct (load_bundle _ _ _ _ _) as [[]].
  - unfold svc_remove_bundle. by destruct (remove_bundle _ _) as [[]].
  - unfold forward_event. destruct (_ && _); [|done]. by destruct (enforce _ _).
Qed.

Lemma svc_history calls s :
  let s' := foldl (λ s c, svc_serve c s) s calls in
  ps_checker s' = ps_checker s ∧ admission_enabled s' = admission_enabled s.
Proof.
  revert s. induction calls as [|c calls IH]; intros s; simpl; [done|].
  destruct (IH (svc_serve c s)) as [-> ->]. apply svc_serve_frame.
Qed.

(** ** Properties *)

(** Enforcement answers each event with the most severe action (Kill,
    Deny, Alert, Allow) among the enabled rules that match the event's type
    or are wildcards, and with Allow when none matches; and the engine counts
    every decision, denial and alert of a run (modulo 2^64). *)
Theorem enforcement_exact evs e :
  let r := enforce_all evs e in
  (∀ k ev, evs !! k = Some ev → ∃ a, r.1 !! k = Some a ∧
     (a = Allow ∨ ∃ ru, ru ∈ rules e ∧ rule_matches ev ru = true ∧ action ru = a) ∧
     (∀ ru, ru ∈ rules e → rule_matches ev ru = true → severity (action ru) ≤ severity a)) ∧
  wrap64 (decisions r.2) = wrap64 (decisions e + zlen evs) ∧
  wrap64 (denials r.2) = wrap64 (denials e + count_actions is_denial r.1) ∧
  wrap64 (alerts r.2) = wrap64 (alerts e + count_actions (λ a, bool_decide (a = Alert)) r.1).
Proof.
  split; [|apply enforce_counts]. intros k ev Hk. rewrite (enforce_all_lookup _ _ _ _ Hk).
  eexists. split; [done|]. pose proof (scan_rules_spec ev (rules e) Allow) as (? & _ & ?). done.
Qed.

(** [check_with_policy] admits a request exactly when it is within the
    limits and the allowlist and the Wasm policy, if there is one, returns a
    non-zero value; a refusal has a reason, a request the built-in checks
    refuse never reaches the policy, and the engine counts exactly the
    completed evaluations and among them the denials. *)
Theorem admission_exact c i policy us e :
  let '(r, e') := check_with_policy c i policy us e in
  (admitted r = true ↔ within_limits c i ∧
     ∀ p, policy = Some p → ∃ v, eval_value e p 1 = Ok v ∧ v ≠ 0) ∧
  (admitted r = false → denial r ≠ "") ∧
  (¬ within_limits c i → r = check c i ∧ e' = e) ∧
  (e' = e ∨ ∃ p v, policy = Some p ∧ eval_value e p 1 = Ok v ∧
     e' = count_eval e (negb (v =? 0)) us).
Proof.
  unfold check_with_policy. pose proof (check_spec c i) as Hc. pose proof (check_reason c i) as Hd.
  destruct (admitted (check c i)) eqn:Ea; simpl.
  2: { rewrite Ea. split_and!; [|exact Hd|done|by left]. split; [done|]. intros [Hl _]. by apply Hc in Hl. }
  assert (Hl : within_limits c i) by by apply Hc.
  destruct policy as [p|]; [|split_and!; [split; [done|done]|done|done|by left]].
  destruct (evaluate_simple_cases p 1 us e) as [(v & Hv & r & -> & Hr)|(err & Hv & ->)].
  - rewrite Hr, negb_involutive. destruct (v =? 0) eqn:Ev; to_prop; simpl.
    + split_and!; [|by intros _ [=]|done|right; exists p, v; by rewrite Hv, Ev].
      split; [done|]. intros [_ Hp]. destruct (Hp p eq_refl) as (v' & ? & ?). congruence.
    + split_and!; [|done|done|right; exists p, v; by rewrite Hv, (proj2 (Z.eqb_neq _ _) Ev)].
      split; [|done]. split; [done|]. intros p' [= <-]. by exists v.
  - split_and!; [|by intros _ [=]|done|by left].
    split; [done|]. intros [_ Hp]. destruct (Hp p eq_refl) as (v' & ? & ?). congruence.
Qed.

(** C18. After any history of service calls the daemon lets a creation
    request through exactly when admission is disabled, or its size is within
    the configured limits, its image starts with a configured prefix (or none
    is configured), and the configured sandbox limit is not zero: the number
    of sandboxes that exist, which nothing reports to the checker, plays no
    role. *)
Theorem daemon_admission created cfg s0 calls sid img req :
  from_config created cfg = Ok s0 →
  create_admission (foldl (λ s c, svc_serve c s) s0 calls) sid img req = None ↔
  cfg_admission_enabled cfg = false ∨
  (match req with Some (v, _) => v | None => 1 end ≤ cfg_max_vcpus cfg ∧
   match req with Some (_, m) => m | None => 128 end ≤ cfg_max_memory_mib cfg ∧
   0 < cfg_max_sandboxes cfg ∧
   (cfg_allowed_images cfg = [] ∨ ∃ p rest, p ∈ cfg_allowed_images cfg ∧ img = p +:+ rest)).
Proof.
  unfold from_config. destruct (BundleManager_new _ _); intros; simplify_eq.
  unfold create_admission. edestruct svc_history as [-> ->]. cbn [ps_checker admission_enabled].
  rewrite foldl_add_image. destruct (cfg_admission_enabled cfg); [|by split; [left|]].
  set (c := {| max_vcpus := _ |}). set (i := {| sandbox_id := _ |}).
  pose proof (check_spec c i) as Hc. unfold within_limits in Hc. cbn in Hc.
  destruct (admitted (check c i)); simpl; naive_solver.
Qed.

End Policy.

(** ** Witness *)

#[local] Existing Instance demo_host.

(** One sandbox at most is configured; a request is admitted all the same
    after any number of others. *)
Definition demo_policy : PolicyConfig :=
  {| cfg_admission_enabled := true; cfg_enforcement_enabled := true; cfg_max_vcpus := 2;
     cfg_max_memory_mib := 256; cfg_max_sandboxes := 1; cfg_allowed_images := ["docker.io/"];
     cfg_bundle_dir := "/tmp"; cfg_enforcement_rules := "strict"; cfg_rules := [] |}.

Definition demo_state : PolicyState :=
  match from_config (inr tt) demo_policy with
  | Ok s => s
  | _ => {| ps_engine := PolicyEngine_new; ps_bundles := {| bundles := ∅; bundle_dir := "" |};
            ps_checker := AdmissionChecker_new; ps_enforcement := EnforcementEngine_new;
            admission_enabled := false; enforcement_enabled := false |}
  end.

Definition demo_calls : list svc_call :=
  [CLoad "b" [x00] 7; CEvaluate "b" JNull 3; CEvent true 1; CRemove "c"].

Lemma daemon_admission_witness :
  create_admission (foldl (λ s c, svc_serve c s) demo_state demo_calls)
    "s" "docker.io/nginx" (Some (2, 256)) = None ∧
  create_admission demo_state "s" "quay.io/nginx" None ≠ None.
Proof.
  split.
  - apply (daemon_admission (inr tt) demo_policy demo_state demo_calls "s" "docker.io/nginx"
      (Some (2, 256)) eq_refl).
    right. split_and!; [done|done|done|]. right. exists "docker.io/", "nginx".
    split; [by left|done].
  - vm_compute. done.
Defined.
