(* ===== verification/Calendar.v ===== *)
(** * Timestamps (crates/nova-api/src/server.rs, policy_server.rs)

    The RFC 3339 text the services give for a time, computed without a
    calendar library, against the rules of the Gregorian calendar. *)

From stdpp Require Import pretty.
From S2P Require Import Prelude.

(** [{:0w}] of a number. *)
Definition pad0 (w : nat) (z : Z) : string :=
  let s := pretty z in
  String.concat "" (replicate (w - String.length s) "0") +:+ s.

Definition is_leap_year (y : Z) : bool :=
  (y mod 4 =? 0) && negb (y mod 100 =? 0) || (y mod 400 =? 0).

(** The loop over the years, with one step for each 365 days. *)
Fixpoint year_loop (fuel : nat) (y remaining : Z) : option (Z * Z) :=
  match fuel with
  | O => None
  | S fuel =>
      let days_in_year := if is_leap_year y then 366 else 365 in
      if remaining <? days_in_year then Some (y, remaining)
      else year_loop fuel (y + 1) (remaining - days_in_year)
  end.
Definition year_fuel (days : Z) : nat := S (Z.to_nat (days / 365)).

Definition month_days (leap : bool) : list Z :=
  [31; if leap then 29 else 28; 31; 30; 31; 30; 31; 31; 30; 31; 30; 31].

(** The loop over the months; [m] stays 0 if no month is left. *)
Fixpoint month_loop (i : Z) (mds : list Z) (remaining : Z) : Z * Z :=
  match mds with
  | [] => (0, remaining)
  | md :: mds =>
      if remaining <? md then (i + 1, remaining) else month_loop (i + 1) mds (remaining - md)
  end.

Definition days_to_ymd (days : Z) : option (Z * Z * Z) :=
  '(y, remaining) ← year_loop (year_fuel days) 1970 days;
  let '(m, rest) := month_loop 0 (month_days (is_leap_year y)) remaining in
  Some (y, m, rest + 1).

Definition rfc3339 (y m d h mi s : Z) : string :=
  pad0 4 y +:+ "-" +:+ pad0 2 m +:+ "-" +:+ pad0 2 d +:+ "T" +:+
  pad0 2 h +:+ ":" +:+ pad0 2 mi +:+ ":" +:+ pad0 2 s +:+ "Z".

(** [system_time_to_rfc3339], of the whole seconds since the epoch (0 for an
    earlier time), and [format_epoch_secs], its copy in policy_server.rs. *)
Definition system_time_to_rfc3339 (since_epoch : Z) : option string :=
  let secs := Z.max 0 since_epoch in
  let days := secs / 86400 in
  let time_of_day := secs mod 86400 in
  '(y, m, d) ← days_to_ymd days;
  Some (rfc3339 y m d (time_of_day / 3600) (time_of_day mod 3600 / 60) (time_of_day mod 60)).

Definition format_epoch_secs (secs : Z) : option string :=
  let days := secs / 86400 in
  let time_of_day := secs mod 86400 in
  let hours := time_of_day / 3600 in
  let minutes := time_of_day mod 3600 / 60 in
  let seconds := time_of_day mod 60 in
  '(y, remaining) ← year_loop (year_fuel days) 1970 days;
  let '(m, rest) := month_loop 0 (month_days (is_leap_year y)) remaining in
  Some (rfc3339 y m (rest + 1) hours minutes seconds).

(** ** The calendar *)

(** Leap years up to and including [y]; days from 1 January 1970 to 1 January
    of [y]; days of the months before [m]. *)
Definition leaps (y : Z) : Z := y / 4 - y / 100 + y / 400.
Definition days_before_year (y : Z) : Z := 365 * (y - 1970) + leaps (y - 1) - leaps 1969.
Definition days_in_month (y m : Z) : Z :=
  nth (Z.to_nat (m - 1)) (month_days (is_leap_year y)) 0.
Definition days_before_month (y m : Z) : Z :=
  foldr Z.add 0 (take (Z.to_nat (m - 1)) (month_days (is_leap_year y))).

Definition valid_date (y m d : Z) : Prop :=
  1970 ≤ y ∧ 1 ≤ m ≤ 12 ∧ 1 ≤ d ≤ days_in_month y m.
Definition day_number (y m d : Z) : Z :=
  days_before_year y + days_before_month y m + (d - 1).

Definition year_length (y : Z) : Z := if is_leap_year y then 366 else 365.

Lemma days_before_next y : days_before_year (y + 1) = days_before_year y + year_length y.
Proof.
  unfold days_before_year, year_length, is_leap_year, leaps.
  replace (y + 1 - 1) with y by lia.
  destruct (y mod 4 =? 0) eqn:E4, (y mod 100 =? 0) eqn:E100, (y mod 400 =? 0) eqn:E400;
    simpl; to_prop; Z.div_mod_to_equations; lia.
Qed.

Lemma year_length_bounds y : 365 ≤ year_length y ≤ 366.
Proof. unfold year_length. destruct (is_leap_year y); lia. Qed.

Lemma days_before_year_le y k :
  0 ≤ k → days_before_year y + 365 * k ≤ days_before_year (y + k).
Proof.
  intros Hk. pattern k. apply natlike_ind; [|clear k Hk; intros k Hk IH|done].
  { rewrite (Z.add_0_r y). lia. }
  replace (y + Z.succ k) with (y + k + 1) by lia. rewrite days_before_next.
  pose proof (year_length_bounds (y + k)). lia.
Qed.

Lemma year_loop_spec fuel y n :
  0 ≤ n < 365 * Z.of_nat fuel →
  ∃ y' r, year_loop fuel y n = Some (y', r) ∧ y ≤ y' ∧
    days_before_year y' + r = days_before_year y + n ∧ 0 ≤ r < year_length y'.
Proof.
  revert y n. induction fuel as [|fuel IH]; intros y n Hn; [lia|]. simpl.
  fold (year_length y). pose proof (year_length_bounds y).
  destruct (n <? year_length y) eqn:E; to_prop.
  { exists y, n. split_and!; [done|lia..]. }
  destruct (IH (y + 1) (n - year_length y)) as (y' & r & -> & ? & Hr & ?); [lia|].
  exists y', r. split_and!; [done|lia| |lia..]. rewrite Hr, days_before_next. lia.
Qed.

Lemma month_loop_spec i mds r :
  0 ≤ r < foldr Z.add 0 mds → Forall (λ d, 0 ≤ d) mds →
  ∃ k rest, month_loop i mds r = (i + Z.of_nat k + 1, rest) ∧ (k < length mds)%nat ∧
    r = foldr Z.add 0 (take k mds) + rest ∧ 0 ≤ rest < nth k mds 0.
Proof.
  revert i r. induction mds as [|d mds IH]; intros i r Hr Hd; simpl in *; [lia|].
  apply Forall_cons in Hd as [Hd Hds]. destruct (r <? d) eqn:E; to_prop.
  { exists 0%nat, r. split_and!; simpl; [f_equal; lia|lia..]. }
  destruct (IH (i + 1) (r - d)) as (k & rest & -> & ? & Hk & ?); [lia|done|].
  exists (S k), rest. split_and!; simpl; [f_equal; lia|lia..].
Qed.

Lemma month_days_nonneg b : Forall (λ d, 0 ≤ d) (month_days b).
Proof. destruct b; repeat constructor; done. Qed.

Lemma month_days_sum y : foldr Z.add 0 (month_days (is_leap_year y)) = year_length y.
Proof. unfold year_length. by destruct (is_leap_year y). Qed.

Lemma days_to_ymd_spec days :
  0 ≤ days →
  ∃ y m d, days_to_ymd days = Some (y, m, d) ∧ valid_date y m d ∧ day_number y m d = days.
Proof.
  intros Hd. unfold days_to_ymd.
  destruct (year_loop_spec (year_fuel days) 1970 days) as (y & r & -> & Hy & Hn & Hr).
  { unfold year_fuel. pose proof (Z.div_pos days 365). rewrite Nat2Z.inj_succ, Z2Nat.id by lia.
    Z.div_mod_to_equations. lia. }
  rewrite <- month_days_sum in Hr.
  destruct (month_loop_spec 0 _ _ Hr) as (k & rest & Hm & Hk & Hs & Hrest).
  { apply month_days_nonneg. }
  cbn [mbind option_bind]. rewrite Hm. exists y, (Z.of_nat k + 1), (rest + 1).
  change (length _) with 12%nat in Hk.
  split; [done|]. unfold valid_date, day_number, days_in_month, days_before_month.
  replace (Z.of_nat k + 1 - 1) with (Z.of_nat k) by lia. rewrite Nat2Z.id.
  change (days_before_year 1970) with 0 in Hn. lia.
Qed.

(** A date is determined by its day number. *)
Lemma take_sum_le (l : list Z) (k k' : nat) :
  Forall (λ d, 0 ≤ d) l → (k < k')%nat → (k < length l)%nat →
  foldr Z.add 0 (take k l) + nth k l 0 ≤ foldr Z.add 0 (take k' l).
Proof.
  revert k k'. induction l as [|d l IH]; intros [|k] [|k'] Hf ? ?; simpl in *; try lia;
    apply Forall_cons in Hf as [? Hf].
  - assert (0 ≤ foldr Z.add 0 (take k' l)); [|lia].
    clear -Hf. revert l Hf. induction k' as [|k' IHk]; intros [|x l] Hf; simpl; try lia.
    apply Forall_cons in Hf as [? Hf]. specialize (IHk l Hf). lia.
  - specialize (IH k k' Hf). lia.
Qed.

Lemma days_before_month_mono y m m' d :
  1 ≤ m < m' → m ≤ 12 → d ≤ days_in_month y m → days_before_month y m + d ≤ days_before_month y m'.
Proof.
  unfold days_before_month, days_in_month. intros Hm Hm' Hd.
  pose proof (take_sum_le (month_days (is_leap_year y)) (Z.to_nat (m - 1)) (Z.to_nat (m' - 1))
    (month_days_nonneg _)) as Hs. change (length _) with 12%nat in Hs. lia.
Qed.

Lemma valid_day_bounds y m d :
  valid_date y m d → days_before_year y ≤ day_number y m d < days_before_year (y + 1).
Proof.
  intros (Hy & Hm & Hd). rewrite days_before_next, <- month_days_sum. unfold day_number.
  pose proof (days_before_month_mono y m 13 d) as Hn.
  assert (H0 : 0 ≤ days_before_month y m).
  { destruct (decide (m = 1)) as [->|]; [done|].
    pose proof (days_before_month_mono y 1 m 0) as H1. unfold days_before_month in H1 at 1.
    simpl in H1. lapply H1; [|lia]. intros H2. lapply H2; [|lia]. intros H3. lapply H3; [lia|].
    unfold days_in_month. simpl. lia. }
  unfold days_before_month in Hn at 2. change (take (Z.to_nat (13 - 1)) ?l) with l in Hn. lia.
Qed.

Lemma day_number_inj y m d y' m' d' :
  valid_date y m d → valid_date y' m' d' → day_number y m d = day_number y' m' d' →
  y = y' ∧ m = m' ∧ d = d'.
Proof.
  intros Hv Hv' He.
  pose proof (valid_day_bounds _ _ _ Hv) as Hb. pose proof (valid_day_bounds _ _ _ Hv') as Hb'.
  assert (y = y') as <-.
  { destruct (Z.lt_trichotomy y y') as [|[|]]; [|done|].
    - pose proof (days_before_year_le (y + 1) (y' - (y + 1))). replace (y + 1 + _) with y' in * by lia. lia.
    - pose proof (days_before_year_le (y' + 1) (y - (y' + 1))). replace (y' + 1 + _) with y in * by lia. lia. }
  destruct Hv as (_ & Hm & Hd), Hv' as (_ & Hm' & Hd'). unfold day_number in He.
  destruct (Z.lt_trichotomy m m') as [|[<-|]].
  - pose proof (days_before_month_mono y m m' d). lia.
  - split_and!; [done|done|lia].
  - pose proof (days_before_month_mono y m' m d'). lia.
Qed.

(** ** Property *)

(** C19. The services' timestamps are the Gregorian ones: for every time the
    loops end, and the text names the unique valid date and time of day whose
    number of seconds since the epoch is the given one; the two copies of the
    code agree. *)
Theorem rfc3339_correct secs :
  0 ≤ secs →
  ∃ y m d h mi s, valid_date y m d ∧ 0 ≤ h < 24 ∧ 0 ≤ mi < 60 ∧ 0 ≤ s < 60 ∧
    secs = day_number y m d * 86400 + h * 3600 + mi * 60 + s ∧
    system_time_to_rfc3339 secs = Some (rfc3339 y m d h mi s) ∧
    format_epoch_secs secs = system_time_to_rfc3339 secs ∧
    (∀ y' m' d', valid_date y' m' d' → day_number y' m' d' = secs / 86400 →
       (y', m', d') = (y, m, d)).
Proof.
  intros Hs. unfold system_time_to_rfc3339, format_epoch_secs. rewrite Z.max_r by done.
  destruct (days_to_ymd_spec (secs / 86400)) as (y & m & d & Hd & Hv & Hn); [by apply Z.div_pos|].
  exists y, m, d, (secs mod 86400 / 3600), (secs mod 86400 mod 3600 / 60), (secs mod 86400 mod 60).
  rewrite Hn, Hd. split_and!; try done; try (Z.div_mod_to_equations; lia).
  - unfold days_to_ymd in Hd. destruct (year_loop _ _ _) as [[y1 r1]|]; [|done]. cbn [mbind option_bind] in Hd |- *.
    destruct (month_loop _ _ _) as [m1 rest]. by simplify_eq.
  - intros y' m' d' Hv' Hn'. destruct (day_number_inj y' m' d' y m d) as (-> & -> & ->); congruence.
Qed.

Lemma rfc3339_correct_witness :
  system_time_to_rfc3339 1709210096 = Some "2024-02-29T12:34:56Z" ∧
  ∃ y m d h mi s, valid_date y m d ∧
    system_time_to_rfc3339 1709210096 = Some (rfc3339 y m d h mi s).
Proof.
  split; [vm_compute; reflexivity|].
  destruct (rfc3339_correct 1709210096) as (y & m & d & h & mi & s & Hv & _ & _ & _ & _ & He & _); [done|].
  exists y, m, d, h, mi, s. split; [exact Hv|exact He].
Defined.
