(* ===== verification/Store.v ===== *)
(** * Files, and the content-addressed blob store (nova-runtime/src/image/blob_store.rs)

    [Disk] is the part of the file system the caches of the runtime live in:
    paths with their contents, and the faults the system will report.  Any
    operation can fail, a write after part of its bytes; the caches are
    proved against every sequence of faults.  The SHA-256 digest and the JSON
    text of an index are third-party ([Serde]). *)

From S2P Require Import Prelude Pool Wasm Sandbox.

(** ** Files *)

(** A fault of one operation: its message, and how much of a write was done. *)
Record Fault : Type := { fault_text : string; fault_done : nat }.

Record Disk : Type := {
  files : gmap string (list byte);
  faults : list (option Fault);
}.

Definition set_files (d : Disk) (f : gmap string (list byte)) : Disk :=
  {| files := f; faults := faults d |}.

(** One system call: it fails if the next fault says so. *)
Definition sys {A} (ok : Disk → A * gmap string (list byte))
    (partial : nat → Disk → gmap string (list byte)) : stm Disk string A := λ d,
  let d' := {| files := files d; faults := tail (faults d) |} in
  match head (faults d) with
  | Some (Some f) => (Err (fault_text f), set_files d' (partial (fault_done f) d))
  | _ => let '(a, m) := ok d in (Ok a, set_files d' m)
  end.

Definition no_such_file : string := "No such file or directory (os error 2)".

(** [File::create] (an empty file), [write_all] to it, [fs::write] (both). *)
Definition fs_create (p : string) : stm Disk string unit :=
  sys (λ d, (tt, <[p := []]> (files d))) (λ _ d, files d).
Definition fs_write_all (p : string) (data : list byte) : stm Disk string unit :=
  sys (λ d, (tt, <[p := data]> (files d))) (λ n d, <[p := take n data]> (files d)).
Definition fs_write (p : string) (data : list byte) : stm Disk string unit :=
  fs_create p ≫= λ _, fs_write_all p data.

(** Operations on a file that must exist. *)
Definition with_file {A} (p : string) (f : list byte → stm Disk string A) : stm Disk string A := λ d,
  match files d !! p with None => (Err no_such_file, d) | Some b => f b d end.

Definition fs_read (p : string) : stm Disk string (list byte) :=
  with_file p (λ b, sys (λ d, (b, files d)) (λ _ d, files d)).
Definition fs_size (p : string) : stm Disk string Z :=
  with_file p (λ b, sys (λ d, (zlen b, files d)) (λ _ d, files d)).
Definition fs_rename (p q : string) : stm Disk string unit :=
  with_file p (λ b, sys (λ d, (tt, <[q := b]> (delete p (files d)))) (λ _ d, files d)).
Definition fs_remove_file (p : string) : stm Disk string unit :=
  with_file p (λ b, sys (λ d, (tt, delete p (files d))) (λ _ d, files d)).
Definition fs_copy (p q : string) : stm Disk string unit :=
  with_file p (λ b, sys (λ d, (tt, <[q := b]> (files d))) (λ n d, <[q := take n b]> (files d))).

Definition exists_file (d : Disk) (p : string) : bool := bool_decide (is_Some (files d !! p)).

(** [let _ = ...]: the result is dropped. *)
Definition ignore {S E A} (m : stm S E A) : stm S E unit := λ s, (Ok tt, (m s).2).

(** [?] on an I/O result ([RuntimeError::Io]), on the disk of a pair. *)
Definition io {T A} (m : stm Disk string A) : stm (T * Disk) RuntimeError A := λ '(t, d),
  let '(r, d') := m d in (map_err Io r, (t, d')).

(** [Path::join] of a relative or an absolute path. *)
Definition join (p q : string) : string :=
  if String.prefix "/" q then q else p +:+ "/" +:+ q.

(** [serde_json] on an index type, with its documented round trip. *)
Class Serde (I : Type) : Type := {
  to_json : I → list byte;
  from_json : list byte → string + I;
}.
Class SerdeOk (I : Type) `{Serde I} : Prop := from_to : ∀ i, from_json (to_json i) = inr i.

(** Saving an index: a temporary file is written, then renamed. *)
Definition save_index {I} `{Serde I} (dir name : string) (i : I) : stm Disk string unit :=
  let index_path := join dir name in
  let tmp_path := join dir (name +:+ ".tmp") in
  fs_write tmp_path (to_json i) ≫= λ _, fs_rename tmp_path index_path.

(** Reading it back; [None] is a file that does not exist. *)
Definition load_json {I} `{Serde I} (dir name : string) : stm Disk string (option (string + I)) :=
  λ d,
    if exists_file d (join dir name) then
      let '(r, d') := fs_read (join dir name) d in
      (match r with Ok b => Ok (Some (from_json b)) | Err e => Err e | Panic p => Panic p end, d')
    else (Ok None, d).

(** ** What the operations touch *)

(** [m] changes no file outside [ps], whether it succeeds or not. *)
Definition frame {A} (ps : list string) (m : stm Disk string A) : Prop :=
  ∀ d q, q ∉ ps → files (m d).2 !! q = files d !! q.

Lemma frame_sys {A} ps (ok : Disk → A * gmap string (list byte)) partial :
  (∀ d q, q ∉ ps → (ok d).2 !! q = files d !! q) →
  (∀ n d q, q ∉ ps → partial n d !! q = files d !! q) → frame ps (sys ok partial).
Proof.
  intros Hok Hp d q Hq. unfold sys. destruct (head (faults d)) as [[f|]|]; simpl; [by apply Hp|..];
    specialize (Hok d q Hq); destruct (ok d); simpl in *; done.
Qed.

Lemma frame_with_file {A} ps p (f : list byte → stm Disk string A) :
  (∀ b, frame ps (f b)) → frame ps (with_file p f).
Proof. intros Hf d q Hq. unfold with_file. destruct (files d !! p); [by apply Hf|done]. Qed.

Lemma frame_bind {A B} ps (m : stm Disk string A) (f : A → stm Disk string B) :
  frame ps m → (∀ a, frame ps (f a)) → frame ps (m ≫= f).
Proof.
  intros Hm Hf d q Hq. unfold mbind, stm_bind. specialize (Hm d q Hq).
  destruct (m d) as [[a| |] d1]; simpl in *; [by rewrite Hf|done..].
Qed.

Lemma frame_weaken {A} ps ps' (m : stm Disk string A) : ps ⊆ ps' → frame ps m → frame ps' m.
Proof. intros Hs Hm d q Hq. apply Hm. set_solver. Qed.

Ltac frame_op := repeat first
  [ apply frame_with_file; intros ? | apply frame_sys; intros; cbn
  | rewrite lookup_insert_ne by set_solver | rewrite lookup_delete_ne by set_solver | done ].

Lemma frame_create p : frame [p] (fs_create p).
Proof. frame_op. Qed.
Lemma frame_write_all p b : frame [p] (fs_write_all p b).
Proof. frame_op. Qed.
Lemma frame_write p b : frame [p] (fs_write p b).
Proof. apply frame_bind; [apply frame_create|intros; apply frame_write_all]. Qed.
Lemma frame_rename p q : frame [p; q] (fs_rename p q).
Proof. frame_op. Qed.
Lemma frame_remove p : frame [p] (fs_remove_file p).
Proof. frame_op. Qed.
Lemma frame_copy p q : frame [q] (fs_copy p q).
Proof. frame_op. Qed.

(** The outcome of a write, and of a rename of a file with known contents. *)
Lemma write_all_ok p b d d' : fs_write_all p b d = (Ok tt, d') → files d' = <[p := b]> (files d).
Proof. unfold fs_write_all, sys. destruct (head _) as [[f|]|]; intros; by simplify_eq/=. Qed.

Lemma rename_cases p q b d r d' :
  files d !! p = Some b → fs_rename p q d = (r, d') →
  (r = Ok tt ∧ files d' = <[q := b]> (delete p (files d))) ∨
  ((∀ a, r ≠ Ok a) ∧ files d' = files d).
Proof.
  intros Hp. unfold fs_rename, with_file. rewrite Hp. unfold sys.
  destruct (head _) as [[f|]|]; intros; simplify_eq/=; [by right|by left..].
Qed.

Lemma sys_not_panic {A} (ok : Disk → A * gmap string (list byte)) partial d p :
  (sys ok partial d).1 ≠ Panic p.
Proof. unfold sys. destruct (head _) as [[f|]|]; simpl; [done|by destruct (ok _)..]. Qed.

(** Saving an index replaces the file as a whole or leaves it as it was. *)
Lemma save_index_atomic {I} `{Serde I} dir name (i : I) d :
  let '(r, d') := save_index dir name i d in
  join dir name ≠ join dir (name +:+ ".tmp") →
  (files d' !! join dir name = files d !! join dir name ∨
   files d' !! join dir name = Some (to_json i)) ∧
  (r = Ok tt → files d' !! join dir name = Some (to_json i)).
Proof.
  unfold save_index, fs_write. set (tmp := join dir (name +:+ ".tmp")). set (idx := join dir name).
  unfold mbind, stm_bind. pose proof (frame_create tmp d) as Hc.
  destruct (fs_create tmp d) as [[[]|e|p] d1] eqn:E1; simpl in Hc.
  2-3: intros; split; [left; apply Hc; set_solver|done].
  pose proof (frame_write_all tmp (to_json i) d1) as Hw.
  destruct (fs_write_all tmp (to_json i) d1) as [[[]|e|p] d2] eqn:E2; simpl in Hw.
  2-3: intros; split; [left; rewrite Hw, Hc by set_solver; done|done].
  pose proof (write_all_ok _ _ _ _ E2) as E2'.
  destruct (fs_rename tmp idx d2) as [r d3] eqn:E3. intros Hne.
  destruct (rename_cases tmp idx (to_json i) d2 r d3) as [[-> Hd]|[Hr Hd]];
    [rewrite E2'; apply lookup_insert_eq|done|..]; rewrite Hd.
  - rewrite lookup_insert_eq. auto.
  - split; [left; rewrite Hw, Hc by set_solver; done|]. intros ->. by destruct (Hr tt).
Qed.

(** ** The blob store *)

Record BlobEntry : Type := {
  digest : string;
  media_type : string;
  size : Z;
  ref_count : Z;
  last_accessed : Z;
}.

Definition BlobStoreIndex : Type := gmap string BlobEntry.

Record BlobStore : Type := {
  base_dir : string;
  blobs : BlobStoreIndex;
}.

Definition set_blobs (s : BlobStore) (b : BlobStoreIndex) : BlobStore :=
  {| base_dir := base_dir s; blobs := b |}.

Section BlobStore.
Context `{Serde BlobStoreIndex} (sha256_hex : list byte → string).

(** [str::strip_prefix]. *)
Fixpoint strip_prefix (p s : string) : option string :=
  match p, s with
  | EmptyString, _ => Some s
  | String a p, String b s => if Ascii.eqb a b then strip_prefix p s else None
  | _, EmptyString => None
  end.

Definition normalize_digest (d : string) : string :=
  if String.prefix "sha256:" d then d else "sha256:" +:+ d.
Definition hex_from_digest (d : string) : string :=
  match strip_prefix "sha256:" d with Some h => h | None => d end.

Definition blob_path_for_key (dir key : string) : option string :=
  let hex := hex_from_digest key in
  if String.eqb hex "" then None else Some (join (join dir "sha256") hex).

(** [open], on a directory that could be created. *)
Definition open (dir : string) : stm Disk RuntimeError BlobStore := λ d,
  match load_json dir "index.json" d with
  | (Ok None, d) => (Ok {| base_dir := dir; blobs := ∅ |}, d)
  | (Ok (Some (inr i)), d) => (Ok {| base_dir := dir; blobs := i |}, d)
  | (Ok (Some (inl e)), d) => (Err (Cache ("failed to parse blob index: " +:+ e)), d)
  | (Err e, d) => (Err (Io e), d)
  | (Panic p, d) => (Panic p, d)
  end.

Definition contains (s : BlobStore) (d : Disk) (dg : string) : bool :=
  let key := normalize_digest dg in
  match blobs s !! key with
  | None => false
  | Some e =>
      match blob_path_for_key (base_dir s) key with
      | Some p => exists_file d p
      | None => false
      end && (0 <? size e)
  end.

Definition blob_path (s : BlobStore) (dg : string) : option string :=
  let key := normalize_digest dg in
  match blobs s !! key with Some _ => blob_path_for_key (base_dir s) key | None => None end.

Definition flush : stm (BlobStore * Disk) RuntimeError unit := λ '(s, d),
  io (save_index (base_dir s) "index.json" (blobs s)) (s, d).

Definition put_entry (key mt : string) (n now : Z) : stm (BlobStore * Disk) RuntimeError unit :=
  modify (λ '(s, d),
    (set_blobs s (<[key := {| digest := key; media_type := mt; size := n; ref_count := 1;
                              last_accessed := now |}]> (blobs s)), d)).

(** The character of a file extension. *)
Definition dot : Ascii.ascii := Ascii.ascii_of_nat 46.

(** [Path::with_extension("tmp")] of a file name: what follows its last dot
    (other than a leading one) is replaced. *)
Fixpoint stem_of (s : string) : option string :=
  match s with
  | EmptyString => None
  | String c s' =>
      match stem_of s' with
      | Some t => Some (String c t)
      | None => if Ascii.eqb c dot then Some "" else None
      end
  end.
Definition tmp_name (hex : string) : string :=
  match stem_of hex with
  | Some "" | None => hex +:+ ".tmp"
  | Some t => t +:+ ".tmp"
  end.
Definition tmp_path (dir key : string) : string :=
  join (join dir "sha256") (tmp_name (hex_from_digest key)).

(** [insert]: verified, written beside its place and renamed. *)
Definition insert (dg mt : string) (data : list byte) (now : Z)
    : stm (BlobStore * Disk) RuntimeError unit := λ '(s, d),
  let key := normalize_digest dg in
  let computed := sha256_hex data in
  if negb (String.eqb computed (hex_from_digest key)) then
    (Err (Cache ("digest mismatch: expected " +:+ hex_from_digest key +:+ ", got " +:+ computed)), (s, d))
  else
  match blob_path_for_key (base_dir s) key with
  | None => (Err (Cache "invalid digest format"), (s, d))
  | Some path =>
      (io (fs_create (tmp_path (base_dir s) key)) ≫= λ _,
       io (fs_write_all (tmp_path (base_dir s) key) data) ≫= λ _,
       io (fs_rename (tmp_path (base_dir s) key) path) ≫= λ _,
       put_entry key mt (zlen data) now ≫= λ _,
       flush) (s, d)
  end.

(** [insert_file]: moved, or copied and removed; the digest is not computed. *)
Definition move_file (src dst : string) : stm (BlobStore * Disk) RuntimeError unit := λ '(s, d),
  match fs_rename src dst d with
  | (Ok _, d') => (Ok tt, (s, d'))
  | (_, d') => (io (fs_copy src dst) ≫= λ _, io (ignore (fs_remove_file src))) (s, d')
  end.

Definition insert_file (dg mt src : string) (now : Z)
    : stm (BlobStore * Disk) RuntimeError unit := λ '(s, d),
  let key := normalize_digest dg in
  match blob_path_for_key (base_dir s) key with
  | None => (Err (Cache "invalid digest format"), (s, d))
  | Some path =>
      (io (fs_size src) ≫= λ n,
       move_file src path ≫= λ _,
       put_entry key mt n now ≫= λ _,
       flush) (s, d)
  end.

Definition set_refs (e : BlobEntry) (n now : Z) : BlobEntry :=
  {| digest := digest e; media_type := media_type e; size := size e; ref_count := n;
     last_accessed := now |}.

Definition add_ref (dg : string) (now : Z) : stm (BlobStore * Disk) RuntimeError unit := λ '(s, d),
  let key := normalize_digest dg in
  match blobs s !! key with
  | None => (Err (Cache ("blob not found: " +:+ key)), (s, d))
  | Some e =>
      flush (set_blobs s (<[key := set_refs e (wrap32 (ref_count e + 1)) now]> (blobs s)), d)
  end.

(** [release_ref]; the count saturates at zero. *)
Definition drop_blob (key : string) : stm (BlobStore * Disk) RuntimeError unit := λ '(s, d),
  let d' := match blob_path_for_key (base_dir s) key with
            | Some p => (fs_remove_file p d).2
            | None => d
            end in
  (Ok tt, (set_blobs s (delete key (blobs s)), d')).

Definition release_ref (dg : string) (remove_if_zero : bool)
    : stm (BlobStore * Disk) RuntimeError unit := λ '(s, d),
  let key := normalize_digest dg in
  match blobs s !! key with
  | None => (Err (Cache ("blob not found: " +:+ key)), (s, d))
  | Some e =>
      let n := Z.max 0 (ref_count e - 1) in
      let s' := set_blobs s (<[key := set_refs e n (last_accessed e)]> (blobs s)) in
      if remove_if_zero && (n =? 0)
      then (drop_blob key ≫= λ _, flush) (s', d)
      else flush (s', d)
  end.

(** [gc]: unreferenced blobs older than [max_age]; a clock behind an entry's
    access time gives no age. *)
Definition is_garbage (now max_age : Z) (e : BlobEntry) : bool :=
  (ref_count e =? 0) && (last_accessed e <=? now) && (max_age <? now - last_accessed e).

Definition garbage_keys (now max_age : Z) (b : BlobStoreIndex) : list string :=
  (filter (λ kv, is_garbage now max_age kv.2 = true) (map_to_list b)).*1.

Definition gc (now max_age : Z) : stm (BlobStore * Disk) RuntimeError Z := λ '(s, d),
  let to_remove := garbage_keys now max_age (blobs s) in
  (for_each drop_blob to_remove ≫= λ _,
   (if 0 <? zlen to_remove then flush else mret tt) ≫= λ _,
   mret (zlen to_remove)) (s, d).

Definition total_size (s : BlobStore) : Z :=
  wrap64 (map_fold (λ _ e acc, size e + acc) 0 (blobs s)).
(** ** Paths *)

Lemma append_assoc (a b c : string) : (a +:+ b) +:+ c = a +:+ (b +:+ c).
Proof.
  induction a as [|x a IH]; [done|].
  change (String x ((a +:+ b) +:+ c) = String x (a +:+ (b +:+ c))). by rewrite IH.
Qed.

(** Lowercase hexadecimal text, as [hex::encode] gives. *)
Definition hex_digit (c : Ascii.ascii) : bool :=
  let n := Z.of_nat (Ascii.nat_of_ascii c) in
  ((48 <=? n) && (n <=? 57)) || ((97 <=? n) && (n <=? 102)).
Fixpoint all_hex (s : string) : bool :=
  match s with EmptyString => true | String c s => hex_digit c && all_hex s end.
Definition is_hex (s : string) : bool := negb (String.eqb s "") && all_hex s.

Lemma hex_not_absolute h : all_hex h = true → String.prefix "/" h = false.
Proof.
  destruct h as [|c h]; [done|]. simpl. intros [Hc _]%andb_prop.
  case_match; by subst.
Qed.

Lemma hex_no_dot h : all_hex h = true → stem_of h = None.
Proof.
  induction h as [|c h IH]; [done|]. simpl. intros [Hc Hh]%andb_prop. rewrite IH by done.
  destruct (Ascii.eqb_spec c dot) as [->|]; done.
Qed.

Lemma hex_digest h : all_hex h = true → hex_from_digest ("sha256:" +:+ h) = h.
Proof. done. Qed.

Definition index_file (dir : string) : string := join dir "index.json".
Definition index_tmp (dir : string) : string := join dir "index.json.tmp".
Definition blob_file (dir h : string) : string := join (join dir "sha256") h.

Lemma blob_file_eq dir h : all_hex h = true → blob_file dir h = dir +:+ "/sha256/" +:+ h.
Proof.
  intros Hh. unfold blob_file, join. rewrite hex_not_absolute by done. simpl.
  by rewrite append_assoc.
Qed.

Lemma blob_file_inj dir h h' :
  all_hex h = true → all_hex h' = true → blob_file dir h = blob_file dir h' → h = h'.
Proof. intros Hh Hh'. rewrite !blob_file_eq by done. by intros ?%(inj _)%(inj _). Qed.

Lemma blob_not_index dir h :
  all_hex h = true → blob_file dir h ≠ index_file dir ∧ blob_file dir h ≠ index_tmp dir.
Proof.
  intros Hh. rewrite blob_file_eq by done.
  split; by intros ?%(inj (String.append dir)).
Qed.

Lemma hex_tmp h : all_hex (h +:+ ".tmp") = false.
Proof.
  induction h as [|c h IH]; [done|].
  change (hex_digit c && all_hex (h +:+ ".tmp") = false). by rewrite IH, andb_false_r.
Qed.

Lemma blob_not_tmp dir h h' :
  all_hex h = true → all_hex h' = true → blob_file dir h ≠ tmp_path dir ("sha256:" +:+ h').
Proof.
  intros Hh Hh'. unfold tmp_path, tmp_name. rewrite hex_digest, hex_no_dot by done.
  rewrite blob_file_eq by done. unfold join at 1. simpl.
  assert (Hp : String.prefix "/" (h' +:+ ".tmp") = false).
  { destruct h' as [|c h']; [done|]. simpl in Hh' |- *. apply andb_prop in Hh' as [Hc _].
    case_match; by subst. }
  rewrite Hp. change (join dir "sha256") with (dir +:+ "/sha256"). rewrite !append_assoc.
  intros He%(inj (String.append dir)). apply (inj (String.append "/sha256/")) in He as ->.
  by rewrite hex_tmp in Hh.
Qed.

(** ** The invariant *)

Context (sha256_is_hex : ∀ b, is_hex (sha256_hex b) = true).

Lemma sha_all_hex b : all_hex (sha256_hex b) = true.
Proof. specialize (sha256_is_hex b). by apply andb_prop in sha256_is_hex as [_ ?]. Qed.

(** Every file under a digest has that digest. *)
Definition disk_ok (d : Disk) (dir : string) : Prop :=
  ∀ b0 b, files d !! blob_file dir (sha256_hex b0) = Some b → sha256_hex b = sha256_hex b0.

(** Every entry is filed under its digest, and the key is one. *)
Definition entry_ok (key : string) (e : BlobEntry) : Prop :=
  digest e = key ∧ ∃ b, key = "sha256:" +:+ sha256_hex b.

Definition store_ok (s : BlobStore) (d : Disk) : Prop :=
  disk_ok d (base_dir s) ∧ map_Forall entry_ok (blobs s).

(** The blobs of a store are untouched by changes to other files. *)
Lemma store_ok_frame s d d' :
  (∀ b, files d' !! blob_file (base_dir s) (sha256_hex b) =
        files d !! blob_file (base_dir s) (sha256_hex b)) →
  store_ok s d → store_ok s d'.
Proof. intros Hf [Hd Hi]. split; [|done]. intros b0 b. rewrite Hf. apply Hd. Qed.

(** An operation that ends by saving the index: the index file is the old one
    or the new, and the new one on success. *)
Definition saves (s' : BlobStore) (d d' : Disk) : Prop :=
  files d' !! index_file (base_dir s') = files d !! index_file (base_dir s') ∨
  files d' !! index_file (base_dir s') = Some (to_json (blobs s')).

Lemma flush_spec s d :
  let '(r, (s', d')) := flush (s, d) in
  s' = s ∧ saves s d d' ∧ (store_ok s d → store_ok s d') ∧
  (r = Ok tt → files d' !! index_file (base_dir s) = Some (to_json (blobs s))).
Proof.
  unfold flush, io. pose proof (save_index_atomic (base_dir s) "index.json" (blobs s) d) as Ha.
  assert (Hf : frame [index_tmp (base_dir s); index_file (base_dir s)]
                 (save_index (base_dir s) "index.json" (blobs s))).
  { apply frame_bind; [eapply frame_weaken; [|apply frame_write]; set_solver|].
    intros _. apply frame_rename. }
  specialize (Hf d). destruct (save_index _ _ _ _) as [r d']. simpl in Hf.
  destruct Ha as [Ha Hr]; [by intros ?%(inj (String.append _))|].
  split_and!; [done|exact Ha| |].
  - apply store_ok_frame. intros b. apply Hf.
    destruct (blob_not_index (base_dir s) (sha256_hex b) (sha_all_hex b)). set_solver.
  - destruct r as [[]| |]; simpl; [|done..]. intros _. by apply Hr.
Qed.

Lemma flush_step s0 s d0 d :
  base_dir s = base_dir s0 →
  files d !! index_file (base_dir s0) = files d0 !! index_file (base_dir s0) →
  store_ok s d →
  let '(r, (s', d')) := flush (s, d) in
  s' = s ∧ saves s d0 d' ∧ store_ok s d'  ∧
  (r = Ok tt → files d' !! index_file (base_dir s) = Some (to_json (blobs s))).
Proof.
  intros Hb Hi Hs. pose proof (flush_spec s d) as Hf. destruct (flush (s, d)) as [r [s' d']].
  destruct Hf as (-> & Hf & Hok & Hr). split_and!; [done| |by apply Hok|done].
  unfold saves in *. by rewrite Hb, <- Hi, <- Hb.
Qed.

(** What every operation guarantees, whatever faults occur. *)
Definition step_kept (s : BlobStore) (d : Disk) (s' : BlobStore) (d' : Disk) : Prop :=
  base_dir s' = base_dir s ∧ store_ok s' d' ∧ saves s' d d'.
Definition step_ok {A} (r : outcome RuntimeError A) (s : BlobStore) (d : Disk) (s' : BlobStore)
    (d' : Disk) : Prop :=
  step_kept s d s' d' ∧
  (is_ok r = true → files d' !! index_file (base_dir s) = Some (to_json (blobs s'))).

Lemma step_same {A} (e : RuntimeError) s d : store_ok s d → step_ok (A:=A) (Err e) s d s d.
Proof. intros. split; [|done]. split_and!; [done|done|by left]. Qed.

Lemma flush_ends s0 s d0 d :
  base_dir s = base_dir s0 →
  files d !! index_file (base_dir s0) = files d0 !! index_file (base_dir s0) →
  store_ok s d →
  step_ok (flush (s, d)).1 s0 d0 (flush (s, d)).2.1 (flush (s, d)).2.2.
Proof.
  intros Hb Hi Hs. pose proof (flush_step s0 s d0 d Hb Hi Hs) as Hf.
  destruct (flush (s, d)) as [r [s' d']]. destruct Hf as (-> & ? & ? & Hr). simpl.
  split; [done|]. destruct r as [[]| |]; [|done..]. intros _.
  rewrite <- Hb. by apply Hr.
Qed.

Lemma io_bind {T A B} (m : stm Disk string A) (f : A → stm Disk string B) (x : T * Disk) :
  (io m ≫= λ a, io (f a)) x = io (m ≫= f) x.
Proof. destruct x as [t d]. unfold mbind, stm_bind, io. by destruct (m d) as [[] ?]. Qed.

(** The blob's data reaches its place whole, or only the temporary file
    changes. *)
Definition write_blob (tmp path : string) (data : list byte) : stm Disk string unit :=
  fs_create tmp ≫= λ _, fs_write_all tmp data ≫= λ _, fs_rename tmp path.

Lemma write_blob_cases tmp path data d r d' :
  tmp ≠ path → write_blob tmp path data d = (r, d') →
  (∀ q, q ≠ tmp → q ≠ path → files d' !! q = files d !! q) ∧
  (r = Ok tt ∧ files d' !! path = Some data ∨
   (∀ a, r ≠ Ok a) ∧ files d' !! path = files d !! path).
Proof.
  intros Hne. unfold write_blob, mbind, stm_bind. pose proof (frame_create tmp d) as Hc.
  destruct (fs_create tmp d) as [[[]|e|p] d1] eqn:E1; simpl in Hc.
  2-3: intros [= <- <-]; split; [intros; apply Hc; set_solver|right; split; [done|apply Hc; set_solver]].
  pose proof (frame_write_all tmp data d1) as Hw.
  destruct (fs_write_all tmp data d1) as [[[]|e|p] d2] eqn:E2; simpl in Hw.
  2-3: intros [= <- <-]; split;
    [intros; rewrite Hw, Hc by set_solver; done
    |right; split; [done|rewrite Hw, Hc by set_solver; done]].
  pose proof (write_all_ok _ _ _ _ E2) as E2'. intros E3.
  destruct (rename_cases tmp path data d2 r d') as [[-> Hd]|[Hr Hd]];
    [rewrite E2'; apply lookup_insert_eq|done|..].
  - split; [|left; split; [done|by rewrite Hd, lookup_insert_eq]]. intros q ? ?.
    rewrite Hd, lookup_insert_ne, lookup_delete_ne, Hw, Hc by set_solver. done.
  - split; [|right; split; [done|rewrite Hd, Hw, Hc by set_solver; done]]. intros q ? ?.
    rewrite Hd, Hw, Hc by set_solver. done.
Qed.

(** Filing a blob whose file is in place. *)
Definition new_entry (key mt : string) (n now : Z) : BlobEntry :=
  {| digest := key; media_type := mt; size := n; ref_count := 1; last_accessed := now |}.

Lemma normalize_key dg data :
  sha256_hex data = hex_from_digest (normalize_digest dg) →
  normalize_digest dg = "sha256:" +:+ sha256_hex data.
Proof.
  unfold normalize_digest. destruct (String.prefix "sha256:" dg) eqn:E.
  - assert (Hp : ∃ r, dg = "sha256:" +:+ r); [|destruct Hp as [r ->]; by intros ->].
    clear -E. do 7 (destruct dg as [|? dg]; [done|]; simpl in E; case_match; [|done]; subst).
    by exists dg.
  - intros ->. done.
Qed.

(** Files of a digest other than [h] are untouched by filing [h]. *)
Definition files_but (dir h : string) (d d' : Disk) : Prop :=
  ∀ b, sha256_hex b ≠ h → files d' !! blob_file dir (sha256_hex b) =
                          files d !! blob_file dir (sha256_hex b).

Lemma put_ok s d d1 data mt now :
  let h := sha256_hex data in
  let key := "sha256:" +:+ h in
  store_ok s d → files_but (base_dir s) h d d1 →
  files d1 !! blob_file (base_dir s) h = Some data →
  store_ok (set_blobs s (<[key := new_entry key mt (zlen data) now]> (blobs s))) d1.
Proof.
  intros h key [Hd Hi] Hframe Hp. split.
  - intros b0 b. simpl base_dir. destruct (decide (sha256_hex b0 = h)) as [->|Hb].
    + rewrite Hp. by intros [= <-].
    + rewrite Hframe by done. apply Hd.
  - apply map_Forall_insert_2; [|done]. split; [done|by eexists].
Qed.

Lemma store_ok_but s d d1 h :
  store_ok s d → files_but (base_dir s) h d d1 →
  files d1 !! blob_file (base_dir s) h = files d !! blob_file (base_dir s) h → store_ok s d1.
Proof.
  intros Hs Hf Hh. eapply store_ok_frame; [|exact Hs]. intros b.
  destruct (decide (sha256_hex b = h)) as [->|Hb]; [done|by apply Hf].
Qed.

Lemma index_not_tmp dir h : all_hex h = true → index_file dir ≠ tmp_path dir ("sha256:" +:+ h).
Proof.
  intros Hh. unfold tmp_path, tmp_name. rewrite hex_digest, hex_no_dot by done. unfold join at 1.
  destruct (String.prefix "/" (h +:+ ".tmp")) eqn:E.
  - exfalso. destruct h as [|c h']; [done|]. simpl in Hh, E. apply andb_prop in Hh as [Hc _].
    case_match; [by subst|done].
  - change (join _ "sha256") with (dir +:+ "/sha256"). rewrite append_assoc.
    by intros ?%(inj (String.append _)).
Qed.

Lemma io_write_blob tmp path data (K : () → stm (BlobStore * Disk) RuntimeError ()) s d :
  (io (fs_create tmp) ≫= λ _, io (fs_write_all tmp data) ≫= λ _, io (fs_rename tmp path) ≫= K) (s, d)
  = match write_blob tmp path data d with
    | (Ok a, d1) => K a (s, d1)
    | (Err e, d1) => (Err (Io e), (s, d1))
    | (Panic p, d1) => (Panic p, (s, d1))
    end.
Proof.
  unfold write_blob, mbind, stm_bind, io. destruct (fs_create tmp d) as [[[]| |] d1]; [|done..].
  simpl. destruct (fs_write_all tmp data d1) as [[[]| |] d2]; [|done..]. simpl.
  by destruct (fs_rename tmp path d2) as [[[]| |] ?].
Qed.

Lemma insert_ok dg mt data now s d :
  store_ok s d →
  step_ok (insert dg mt data now (s, d)).1 s d
    (insert dg mt data now (s, d)).2.1 (insert dg mt data now (s, d)).2.2.
Proof.
  intros Hs. unfold insert. destruct (String.eqb_spec (sha256_hex data)
    (hex_from_digest (normalize_digest dg))) as [Hh|]; simpl; [|by apply step_same].
  rewrite (normalize_key dg data Hh). set (h := sha256_hex data) in *.
  assert (Hhex : all_hex h = true) by apply sha_all_hex.
  unfold blob_path_for_key. rewrite hex_digest by done.
  destruct (h =? "")%string; [by apply step_same|]. fold (blob_file (base_dir s) h).
  rewrite io_write_blob. set (tmp := tmp_path _ _). set (path := blob_file _ h).
  assert (Htmp : ∀ b, blob_file (base_dir s) (sha256_hex b) ≠ tmp).
  { intros b. apply blob_not_tmp; [apply sha_all_hex|done]. }
  destruct (write_blob tmp path data d) as [r d1] eqn:Ew.
  destruct (write_blob_cases tmp path data d r d1) as [Hframe Hcase];
    [intros He; by apply (Htmp data)|done|].
  assert (Hbut : files_but (base_dir s) h d d1).
  { intros b Hb. apply Hframe; [apply Htmp|]. intros He. apply blob_file_inj in He; auto using sha_all_hex. }
  assert (Hidx : files d1 !! index_file (base_dir s) = files d !! index_file (base_dir s)).
  { apply Hframe; [by apply index_not_tmp|].
    destruct (blob_not_index (base_dir s) h Hhex). by intros He. }
  destruct Hcase as [[-> Hp]|[Hr Hp]].
  - apply flush_ends; [done|done|]. by apply put_ok with (d := d).
  - destruct r as [[]|e|p]; [by destruct (Hr tt)|..];
      (split; [split_and!; [done|by apply (store_ok_but s d d1 h)|by left]|done]).
Qed.

(** Dropping a blob, and several. *)
Lemma filter_none_gone {A} (m : gmap string A) : filter (λ kv, kv.1 ∉ @nil string) m = m.
Proof. apply map_filter_id. intros k e _. apply not_elem_of_nil. Qed.

Lemma drop_blob_ok data s d :
  let key := "sha256:" +:+ sha256_hex data in
  store_ok s d →
  ∃ d', drop_blob key (s, d) = (Ok tt, (set_blobs s (delete key (blobs s)), d')) ∧
    store_ok (set_blobs s (delete key (blobs s))) d' ∧
    files d' !! index_file (base_dir s) = files d !! index_file (base_dir s).
Proof.
  intros key [Hd Hi]. set (h := sha256_hex data) in *. assert (Hhex : all_hex h = true) by apply sha_all_hex.
  unfold drop_blob, blob_path_for_key, key. rewrite hex_digest by done. fold (blob_file (base_dir s) h).
  eexists. split; [done|]. destruct (h =? "")%string.
  { split; [split; [done|by apply map_Forall_delete]|done]. }
  unfold fs_remove_file, with_file. destruct (files d !! blob_file (base_dir s) h) eqn:Ef.
  2: { split; [split; [done|by apply map_Forall_delete]|done]. }
  unfold sys, set_files. destruct (head (faults d)) as [[f|]|]; simpl;
    [split; [split; [done|by apply map_Forall_delete]|done]|..];
    (split; [split; [|by apply map_Forall_delete]|
       apply lookup_delete_ne; intros He; by destruct (blob_not_index (base_dir s) h Hhex)]);
    intros b0 b Hb0; cbn [files] in Hb0; apply lookup_delete_Some in Hb0 as [_ Hb]; by apply Hd.
Qed.

Lemma drop_blobs_ok keys s d :
  Forall (λ k, ∃ b, k = "sha256:" +:+ sha256_hex b) keys → store_ok s d →
  ∃ s' d', for_each drop_blob keys (s, d) = (Ok tt, (s', d')) ∧
    base_dir s' = base_dir s ∧
    blobs s' = filter (λ kv, kv.1 ∉ keys) (blobs s) ∧ store_ok s' d' ∧
    files d' !! index_file (base_dir s) = files d !! index_file (base_dir s).
Proof.
  intros Hk. revert s d. induction Hk as [|k keys [b ->] Hk IH]; intros s d Hs.
  { exists s, d. split_and!; try done. symmetry. apply filter_none_gone. }
  destruct (drop_blob_ok b s d Hs) as (d1 & E & Hs1 & Hi1).
  cbn [for_each]. unfold mbind, stm_bind. rewrite E.
  destruct (IH _ d1 Hs1) as (s' & d' & -> & Hb & Hbl & Hs' & Hi'). simpl in Hb, Hbl, Hi'.
  exists s', d'. split_and!; try done; [|by rewrite Hi'].
  rewrite Hbl. apply map_eq. intros i. apply option_eq. intros x.
  rewrite !map_lookup_filter_Some, lookup_delete_Some. set_solver.
Qed.

Lemma refs_ok s d key e n now :
  blobs s !! key = Some e → store_ok s d →
  store_ok (set_blobs s (<[key := set_refs e n now]> (blobs s))) d.
Proof. intros He [Hd Hi]. split; [done|]. apply map_Forall_insert_2; [exact (Hi _ _ He)|done]. Qed.

Lemma add_ref_ok dg now s d :
  store_ok s d →
  step_ok (add_ref dg now (s, d)).1 s d (add_ref dg now (s, d)).2.1 (add_ref dg now (s, d)).2.2.
Proof.
  intros Hs. unfold add_ref. destruct (blobs s !! _) as [e|] eqn:E; [|by apply step_same].
  apply flush_ends; [done|done|by apply refs_ok].
Qed.

Lemma release_ref_ok dg b s d :
  store_ok s d →
  step_ok (release_ref dg b (s, d)).1 s d (release_ref dg b (s, d)).2.1 (release_ref dg b (s, d)).2.2.
Proof.
  intros Hs. unfold release_ref. destruct (blobs s !! _) as [e|] eqn:E; [|by apply step_same].
  pose proof (refs_ok s d _ e (Z.max 0 (ref_count e - 1)) (last_accessed e) E Hs) as Hs1.
  destruct (_ && _); [|by apply flush_ends].
  destruct Hs as [_ Hi]. destruct (Hi _ _ E) as [_ [b0 Hk]]. rewrite Hk in *.
  destruct (drop_blob_ok b0 _ d Hs1) as (d1 & Ed & Hs2 & Hi1).
  unfold mbind, stm_bind. rewrite Ed. by apply flush_ends.
Qed.

Lemma garbage_keys_spec now max_age m k :
  k ∈ garbage_keys now max_age m ↔ ∃ e, m !! k = Some e ∧ is_garbage now max_age e = true.
Proof.
  unfold garbage_keys. rewrite list_elem_of_fmap. split.
  - intros ([k' e] & -> & [Hg Hm]%list_elem_of_filter). exists e. by apply elem_of_map_to_list in Hm.
  - intros (e & Hm & Hg). exists (k, e). split; [done|]. apply list_elem_of_filter.
    split; [done|]. by apply elem_of_map_to_list.
Qed.

Lemma gc_ok now max_age s d :
  store_ok s d →
  step_kept s d (gc now max_age (s, d)).2.1 (gc now max_age (s, d)).2.2 ∧
  blobs (gc now max_age (s, d)).2.1 =
    filter (λ kv, is_garbage now max_age kv.2 = false) (blobs s).
Proof.
  intros Hs. set (keys := garbage_keys now max_age (blobs s)).
  destruct (drop_blobs_ok keys s d) as (s' & d' & E & Hb & Hbl & Hs' & Hi').
  { apply Forall_forall. intros k (e & He & _)%garbage_keys_spec. destruct Hs as [_ Hi].
    by destruct (Hi _ _ He) as [_ ?]. }
  { done. }
  assert (Hfil : blobs s' = filter (λ kv, is_garbage now max_age kv.2 = false) (blobs s)).
  { rewrite Hbl. apply map_filter_ext. intros k e He. simpl. unfold keys.
    rewrite garbage_keys_spec. destruct (is_garbage now max_age e) eqn:Eg.
    - split; [|done]. intros []. by exists e.
    - split; [done|]. intros _ (e0 & He0 & Hg). assert (He1 : Some e0 = Some e) by (etrans; [symmetry; exact He0|exact He]).
      injection He1 as ->. by rewrite Eg in Hg. }
  assert (Hgc : gc now max_age (s, d) =
    ((if 0 <? zlen keys then flush else mret tt) ≫= λ _, mret (zlen keys)) (s', d')).
  { unfold gc. fold keys. unfold mbind at 1, stm_bind at 1. by rewrite E. }
  rewrite Hgc. unfold mbind, stm_bind.
  destruct (0 <? zlen keys) eqn:Ek.
  - pose proof (flush_ends s s' d d' Hb Hi' Hs') as Hf. pose proof (flush_spec s' d') as Hsp.
    destruct (flush (s', d')) as [[[]|er|p] [s2 d2]]; destruct Hsp as [-> _]; simpl in *;
      (split; [apply Hf|done]).
  - to_prop. assert (Hnil : keys = []).
    { destruct keys as [|k ks]; [done|]. rewrite zlen_cons in Ek. pose proof (zlen_nonneg ks). lia. }
    rewrite Hnil in E. simpl in E. injection E as <- <-. simpl. split; [|done].
    split_and!; [done|done|by left].
Qed.

(** ** Histories *)

Inductive blob_op : Type :=
| OInsert (dg mt : string) (data : list byte) (now : Z)
| OAddRef (dg : string) (now : Z)
| ORelease (dg : string) (remove_if_zero : bool)
| OGc (now max_age : Z).

Definition run_op (o : blob_op) : stm (BlobStore * Disk) RuntimeError unit :=
  match o with
  | OInsert dg mt data now => insert dg mt data now
  | OAddRef dg now => add_ref dg now
  | ORelease dg b => release_ref dg b
  | OGc now age => gc now age ≫= λ _, mret tt
  end.

(** All the operations, each with its own faults; the last one's result. *)
Fixpoint run_ops (ops : list blob_op) (r : outcome RuntimeError unit) (sd : BlobStore * Disk)
    : outcome RuntimeError unit * (BlobStore * Disk) :=
  match ops with
  | [] => (r, sd)
  | o :: ops => let '(r, sd) := run_op o sd in run_ops ops r sd
  end.

Lemma run_op_ok o s d :
  store_ok s d →
  step_kept s d (run_op o (s, d)).2.1 (run_op o (s, d)).2.2 ∧
  ((∀ now age, o ≠ OGc now age) → is_ok (run_op o (s, d)).1 = true →
   files (run_op o (s, d)).2.2 !! index_file (base_dir s) =
     Some (to_json (blobs (run_op o (s, d)).2.1))).
Proof.
  intros Hs. destruct o; simpl.
  - destruct (insert_ok dg mt data now s d Hs). done.
  - destruct (add_ref_ok dg now s d Hs). done.
  - destruct (release_ref_ok dg remove_if_zero s d Hs). done.
  - destruct (gc_ok now max_age s d Hs) as [Hg _]. unfold mbind, stm_bind.
    split; [|intros Hno; by destruct (Hno now max_age)]. by destruct (gc now max_age (s, d)) as [[] [? ?]].
Qed.

(** What the index file holds: the JSON of [m], or nothing. *)
Definition index_of (dir : string) (d : Disk) (m : option BlobStoreIndex) : Prop :=
  files d !! index_file dir = to_json <$> m.

Lemma run_ops_ok ops r s d m :
  store_ok s d → index_of (base_dir s) d m → map_Forall entry_ok (default ∅ m) →
  let '(r', (s', d')) := run_ops ops r (s, d) in
  base_dir s' = base_dir s ∧ store_ok s' d' ∧
  ∃ m', index_of (base_dir s) d' m' ∧ map_Forall entry_ok (default ∅ m') ∧
    (m' = m ∨ ∃ k, (k ≤ length ops)%nat ∧ m' = Some (blobs (run_ops (take k ops) r (s, d)).2.1)).
Proof.
  revert r s d m. induction ops as [|o ops IH]; intros r s d m Hs Hm Hent; simpl.
  { split_and!; [done|done|]. exists m. split_and!; [done|done|by left]. }
  destruct (run_op_ok o s d Hs) as [Ho _].
  destruct (run_op o (s, d)) as [r1 [s1 d1]] eqn:E. simpl in Ho. destruct Ho as (Hb & Hs1 & Hsave).
  assert (∃ m1, index_of (base_dir s1) d1 m1 ∧ map_Forall entry_ok (default ∅ m1) ∧
    (m1 = m ∨ m1 = Some (blobs s1))) as (m1 & Hm1 & Hent1 & Hcase).
  { unfold saves, index_of in *. rewrite Hb in *. destruct Hsave as [Hi|Hi].
    - exists m. split_and!; [by rewrite Hi|done|by left].
    - exists (Some (blobs s1)). split_and!; [done|apply Hs1|by right]. }
  specialize (IH r1 s1 d1 m1 Hs1 Hm1 Hent1).
  destruct (run_ops ops r1 (s1, d1)) as [r' [s' d']] eqn:E'.
  destruct IH as (Hb' & Hs' & m' & Hm' & Hent' & Hcase').
  split_and!; [by rewrite Hb'|done|]. exists m'. rewrite <- Hb. split_and!; [done|done|].
  destruct Hcase' as [->|(k & Hk & ->)].
  - destruct Hcase as [->| ->]; [by left|]. right. exists 1%nat. split; [lia|].
    cbn [take run_ops]. by rewrite E.
  - right. exists (S k). split; [lia|]. simpl. by rewrite E.
Qed.

Definition fresh_store (dir : string) : BlobStore := {| base_dir := dir; blobs := ∅ |}.

Lemma open_index dir d m :
  SerdeOk BlobStoreIndex → faults d = [] → index_of dir d m →
  ∃ d', open dir d = (Ok {| base_dir := dir; blobs := default ∅ m |}, d') ∧ files d' = files d.
Proof.
  intros Hser Hf Hm. unfold open, load_json. fold (index_file dir). unfold exists_file.
  unfold index_of in Hm. rewrite Hm. destruct m as [m|]; simpl.
  - unfold fs_read, with_file. rewrite Hm. simpl. unfold sys. rewrite Hf. simpl. rewrite from_to.
    by eexists.
  - by eexists.
Qed.

(** ** Property *)


(** [insert_file] files bytes under a digest they need not have. *)
Lemma insert_file_unverified dg mt src b now s d h :
  normalize_digest dg = "sha256:" +:+ h → is_hex h = true →
  files d !! src = Some b → b ≠ [] → faults d = [] →
  src ≠ index_file (base_dir s) → src ≠ index_tmp (base_dir s) →
  ∃ s' d', insert_file dg mt src now (s, d) = (Ok tt, (s', d')) ∧ contains s' d' dg = true ∧
    files d' !! blob_file (base_dir s) h = Some b.
Proof.
  intros Hdg [Hne Hhex]%andb_prop Hsrc Hb Hf Hs1 Hs2. unfold insert_file, blob_path_for_key.
  rewrite Hdg, hex_digest by done. destruct (h =? "")%string eqn:Eh; [done|].
  fold (blob_file (base_dir s) h). unfold mbind at 1, stm_bind at 1, io at 1.
  unfold fs_size, with_file, sys. rewrite Hsrc, Hf. simpl.
  unfold mbind at 1, stm_bind at 1, move_file, fs_rename, with_file, sys. simpl.
  rewrite Hsrc. simpl. unfold put_entry, modify, mbind, stm_bind.
  set (s1 := set_blobs s _). set (d1 := set_files _ _).
  destruct (blob_not_index (base_dir s) h Hhex) as [Hi1 Hi2].
  assert (Hp : files d1 !! blob_file (base_dir s) h = Some b) by apply lookup_insert_eq.
  assert (Hfl : flush (s1, d1) = (Ok tt, (s1, {| files := <[index_file (base_dir s) := to_json (blobs s1)]>
     (delete (index_tmp (base_dir s)) (<[index_tmp (base_dir s) := to_json (blobs s1)]>
       (<[index_tmp (base_dir s) := []]> (files d1)))); faults := [] |}))).
  { unfold flush, io, save_index, fs_write, fs_create, fs_write_all, fs_rename, with_file, sys, mbind, stm_bind.
    simpl. fold (index_tmp (base_dir s)). rewrite lookup_insert_eq. done. }
  eexists _, _. split; [exact Hfl|]. split.
  - unfold contains. rewrite Hdg.
    assert (He : blobs s1 !! ("sha256:" +:+ h) = Some (new_entry ("sha256:" +:+ h) mt (zlen b) now))
      by apply lookup_insert_eq.
    rewrite He. unfold blob_path_for_key. change (base_dir s1) with (base_dir s).
    rewrite hex_digest, Eh by done. fold (blob_file (base_dir s) h). apply andb_true_intro. split.
    + apply bool_decide_eq_true_2. cbn [files]. rewrite !lookup_insert_ne, lookup_delete_ne, !lookup_insert_ne by done.
      rewrite Hp. by eexists.
    + simpl. destruct b; [done|]. apply Z.ltb_lt. rewrite zlen_cons. pose proof (zlen_nonneg b0). lia.
  - cbn [files]. by rewrite !lookup_insert_ne, lookup_delete_ne, !lookup_insert_ne by done.
Qed.

End BlobStore.

(** ** Witness *)

(** A text for indexes: the bits of their number in stdpp's enumeration. *)
Fixpoint pos_bits (p : positive) : list byte :=
  match p with
  | xH => []
  | xO p => x00 :: pos_bits p
  | xI p => z2b 1 :: pos_bits p
  end.
Fixpoint bits_pos (l : list byte) : positive :=
  match l with
  | [] => xH
  | b :: l => if b2z b =? 0 then xO (bits_pos l) else xI (bits_pos l)
  end.

Lemma bits_pos_bits p : bits_pos (pos_bits p) = p.
Proof. induction p as [p IH|p IH|]; simpl; [by rewrite IH..|done]. Qed.

#[export] Instance BlobEntry_eq_dec : EqDecision BlobEntry.
Proof. solve_decision. Defined.
#[export] Instance BlobEntry_countable : Countable BlobEntry.
Proof.
  refine (inj_countable' (λ e, (digest e, media_type e, size e, ref_count e, last_accessed e))
    (λ '(a, b, c, r, l), {| digest := a; media_type := b; size := c; ref_count := r;
                            last_accessed := l |}) _).
  by intros [].
Defined.

#[local] Instance demo_serde : Serde BlobStoreIndex := {|
  to_json := λ i, pos_bits (encode i);
  from_json := λ b, match decode (bits_pos b) with Some i => inr i | None => inl "bad" end;
|}.
Lemma demo_serde_ok : SerdeOk BlobStoreIndex.
Proof. intros i. simpl. by rewrite bits_pos_bits, decode_encode. Qed.

Definition demo_sha (b : list byte) : string := match b with [] => "e0" | _ => "ab12" end.

(** The second save fails while it writes: the reference is lost, the blob is
    not. *)
Definition demo_disk : Disk :=
  {| files := ∅;
     faults := [None; None; None; None; None; None; None; Some {| fault_text := "ENOSPC"; fault_done := 3 |}] |}.
Definition demo_ops : list blob_op :=
  [OInsert "ab12" "layer" [x00] 5; OAddRef "ab12" 6].

