(* ===== verification/Oci.v ===== *)
(** * OCI image layouts (nova-runtime/src/image/oci.rs)

    Opening a layout directory: its version file, its index, and the manifest
    and configuration blobs with their digests verified.  Reading JSON is
    serde_json's ([OciJson]), SHA-256 a parameter. *)

From S2P Require Import Prelude Pool Wasm Sandbox Store.

Record OciLayout : Type := { image_layout_version : string }.

Record OciPlatform : Type := {
  architecture : string;
  os : string;
  variant : option string;
}.

Record OciDescriptor : Type := {
  od_media_type : string;
  od_digest : string;
  od_size : Z;
  od_platform : option OciPlatform;
}.

Record OciIndex : Type := { schema_version : Z; manifests : list OciDescriptor }.

Record OciManifest : Type := { om_config : OciDescriptor; om_layers : list OciDescriptor }.

Record OciContainerConfig : Type := {
  cmd : option (list string);
  entrypoint : option (list string);
  env : option (list string);
  working_dir : option string;
}.

Record OciRootfs : Type := { rootfs_type : string; diff_ids : list string }.

Record OciConfig : Type := {
  oc_architecture : string;
  oc_os : string;
  oc_config : OciContainerConfig;
  oc_rootfs : OciRootfs;
}.

Record OciImageLayout : Type := {
  layout_dir : string;
  manifest : OciManifest;
  image_config : OciConfig;
}.

(** [serde_json::from_str] and [from_slice] at the four types, with the text
    of their errors. *)
Class OciJson : Type := {
  parse_layout : list byte → string + OciLayout;
  parse_index : list byte → string + OciIndex;
  parse_manifest : list byte → string + OciManifest;
  parse_config : list byte → string + OciConfig;
}.

Section Oci.
Context `{OciJson} (sha256_hex : list byte → string).

(** The manifest for linux/amd64, or the first one. *)
Fixpoint find_amd64 (ds : list OciDescriptor) : option OciDescriptor :=
  match ds with
  | [] => None
  | d :: ds =>
      match od_platform d with
      | Some p => if String.eqb (os p) "linux" && String.eqb (architecture p) "amd64"
                  then Some d else find_amd64 ds
      | None => find_amd64 ds
      end
  end.

Definition resolve_manifest_descriptor (i : OciIndex) : outcome RuntimeError OciDescriptor :=
  match manifests i with
  | [] => Err (Image "index.json has no manifests")
  | d0 :: _ => Ok (default d0 (find_amd64 (manifests i)))
  end.

(** [splitn(2, ':')]: the text before and after the first colon. *)
Fixpoint split_colon (s : string) : option (string * string) :=
  match s with
  | EmptyString => None
  | String c s =>
      if Ascii.eqb c (Ascii.ascii_of_nat 58) then Some ("", s) else
      '(a, b) ← split_colon s; Some (String c a, b)
  end.

Definition descriptor_to_blob_path (dir : string) (d : OciDescriptor) : string :=
  match split_colon (od_digest d) with
  | Some (alg, hex) => join (join (join dir "blobs") alg) hex
  | None => join (join dir "blobs") (od_digest d)
  end.

Definition image_err {A} (pre : string) (r : outcome string A) : outcome RuntimeError A :=
  map_err (λ e, Image (pre +:+ e)) r.

Definition on_disk {A} (pre : string) (m : stm Disk string A) : stm Disk RuntimeError A := λ d,
  let '(r, d') := m d in (image_err pre r, d').

Definition read_and_verify_blob (dir : string) (desc : OciDescriptor)
    : stm Disk RuntimeError (list byte) :=
  let path := descriptor_to_blob_path dir desc in
  on_disk ("failed to read blob " +:+ path +:+ ": ") (fs_read path) ≫= λ data,
  let computed := "sha256:" +:+ sha256_hex data in
  if negb (String.eqb computed (od_digest desc)) then
    throw (Image ("digest mismatch for " +:+ path +:+ ": expected " +:+ od_digest desc
                  +:+ ", got " +:+ computed))
  else mret data.

(** [OciImageLayout::open]. *)
Definition open_layout (path : string) : stm Disk RuntimeError OciImageLayout :=
  on_disk "failed to read oci-layout: " (fs_read (join path "oci-layout")) ≫= λ ldata,
  lift (image_err "invalid oci-layout: " (of_sum (parse_layout ldata))) ≫= λ layout,
  if negb (String.eqb (image_layout_version layout) "1.0.0") then
    throw (Image ("unsupported OCI layout version: " +:+ image_layout_version layout))
  else
  on_disk "failed to read index.json: " (fs_read (join path "index.json")) ≫= λ idata,
  lift (image_err "invalid index.json: " (of_sum (parse_index idata))) ≫= λ index,
  lift (resolve_manifest_descriptor index) ≫= λ desc,
  read_and_verify_blob path desc ≫= λ mblob,
  lift (image_err "invalid manifest: " (of_sum (parse_manifest mblob))) ≫= λ m,
  read_and_verify_blob path (om_config m) ≫= λ cblob,
  lift (image_err "invalid config: " (of_sum (parse_config cblob))) ≫= λ c,
  mret {| layout_dir := path; manifest := m; image_config := c |}.

(** ** What an opened layout guarantees *)

Lemma stm_bind_inv {S E A B} (m : stm S E A) (f : A → stm S E B) s b s' :
  (m ≫= f) s = (Ok b, s') → ∃ a s1, m s = (Ok a, s1) ∧ f a s1 = (Ok b, s').
Proof. unfold mbind, stm_bind. destruct (m s) as [[a|e|p] s1]; [|done..]. eauto. Qed.

Lemma fs_read_ok p d b d' : fs_read p d = (Ok b, d') → files d !! p = Some b ∧ files d' = files d.
Proof.
  unfold fs_read, with_file. destruct (files d !! p) as [c|]; [|done]. unfold sys.
  destruct (head (faults d)) as [[f|]|]; intros; by simplify_eq/=.
Qed.

Lemma on_disk_ok {A} pre (m : stm Disk string A) d a d' :
  on_disk pre m d = (Ok a, d') → m d = (Ok a, d').
Proof. unfold on_disk. destruct (m d) as [[]]; intros; by simplify_eq/=. Qed.

Lemma lift_ok {S E A} (r : outcome E A) (s : S) a s' : lift r s = (Ok a, s') → r = Ok a ∧ s' = s.
Proof. unfold lift. by intros [= -> ->]. Qed.

Lemma image_err_ok {A} pre (r : string + A) a : image_err pre (of_sum r) = Ok a → r = inr a.
Proof. destruct r; intros; by simplify_eq/=. Qed.

Lemma read_and_verify_ok dir desc d b d' :
  read_and_verify_blob dir desc d = (Ok b, d') →
  files d !! descriptor_to_blob_path dir desc = Some b ∧ files d' = files d ∧
  od_digest desc = "sha256:" +:+ sha256_hex b.
Proof.
  unfold read_and_verify_blob. intros (b1 & d1 & Hr & Hv)%stm_bind_inv.
  apply on_disk_ok, fs_read_ok in Hr as [Hr Hf].
  destruct (String.eqb_spec ("sha256:" +:+ sha256_hex b1) (od_digest desc)); [|done].
  simpl in Hv. unfold mret, stm_ret in Hv. by simplify_eq.
Qed.

Lemma find_amd64_member ds x : find_amd64 ds = Some x → x ∈ ds.
Proof.
  induction ds as [|y ds IH]; simpl; [done|].
  destruct (od_platform y); [|intros ?; right; by apply IH].
  destruct (_ && _); [intros [= ->]; by left|intros ?; right; by apply IH].
Qed.

Lemma resolve_member i desc : resolve_manifest_descriptor i = Ok desc → desc ∈ manifests i.
Proof.
  unfold resolve_manifest_descriptor. destruct (manifests i) as [|d0 ds] eqn:E; [done|].
  intros Hd. injection Hd as Hd. change (default d0 (find_amd64 (d0 :: ds)) = desc) in Hd.
  destruct (find_amd64 (d0 :: ds)) as [x|] eqn:Ex; simpl in Hd; subst; [by apply find_amd64_member|by left].
Qed.

(** Opening reads and verifies: the manifest is one the index names, it and
    the configuration have the digests they are named by, no file changes. *)
Lemma open_layout_ok path d l d' :
  open_layout path d = (Ok l, d') →
  files d' = files d ∧ layout_dir l = path ∧
  ∃ ib idx desc mb cb,
    files d !! join path "index.json" = Some ib ∧ parse_index ib = inr idx ∧ desc ∈ manifests idx ∧
    files d !! descriptor_to_blob_path path desc = Some mb ∧ od_digest desc = "sha256:" +:+ sha256_hex mb ∧
    parse_manifest mb = inr (manifest l) ∧
    files d !! descriptor_to_blob_path path (om_config (manifest l)) = Some cb ∧
    od_digest (om_config (manifest l)) = "sha256:" +:+ sha256_hex cb ∧ parse_config cb = inr (image_config l).
Proof.
  unfold open_layout. intros (ldata & d1 & H1 & Hr)%stm_bind_inv. apply on_disk_ok, fs_read_ok in H1 as [_ F1].
  apply stm_bind_inv in Hr as (lay & ? & [_ ->]%lift_ok & Hr). destruct (negb _); [done|].
  apply stm_bind_inv in Hr as (ib & d2 & H2 & Hr). apply on_disk_ok, fs_read_ok in H2 as [H2 F2].
  apply stm_bind_inv in Hr as (idx & ? & [Hi%image_err_ok ->]%lift_ok & Hr).
  apply stm_bind_inv in Hr as (desc & ? & [Hd%resolve_member ->]%lift_ok & Hr).
  apply stm_bind_inv in Hr as (mb & d3 & (H3 & F3 & Hm)%read_and_verify_ok & Hr).
  apply stm_bind_inv in Hr as (m & ? & [Hpm%image_err_ok ->]%lift_ok & Hr).
  apply stm_bind_inv in Hr as (cb & d4 & (H4 & F4 & Hc)%read_and_verify_ok & Hr).
  apply stm_bind_inv in Hr as (c & ? & [Hpc%image_err_ok ->]%lift_ok & Hr).
  unfold mret, stm_ret in Hr. injection Hr as <- <-. cbn [manifest image_config layout_dir].
  rewrite F1 in F2, H2. rewrite F2 in F3, H3. rewrite F3 in F4, H4.
  split; [by rewrite F4|]. split; [done|]. by exists ib, idx, desc, mb, cb.
Qed.

End Oci.
