(* ===== verification/Extract.v ===== *)
(** * Extracting image layers (nova-runtime/src/image/extract.rs)

    Layers are unpacked one over the other into a directory of the host; the
    whiteout entries of a layer delete what they name.  The archive reader is
    the tar crate's and the gzip decoder's ([Tar]); the host's files are a map
    from absolute paths. *)

From stdpp Require Import gmap strings.
From S2P Require Import Prelude Sandbox Store Oci.

(** ** Paths

    A path is its components, empty ones and [.] left out, as
    [Path::components] gives them. *)

Record rpath : Type := { absolute : bool; comps : list string }.

Fixpoint split_path (acc : string) (s : string) : list string :=
  match s with
  | EmptyString => [acc]
  | String c s =>
      if Ascii.eqb c (Ascii.ascii_of_nat 47) then acc :: split_path "" s
      else split_path (acc +:+ String c "") s
  end.
Definition is_comp (c : string) : bool := negb ((c =? "")%string || (c =? ".")%string).
Definition parse_path (s : string) : rpath :=
  {| absolute := String.prefix "/" s; comps := List.filter is_comp (split_path "" s) |}.

(** [Path::file_name] and [Path::parent]. *)
Definition file_name (p : rpath) : option string :=
  match last (comps p) with Some ".." | None => None | n => n end.
Definition parent_path (p : rpath) : option rpath :=
  match comps p with
  | [] => None
  | c => Some {| absolute := absolute p; comps := take (length c - 1) c |}
  end.
(** [Path::join]: an absolute path replaces the base. *)
Definition join_rpath (p q : rpath) : rpath :=
  if absolute q then q else {| absolute := absolute p; comps := comps p ++ comps q |}.

(** The file the system finds, from the root; there are no symbolic links. *)
Definition hpath : Type := list string.
Definition enter (at_ : hpath) (c : string) : hpath :=
  if (c =? "..")%string then take (length at_ - 1) at_ else at_ ++ [c].
Definition resolve (base : hpath) (p : rpath) : hpath :=
  foldl enter (if absolute p then [] else base) (comps p).

(** ** The host's files *)

Inductive hnode : Type := HDir | HFile (data : list byte).
#[export] Instance hnode_eq_dec : EqDecision hnode.
Proof. solve_decision. Defined.
Abbreviation Fs := (gmap hpath hnode).

Definition is_dir (fs : Fs) (p : hpath) : bool := bool_decide (p = [] ∨ fs !! p = Some HDir).
Definition fs_exists (fs : Fs) (p : hpath) : bool := bool_decide (p = [] ∨ is_Some (fs !! p)).
Definition at_or_below (p q : hpath) : Prop := p `prefix_of` q.
Definition strictly_below (p q : hpath) : Prop := p `prefix_of` q ∧ p ≠ q.
#[export] Instance at_or_below_dec p q : Decision (at_or_below p q).
Proof. unfold at_or_below. apply _. Defined.
#[export] Instance strictly_below_dec p q : Decision (strictly_below p q).
Proof. unfold strictly_below. apply _. Defined.

(** [create_dir_all]: every directory on the way, unless a file is in it. *)
Fixpoint prefixes (p : hpath) : list hpath :=
  match p with [] => [] | c :: p => [c] :: (cons c <$> prefixes p) end.
Definition is_file (fs : Fs) (p : hpath) : bool :=
  match fs !! p with Some (HFile _) => true | _ => false end.
Definition create_dir_all (p : hpath) : stm Fs string unit := λ fs,
  if existsb (is_file fs) (prefixes p) then (Err "Not a directory (os error 20)", fs)
  else (Ok tt, foldl (λ fs q, <[q := HDir]> fs) fs (prefixes p)).

(** Removing a file or a whole directory, and the contents of a directory. *)
Definition del (f : hpath → bool) (fs : Fs) : Fs := filter (λ kv, f kv.1 = false) fs.
Definition remove_path (p : hpath) : Fs → Fs := del (λ q, bool_decide (at_or_below p q)).
Definition clear_dir (p : hpath) : Fs → Fs := del (λ q, bool_decide (strictly_below p q)).

Class Tar : Type := {
  TarEntry : Type;
  (** The entries of a compressed archive up to the first that cannot be
      read, with its error. *)
  tar_entries : list byte → list (string * TarEntry) * option string;
  (** [unpack_in] the directory. *)
  unpack_in : TarEntry → hpath → Fs → string + Fs;
}.

Section Extract.
Context `{Tar}.

(** ** One layer *)

Record Whiteouts : Type := { whiteouts : list rpath; opaque_dirs : list rpath }.
Definition no_whiteouts : Whiteouts := {| whiteouts := []; opaque_dirs := [] |}.

(** What an entry asks for. *)
Inductive entry_kind : Type := KOpaque (dir : rpath) | KWhiteout (target : rpath) | KNormal | KSkip.
Definition entry_of (path : string) : entry_kind :=
  let p := parse_path path in
  match file_name p with
  | None => KNormal
  | Some name =>
      if (name =? ".wh..wh..opq")%string then
        match parent_path p with Some d => KOpaque d | None => KSkip end
      else match strip_prefix ".wh." name with
        | Some target =>
            match parent_path p with
            | Some d => KWhiteout (join_rpath d (parse_path target))
            | None => KWhiteout (parse_path target)
            end
        | None => KNormal
        end
  end.

(** The pass over the entries. *)
Fixpoint unpack_entries (out : hpath) (es : list (string * TarEntry)) (w : Whiteouts)
    : stm Fs RuntimeError Whiteouts := λ fs,
  match es with
  | [] => (Ok w, fs)
  | (path, e) :: es =>
      match entry_of path with
      | KOpaque d => unpack_entries out es {| whiteouts := whiteouts w; opaque_dirs := opaque_dirs w ++ [d] |} fs
      | KWhiteout t => unpack_entries out es {| whiteouts := whiteouts w ++ [t]; opaque_dirs := opaque_dirs w |} fs
      | KSkip => unpack_entries out es w fs
      | KNormal =>
          match unpack_in e out fs with
          | inl err => (Err (Image ("failed to extract " +:+ path +:+ ": " +:+ err)), fs)
          | inr fs' => unpack_entries out es w fs'
          end
      end
  end.

Definition apply_opaque (out : hpath) (d : rpath) (fs : Fs) : Fs :=
  let p := resolve out d in if is_dir fs p then clear_dir p fs else fs.
Definition apply_whiteout (out : hpath) (t : rpath) (fs : Fs) : Fs :=
  let p := resolve out t in if fs_exists fs p then remove_path p fs else fs.

(** A layer: its entries, then the opaque directories, then the whiteouts. *)
Definition apply_layer (out : hpath) (blob : list byte) : stm Fs RuntimeError unit := λ fs,
  let '(es, bad) := tar_entries blob in
  match unpack_entries out es no_whiteouts fs with
  | (Ok w, fs1) =>
      match bad with
      | Some e => (Err (Image ("failed to read tar entry: " +:+ e)), fs1)
      | None =>
          let fs2 := foldl (λ fs d, apply_opaque out d fs) fs1 (opaque_dirs w) in
          (Ok tt, foldl (λ fs t, apply_whiteout out t fs) fs2 (whiteouts w))
      end
  | (Err e, fs1) => (Err e, fs1)
  | (Panic p, fs1) => (Panic p, fs1)
  end.

(** ** All layers; the blobs are read from the layout without a check *)

Definition extract_layers (layout : string) (out : hpath) (layers : list OciDescriptor)
    : stm (Fs * Disk) RuntimeError unit :=
  (λ '(fs, d), let '(r, fs1) := create_dir_all out fs in (map_err Io r, (fs1, d))) ≫= λ _,
  for_each (λ l, λ '(fs, d),
    let path := descriptor_to_blob_path layout l in
    match fs_read path d with
    | (Ok blob, d1) => let '(r, fs1) := apply_layer out blob fs in (r, (fs1, d1))
    | (Err e, d1) => (Err (Image ("failed to open layer blob " +:+ path +:+ ": " +:+ e)), (fs, d1))
    | (Panic p, d1) => (Panic p, (fs, d1))
    end) layers.

(** ** What extraction does to the host *)

(** Every entry lies in directories. *)
Definition fs_wf (fs : Fs) : Prop :=
  ∀ p q n, fs !! q = Some n → strictly_below p q → p ≠ [] → fs !! p = Some HDir.

(** A path that stays below the directory it is resolved from. *)
Definition clean (p : rpath) : Prop := absolute p = false ∧ Forall (λ c, c ≠ "..") (comps p).
Definition clean_entry (path : string) : Prop :=
  match entry_of path with KOpaque d => clean d | KWhiteout t => clean t | _ => True end.
Definition clean_archive (blob : list byte) : Prop := Forall (λ e, clean_entry e.1) (tar_entries blob).1.

Lemma resolve_below out p : clean p → at_or_below out (resolve out p).
Proof.
  intros [Ha Hc]. unfold resolve. rewrite Ha. clear Ha.
  assert (Hgen : ∀ cur, at_or_below out cur → at_or_below out (foldl enter cur (comps p))).
  { induction Hc as [|c cs Hc Hcs IH]; intros cur Hcur; [done|]. cbn [foldl]. apply IH.
    unfold enter. destruct (String.eqb_spec c ".."); [done|]. by apply prefix_app_r. }
  by apply Hgen.
Qed.

Definition outside (out q : hpath) : Prop := ¬ at_or_below out q.

(** The tar crate: nothing is written outside the target directory. *)
Definition unpack_confined : Prop :=
  ∀ e out fs fs' q, unpack_in e out fs = inr fs' → outside out q → fs' !! q = fs !! q.

Lemma del_lookup f fs q : del f fs !! q = if f q then None else fs !! q.
Proof.
  unfold del. destruct (f q) eqn:E.
  - apply map_lookup_filter_None_2. right. cbn. intros n _. by rewrite E.
  - destruct (fs !! q) as [n|] eqn:Eq; [by apply map_lookup_filter_Some_2|].
    apply map_lookup_filter_None_2. by left.
Qed.

Lemma removed_outside (out p : hpath) (fs : Fs) (q : hpath) :
  at_or_below out p → outside out q → remove_path p fs !! q = fs !! q ∧ clear_dir p fs !! q = fs !! q.
Proof.
  intros Hp Hq. assert (Hpq : ¬ at_or_below p q) by (intros Hb; apply Hq; by etrans).
  unfold remove_path, clear_dir. rewrite !del_lookup, !bool_decide_eq_false_2; [done| |done]. by intros [? _].
Qed.

Lemma unpack_entries_confined out es w fs q :
  unpack_confined → outside out q → (unpack_entries out es w fs).2 !! q = fs !! q.
Proof.
  intros Hu Hq. revert w fs. induction es as [|[path e] es IH]; intros w fs; [done|].
  cbn [unpack_entries]. destruct (entry_of path); try apply IH.
  destruct (unpack_in e out fs) as [err|fs'] eqn:E; [done|]. rewrite IH. by eapply Hu.
Qed.

Lemma unpack_entries_asks out es w fs w' fs' :
  unpack_entries out es w fs = (Ok w', fs') → Forall (λ e, clean_entry e.1) es →
  Forall clean (opaque_dirs w) → Forall clean (whiteouts w) →
  Forall clean (opaque_dirs w') ∧ Forall clean (whiteouts w').
Proof.
  intros Hr Hc. revert w fs Hr. induction Hc as [|[path e] es Hc Hcs IH]; intros w fs Hr Ho Hw.
  { cbn in Hr. by injection Hr as <- _. }
  cbn [unpack_entries] in Hr. unfold clean_entry in Hc. cbn [fst] in Hc.
  destruct (entry_of path) as [d|t| |].
  - eapply (IH _ _ Hr); cbn; [|done]. apply Forall_app; split; [done|by apply Forall_singleton].
  - eapply (IH _ _ Hr); cbn; [done|]. apply Forall_app; split; [done|by apply Forall_singleton].
  - destruct (unpack_in e out fs); [done|]. by eapply (IH _ _ Hr).
  - by eapply (IH _ _ Hr).
Qed.

Lemma removals_confined out ds ts fs q :
  Forall clean ds → Forall clean ts → outside out q →
  foldl (λ fs t, apply_whiteout out t fs) (foldl (λ fs d, apply_opaque out d fs) fs ds) ts !! q = fs !! q.
Proof.
  intros Hd Ht Hq. revert fs. induction Hd as [|d ds Hd Hds IH]; intros fs; cbn [foldl].
  - induction Ht as [|t ts Ht Hts IH] in fs |- *; cbn [foldl]; [done|]. rewrite IH. unfold apply_whiteout.
    destruct (fs_exists _ _); [|done]. by apply (removed_outside out), Hq; apply resolve_below.
  - rewrite IH. unfold apply_opaque. destruct (is_dir _ _); [|done].
    by apply (removed_outside out), Hq; apply resolve_below.
Qed.

Lemma apply_layer_confined out blob fs q :
  unpack_confined → clean_archive blob → outside out q → (apply_layer out blob fs).2 !! q = fs !! q.
Proof.
  intros Hu Hc Hq. unfold apply_layer, clean_archive in *. destruct (tar_entries blob) as [es bad].
  pose proof (unpack_entries_confined out es no_whiteouts fs q Hu Hq) as Hun.
  destruct (unpack_entries out es no_whiteouts fs) as [[w|e|p] fs1] eqn:E; [|done..].
  destruct bad; [done|]. destruct (unpack_entries_asks _ _ _ _ _ _ E Hc) as [Ho Hw]; [constructor..|].
  cbn [snd] in *. by rewrite removals_confined.
Qed.

(** One step of the loop over the layers. *)
Definition extract_layer (layout : string) (out : hpath) (l : OciDescriptor) : stm (Fs * Disk) RuntimeError unit :=
  λ '(fs, d),
    let path := descriptor_to_blob_path layout l in
    match fs_read path d with
    | (Ok blob, d1) => let '(r, fs1) := apply_layer out blob fs in (r, (fs1, d1))
    | (Err e, d1) => (Err (Image ("failed to open layer blob " +:+ path +:+ ": " +:+ e)), (fs, d1))
    | (Panic p, d1) => (Panic p, (fs, d1))
    end.

Lemma fs_read_files p d : files (fs_read p d).2 = files d.
Proof.
  unfold fs_read, with_file. destruct (files d !! p); [|done]. unfold sys, set_files.
  by destruct (head (faults d)) as [[]|].
Qed.
Lemma fs_read_data p d b d' : fs_read p d = (Ok b, d') → files d !! p = Some b.
Proof.
  unfold fs_read, with_file. destruct (files d !! p); [|done]. unfold sys, set_files.
  destruct (head (faults d)) as [[]|]; [done|..]; by intros [= <- _].
Qed.

Lemma create_dir_all_outside p fs q : q ∉ prefixes p → (create_dir_all p fs).2 !! q = fs !! q.
Proof.
  intros Hq. unfold create_dir_all. destruct (existsb _ _); [done|]. cbn [snd]. revert fs.
  induction (prefixes p) as [|x l IH]; intros fs; [done|]. cbn [foldl].
  rewrite IH by set_solver. apply lookup_insert_ne. set_solver.
Qed.


(** Without that condition it does: a whiteout with an absolute path deletes
    a file of the host. *)
Lemma whiteout_escapes out blob e fs n :
  tar_entries blob = ([("/etc/.wh.passwd", e)], None) → fs !! ["etc"; "passwd"] = Some n →
  (apply_layer out blob fs).2 !! ["etc"; "passwd"] = None ∧ is_ok (apply_layer out blob fs).1 = true.
Proof.
  intros Ht Hn. unfold apply_layer. rewrite Ht. cbn [unpack_entries].
  assert (Hk : entry_of "/etc/.wh.passwd" = KWhiteout {| absolute := true; comps := ["etc"; "passwd"] |}) by done.
  rewrite Hk. cbn. split; [|done]. unfold apply_whiteout. change (resolve out _) with ["etc"; "passwd"].
  unfold fs_exists. rewrite bool_decide_eq_true_2 by (right; by eexists).
  unfold remove_path. by rewrite del_lookup, bool_decide_eq_true_2.
Qed.

(** ** Against the layer semantics of the OCI image specification *)

(** What a layer hides of the layers below it. *)
Definition asks1 (path : string) (w : Whiteouts) : Whiteouts :=
  match entry_of path with
  | KOpaque d => {| whiteouts := whiteouts w; opaque_dirs := opaque_dirs w ++ [d] |}
  | KWhiteout t => {| whiteouts := whiteouts w ++ [t]; opaque_dirs := opaque_dirs w |}
  | _ => w
  end.
Definition asks (es : list (string * TarEntry)) : Whiteouts := foldl (λ w e, asks1 e.1 w) no_whiteouts es.
Definition hidden (out : hpath) (w : Whiteouts) (q : hpath) : bool :=
  existsb (λ d, bool_decide (strictly_below (resolve out d) q)) (opaque_dirs w) ||
  existsb (λ t, bool_decide (at_or_below (resolve out t) q)) (whiteouts w).

(** A deletion that takes what is below with it keeps entries in directories. *)
Definition closed (f : hpath → bool) : Prop := ∀ p q, strictly_below p q → f p = true → f q = true.
Lemma del_wf f fs : closed f → fs_wf fs → fs_wf (del f fs).
Proof.
  intros Hf Hwf p q n. rewrite !del_lookup. destruct (f q) eqn:Eq; [done|]. intros Hq Hpq Hne.
  destruct (f p) eqn:Ep; [|by eapply Hwf]. by rewrite (Hf p q Hpq Ep) in Eq.
Qed.
Lemma del_del f g fs : del f (del g fs) = del (λ q, g q || f q) fs.
Proof. apply map_eq. intros q. rewrite !del_lookup. by destruct (f q), (g q). Qed.
Lemma del_ext f g fs : (∀ q, f q = g q) → del f fs = del g fs.
Proof. intros Hfg. apply map_eq. intros q. by rewrite !del_lookup, Hfg. Qed.
Lemma del_none f fs : (∀ q n, fs !! q = Some n → f q = false) → del f fs = fs.
Proof.
  intros Hf. apply map_eq. intros q. rewrite del_lookup. destruct (fs !! q) eqn:E.
  - by rewrite (Hf q _ E).
  - by destruct (f q).
Qed.

Lemma closed_below p : closed (λ q, bool_decide (at_or_below p q)).
Proof. intros a b [Hab _]. rewrite !bool_decide_eq_true. intros Ha. by etrans. Qed.
Lemma closed_strictly p : closed (λ q, bool_decide (strictly_below p q)).
Proof.
  intros a b [Hab Hne]. rewrite !bool_decide_eq_true. intros [Ha Hpa].
  split; [by etrans|]. intros <-. apply Hpa. by apply (anti_symm prefix).
Qed.
Lemma closed_or f g : closed f → closed g → closed (λ q, f q || g q).
Proof. intros Hf Hg p q Hpq [Hp|Hp]%orb_true_iff; apply orb_true_iff; eauto. Qed.

Lemma apply_opaque_wf out d fs : fs_wf fs → apply_opaque out d fs = clear_dir (resolve out d) fs.
Proof.
  intros Hwf. unfold apply_opaque. destruct (is_dir fs (resolve out d)) eqn:E; [done|].
  symmetry. apply del_none. intros q n Hq. apply bool_decide_eq_false_2. intros Hb.
  apply bool_decide_eq_false_1 in E. apply E. destruct (resolve out d) as [|c p]; [by left|]. right.
  by eapply Hwf.
Qed.

Lemma apply_whiteout_wf out t fs : fs_wf fs → apply_whiteout out t fs = remove_path (resolve out t) fs.
Proof.
  intros Hwf. unfold apply_whiteout. destruct (fs_exists fs (resolve out t)) eqn:E; [done|].
  symmetry. apply del_none. intros q n Hq. apply bool_decide_eq_false_2. intros Hb.
  apply bool_decide_eq_false_1 in E. apply E. destruct (resolve out t) as [|c p]; [by left|]. right.
  destruct (decide (c :: p = q)) as [<-|Hne]; [by eexists|]. exists HDir. by eapply (Hwf _ q n).
Qed.

Lemma opaques_del out ds fs :
  fs_wf fs →
  let fs' := foldl (λ fs d, apply_opaque out d fs) fs ds in
  fs' = del (λ q, existsb (λ d, bool_decide (strictly_below (resolve out d) q)) ds) fs ∧ fs_wf fs'.
Proof.
  revert fs. induction ds as [|d ds IH]; intros fs Hwf; cbn [foldl existsb].
  - split; [|done]. symmetry. by apply del_none.
  - rewrite apply_opaque_wf by done. destruct (IH (clear_dir (resolve out d) fs)) as [-> Hwf'].
    { apply del_wf; [apply closed_strictly|done]. }
    split; [|done]. unfold clear_dir. by rewrite del_del.
Qed.

Lemma whiteouts_del out ts fs :
  fs_wf fs →
  let fs' := foldl (λ fs t, apply_whiteout out t fs) fs ts in
  fs' = del (λ q, existsb (λ t, bool_decide (at_or_below (resolve out t) q)) ts) fs ∧ fs_wf fs'.
Proof.
  revert fs. induction ts as [|t ts IH]; intros fs Hwf; cbn [foldl existsb].
  - split; [|done]. symmetry. by apply del_none.
  - rewrite apply_whiteout_wf by done. destruct (IH (remove_path (resolve out t) fs)) as [-> Hwf'].
    { apply del_wf; [apply closed_below|done]. }
    split; [|done]. unfold remove_path. by rewrite del_del.
Qed.

(** The deletions of a layer together. *)
Lemma removals_hidden out w fs :
  fs_wf fs →
  let fs' := foldl (λ fs t, apply_whiteout out t fs)
               (foldl (λ fs d, apply_opaque out d fs) fs (opaque_dirs w)) (whiteouts w) in
  fs' = del (hidden out w) fs ∧ fs_wf fs'.
Proof.
  intros Hwf. destruct (opaques_del out (opaque_dirs w) fs Hwf) as [Ho Hwf1]. cbn zeta in *.
  destruct (whiteouts_del out (whiteouts w) _ Hwf1) as [Ht Hwf2]. cbn zeta in *. split; [|done].
  by rewrite Ht, Ho, del_del.
Qed.

Lemma del_union_keep (f : hpath → bool) (A B : gmap hpath hnode) :
  (∀ q n, A !! q = Some n → f q = false) → del f (A ∪ B) = A ∪ (del f B : gmap hpath hnode).
Proof.
  intros HA. apply map_eq. intros q. rewrite lookup_union, !del_lookup, lookup_union.
  specialize (HA q). destruct (A !! q) as [n|]; [by rewrite (HA n eq_refl)|].
  destruct (f q); by destruct (B !! q).
Qed.

(** The files an entry puts in place, and those of a list of entries. *)
Context (placed : TarEntry → hpath → Fs).
Definition is_normal (path : string) : bool := match entry_of path with KNormal => true | _ => false end.
Definition placed_all (out : hpath) (es : list (string * TarEntry)) (acc : Fs) : Fs :=
  foldl (λ acc e, if is_normal e.1 then placed e.2 out ∪ acc else acc) acc es.

(** The specification: whiteouts hide files of lower layers only, then the
    layer's own files are added. *)
Definition oci_layer (out : hpath) (fs : Fs) (blob : list byte) : Fs :=
  let es := (tar_entries blob).1 in
  placed_all out es (del (hidden out (asks es)) fs).

(** No file of a layer lies where a whiteout of the same layer deletes. *)
Definition no_overlap (out : hpath) (blob : list byte) : Prop :=
  let es := (tar_entries blob).1 in
  Forall (λ e, is_normal e.1 = true → ∀ (q : hpath) n, placed e.2 out !! q = Some n → hidden out (asks es) q = false) es.

(** The tar crate on success: an entry's files are put over what is there,
    in directories. *)
Context (Hplaced : ∀ e out fs fs', fs_wf fs → unpack_in e out fs = inr fs' →
  fs' = placed e out ∪ fs ∧ fs_wf fs').

Lemma unpack_entries_ok out es w fs w' fs' :
  fs_wf fs → unpack_entries out es w fs = (Ok w', fs') →
  w' = foldl (λ w e, asks1 e.1 w) w es ∧ fs' = placed_all out es fs ∧ fs_wf fs'.
Proof.
  intros Hwf. revert w fs Hwf. induction es as [|[path e] es IH]; intros w fs Hwf Hr.
  { cbn in Hr. by injection Hr as <- <-. }
  cbn [unpack_entries] in Hr. unfold placed_all. cbn [foldl fst snd]. unfold asks1 at 2, is_normal at 2.
  destruct (entry_of path); try by apply IH in Hr.
  destruct (unpack_in e out fs) as [|fs1] eqn:E; [done|]. destruct (Hplaced _ _ _ _ Hwf E) as [-> Hwf1].
  by apply IH in Hr.
Qed.

Lemma placed_all_del (out : hpath) (w : Whiteouts) (es : list (string * TarEntry)) (fs : Fs) :
  Forall (λ e, is_normal e.1 = true → ∀ (q : hpath) n, placed e.2 out !! q = Some n → hidden out w q = false) es →
  del (hidden out w) (placed_all out es fs) = placed_all out es (del (hidden out w) fs).
Proof.
  intros Hes. revert fs. induction Hes as [|e es He Hes IH]; intros fs; [done|].
  unfold placed_all in *. cbn [foldl]. rewrite IH. destruct (is_normal e.1); [|done].
  f_equal. apply del_union_keep. by apply He.
Qed.

Lemma apply_layer_oci out blob fs fs' :
  fs_wf fs → no_overlap out blob → apply_layer out blob fs = (Ok tt, fs') →
  fs' = oci_layer out fs blob ∧ fs_wf fs'.
Proof.
  intros Hwf Hno. unfold apply_layer, oci_layer, no_overlap in *. destruct (tar_entries blob) as [es bad].
  cbn [fst] in *. destruct (unpack_entries out es no_whiteouts fs) as [[w|e|p] fs1] eqn:E; [|done..].
  destruct bad; [done|]. intros [= <-].
  destruct (unpack_entries_ok _ _ _ _ _ _ Hwf E) as (-> & -> & Hwf1).
  fold (asks es). destruct (removals_hidden out (asks es) _ Hwf1) as [-> Hwf2].
  split; [by apply placed_all_del|]. exact Hwf2.
Qed.

Lemma prefixes_spec p q : q ∈ prefixes p ↔ q `prefix_of` p ∧ q ≠ [].
Proof.
  revert q. induction p as [|c p IH]; intros q; cbn [prefixes].
  - split; [by intros []%elem_of_nil|]. intros [Hq Hne]. by apply prefix_nil_inv in Hq.
  - rewrite elem_of_cons, list_elem_of_fmap. split.
    + intros [->|(q' & -> & [Hq _]%IH)]; (split; [|done]); [apply prefix_cons, prefix_nil|by apply prefix_cons].
    + intros [Hq Hne]. destruct q as [|x q]; [done|].
      pose proof (prefix_cons_inv_1 _ _ _ _ Hq) as ->. apply prefix_cons_inv_2 in Hq.
      destruct q as [|y q]; [by left|]. right. exists (y :: q). split; [done|]. apply IH. by split.
Qed.

Lemma mkdirs_lookup (l : list hpath) (fs : Fs) q :
  foldl (λ fs q, <[q := HDir]> fs) fs l !! q = if bool_decide (q ∈ l) then Some HDir else fs !! q.
Proof.
  revert fs. induction l as [|x l IH]; intros fs; cbn [foldl]; [done|]. rewrite IH.
  destruct (decide (q ∈ l)) as [Hin|Hin].
  - rewrite !bool_decide_eq_true_2; [done|by right|done].
  - rewrite (bool_decide_eq_false_2 (q ∈ l)) by done. destruct (decide (q = x)) as [->|Hne].
    + rewrite bool_decide_eq_true_2 by by left. apply lookup_insert_eq.
    + rewrite bool_decide_eq_false_2 by (rewrite elem_of_cons; naive_solver).
      by apply lookup_insert_ne.
Qed.

Lemma create_dir_all_wf p fs fs' : fs_wf fs → create_dir_all p fs = (Ok tt, fs') → fs_wf fs'.
Proof.
  intros Hwf. unfold create_dir_all. destruct (existsb _ _) eqn:E; [done|]. intros [= <-] a b n.
  rewrite !mkdirs_lookup. intros Hb [Hab Hne] Ha.
  destruct (bool_decide_reflect (a ∈ prefixes p)) as [|Hap]; [done|].
  destruct (bool_decide_reflect (b ∈ prefixes p)) as [Hbp|_]; [|by eapply Hwf].
  exfalso. apply Hap. apply prefixes_spec in Hbp as [Hbp _]. apply prefixes_spec. split; [by etrans|done].
Qed.


End Extract.

(** ** Two layers at concrete values *)

(** An archive of one file each, that needs its directory to exist. *)
Definition demo_unpack (e : hpath * list byte) (out : hpath) (fs : Fs) : string + Fs :=
  let p := out ++ e.1 in
  if forallb (λ q, bool_decide (q = p) || is_dir fs q) (prefixes p) && negb (is_dir fs p) && negb (bool_decide (p = []))
  then inr (<[p := HFile e.2]> fs) else inl "no such directory".
#[local] Instance demo_tar : Tar := {|
  TarEntry := hpath * list byte;
  tar_entries := λ b, match b2z <$> b with
    | [1] => ([("a", (["a"], [x00])); ("b", (["b"], []))], None)
    | [2] => ([(".wh.a", ([], [])); ("c", (["c"], []))], None)
    | _ => ([("/etc/.wh.passwd", ([], []))], None) end;
  unpack_in := demo_unpack |}.

Lemma demo_confined : unpack_confined.
Proof.
  intros e out fs fs' q. cbn. unfold demo_unpack. destruct (_ && _); [|done]. intros [= <-] Hq.
  apply lookup_insert_ne. intros <-. apply Hq. by apply prefix_app_r.
Qed.

Definition demo_placed (e : hpath * list byte) (out : hpath) : Fs := {[ out ++ e.1 := HFile e.2 ]}.
Lemma demo_placed_ok e out fs fs' :
  fs_wf fs → unpack_in e out fs = inr fs' → fs' = demo_placed e out ∪ fs ∧ fs_wf fs'.
Proof.
  intros Hwf. cbn. unfold demo_unpack. set (p := out ++ e.1).
  destruct (_ && _ && _) eqn:E; [|done]. intros [= <-]. apply andb_prop in E as [[Hdirs Hp]%andb_prop Hne].
  split; [apply insert_union_singleton_l|]. intros a b n Hb [Hab Hab'] Ha.
  assert (Hpd : fs !! p ≠ Some HDir).
  { intros Hd. unfold is_dir in Hp. by rewrite bool_decide_eq_true_2 in Hp by by right. }
  destruct (decide (b = p)) as [->|Hbp].
  - rewrite lookup_insert_ne by done. rewrite forallb_forall in Hdirs.
    specialize (Hdirs a). rewrite <- list_elem_of_In, prefixes_spec in Hdirs. specialize (Hdirs (conj Hab Ha)).
    rewrite bool_decide_eq_false_2 in Hdirs by done. unfold is_dir in Hdirs. cbn in Hdirs.
    by apply bool_decide_eq_true_1 in Hdirs as [|].
  - rewrite lookup_insert_ne in Hb by done. pose proof (Hwf a b n Hb (conj Hab Hab') Ha) as Had.
    destruct (decide (a = p)) as [->|]; [done|]. by rewrite lookup_insert_ne.
Qed.

Definition demo_layer (digest : string) : OciDescriptor :=
  {| od_media_type := ""; od_digest := "sha256:" +:+ digest; od_size := 0; od_platform := None |}.
Definition demo_blobs (l : list (string * Z)) : Disk :=
  {| files := list_to_map ((λ '(n, z), ("/l/blobs/sha256/" +:+ n, [z2b z])) <$> l); faults := [] |}.

Lemma demo_disk_cases l layer blob :
  files (demo_blobs l) !! descriptor_to_blob_path "/l" layer = Some blob → ∃ n z, (n, z) ∈ l ∧ blob = [z2b z].
Proof.
  intros Hb. apply elem_of_list_to_map_2 in Hb. apply list_elem_of_fmap in Hb as ([n z] & [= _ ->] & Hin).
  by exists n, z.
Qed.


Lemma demo_placed_lookup e out q n : demo_placed e out !! q = Some n → q = out ++ e.1.
Proof. unfold demo_placed. by intros [-> _]%lookup_singleton_Some. Qed.
Lemma demo_no_overlap1 : no_overlap demo_placed ["out"] [z2b 1].
Proof.
  assert (E : tar_entries [z2b 1] = ([("a", (["a"], [x00])); ("b", (["b"], []))], None)) by by vm_compute.
  unfold no_overlap. rewrite E. cbn [fst].
  repeat apply Forall_cons_2; [..|apply Forall_nil_2]; intros _ q m ->%demo_placed_lookup; by vm_compute.
Qed.
Lemma demo_no_overlap2 : no_overlap demo_placed ["out"] [z2b 2].
Proof.
  assert (E : tar_entries [z2b 2] = ([(".wh.a", ([], [])); ("c", (["c"], []))], None)) by by vm_compute.
  unfold no_overlap. rewrite E. cbn [fst]. repeat apply Forall_cons_2; [..|apply Forall_nil_2]; intros Hn q m ->%demo_placed_lookup;
    [by vm_compute in Hn|by vm_compute].
Qed.

