(* ===== verification/Caches.v ===== *)
(** * The rootfs, snapshot and image caches (nova-runtime: image/rootfs_cache.rs,
    snapshot_cache.rs, image/cache.rs)

    Three indexes over files, saved like the blob store's.  Values of a map
    come in an order the source does not choose, so that [evict] takes it as
    an argument. *)

From stdpp Require Import sorting.
From S2P Require Import Prelude Pool Wasm Sandbox Store Oci.

(** ** Image formats and infos (pull.rs) *)

Inductive ImageFormat : Type := Raw | Qcow2 | Initramfs.
Definition format_text (f : ImageFormat) : string :=
  match f with Raw => "raw" | Qcow2 => "qcow2" | Initramfs => "initramfs" end.

Record ImageInfo : Type := {
  info_ref : string;
  info_digest : string;
  info_rootfs : string;
  info_format : ImageFormat;
  info_size : Z;
  info_config : option OciConfig;
}.

(** ** The rootfs cache *)

Inductive CloneStrategy : Type := Reflink | Hardlink | Copy.

Record RootfsCacheEntry : Type := {
  manifest_digest : string;
  image_ref : string;
  rootfs_filename : string;
  format : ImageFormat;
  size_bytes : Z;
  content_digest : string;
  created_at : Z;
  use_count : Z;
}.

Definition RootfsCacheIndex : Type := gmap string RootfsCacheEntry.

Record RootfsCache : Type := {
  cache_dir : string;
  entries : RootfsCacheIndex;
  clone_strategy : CloneStrategy;
}.

Definition set_entries (c : RootfsCache) (m : RootfsCacheIndex) : RootfsCache :=
  {| cache_dir := cache_dir c; entries := m; clone_strategy := clone_strategy c |}.

Section RootfsCache.
Context `{Serde RootfsCacheIndex}.

Definition rootfs_index : string := "rootfs_index.json".

(** [detect_clone_strategy_for_dir]: hard links are tried, with [linked] the
    result of [hard_link]; the test files are removed again. *)
Definition detect_clone_strategy (linked : bool) (dir : string) : stm Disk string CloneStrategy := λ d,
  let src := join dir ".clone_test_src" in
  match fs_write src (string_bytes "test") d with
  | (Ok _, d1) =>
      let d2 := (fs_remove_file src d1).2 in
      (Ok (if linked then Hardlink else Copy), d2)
  | (_, d1) => (Ok Copy, d1)
  end.

Definition rootfs_open (linked : bool) (dir : string) : stm Disk RuntimeError RootfsCache := λ d,
  let finish i d :=
    let '(r, d') := detect_clone_strategy linked dir d in
    (Ok {| cache_dir := dir; entries := i;
           clone_strategy := match r with Ok s => s | _ => Copy end |}, d') in
  match load_json dir rootfs_index d with
  | (Ok None, d) => finish ∅ d
  | (Ok (Some (inr i)), d) => finish i d
  | (Ok (Some (inl e)), d) => (Err (Cache ("failed to parse rootfs cache index: " +:+ e)), d)
  | (Err e, d) => (Err (Io e), d)
  | (Panic p, d) => (Panic p, d)
  end.

Definition rootfs_contains (c : RootfsCache) (d : Disk) (md : string) : bool :=
  match entries c !! md with
  | Some e => exists_file d (join (cache_dir c) (rootfs_filename e))
  | None => false
  end.

Definition rootfs_flush : stm (RootfsCache * Disk) RuntimeError unit := λ '(c, d),
  io (save_index (cache_dir c) rootfs_index (entries c)) (c, d).

Definition rootfs_insert (md iref rootfs : string) (f : ImageFormat) (cd : string) (now : Z)
    : stm (RootfsCache * Disk) RuntimeError unit := λ '(c, d),
  let digest_hex := match strip_prefix "sha256:" md with Some h => h | None => md end in
  let filename := "rootfs_" +:+ digest_hex +:+ ".cpio" in
  let cached := join (cache_dir c) filename in
  (io (fs_copy rootfs cached) ≫= λ _,
   io (fs_size cached) ≫= λ n,
   modify (λ '(c, d), (set_entries c (<[md :=
     {| manifest_digest := md; image_ref := iref; rootfs_filename := filename; format := f;
        size_bytes := n; content_digest := cd; created_at := now; use_count := 0 |}]> (entries c)), d))
   ≫= λ _, rootfs_flush) (c, d).

(** [clone_file] always copies, whatever the strategy. *)
Definition clone_file (src dst : string) : stm Disk string unit := λ d,
  ((if exists_file d dst then fs_remove_file dst else mret tt) ≫= λ _, fs_copy src dst) d.

Definition bump (e : RootfsCacheEntry) : RootfsCacheEntry :=
  {| manifest_digest := manifest_digest e; image_ref := image_ref e;
     rootfs_filename := rootfs_filename e; format := format e; size_bytes := size_bytes e;
     content_digest := content_digest e; created_at := created_at e;
     use_count := wrap64 (use_count e + 1) |}.

Definition clone_rootfs (md target : string) : stm (RootfsCache * Disk) RuntimeError unit := λ '(c, d),
  match entries c !! md with
  | None => (Err (Cache ("rootfs not cached: " +:+ md)), (c, d))
  | Some e =>
      let c1 := set_entries c (<[md := bump e]> (entries c)) in
      let src := join (cache_dir c) (rootfs_filename e) in
      if negb (exists_file d src) then (Err (Cache ("cached rootfs file missing: " +:+ src)), (c1, d))
      else (io (clone_file src target) ≫= λ _, rootfs_flush) (c1, d)
  end.

(** [sort_by_key(|e| e.use_count)] is stable. *)
Fixpoint insert_by_use (e : RootfsCacheEntry) (l : list RootfsCacheEntry) : list RootfsCacheEntry :=
  match l with
  | [] => [e]
  | x :: l' => if use_count e <=? use_count x then e :: l else x :: insert_by_use e l'
  end.
Fixpoint sort_by_use (l : list RootfsCacheEntry) : list RootfsCacheEntry :=
  match l with [] => [] | e :: l => insert_by_use e (sort_by_use l) end.

Definition sum_sizes (l : list RootfsCacheEntry) : Z := foldr (λ e n, size_bytes e + n) 0 l.

(** The eviction loop: removed entries, the new index and the total left. *)
Fixpoint evict_loop (max : Z) (es : list RootfsCacheEntry) (current evicted : Z)
    : stm (RootfsCache * Disk) RuntimeError Z := λ '(c, d),
  match es with
  | [] => (Ok evicted, (c, d))
  | e :: es =>
      if current <=? max then (Ok evicted, (c, d)) else
      let d1 := (fs_remove_file (join (cache_dir c) (rootfs_filename e)) d).2 in
      let c1 := set_entries c (delete (manifest_digest e) (entries c)) in
      evict_loop max es (Z.max 0 (current - size_bytes e)) (evicted + 1) (c1, d1)
  end.

(** [evict]; [vals] is the order in which the map yields its values. *)
Definition rootfs_evict (vals : list RootfsCacheEntry) (max : Z)
    : stm (RootfsCache * Disk) RuntimeError Z := λ '(c, d),
  let total := wrap64 (sum_sizes vals) in
  if total <=? max then (Ok 0, (c, d)) else
  (evict_loop max (sort_by_use vals) total 0 ≫= λ n,
   (if 0 <? n then rootfs_flush else mret tt) ≫= λ _, mret n) (c, d).
End RootfsCache.

(** ** The snapshot cache *)

Record SnapshotEntry : Type := {
  snap_key : string;
  snapshot_dir : string;
  config_hash : string;
  snap_image_digest : string;
  snap_created_at : Z;
  valid : bool;
}.

Definition SnapshotCacheIndex : Type := gmap string SnapshotEntry.

Record SnapshotCache : Type := { snap_base : string; snaps : SnapshotCacheIndex }.

Section SnapshotCache.
Context `{Serde SnapshotCacheIndex}.

Definition snapshot_index : string := "snapshot_cache_index.json".

Definition snapshot_open (dir : string) : stm Disk RuntimeError SnapshotCache := λ d,
  match load_json dir snapshot_index d with
  | (Ok None, d) => (Ok {| snap_base := dir; snaps := ∅ |}, d)
  | (Ok (Some (inr i)), d) => (Ok {| snap_base := dir; snaps := i |}, d)
  | (Ok (Some (inl e)), d) => (Err (Snapshot ("failed to parse snapshot cache index: " +:+ e)), d)
  | (Err e, d) => (Err (Io e), d)
  | (Panic p, d) => (Panic p, d)
  end.

(** [get]; [dir_exists] is [Path::exists] on the snapshot's directory. *)
Definition snapshot_get (dir_exists : string → bool) (c : SnapshotCache) (key : string)
    : option SnapshotEntry :=
  e ← snaps c !! key; if valid e && dir_exists (snapshot_dir e) then Some e else None.

Definition snapshot_flush : stm (SnapshotCache * Disk) RuntimeError unit := λ '(c, d),
  io (save_index (snap_base c) snapshot_index (snaps c)) (c, d).

Definition snapshot_insert (e : SnapshotEntry) : stm (SnapshotCache * Disk) RuntimeError unit :=
  λ '(c, d), snapshot_flush
    ({| snap_base := snap_base c; snaps := <[snap_key e := e]> (snaps c) |}, d).

Definition set_invalid (e : SnapshotEntry) : SnapshotEntry :=
  {| snap_key := snap_key e; snapshot_dir := snapshot_dir e; config_hash := config_hash e;
     snap_image_digest := snap_image_digest e; snap_created_at := snap_created_at e; valid := false |}.

Definition snapshot_invalidate (key : string) : stm (SnapshotCache * Disk) RuntimeError unit :=
  λ '(c, d),
    match snaps c !! key with
    | Some e => snapshot_flush
        ({| snap_base := snap_base c; snaps := <[key := set_invalid e]> (snaps c) |}, d)
    | None => (Ok tt, (c, d))
    end.

Definition make_key (image_digest config_hash : string) : string :=
  image_digest +:+ ":" +:+ config_hash.
End SnapshotCache.

(** ** The image cache *)

Record ImageCache : Type := { ic_dir : string; index : gmap string ImageInfo }.

Section ImageCache.
Context `{Serde (gmap string ImageInfo)}.

Definition image_index : string := "image_cache_index.json".

(** [new]: an index that cannot be read is dropped. *)
Definition image_cache_new (dir : string) : stm Disk RuntimeError ImageCache := λ d,
  match load_json dir image_index d with
  | (Ok (Some (inr i)), d) => (Ok {| ic_dir := dir; index := i |}, d)
  | (_, d) => (Ok {| ic_dir := dir; index := ∅ |}, d)
  end.

Definition image_save (c : ImageCache) (d : Disk) : Disk :=
  (save_index (ic_dir c) image_index (index c) d).2.

Definition image_insert (i : ImageInfo) : ImageCache * Disk → ImageCache * Disk := λ '(c, d),
  let c1 := {| ic_dir := ic_dir c; index := <[info_ref i := i]> (index c) |} in
  (c1, image_save c1 d).

(** [Path::parent] of a path without trailing or doubled separators. *)
Fixpoint before_last_slash (p : string) : option string :=
  match p with
  | EmptyString => None
  | String c p' =>
      match before_last_slash p' with
      | Some q => Some (String c q)
      | None => if Ascii.eqb c (Ascii.ascii_of_nat 47) then Some "" else None
      end
  end.
Definition parent (p : string) : option string :=
  if (p =? "")%string || (p =? "/")%string then None else
  match before_last_slash p with
  | Some EmptyString => Some "/"
  | Some q => Some q
  | None => Some ""
  end.

(** [fs::remove_dir_all]: every file below the directory; a fault leaves some. *)
Definition below (dir p : string) : bool :=
  String.prefix (if (dir =? "/")%string then "/" else dir +:+ "/") p.
Definition fs_remove_dir_all (dir : string) : stm Disk string unit :=
  if (dir =? "")%string then λ d, (Err no_such_file, d) else
  sys (λ d, (tt, filter (λ kv, below dir kv.1 = false) (files d)))
      (λ n d, filter (λ kv, below dir kv.1 = false ∨ kv.1 ∈ drop n (map_to_list (files d)).*1) (files d)).

(** [remove]: the directory that holds the image's rootfs is removed. *)
Definition image_remove (iref : string) : stm (ImageCache * Disk) RuntimeError unit := λ '(c, d),
  match index c !! iref with
  | None => (Err (Image ("image not in cache: " +:+ iref)), (c, d))
  | Some i =>
      let c1 := {| ic_dir := ic_dir c; index := delete iref (index c) |} in
      let '(r, d1) :=
        match parent (info_rootfs i) with
        | Some dir => if exists_file d (info_rootfs i) then fs_remove_dir_all dir d else (Ok tt, d)
        | None => (Ok tt, d)
        end in
      match r with
      | Err e => (Err (Io e), (c1, d1))
      | _ => (Ok tt, (c1, image_save c1 d1))
      end
  end.
End ImageCache.

(** ** Eviction *)

Lemma insert_by_use_perm e l : insert_by_use e l ≡ₚ e :: l.
Proof.
  induction l as [|x l IH]; simpl; [done|]. destruct (_ <=? _); [done|]. rewrite IH. by constructor.
Qed.
Lemma sort_by_use_perm l : sort_by_use l ≡ₚ l.
Proof. induction l as [|e l IH]; simpl; [done|]. by rewrite insert_by_use_perm, IH. Qed.

Definition use_le (a b : RootfsCacheEntry) : Prop := use_count a ≤ use_count b.

Lemma insert_by_use_sorted e l : StronglySorted use_le l → StronglySorted use_le (insert_by_use e l).
Proof.
  induction 1 as [|x l Hs IH Hf]; simpl; [by repeat constructor|].
  destruct (_ <=? _) eqn:E; to_prop.
  - constructor; [by constructor|]. constructor; [done|].
    eapply Forall_impl; [exact Hf|]. unfold use_le. lia.
  - constructor; [done|]. rewrite insert_by_use_perm. constructor; [unfold use_le; lia|done].
Qed.
Lemma sort_by_use_sorted l : StronglySorted use_le (sort_by_use l).
Proof. induction l; simpl; [constructor|by apply insert_by_use_sorted]. Qed.

Lemma sum_sizes_perm l l' : l ≡ₚ l' → sum_sizes l = sum_sizes l'.
Proof. induction 1; simpl; lia. Qed.
Lemma sum_sizes_app l l' : sum_sizes (l ++ l') = sum_sizes l + sum_sizes l'.
Proof. induction l; simpl; lia. Qed.
Lemma sum_sizes_nonneg l : Forall (λ e, 0 ≤ size_bytes e) l → 0 ≤ sum_sizes l.
Proof. induction 1; simpl; lia. Qed.

Lemma set_entries_id c : set_entries c (filter (λ kv, kv.1 ∉ @nil string) (entries c)) = c.
Proof. destruct c. unfold set_entries. f_equal. apply filter_none_gone. Qed.

Section Evict.
Context `{Serde RootfsCacheIndex}.

(** The loop removes a prefix, the shortest that brings the total down. *)
Lemma evict_loop_spec max es k c d :
  0 ≤ max → Forall (λ e, 0 ≤ size_bytes e) es →
  ∃ n d', (n ≤ length es)%nat ∧
    evict_loop max es (sum_sizes es) k (c, d) =
      (Ok (k + Z.of_nat n),
       (set_entries c (filter (λ kv, kv.1 ∉ manifest_digest <$> take n es) (entries c)), d')) ∧
    sum_sizes (drop n es) ≤ max ∧ (∀ j, (j < n)%nat → max < sum_sizes (drop j es)).
Proof.
  intros Hmax. revert k c d. induction es as [|e es IH]; intros k c d Hs.
  { exists 0%nat, d. split_and!; [done| |done|lia]. cbn [take fmap list_fmap evict_loop].
    by rewrite set_entries_id, Z.add_0_r. }
  apply Forall_cons in Hs as [He Hs]. pose proof (sum_sizes_nonneg es Hs). cbn [evict_loop].
  destruct (sum_sizes (e :: es) <=? max) eqn:E; to_prop.
  - exists 0%nat, d. split_and!; [lia| |done|lia]. cbn [take fmap list_fmap].
    by rewrite set_entries_id, Z.add_0_r.
  - replace (Z.max 0 (sum_sizes (e :: es) - size_bytes e)) with (sum_sizes es) by (simpl; lia).
    set (c1 := set_entries c _). set (d1 := (fs_remove_file _ _).2).
    destruct (IH (k + 1) c1 d1 Hs) as (n & d' & Hn & -> & Hsum & Hmin).
    exists (S n), d'. split_and!; [simpl; lia| |done|].
    + f_equal; [f_equal; lia|]. f_equal. unfold c1, set_entries. simpl. f_equal.
      apply map_eq. intros i. apply option_eq. intros x.
      rewrite !map_lookup_filter_Some, lookup_delete_Some. set_solver.
    + intros [|j] Hj; [done|]. simpl. apply Hmin. lia.
Qed.

(** Eviction removes exactly a shortest prefix of the entries in
    increasing order of their use count, so that what remains fits the limit
    and was used at least as often as anything removed; a cache within the
    limit keeps everything; whatever file operations fail. *)
Theorem rootfs_evict_least_used vals max c d :
  0 ≤ max → vals ≡ₚ (map_to_list (entries c)).*2 →
  map_Forall (λ k e, manifest_digest e = k) (entries c) →
  Forall (λ e, 0 ≤ size_bytes e) vals → sum_sizes vals < 2 ^ 64 →
  let '(r, (c', _)) := rootfs_evict vals max (c, d) in
  ∃ gone kept, vals ≡ₚ gone ++ kept ∧
    entries c' = filter (λ kv, kv.1 ∉ manifest_digest <$> gone) (entries c) ∧
    sum_sizes kept ≤ max ∧ (∀ g gs, gone = gs ++ [g] → max < size_bytes g + sum_sizes kept) ∧
    (∀ g e, g ∈ gone → e ∈ kept → use_count g ≤ use_count e) ∧
    (∀ n, r = Ok n → n = zlen gone).
Proof.
  intros Hmax Hp Hkeys Hs Hsum. unfold rootfs_evict.
  rewrite wrap_small by (split; [by apply sum_sizes_nonneg|done]).
  destruct (sum_sizes vals <=? max) eqn:E; to_prop.
  { exists [], vals. split_and!; [done| |done|by intros ? []|intros ?? []%elem_of_nil|by intros ? [= <-]].
    symmetry. apply filter_none_gone. }
  pose proof (sort_by_use_perm vals) as Hsp. pose proof (sort_by_use_sorted vals) as Hss.
  rewrite <- (sum_sizes_perm _ _ Hsp). unfold mbind at 1 2, stm_bind at 1 2.
  destruct (evict_loop_spec max (sort_by_use vals) 0 c d) as (n & d' & Hn & -> & Hle & Hmin);
    [done|by rewrite Hsp|].
  set (c1 := set_entries c _).
  assert (Hfl : ∃ r d2, (if 0 <? 0 + Z.of_nat n then rootfs_flush else mret tt) (c1, d') = (r, (c1, d2))).
  { destruct (_ <? _); [|by eexists _, _]. unfold rootfs_flush, io.
    destruct (save_index _ _ _ _) as [r d2]. by eexists _, _. }
  destruct Hfl as (r & d2 & Hr). rewrite Hr.
  assert (Hgoal : ∃ gone kept, vals ≡ₚ gone ++ kept ∧
    entries c1 = filter (λ kv, kv.1 ∉ manifest_digest <$> gone) (entries c) ∧
    sum_sizes kept ≤ max ∧ (∀ g gs, gone = gs ++ [g] → max < size_bytes g + sum_sizes kept) ∧
    (∀ g e, g ∈ gone → e ∈ kept → use_count g ≤ use_count e) ∧ Z.of_nat n = zlen gone).
  { exists (take n (sort_by_use vals)), (drop n (sort_by_use vals)).
    split_and!; [by rewrite take_drop|done|done| | |unfold zlen; rewrite length_take; lia].
    - intros g gs Hg. assert (Hl : length (gs ++ [g]) = n) by (rewrite <- Hg, length_take; lia).
      rewrite length_app in Hl. simpl in Hl.
      specialize (Hmin (length gs)). lapply Hmin; [|lia]. intros Hm.
      assert (Hd : drop (length gs) (sort_by_use vals) = g :: drop n (sort_by_use vals)); [|by rewrite Hd in Hm].
      rewrite <- (take_drop n (sort_by_use vals)) at 1. rewrite Hg, <- (assoc_L (++)).
      by rewrite drop_app_length.
    - intros g e Hg He. rewrite <- (take_drop n (sort_by_use vals)) in Hss.
      by eapply (StronglySorted_app_1_elem_of use_le) in Hss. }
  destruct Hgoal as (gone & kept & ? & ? & ? & ? & ? & Hnn).
  destruct r as [[]| |]; simpl; exists gone, kept; split_and!; try done.
  intros m [= <-]. lia.
Qed.
End Evict.

#[local] Instance demo_rootfs_serde : Serde RootfsCacheIndex := {|
  to_json := λ _, []; from_json := λ _, inr ∅ |}.

Definition demo_entry (name : string) (size uses : Z) : RootfsCacheEntry := {|
  manifest_digest := name; image_ref := name; rootfs_filename := "rootfs_" +:+ name +:+ ".cpio";
  format := Initramfs; size_bytes := size; content_digest := ""; created_at := 0; use_count := uses |}.
Definition demo_entries : list RootfsCacheEntry :=
  [demo_entry "a" 10 3; demo_entry "b" 20 1; demo_entry "c" 30 2].
Definition demo_cache : RootfsCache := {|
  cache_dir := "/c"; entries := list_to_map ((λ e, (manifest_digest e, e)) <$> demo_entries);
  clone_strategy := Copy |}.

Lemma rootfs_evict_least_used_witness :
  let '(r, (c', _)) := rootfs_evict demo_entries 15 (demo_cache, {| files := ∅; faults := [] |}) in
  r = Ok 2 ∧ ∃ gone kept, demo_entries ≡ₚ gone ++ kept ∧
    entries c' = filter (λ kv, kv.1 ∉ manifest_digest <$> gone) (entries demo_cache) ∧
    sum_sizes kept ≤ 15.
Proof.
  pose proof (rootfs_evict_least_used demo_entries 15 demo_cache {| files := ∅; faults := [] |}
    ltac:(done) ltac:(vm_compute; solve_Permutation) ltac:(apply map_Forall_to_list; vm_compute; by repeat constructor)
    ltac:(by repeat constructor) ltac:(by vm_compute)) as Hev.
  destruct (rootfs_evict demo_entries 15 _) as [r [c' d']] eqn:E.
  destruct Hev as (gone & kept & ? & ? & ? & _). split; [|by exists gone, kept].
  vm_compute in E. by injection E.
Defined.

(** ** Removing an image *)

Lemma before_last_slash_app q n :
  before_last_slash n = None → before_last_slash (q +:+ "/" +:+ n) = Some q.
Proof.
  intros Hn. induction q as [|c q IH].
  - change (before_last_slash ("" +:+ "/" +:+ n)) with
      (match before_last_slash n with
       | Some q => Some (String (Ascii.ascii_of_nat 47) q) | None => Some "" end). by rewrite Hn.
  - change (before_last_slash (String c q +:+ "/" +:+ n)) with
      (match before_last_slash (q +:+ "/" +:+ n) with
       | Some q' => Some (String c q')
       | None => if Ascii.eqb c (Ascii.ascii_of_nat 47) then Some "" else None end). by rewrite IH.
Qed.

Lemma parent_app dir n : before_last_slash n = None → dir ≠ "" → parent (dir +:+ "/" +:+ n) = Some dir.
Proof.
  intros Hn Hd. unfold parent. rewrite before_last_slash_app by done.
  destruct dir as [|a dir]; [done|]. change (String a dir +:+ "/" +:+ n) with (String a (dir +:+ "/" +:+ n)).
  destruct (String.eqb_spec (String a (dir +:+ "/" +:+ n)) "/") as [[= _ Hs]|]; [|done].
  by destruct dir.
Qed.

Lemma remove_dir_all_spec dir d :
  dir ≠ "" →
  let '(r, d') := fs_remove_dir_all dir d in
  (∀ p, below dir p = false → files d' !! p = files d !! p) ∧
  (r = Ok tt → ∀ p, below dir p = true → files d' !! p = None) ∧
  (faults d = [] → r = Ok tt) ∧ (∀ w, r ≠ Panic w).
Proof.
  intros Hd. unfold fs_remove_dir_all.
  rewrite (proj2 (String.eqb_neq dir "")) by done. unfold sys.
  assert (Hkeep : ∀ (P : string * list byte → Prop) `{!∀ kv, Decision (P kv)} p,
    (∀ b, P (p, b)) → filter P (files d) !! p = files d !! p).
  { intros P HP p HPp. destruct (files d !! p) as [b|] eqn:E.
    - apply map_lookup_filter_Some_2; [done|apply HPp].
    - apply map_lookup_filter_None_2. by left. }
  destruct (head (faults d)) as [[f|]|] eqn:Hf; simpl; split_and!; try done.
  - intros p Hp. apply Hkeep. by left.
  - intros Hf'. by rewrite Hf' in Hf.
  - intros p Hp. by apply Hkeep.
  - intros _ p Hp. apply map_lookup_filter_None_2. right. simpl. intros b _. by rewrite Hp.
  - intros p Hp. by apply Hkeep.
  - intros _ p Hp. apply map_lookup_filter_None_2. right. simpl. intros b _. by rewrite Hp.
Qed.

Section Remove.
Context `{Serde (gmap string ImageInfo)}.

Definition index_files (c : ImageCache) : list string :=
  [join (ic_dir c) image_index; join (ic_dir c) (image_index +:+ ".tmp")].

Lemma frame_image_save c d q : q ∉ index_files c → files (image_save c d) !! q = files d !! q.
Proof. intros Hq. unfold image_save, save_index.
  eapply (frame_bind (index_files c)); [|intros []|exact Hq].
  - eapply frame_weaken, frame_write. set_solver.
  - eapply frame_weaken, frame_rename. set_solver.
Qed.

(** Removing one image drops its entry only, yet deletes every file of
    the directory that holds its rootfs, the files of the images that stay in
    the index included; files elsewhere are kept, and when a deletion fails
    the entry is gone in memory all the same. *)
Theorem image_remove_deletes_siblings iref i dir n c d :
  index c !! iref = Some i → info_rootfs i = dir +:+ "/" +:+ n →
  before_last_slash n = None → dir ≠ "" → exists_file d (info_rootfs i) = true →
  let '(r, (c', d')) := image_remove iref (c, d) in
  index c' = delete iref (index c) ∧
  (∀ p, below dir p = false → p ∉ index_files c → files d' !! p = files d !! p) ∧
  (r = Ok tt → ∀ p, below dir p = true → p ∉ index_files c → files d' !! p = None) ∧
  (faults d = [] → r = Ok tt).
Proof.
  intros Hi Hr Hn Hd He. unfold image_remove. rewrite Hi, He, Hr, parent_app by done.
  pose proof (remove_dir_all_spec dir d Hd) as Hrm.
  destruct (fs_remove_dir_all dir d) as [r d1]. destruct Hrm as (Hk & Hg & Hok & Hnp).
  set (c1 := {| ic_dir := ic_dir c; index := _ |}).
  assert (Hsv : ∀ p, p ∉ index_files c → files (image_save c1 d1) !! p = files d1 !! p)
    by (intros p; apply (frame_image_save c1)).
  destruct r as [[]|e|w]; [..|by destruct (Hnp w)]; split_and!; try done.
  - intros p Hp Hi'. by rewrite Hsv, Hk.
  - intros _ p Hp Hi'. rewrite Hsv by done. by apply Hg.
  - intros p Hp _. by rewrite Hk.
  - intros Hf. by specialize (Hok Hf).
Qed.
End Remove.

Definition demo_info (iref rootfs : string) : ImageInfo := {|
  info_ref := iref; info_digest := ""; info_rootfs := rootfs; info_format := Initramfs;
  info_size := 0; info_config := None |}.
#[local] Instance demo_image_serde : Serde (gmap string ImageInfo) := {|
  to_json := λ _, []; from_json := λ _, inr ∅ |}.

Lemma image_remove_deletes_siblings_witness :
  let c := {| ic_dir := "/images"; index :=
    {[ "a" := demo_info "a" "/images/a.cpio"; "b" := demo_info "b" "/images/b.cpio" ]} |} in
  let d := {| files := {[ "/images/a.cpio" := []; "/images/b.cpio" := [] ]}; faults := [] |} in
  let '(r, (c', d')) := image_remove "a" (c, d) in
  r = Ok tt ∧ info_rootfs <$> (index c' !! "b") = Some "/images/b.cpio" ∧
  files d' !! "/images/b.cpio" = None.
Proof.
  intros c d.
  pose proof (image_remove_deletes_siblings "a" (demo_info "a" "/images/a.cpio") "/images" "a.cpio" c d
    eq_refl eq_refl eq_refl ltac:(done) eq_refl) as Hrm.
  destruct (image_remove "a" (c, d)) as [r [c' d']].
  destruct Hrm as (-> & _ & Hgone & Hok). specialize (Hok eq_refl). split; [done|].
  split; [by vm_compute|]. apply Hgone; [done|by vm_compute|vm_compute; set_solver].
Defined.
