(* ===== verification/Pull.v ===== *)
(** * Pulling images (nova-runtime/src/image/pull.rs)

    An image layout on disk becomes an initramfs: its layers are extracted,
    archived with nova-boot's cpio writer and cached twice, the layer blobs in
    the blob store (L1) and the archive in the rootfs cache (L2).  What the
    system reports of an extracted tree ([report]), the hash and JSON are
    parameters. *)

From stdpp Require Import gmap strings pretty.
From S2P Require Import Prelude Initrd Sandbox Store Oci Extract Caches.

Record ImagePuller : Type := {
  image_dir : string;
  format : ImageFormat;
  blob_store : option BlobStore;
  rootfs_cache : option RootfsCache;
}.

Definition puller_new (dir : string) (f : ImageFormat) : ImagePuller :=
  {| image_dir := dir; format := f; blob_store := None; rootfs_cache := None |}.
Definition with_blob_store (dir : string) (f : ImageFormat) (s : BlobStore) : ImagePuller :=
  {| image_dir := dir; format := f; blob_store := Some s; rootfs_cache := None |}.
Definition with_caches (dir : string) (f : ImageFormat) (s : BlobStore) (c : RootfsCache) : ImagePuller :=
  {| image_dir := dir; format := f; blob_store := Some s; rootfs_cache := Some c |}.

(** [rsplit('/').next()] and [replace(':', "_")]. *)
Fixpoint after_last_slash (acc s : string) : string :=
  match s with
  | EmptyString => acc
  | String c s => after_last_slash (if Ascii.eqb c (Ascii.ascii_of_nat 47) then "" else acc +:+ String c "") s
  end.
Fixpoint replace_colon (s : string) : string :=
  match s with
  | EmptyString => ""
  | String c s => (if Ascii.eqb c (Ascii.ascii_of_nat 58) then "_" else String c "") +:+ replace_colon s
  end.

(** The puller, the files of the host by name, and its directory tree. *)
Record PullState : Type := { puller : ImagePuller; disk : Disk; tree : Fs }.

Definition set_disk (s : PullState) (d : Disk) : PullState :=
  {| puller := puller s; disk := d; tree := tree s |}.
Definition set_caches (s : PullState) (b : option BlobStore) (c : option RootfsCache) : PullState :=
  {| puller := {| image_dir := image_dir (puller s); format := format (puller s);
                  blob_store := b; rootfs_cache := c |};
     disk := disk s; tree := tree s |}.

Section Pull.
Context `{OciJson} `{Tar} `{Serde BlobStoreIndex} `{Serde RootfsCacheIndex}.
Context (sha256_hex : list byte → string) (report : Fs → hpath → dir) (show_errno : Z → string) (now : Z).

(** A disk operation, with [?]. *)
Definition dio {A} (m : stm Disk string A) : stm PullState RuntimeError A := λ s,
  let '(r, d) := m (disk s) in (map_err Io r, set_disk s d).
Definition derr {A} (m : stm Disk RuntimeError A) : stm PullState RuntimeError A := λ s,
  let '(r, d) := m (disk s) in (r, set_disk s d).

(** [pull]: a placeholder image. *)
Definition pull (iref : string) : stm PullState RuntimeError ImageInfo := λ s,
  let digest := sha256_hex (string_bytes iref) in
  let name := replace_colon (after_last_slash "" iref) in
  let rootfs_dir := join (image_dir (puller s)) (name +:+ "_" +:+ String.substring 0 12 digest) in
  let rootfs_path := join rootfs_dir ("rootfs." +:+ format_text (format (puller s))) in
  (dio (fs_write (join rootfs_dir "etc/hostname") (string_bytes ("nova-guest" +:+ String (Ascii.ascii_of_nat 10) ""))) ≫= λ _,
   dio (fs_write (join rootfs_dir "etc/resolv.conf")
     (string_bytes ("nameserver 8.8.8.8" +:+ String (Ascii.ascii_of_nat 10) ""))) ≫= λ _,
   dio (fs_write rootfs_path (string_bytes "NOVA_ROOTFS_PLACEHOLDER")) ≫= λ _,
   dio (fs_size rootfs_path) ≫= λ n,
   mret {| info_ref := iref; info_digest := "sha256:" +:+ digest; info_rootfs := rootfs_path;
           info_format := format (puller s); info_size := n; info_config := None |}) s.

(** The key of the rootfs cache: the hash of manifest.json, or of index.json. *)
Definition manifest_key (layout : string) : stm PullState RuntimeError string := λ s,
  let p := join layout (if exists_file (disk s) (join layout "manifest.json")
                        then "manifest.json" else "index.json") in
  (dio (fs_read p) ≫= λ data, mret ("sha256:" +:+ sha256_hex data)) s.

Definition info_of (layout key rootfs : string) (n : Z) (c : OciConfig) : ImageInfo :=
  {| info_ref := layout; info_digest := key; info_rootfs := rootfs; info_format := Initramfs;
     info_size := n; info_config := Some c |}.

(** A hit: the cached archive is copied to the image directory. *)
Definition pull_hit (layout key : string) (c : RootfsCache) (cfg : OciConfig)
    : stm PullState RuntimeError ImageInfo := λ s,
  let target := join (image_dir (puller s)) ("cached_" +:+ String.substring 7 12 key +:+ ".cpio") in
  let '(r, (c', d')) := clone_rootfs key target (c, disk s) in
  let s' := set_disk (set_caches s (blob_store (puller s)) (Some c')) d' in
  (lift r ≫= λ _, dio (fs_size target) ≫= λ n, mret (info_of layout key target n cfg)) s'.

(** Extraction into a fresh directory. *)
Definition extract_into (layout : string) (dir : hpath) (layers : list OciDescriptor)
    : stm PullState RuntimeError unit := λ s,
  let t := if fs_exists (tree s) dir then remove_path dir (tree s) else tree s in
  let '(r, (t', d')) := extract_layers layout dir layers (t, disk s) in
  (r, {| puller := puller s; disk := d'; tree := t' |}).

(** A layer goes to the blob store if it is not there; a failed insertion is
    only logged. *)
Definition cache_layer (layout : string) (l : OciDescriptor) : stm PullState RuntimeError unit := λ s,
  match blob_store (puller s) with
  | None => (Ok tt, s)
  | Some b =>
      if contains b (disk s) (od_digest l) then (Ok tt, s) else
      let hex := match strip_prefix "sha256:" (od_digest l) with Some h => h | None => od_digest l end in
      let path := join (join (join layout "blobs") "sha256") hex in
      if negb (exists_file (disk s) path) then (Ok tt, s) else
      let put data : stm PullState RuntimeError unit := λ s,
        let '(_, (b', d')) := Store.insert sha256_hex (od_digest l) (od_media_type l) data now (b, disk s) in
        (Ok tt, set_disk (set_caches s (Some b') (rootfs_cache (puller s))) d') in
      (dio (fs_read path) ≫= put) s
  end.

(** The archive goes to the rootfs cache; a failure is only logged. *)
Definition cache_rootfs (layout key path content_digest : string) : stm PullState RuntimeError unit := λ s,
  match rootfs_cache (puller s) with
  | None => (Ok tt, s)
  | Some c =>
      let '(_, (c', d')) := rootfs_insert key layout path Initramfs ("sha256:" +:+ content_digest) now (c, disk s) in
      (Ok tt, set_disk (set_caches s (blob_store (puller s)) (Some c')) d')
  end.

(** The archive of the extracted tree, which is then removed. *)
Definition convert (dir : hpath) : stm PullState RuntimeError (list byte) := λ s,
  match dir_to_cpio (report (tree s) dir) with
  | Ok b => (Ok b, {| puller := puller s; disk := disk s; tree := remove_path dir (tree s) |})
  | Err e => (Err (Image ("cpio creation failed: " +:+ show_errno e)), s)
  | Panic p => (Panic p, s)
  end.

Definition pull_miss (layout key : string) (l : OciImageLayout) : stm PullState RuntimeError ImageInfo := λ s,
  let rootfs_dir := resolve [] (parse_path (join (image_dir (puller s)) "_rootfs_tmp")) in
  (extract_into layout rootfs_dir (om_layers (manifest l)) ≫= λ _,
   for_each (cache_layer layout) (om_layers (manifest l)) ≫= λ _,
   convert rootfs_dir ≫= λ cpio,
   let content_digest := sha256_hex cpio in
   let path := join (image_dir (puller s)) (String.substring 0 12 content_digest +:+ ".cpio") in
   dio (fs_write path cpio) ≫= λ _,
   cache_rootfs layout key path content_digest ≫= λ _,
   mret (info_of layout key path (zlen cpio) (image_config l))) s.

Definition pull_known (layout : string) (l : OciImageLayout) (key : string)
    : stm PullState RuntimeError ImageInfo := λ s,
  match rootfs_cache (puller s) with
  | Some c => if rootfs_contains c (disk s) key then pull_hit layout key c (image_config l) s
              else pull_miss layout key l s
  | None => pull_miss layout key l s
  end.

Definition pull_oci_layout (layout : string) : stm PullState RuntimeError ImageInfo :=
  derr (open_layout sha256_hex layout) ≫= λ l,
  manifest_key layout ≫= pull_known layout l.

(** ** What a pull returns *)

Lemma dio_ok {A} (m : stm Disk string A) s a s' :
  dio m s = (Ok a, s') → ∃ d', m (disk s) = (Ok a, d') ∧ s' = set_disk s d'.
Proof. unfold dio. destruct (m (disk s)) as [[]]; intros; simplify_eq/=; eauto. Qed.

Lemma fs_size_ok p d n d' :
  fs_size p d = (Ok n, d') → files d' = files d ∧ ∃ b, files d !! p = Some b ∧ n = zlen b.
Proof.
  unfold fs_size, with_file. destruct (files d !! p) as [b|]; [|done]. unfold sys.
  destruct (head (faults d)) as [[f|]|]; intros; simplify_eq/=; eauto.
Qed.

Lemma fs_write_ok p b d d' : fs_write p b d = (Ok tt, d') → files d' !! p = Some b.
Proof.
  unfold fs_write. intros ([] & d1 & _ & Hw)%stm_bind_inv. apply write_all_ok in Hw as ->. apply lookup_insert_eq.
Qed.

Lemma fs_copy_ok p q d d' :
  fs_copy p q d = (Ok tt, d') → ∃ b, files d !! p = Some b ∧ files d' !! q = Some b.
Proof.
  unfold fs_copy, with_file. destruct (files d !! p) as [b|]; [|done]. unfold sys.
  destruct (head (faults d)) as [[f|]|]; intros; simplify_eq/=; (exists b; split; [done|apply lookup_insert_eq]).
Qed.

(** A file outside the cache: no relative name in it leads there. *)
Definition relative (n : string) : Prop := String.prefix "/" n = false.
Definition not_in_cache (c : RootfsCache) (p : string) : Prop :=
  (∀ n, relative n → join (cache_dir c) n ≠ p) ∧ map_Forall (λ _ e, relative (rootfs_filename e)) (entries c).

(** Saving the rootfs index leaves files outside the cache's directory alone. *)
Lemma rootfs_flush_frame c d r c' d' p :
  rootfs_flush (c, d) = (r, (c', d')) → (∀ n, relative n → join (cache_dir c) n ≠ p) → files d' !! p = files d !! p.
Proof.
  intros Hf Hp. unfold rootfs_flush, io in Hf.
  destruct (save_index (cache_dir c) rootfs_index (entries c) d) as [r1 d1] eqn:E. injection Hf as _ _ <-.
  change d1 with (r1, d1).2. rewrite <- E. unfold save_index.
  eapply (frame_bind [join (cache_dir c) rootfs_index; join (cache_dir c) (rootfs_index +:+ ".tmp")]).
  - eapply frame_weaken, frame_write. set_solver.
  - intros []. eapply frame_weaken, frame_rename. set_solver.
  - intros [Hq|[Hq|[]%elem_of_nil]%elem_of_cons]%elem_of_cons; by eapply Hp; [|symmetry; exact Hq].
Qed.

Lemma clone_rootfs_ok key target c d c' d' :
  clone_rootfs key target (c, d) = (Ok tt, (c', d')) → not_in_cache c target →
  ∃ e b, entries c !! key = Some e ∧ files d !! join (cache_dir c) (rootfs_filename e) = Some b ∧
    files d' !! target = Some b.
Proof.
  unfold clone_rootfs. intros Hc [Hne Hrel]. destruct (entries c !! key) as [e|] eqn:He; [|done]. exists e.
  destruct (negb _); [done|]. apply stm_bind_inv in Hc as ([] & [c1 d1] & Hio & Hfl).
  unfold io in Hio. destruct (clone_file _ target d) as [[[]|er|p] d2] eqn:Ecl; [|done..].
  injection Hio as <- <-. set (src := join (cache_dir c) (rootfs_filename e)) in *.
  unfold clone_file in Ecl. apply stm_bind_inv in Ecl as ([] & d3 & Hrm & (b & Hsrc & Htgt)%fs_copy_ok).
  exists b. split; [done|]. split.
  - rewrite <- Hsrc. destruct (exists_file d target); [|by injection Hrm as ->].
    change d3 with (Ok (E:=string) tt, d3).2. rewrite <- Hrm. symmetry. apply frame_remove.
    intros Hs%list_elem_of_singleton. by apply (Hne (rootfs_filename e) (Hrel _ _ He)).
  - rewrite <- Htgt. by eapply rootfs_flush_frame.
Qed.

Lemma rootfs_insert_frame key iref path f cd t c d p :
  (∀ n, relative n → join (cache_dir c) n ≠ p) →
  files (rootfs_insert key iref path f cd t (c, d)).2.2 !! p = files d !! p.
Proof.
  intros Hp. unfold rootfs_insert. set (cached := join (cache_dir c) _).
  assert (Hpc : p ∉ [cached]) by (intros Hs%list_elem_of_singleton; by eapply Hp; [|symmetry; exact Hs]).
  unfold mbind, stm_bind, io, modify. pose proof (frame_copy path cached d p Hpc) as Hcp.
  destruct (fs_copy path cached d) as [[[]|e|w] d1]; cbn [map_err fst snd] in *; [|done..].
  assert (Hsz : files (fs_size cached d1).2 = files d1).
  { unfold fs_size, with_file. destruct (files d1 !! cached); [|done]. unfold sys, set_files.
    by destruct (head (faults d1)) as [[]|]. }
  destruct (fs_size cached d1) as [[n|e|w] d2]; cbn [map_err fst snd] in *; [|by rewrite Hsz..].
  match goal with |- files (rootfs_flush ?x).2.2 !! p = _ => destruct (rootfs_flush x) as [r [c' d']] eqn:E end.
  cbn [snd]. rewrite (rootfs_flush_frame _ _ _ _ _ _ E), Hsz by done. done.
Qed.

Lemma pull_hit_ok layout key c cfg s info s' :
  not_in_cache c (info_rootfs info) → pull_hit layout key c cfg s = (Ok info, s') →
  ∃ data e, info = info_of layout key (info_rootfs info) (zlen data) cfg ∧
    files (disk s') !! info_rootfs info = Some data ∧ entries c !! key = Some e ∧
    files (disk s) !! join (cache_dir c) (rootfs_filename e) = Some data.
Proof.
  intros Hne. unfold pull_hit. set (target := join _ _).
  destruct (clone_rootfs key target (c, disk s)) as [r [c' d']] eqn:Ecl.
  intros ([] & s1 & [-> ->]%lift_ok & Hr)%stm_bind_inv.
  apply stm_bind_inv in Hr as (n & s2 & (d2 & [Hf (b & Hb & ->)]%fs_size_ok & ->)%dio_ok & Hr).
  injection Hr as <- <-. cbn [info_rootfs info_of disk set_disk] in *.
  destruct (clone_rootfs_ok _ _ _ _ _ _ Ecl Hne) as (e & data & He & Hsrc & Htgt).
  rewrite Htgt in Hb. injection Hb as <-. exists data, e. split_and!; [done| |done|done].
  by rewrite Hf.
Qed.

Lemma cache_layer_cache layout l s :
  rootfs_cache (puller (cache_layer layout l s).2) = rootfs_cache (puller s).
Proof.
  unfold cache_layer. destruct (blob_store (puller s)) as [b|]; [|done]. destruct (contains _ _ _); [done|].
  destruct (negb _); [done|]. unfold mbind, stm_bind, dio.
  destruct (fs_read _ _) as [[data|e|p] d]; [|done..]. cbn [map_err].
  by destruct (Store.insert _ _ _ _ _ _) as [r [b' d']].
Qed.

Lemma cache_layers_cache layout ls s :
  rootfs_cache (puller (for_each (cache_layer layout) ls s).2) = rootfs_cache (puller s).
Proof.
  revert s. induction ls as [|l ls IH]; intros s; [done|]. cbn [for_each]. unfold mbind, stm_bind.
  pose proof (cache_layer_cache layout l s) as Hl. destruct (cache_layer layout l s) as [[[]|e|p] s1]; [|done..].
  by rewrite IH.
Qed.

Lemma cache_layers_tree layout ls s : tree (for_each (cache_layer layout) ls s).2 = tree s.
Proof.
  revert s. induction ls as [|l ls IH]; intros s; [done|]. cbn [for_each]. unfold mbind, stm_bind.
  assert (Hl : tree (cache_layer layout l s).2 = tree s).
  { unfold cache_layer. destruct (blob_store (puller s)) as [b|]; [|done]. destruct (contains _ _ _); [done|].
    destruct (negb _); [done|]. unfold mbind, stm_bind, dio.
    destruct (fs_read _ _) as [[data|e|p] d]; [|done..]. cbn [map_err].
    by destruct (Store.insert _ _ _ _ _ _) as [r [b' d']]. }
  destruct (cache_layer layout l s) as [[[]|e|p] s1]; [|done..]. by rewrite IH.
Qed.

(** The directory that is extracted into is fresh. *)
Lemma fresh_dir out fs q :
  fs_wf fs → at_or_below out q → out ≠ [] →
  (if fs_exists fs out then remove_path out fs else fs) !! q = None.
Proof.
  intros Hwf Hq Hne. destruct (fs_exists fs out) eqn:E.
  - unfold remove_path. by rewrite del_lookup, bool_decide_eq_true_2.
  - apply bool_decide_eq_false_1 in E. destruct (fs !! q) as [n|] eqn:Eq; [|done]. exfalso. apply E. right.
    destruct (decide (out = q)) as [->|Hoq]; [by eexists|]. exists HDir. by apply (Hwf out q n).
Qed.

Lemma pull_miss_ok layout key l s info s' :
  (∀ c, rootfs_cache (puller s) = Some c → not_in_cache c (info_rootfs info)) →
  pull_miss layout key l s = (Ok info, s') →
  ∃ data out t d1, info = info_of layout key (info_rootfs info) (zlen data) (image_config l) ∧
    files (disk s') !! info_rootfs info = Some data ∧
    extract_layers layout out (om_layers (manifest l))
      (if fs_exists (tree s) out then remove_path out (tree s) else tree s, disk s) = (Ok tt, (t, d1)) ∧
    dir_to_cpio (report t out) = Ok data.
Proof.
  intros Hne. unfold pull_miss. set (out := resolve _ _).
  intros ([] & s1 & Hex & Hr)%stm_bind_inv. unfold extract_into in Hex.
  destruct (extract_layers layout out _ _) as [r [t d1]] eqn:Ee. injection Hex as -> <-.
  apply stm_bind_inv in Hr as ([] & s2 & Hl & Hr).
  pose proof (cache_layers_cache layout (om_layers (manifest l)) {| puller := puller s; disk := d1; tree := t |}) as Hc.
  pose proof (cache_layers_tree layout (om_layers (manifest l)) {| puller := puller s; disk := d1; tree := t |}) as Ht.
  rewrite Hl in Hc, Ht. cbn [snd puller tree] in Hc, Ht.
  apply stm_bind_inv in Hr as (cpio & s3 & Hcv & Hr). unfold convert in Hcv. rewrite Ht in Hcv.
  destruct (dir_to_cpio (report t out)) as [b| |] eqn:Eb; [|done..]. injection Hcv as -> <-.
  apply stm_bind_inv in Hr as ([] & s4 & (d4 & Hw%fs_write_ok & ->)%dio_ok & Hr).
  apply stm_bind_inv in Hr as ([] & s5 & Hcr & Hr). injection Hr as <- <-.
  cbn [info_rootfs info_of] in *. exists cpio, out, t, d1. split_and!; [done| |done|done].
  unfold cache_rootfs in Hcr. cbn [puller set_disk] in Hcr. destruct (rootfs_cache (puller s2)) as [c|] eqn:Ec.
  - pose proof (rootfs_insert_frame key layout (join (image_dir (puller s)) (String.substring 0 12 (sha256_hex cpio) +:+ ".cpio"))
      Initramfs ("sha256:" +:+ sha256_hex cpio) now c d4 _ (proj1 (Hne c (eq_sym Hc)))) as Hfr.
    cbn [disk set_disk] in Hcr. destruct (rootfs_insert _ _ _ _ _ _ _) as [r [c' d']]. injection Hcr as <-.
    cbn [disk set_disk snd] in *. by rewrite Hfr.
  - by injection Hcr as <-.
Qed.

(** If the file named is not one of the rootfs cache's own, a successful
    pull of a layout returns the verified configuration and
    the hash of its manifest file as identity, both when the rootfs cache has
    it and when it has not, and the file it names holds as many bytes as
    reported: the cached archive on a hit, and on a miss the cpio archive
    of the tree that the layers extract to. *)
Theorem pull_oci_layout_result layout s info s' :
  (∀ c, rootfs_cache (puller s) = Some c → not_in_cache c (info_rootfs info)) →
  pull_oci_layout layout s = (Ok info, s') →
  info_ref info = layout ∧ info_format info = Initramfs ∧
  (∃ name b, name ∈ ["manifest.json"; "index.json"] ∧ files (disk s) !! join layout name = Some b ∧
     info_digest info = "sha256:" +:+ sha256_hex b) ∧
  ∃ l dl data, open_layout sha256_hex layout (disk s) = (Ok l, dl) ∧ info_config info = Some (image_config l) ∧
    files (disk s') !! info_rootfs info = Some data ∧ info_size info = zlen data ∧
    ((∃ c e, rootfs_cache (puller s) = Some c ∧ entries c !! info_digest info = Some e ∧
        files (disk s) !! join (cache_dir c) (rootfs_filename e) = Some data) ∨
     (∃ out t0 t d0 d1, extract_layers layout out (om_layers (manifest l)) (t0, d0) = (Ok tt, (t, d1)) ∧
        (fs_wf (tree s) → ∀ q, at_or_below out q → out ≠ [] → t0 !! q = None) ∧
        files d0 = files (disk s) ∧ dir_to_cpio (report t out) = Ok data)).
Proof.
  intros Hne. unfold pull_oci_layout. intros (l & s1 & Hopen & Hrun)%stm_bind_inv.
  unfold derr in Hopen. destruct (open_layout sha256_hex layout (disk s)) as [r1 dl] eqn:El.
  injection Hopen as -> <-. pose proof (open_layout_ok _ _ _ _ _ El) as (Hfl & _ & _).
  apply stm_bind_inv in Hrun as (key & s2 & Hkey & Hrun). unfold manifest_key in Hkey.
  apply stm_bind_inv in Hkey as (kb & s3 & (d3 & [Hkb Hf3]%fs_read_ok & ->)%dio_ok & Hkey).
  injection Hkey as <- <-. cbn [disk set_disk] in *. rewrite Hfl in Hkb, Hf3.
  set (key := "sha256:" +:+ sha256_hex kb) in *.
  assert (Hmk : ∃ name b, name ∈ ["manifest.json"; "index.json"] ∧ files (disk s) !! join layout name = Some b ∧
     key = "sha256:" +:+ sha256_hex b).
  { eexists _, kb. split; [|split; [exact Hkb|done]]. destruct (exists_file _ _); set_solver. }
  clear Hkb. set (s0 := set_disk _ d3) in Hrun.
  assert (Hp0 : puller s0 = puller s) by done. assert (Hd0 : files (disk s0) = files (disk s)) by done.
  assert (Ht0 : tree s0 = tree s) by done. clearbody s0.
  unfold pull_known in Hrun. rewrite Hp0 in Hrun.
  assert (Hmiss : pull_miss layout key l s0 = (Ok info, s') → _) by
    (apply pull_miss_ok; intros c Hc; apply Hne; by rewrite <- Hp0).
  destruct (rootfs_cache (puller s)) as [c|] eqn:Ec; [destruct (rootfs_contains c (disk s0) key)|].
  1: { destruct (pull_hit_ok _ _ _ _ _ _ _ (Hne c eq_refl) Hrun) as (data & e & -> & Hd & He & Hs).
    split_and!; [done..|]. exists l, dl, data. split_and!; [done..|]. left. exists c, e. by rewrite <- Hd0. }
  all: destruct (Hmiss Hrun) as (data & out & t & d1 & -> & Hd & Hx & Hcp); split_and!; [done..|];
    exists l, dl, data; (split_and!; [done..|]); right; eexists out, _, t, _, d1; split; [exact Hx|];
    (split; [|by split]); rewrite Ht0; intros; by apply fresh_dir.
Qed.

End Pull.

(** ** A pull at concrete values *)

#[local] Existing Instance demo_tar.
#[local] Instance demo_blob_serde : Serde BlobStoreIndex := {| to_json := λ _, []; from_json := λ _, inr ∅ |}.
#[local] Instance demo_cache_serde : Serde RootfsCacheIndex := {| to_json := λ _, []; from_json := λ _, inr ∅ |}.

Definition demo_desc (h : string) : OciDescriptor :=
  {| od_media_type := ""; od_digest := "sha256:" +:+ h; od_size := 1; od_platform := None |}.
Definition demo_config : OciConfig :=
  {| oc_architecture := "amd64"; oc_os := "linux";
     oc_config := {| cmd := Some ["/a"]; entrypoint := None; env := None; working_dir := None |};
     oc_rootfs := {| rootfs_type := "layers"; diff_ids := [] |} |}.
#[local] Instance demo_oci_json : OciJson := {|
  parse_layout := λ _, inr {| image_layout_version := "1.0.0" |};
  parse_index := λ _, inr {| schema_version := 2; manifests := [demo_desc "a5"] |};
  parse_manifest := λ _, inr {| om_config := demo_desc "c6"; om_layers := [demo_layer "x"] |};
  parse_config := λ _, inr demo_config |}.
Definition demo_hash (b : list byte) : string :=
  match b2z <$> b with [5] => "a5" | [6] => "c6" | _ => "0123456789abcdef" end.
(** What is reported of the directory: the file [a], if it is there. *)
Definition demo_report (fs : Fs) (p : hpath) : dir :=
  match fs !! (p ++ ["a"]) with
  | Some (HFile data) => DCons (string_bytes "a") (Initrd.File 0x1A4 (inr data)) DNil
  | _ => DNil
  end.

Definition demo_pull : PullState := {|
  puller := with_caches "/i" Initramfs {| base_dir := "/b"; blobs := ∅ |}
    {| cache_dir := "/c"; entries := ∅; clone_strategy := Copy |};
  disk := {| files := list_to_map [("/l/oci-layout", []); ("/l/index.json", [z2b 4]);
      ("/l/blobs/sha256/a5", [z2b 5]); ("/l/blobs/sha256/c6", [z2b 6]); ("/l/blobs/sha256/x", [z2b 1])];
    faults := [] |};
  tree := {[ ["i"] := HDir ]} |}.

Lemma pull_oci_layout_result_witness :
  let '(r, s') := pull_oci_layout demo_hash demo_report pretty 0 "/l" demo_pull in
  match r with
  | Ok info => info_rootfs info = "/i/0123456789ab.cpio" ∧ info_config info = Some demo_config ∧
      ∃ data, files (disk s') !! info_rootfs info = Some data ∧ info_size info = zlen data
  | _ => False
  end.
Proof.
  pose proof (pull_oci_layout_result demo_hash demo_report pretty 0 "/l" demo_pull) as Hpull.
  destruct (pull_oci_layout demo_hash demo_report pretty 0 "/l" demo_pull) as [r s'] eqn:E.
  assert (Hr : match r with Ok i => info_rootfs i | _ => "" end = "/i/0123456789ab.cpio").
  { change r with (r, s').1. rewrite <- E. by vm_compute. }
  clear E. destruct r as [info| |]; [|discriminate Hr..].
  destruct (Hpull info s') as (_ & _ & _ & l & dl & data & Ho & Hc & Hd & Hs & _).
  - intros c [= <-]. split; [|exact (map_Forall_empty _)]. intros n Hn. rewrite Hr. unfold join.
    unfold relative in Hn. rewrite Hn. discriminate.
  - reflexivity.
  - split; [exact Hr|]. split; [|by exists data].
    assert (Hl : image_config l = demo_config).
    { assert (He : (open_layout demo_hash "/l" (disk demo_pull)).1 = Ok l) by (by rewrite Ho).
      vm_compute in He. injection He as <-. reflexivity. }
    by rewrite Hc, Hl.
Defined.
