(* ===== verification/Agent.v ===== *)
(** * The guest agent (nova-agent: protocol.rs, vsock.rs, exec.rs, health.rs, main.rs)

    The agent reads length-prefixed JSON requests from a stream socket and
    answers each with one response.  The socket delivers and accepts bytes in
    chunks of any size: [incoming] lists what successive reads find, [accepts]
    what successive writes take.  Running a command ([std::process]), the
    clock and serde_json are the environment's. *)

From stdpp Require Import gmap strings pretty.
From S2P Require Import Prelude.

(** ** Messages (protocol.rs, error.rs) *)

Inductive Request : Type :=
  | Exec (command : list string) (env : gmap string string) (workdir : option string)
  | HealthCheck
  | Shutdown
  | Version.

Inductive Response : Type :=
  | ExecResult (exit_code : Z) (stdout stderr : string)
  | HealthResult (healthy : bool) (uptime_secs commands_executed : Z)
  | VersionResult (version : string)
  | ErrorResponse (message : string).

Inductive AgentError : Type :=
  | AVsock (s : string)
  | AExec (s : string)
  | AIo (s : string)
  | AJson (s : string)
  | ASystem (s : string).

(** [Display] of the errors. *)
Definition agent_error_text (e : AgentError) : string :=
  match e with
  | AVsock s => "vsock error: " +:+ s
  | AExec s => "exec error: " +:+ s
  | AIo s => "I/O error: " +:+ s
  | AJson s => "JSON error: " +:+ s
  | ASystem s => "system error: " +:+ s
  end.

(** [String::from_utf8_lossy]: each maximal invalid part becomes U+FFFD.
    [utf8_step] gives the length of the first character, or of the invalid
    part that stands in its place. *)
Definition utf8_step (l : list byte) : bool * nat :=
  let at_ i := match l !! i with Some b => b2z b | None => 0 end in
  let cont i := (0x80 <=? at_ i) && (at_ i <=? 0xBF) in
  let c := at_ 0%nat in
  if c <? 0x80 then (true, 1%nat) else
  if (0xC2 <=? c) && (c <=? 0xDF) then (if cont 1%nat then (true, 2%nat) else (false, 1%nat)) else
  if (0xE0 <=? c) && (c <=? 0xEF) then
    let lo := if c =? 0xE0 then 0xA0 else 0x80 in
    let hi := if c =? 0xED then 0x9F else 0xBF in
    if negb ((lo <=? at_ 1%nat) && (at_ 1%nat <=? hi)) then (false, 1%nat) else
    if cont 2%nat then (true, 3%nat) else (false, 2%nat)
  else if (0xF0 <=? c) && (c <=? 0xF4) then
    let lo := if c =? 0xF0 then 0x90 else 0x80 in
    let hi := if c =? 0xF4 then 0x8F else 0xBF in
    if negb ((lo <=? at_ 1%nat) && (at_ 1%nat <=? hi)) then (false, 1%nat) else
    if negb (cont 2%nat) then (false, 2%nat) else
    if cont 3%nat then (true, 4%nat) else (false, 3%nat)
  else (false, 1%nat).

Definition replacement : list byte := z2b <$> [0xEF; 0xBF; 0xBD].

Fixpoint lossy (fuel : nat) (l : list byte) : list byte :=
  match fuel, l with
  | S fuel, _ :: _ =>
      let '(ok, n) := utf8_step l in
      (if ok then take n l else replacement) ++ lossy fuel (drop n l)
  | _, _ => []
  end.
Definition from_utf8_lossy (l : list byte) : string := bytes_string (lossy (length l) l).

(** ** The world the agent runs in *)

(** What the next write takes: a number of bytes (at most what is offered),
    or an error; a write beyond the list takes everything. *)
Inductive WriteResult : Type := Accept (n : nat) | WriteErr (e : string).
(** What the next read finds: bytes (none: the peer has closed) or an error. *)
Inductive ReadResult : Type := Chunk (b : list byte) | ReadErr (e : string).

Record Output : Type := {
  status_code : option Z;
  out_bytes : list byte;
  err_bytes : list byte;
}.

Class AgentEnv (G : Type) : Type := {
  (** [Command::output], with the state of the guest it runs in. *)
  run_command : string → list string → gmap string string → option string → G → (string + Output) * G;
  (** [Instant::elapsed] in seconds. *)
  elapsed_secs : G → Z;
  request_of_json : list byte → string + Request;
  response_to_json : Response → string + list byte;
}.

Record World (G : Type) : Type := {
  incoming : list ReadResult;
  accepts : list WriteResult;
  outgoing : list byte;
  commands_executed : Z;
  guest : G;
}.
#[global] Arguments incoming {G}. #[global] Arguments accepts {G}. #[global] Arguments outgoing {G}.
#[global] Arguments commands_executed {G}. #[global] Arguments guest {G}.
#[global] Arguments Build_World {G}.

Section Agent.
Context {G : Type} `{AgentEnv G}.

Definition set_io (w : World G) rs ws out : World G :=
  {| incoming := rs; accepts := ws; outgoing := out;
     commands_executed := commands_executed w; guest := guest w |}.

(** ** The socket (vsock.rs) *)

(** [write_all], on the writes the socket will take. *)
Fixpoint write_loop (ws : list WriteResult) (data sent : list byte)
    : outcome AgentError unit * (list WriteResult * list byte) :=
  match data, ws with
  | [], _ => (Ok tt, (ws, sent))
  | _, [] => (Ok tt, ([], sent ++ data))
  | _, Accept n :: ws => write_loop ws (drop n data) (sent ++ take n data)
  | _, WriteErr e :: ws => (Err (AIo e), (ws, sent))
  end.
Definition write_all (data : list byte) : stm (World G) AgentError unit := λ w,
  let '(r, (ws, out)) := write_loop (accepts w) data (outgoing w) in
  (r, set_io w (incoming w) ws out).

(** [read_exact], on the chunks the socket will deliver. *)
Fixpoint read_loop (n : nat) (rs : list ReadResult) (got : list byte)
    : outcome AgentError (list byte) * list ReadResult :=
  match n, rs with
  | O, _ => (Ok got, rs)
  | _, [] => (Err (AVsock "connection closed"), [])
  | _, ReadErr e :: rs => (Err (AIo e), rs)
  | _, Chunk [] :: rs => (Err (AVsock "connection closed"), rs)
  | _, Chunk b :: rs =>
      if (n <? length b)%nat then (Ok (got ++ take n b), Chunk (drop n b) :: rs)
      else read_loop (n - length b) rs (got ++ b)
  end.
Definition read_exact (n : nat) : stm (World G) AgentError (list byte) := λ w,
  let '(r, rs) := read_loop n (incoming w) [] in
  (r, set_io w rs (accepts w) (outgoing w)).

Definition send_response (r : Response) : stm (World G) AgentError unit :=
  lift (map_err AJson (of_sum (response_to_json r))) ≫= λ json,
  write_all (be_enc 4 (zlen json)) ≫= λ _, write_all json.

Definition max_message : Z := 1024 * 1024.

Definition recv_request : stm (World G) AgentError Request :=
  read_exact 4 ≫= λ len_buf,
  let len := be_dec len_buf in
  if max_message <? len then throw (AVsock ("message too large: " +:+ pretty len +:+ " bytes")) else
  read_exact (Z.to_nat len) ≫= λ buf,
  lift (map_err AJson (of_sum (request_of_json buf))).

(** ** Commands and health (exec.rs, health.rs) *)

Record ExecOutput : Type := { eo_code : Z; eo_stdout : string; eo_stderr : string }.

Definition execute_command (args : list string) (env : gmap string string) (workdir : option string)
    (g : G) : (AgentError + ExecOutput) * G :=
  match args with
  | [] => (inl (AExec "empty command"), g)
  | program :: cmd_args =>
      let '(r, g') := run_command program cmd_args env workdir g in
      (match r with
       | inl e => inl (AExec ("failed to execute '" +:+ program +:+ "': " +:+ e))
       | inr o => inr {| eo_code := default (-1) (status_code o);
                        eo_stdout := from_utf8_lossy (out_bytes o);
                        eo_stderr := from_utf8_lossy (err_bytes o) |}
       end, g')
  end.

Definition execute_to_response (args : list string) (env : gmap string string)
    (workdir : option string) (g : G) : Response * G :=
  let '(r, g') := execute_command args env workdir g in
  (match r with
   | inr o => ExecResult (eo_code o) (eo_stdout o) (eo_stderr o)
   | inl e => ErrorResponse (agent_error_text e)
   end, g').

Definition health_response (g : G) (cmds : Z) : Response := HealthResult true (elapsed_secs g) cmds.

(** ** The command loop (main.rs) *)

Definition AGENT_VERSION : string := "0.1.0".

(** [handle_request], on the health counter and the guest. *)
Definition handle_request (r : Request) (cmds : Z) (g : G) : Response * (Z * G) :=
  match r with
  | Exec command env workdir =>
      let '(resp, g') := execute_to_response command env workdir g in (resp, (wrap64 (cmds + 1), g'))
  | HealthCheck | Shutdown => (health_response g cmds, (cmds, g))
  | Version => (VersionResult AGENT_VERSION, (cmds, g))
  end.

Definition is_shutdown (r : Request) : bool := match r with Shutdown => true | _ => false end.

(** How the loop of [main] was left. *)
Inductive agent_exit : Type :=
  | ShutDown | SendFailed (e : AgentError) | RecvFailed (e : AgentError) | OutOfFuel.

Fixpoint command_loop (fuel : nat) (w : World G) : agent_exit * World G :=
  match fuel with
  | O => (OutOfFuel, w)
  | S fuel =>
      match recv_request w with
      | (Ok req, w1) =>
          let '(resp, (cmds, g)) := handle_request req (commands_executed w1) (guest w1) in
          let w2 := {| incoming := incoming w1; accepts := accepts w1; outgoing := outgoing w1;
                       commands_executed := cmds; guest := g |} in
          match send_response resp w2 with
          | (Ok _, w3) => if is_shutdown req then (ShutDown, w3) else command_loop fuel w3
          | (Err e, w3) => (SendFailed e, w3)
          | (Panic _, w3) => (SendFailed (ASystem ""), w3)
          end
      | (Err e, w1) => (RecvFailed e, w1)
      | (Panic _, w1) => (RecvFailed (ASystem ""), w1)
      end
  end.

(** [main] after the mounts: [socket] and [connect] are the two system calls. *)
Definition agent_main (fuel : nat) (socket connect : option string) (g : G)
    (rs : list ReadResult) (ws : list WriteResult) : Z * (agent_exit * World G) :=
  let w := {| incoming := rs; accepts := ws; outgoing := []; commands_executed := 0; guest := g |} in
  match socket, connect with
  | Some e, _ => (1, (RecvFailed (AVsock ("failed to create vsock socket: " +:+ e)), w))
  | _, Some e => (1, (RecvFailed (AVsock ("failed to connect to cid=2 port=1024: " +:+ e)), w))
  | None, None => (0, command_loop fuel w)
  end.

(** ** What the agent does with a session *)

(** The requests answered one after the other, without a transport. *)
Fixpoint serve (reqs : list Request) (cmds : Z) (g : G) : list Response * (Z * G) :=
  match reqs with
  | [] => ([], (cmds, g))
  | r :: reqs =>
      let '(resp, (cmds', g')) := handle_request r cmds g in
      let '(resps, cg) := serve reqs cmds' g' in (resp :: resps, cg)
  end.

(** A message on the wire. *)
Definition msg (b : list byte) : list byte := be_enc 4 (zlen b) ++ b.

(** [rs] delivers the bytes [bs], in chunks of any size. *)
Definition chunk_of (r : ReadResult) : list byte := match r with Chunk b => b | ReadErr _ => [] end.
Definition live (r : ReadResult) : Prop := chunk_of r ≠ [].
Definition delivers (rs : list ReadResult) (bs : list byte) : Prop :=
  Forall live rs ∧ concat (chunk_of <$> rs) = bs.
(** Every write takes some number of bytes. *)
Definition accepting (ws : list WriteResult) : Prop :=
  Forall (λ r, match r with Accept _ => True | WriteErr _ => False end) ws.

Lemma write_loop_ok ws data sent :
  accepting ws → ∃ ws', write_loop ws data sent = (Ok tt, (ws', sent ++ data)) ∧ accepting ws'.
Proof.
  intros Hw. revert data sent. induction Hw as [|r ws Hr Hw IH]; intros data sent.
  - destruct data; simpl; eexists; (split; [|constructor]); by rewrite ?app_nil_r.
  - destruct data as [|x data].
    { eexists. rewrite app_nil_r. split; [done|by constructor]. }
    destruct r as [n|]; [|done]. cbn [write_loop].
    destruct (IH (drop n (x :: data)) (sent ++ take n (x :: data))) as (ws' & -> & Hw').
    eexists. split; [|done]. by rewrite <- (assoc_L (++)), take_drop.
Qed.

Lemma read_loop_ok n rs bs got :
  delivers rs bs → (n ≤ length bs)%nat →
  ∃ rs', read_loop n rs got = (Ok (got ++ take n bs), rs') ∧ delivers rs' (drop n bs).
Proof.
  intros [Hl <-]. revert n got. induction Hl as [|r rs Hr Hl IH]; intros n got Hn.
  - simpl in Hn. replace n with 0%nat by lia. eexists. simpl. rewrite app_nil_r. by split.
  - destruct n as [|n].
    { eexists. simpl. rewrite app_nil_r, drop_0. split; [done|]. split; [by constructor|done]. }
    destruct r as [b|]; [|done]. destruct b as [|x b]; [done|]. set (b' := x :: b) in *.
    change (S n ≤ length (b' ++ concat (chunk_of <$> rs)))%nat in Hn. rewrite length_app in Hn.
    change (concat (chunk_of <$> Chunk b' :: rs)) with (b' ++ concat (chunk_of <$> rs)).
    change (read_loop (S n) (Chunk b' :: rs) got) with
      (if (S n <? length b')%nat then (Ok (E:=AgentError) (got ++ take (S n) b'), Chunk (drop (S n) b') :: rs)
       else read_loop (S n - length b') rs (got ++ b')).
    destruct (Nat.ltb_spec (S n) (length b')).
    + eexists. rewrite take_app_le, drop_app_le by lia. split; [done|]. split; [|done].
      constructor; [|done]. unfold live. cbn [chunk_of]. intros E.
      apply (f_equal length) in E. rewrite length_drop in E. change (length b' - S n = 0)%nat in E. lia.
    + destruct (IH (S n - length b')%nat (got ++ b')) as (rs' & -> & Hd); [lia|].
      eexists. rewrite take_app_ge, drop_app_ge by lia. split; [|done].
      by rewrite (assoc_L (++)).
Qed.

Lemma recv_message b rest w :
  delivers (incoming w) (msg b ++ rest) → zlen b ≤ max_message →
  ∃ rs, recv_request w = (map_err AJson (of_sum (request_of_json b)), set_io w rs (accepts w) (outgoing w)) ∧
    delivers rs rest.
Proof.
  intros Hd Hb. unfold recv_request, mbind, stm_bind, read_exact, msg in *.
  rewrite <- (assoc_L (++)) in Hd.
  destruct (read_loop_ok 4 _ _ [] Hd) as (rs & -> & Hd1); [rewrite length_app, length_be_enc; lia|].
  rewrite drop_app_length' in Hd1 by (symmetry; apply length_be_enc).
  rewrite take_app_length' by (symmetry; apply length_be_enc). cbn [app].
  rewrite be_dec_enc, wrap_small by (unfold fits, max_message in *; pose proof (zlen_nonneg b); lia).
  rewrite (proj2 (Z.ltb_ge max_message (zlen b))) by done.
  unfold zlen at 1. rewrite Nat2Z.id. cbn [incoming set_io].
  destruct (read_loop_ok (length b) _ _ [] Hd1) as (rs' & Hr & Hd2); [rewrite length_app; lia|].
  rewrite drop_app_length in Hd2. rewrite take_app_length in Hr. rewrite Hr.
  exists rs'. by split.
Qed.

Section Session.
Context (enc : Request → list byte) (render : Response → list byte).
Context (Hrender : ∀ r, response_to_json r = inr (render r)).

(** Requests that the codec round-trips and that fit the limit. *)
Definition sendable (r : Request) : Prop :=
  request_of_json (enc r) = inr r ∧ zlen (enc r) ≤ max_message.

Lemma send_response_ok r w :
  accepting (accepts w) →
  ∃ ws, send_response r w = (Ok tt, set_io w (incoming w) ws (outgoing w ++ msg (render r))) ∧ accepting ws.
Proof.
  intros Hw. unfold send_response, write_all, lift, mbind, stm_bind. rewrite Hrender. simpl.
  destruct (write_loop_ok _ (be_enc 4 (zlen (render r))) (outgoing w) Hw) as (ws & -> & Hw1).
  cbn [accepts set_io outgoing incoming].
  destruct (write_loop_ok ws (render r) (outgoing w ++ be_enc 4 (zlen (render r))) Hw1) as (ws' & -> & Hw2).
  exists ws'. split; [|done]. unfold msg. by rewrite (assoc_L (++)).
Qed.

(** One round of the loop. *)
Lemma command_step r rest fuel w :
  delivers (incoming w) (msg (enc r) ++ rest) → accepting (accepts w) → sendable r →
  let '(resp, (cmds, g)) := handle_request r (commands_executed w) (guest w) in
  ∃ rs ws, let w' := {| incoming := rs; accepts := ws; outgoing := outgoing w ++ msg (render resp);
                        commands_executed := cmds; guest := g |} in
    command_loop (S fuel) w = (if is_shutdown r then (ShutDown, w') else command_loop fuel w') ∧
    delivers rs rest ∧ accepting ws.
Proof.
  intros Hd Hw [Hr Hl]. destruct (recv_message _ _ _ Hd Hl) as (rs & Hrecv & Hd'). rewrite Hr in Hrecv.
  destruct (handle_request r (commands_executed w) (guest w)) as [resp [cmds g]] eqn:Eh.
  destruct (send_response_ok resp {| incoming := rs; accepts := accepts w; outgoing := outgoing w;
    commands_executed := cmds; guest := g |} Hw) as (ws & Hsend & Hw').
  exists rs, ws. cbn [command_loop]. rewrite Hrecv. cbn [map_err of_sum commands_executed guest set_io].
  rewrite Eh. cbn [incoming accepts outgoing set_io]. rewrite Hsend. split; [|done].
  by destruct (is_shutdown r).
Qed.

(** A whole run of requests. *)
Lemma command_loop_serves reqs rest fuel w :
  delivers (incoming w) (concat (msg ∘ enc <$> reqs) ++ rest) → accepting (accepts w) →
  Forall sendable reqs → Forall (λ r, is_shutdown r = false) reqs →
  let '(resps, (cmds, g)) := serve reqs (commands_executed w) (guest w) in
  ∃ rs ws, command_loop (length reqs + fuel) w =
      command_loop fuel {| incoming := rs; accepts := ws;
        outgoing := outgoing w ++ concat (msg ∘ render <$> resps);
        commands_executed := cmds; guest := g |} ∧
    delivers rs rest ∧ accepting ws.
Proof.
  intros Hd Hw Hs Hns. revert w Hd Hw Hns. induction Hs as [|r reqs Hr Hs IH]; intros w Hd Hw Hns.
  - exists (incoming w), (accepts w). simpl. rewrite app_nil_r. split; [by destruct w|done].
  - apply Forall_cons in Hns as [Hn Hns]. cbn [fmap list_fmap concat] in Hd.
    rewrite <- (assoc_L (++)) in Hd.
    pose proof (command_step r _ (length reqs + fuel) w Hd Hw Hr) as Hstep. cbn [serve].
    destruct (handle_request r (commands_executed w) (guest w)) as [resp [cmds g]].
    destruct Hstep as (rs & ws & Hstep & Hd' & Hw'). rewrite Hn in Hstep. set (w1 := Build_World _ _ _ _ _) in Hstep.
    pose proof (IH w1 Hd' Hw' Hns) as Hrec. cbn [commands_executed guest w1] in Hrec.
    destruct (serve reqs cmds g) as [resps [cmds' g']].
    destruct Hrec as (rs' & ws' & Hrec & Hd2 & Hw2). exists rs', ws'. split; [|done].
    change (length (r :: reqs) + fuel)%nat with (S (length reqs + fuel)). rewrite Hstep, Hrec.
    subst w1. cbn [outgoing fmap list_fmap concat]. by rewrite (assoc_L (++)).
Qed.

Lemma serve_app reqs reqs' cmds g :
  serve (reqs ++ reqs') cmds g =
  let '(resps, (cmds1, g1)) := serve reqs cmds g in
  let '(resps', cg) := serve reqs' cmds1 g1 in (resps ++ resps', cg).
Proof.
  revert cmds g. induction reqs as [|r reqs IH]; intros cmds g; cbn [serve app].
  - by destruct (serve reqs' cmds g).
  - destruct (handle_request r cmds g) as [resp [cmds1 g1]]. rewrite IH.
    destruct (serve reqs cmds1 g1) as [resps [cmds2 g2]]. by destruct (serve reqs' cmds2 g2).
Qed.

(** C24. However the socket splits the bytes it delivers and accepts, the agent
    answers the requests of a session in order, one framed response each, up
    to and including the shutdown request, runs their commands once each
    and reads nothing that follows. *)
Theorem agent_session_exact reqs rest rs ws g :
  delivers rs (concat (msg ∘ enc <$> reqs ++ [Shutdown]) ++ rest) → accepting ws →
  Forall sendable (reqs ++ [Shutdown]) → Forall (λ r, is_shutdown r = false) reqs →
  let '(resps, (cmds, g')) := serve (reqs ++ [Shutdown]) 0 g in
  ∃ rs' ws', agent_main (S (length reqs)) None None g rs ws =
      (0, (ShutDown, {| incoming := rs'; accepts := ws'; outgoing := concat (msg ∘ render <$> resps);
                        commands_executed := cmds; guest := g' |})) ∧
    delivers rs' rest.
Proof.
  intros Hd Hw [Hs Hsh]%Forall_app Hns. rewrite serve_app. unfold agent_main.
  rewrite fmap_app, concat_app, <- (assoc_L (++)) in Hd.
  set (w := Build_World rs ws [] 0 g).
  pose proof (command_loop_serves reqs _ 1 w Hd Hw Hs Hns) as Hrun. cbn [commands_executed guest w] in Hrun.
  destruct (serve reqs 0 g) as [resps [cmds g1]].
  destruct Hrun as (rs1 & ws1 & Hrun & Hd1 & Hw1).
  cbn [fmap list_fmap concat] in Hd1. rewrite app_nil_r in Hd1.
  apply Forall_cons in Hsh as [Hsh _]. rewrite Nat.add_comm in Hrun. change (1 + length reqs)%nat with (S (length reqs)) in Hrun.
  rewrite Hrun. set (w1 := Build_World _ _ _ _ _).
  destruct (command_step Shutdown rest 0 w1 Hd1 Hw1 Hsh) as (rs' & ws' & -> & Hd' & _).
  cbn [serve handle_request is_shutdown commands_executed guest w1]. exists rs', ws'.
  split; [|done]. rewrite fmap_app, concat_app. cbn [fmap list_fmap concat].
  by rewrite app_nil_r.
Qed.

(** A request the agent cannot parse, a length over the limit and the end
    of the stream are not answered: they end the loop, after the responses
    to what came before, with the matching error. *)
Theorem agent_bad_input reqs tail rs ws g :
  delivers rs (concat (msg ∘ enc <$> reqs) ++ tail) → accepting ws →
  Forall sendable reqs → Forall (λ r, is_shutdown r = false) reqs →
  let '(resps, _) := serve reqs 0 g in
  let '(status, (e, w)) := agent_main (S (length reqs)) None None g rs ws in
  (∀ b t, tail = msg b ++ t → zlen b ≤ max_message →
     ∀ s, request_of_json b = inl s → e = RecvFailed (AJson s) ∧ outgoing w = concat (msg ∘ render <$> resps)) ∧
  (∀ n t, tail = be_enc 4 n ++ t → max_message < n < 2 ^ 32 →
     (∃ s, e = RecvFailed (AVsock ("message too large: " +:+ s))) ∧ delivers (incoming w) t ∧
     outgoing w = concat (msg ∘ render <$> resps)) ∧
  (tail = [] → e = RecvFailed (AVsock "connection closed") ∧ outgoing w = concat (msg ∘ render <$> resps)).
Proof.
  intros Hd Hw Hs Hns. unfold agent_main. set (w0 := Build_World rs ws [] 0 g).
  pose proof (command_loop_serves reqs _ 1 w0 Hd Hw Hs Hns) as Hrun. cbn [commands_executed guest w0] in Hrun.
  destruct (serve reqs 0 g) as [resps [cmds g1]].
  destruct Hrun as (rs1 & ws1 & Hrun & Hd1 & Hw1).
  rewrite Nat.add_comm in Hrun. change (1 + length reqs)%nat with (S (length reqs)) in Hrun.
  rewrite Hrun. set (w1 := Build_World _ _ _ _ _). change (delivers (incoming w1) tail) in Hd1.
  destruct (command_loop 1 w1) as [e w] eqn:Ew. cbn [command_loop] in Ew. split_and!.
  - intros b t -> Hb s Hbad. destruct (recv_message b t w1 Hd1 Hb) as (rs2 & Hr & _).
    rewrite Hr, Hbad in Ew. cbn in Ew. injection Ew as <- <-. by split.
  - intros n t -> Hn. unfold recv_request, mbind, stm_bind, read_exact in Ew.
    destruct (read_loop_ok 4 _ _ [] Hd1) as (rs2 & Hr & Hd2); [rewrite length_app, length_be_enc; lia|].
    rewrite drop_app_length' in Hd2 by (symmetry; apply length_be_enc).
    rewrite take_app_length' in Hr by (symmetry; apply length_be_enc). rewrite Hr in Ew. cbn [app] in Ew.
    rewrite be_dec_enc, wrap_small, (proj2 (Z.ltb_lt max_message n)) in Ew
      by (unfold fits, max_message in *; lia).
    cbn in Ew. injection Ew as <- <-. split; [by eexists|]. by split.
  - intros ->. destruct Hd1 as [Hl Hc]. cbn [incoming w1] in *. destruct rs1 as [|r rs1].
    + cbn in Ew. injection Ew as <- <-. by split.
    + apply Forall_cons in Hl as [Hl _]. cbn [fmap list_fmap concat] in Hc. by apply app_nil in Hc as [Hc _].
Qed.
End Session.
End Agent.

(** ** A session at concrete values *)

Definition demo_render (r : Response) : list byte :=
  match r with
  | ExecResult c o _ => z2b c :: string_bytes o | HealthResult _ _ n => [z2b n] | _ => []
  end.
#[local] Instance demo_env : AgentEnv nat := {|
  run_command := λ prog args _ _ g, (inr {| status_code := Some 3;
    out_bytes := z2b <$> [0x68; 0xFF; 0x69]; err_bytes := [] |}, S g);
  elapsed_secs := Z.of_nat;
  request_of_json := λ b, match b2z <$> b with
    | [1] => inr (Exec ["sh"] ∅ None) | [2] => inr Shutdown | [3] => inr HealthCheck | _ => inl "bad" end;
  response_to_json := λ r, inr (demo_render r) |}.

Definition demo_enc (r : Request) : list byte :=
  match r with Exec _ _ _ => [z2b 1] | Shutdown => [z2b 2] | HealthCheck => [z2b 3] | Version => [] end.

Definition demo_reqs : list Request := [Exec ["sh"] ∅ None; HealthCheck].
Definition demo_input : list byte := concat (msg ∘ demo_enc <$> demo_reqs ++ [Shutdown]).
(** The input in three chunks; the first write takes a single byte. *)
Definition demo_chunks : list ReadResult :=
  [Chunk (take 2 demo_input); Chunk (take 7 (drop 2 demo_input)); Chunk (drop 9 demo_input)].

Lemma agent_session_exact_witness :
  let w := (agent_main 3 None None 0%nat demo_chunks [Accept 1]).2.2 in
  guest w = 1%nat ∧ commands_executed w = 1 ∧
  outgoing w = concat (msg <$> [z2b <$> [3; 0x68; 0xEF; 0xBF; 0xBD; 0x69]; [z2b 1]; [z2b 1]]).
Proof.
  destruct (agent_session_exact (H:=demo_env) demo_enc demo_render (λ r, eq_refl) demo_reqs [] demo_chunks [Accept 1] 0%nat)
    as (rs & ws & E & _).
  - split; [|by vm_compute]. repeat constructor; by vm_compute.
  - by repeat constructor.
  - repeat constructor; by vm_compute.
  - by repeat constructor.
  - change (S (length demo_reqs)) with 3%nat in E. rewrite E. split_and!; by vm_compute.
Defined.

Lemma agent_bad_input_witness :
  let '(_, (e, w)) := agent_main 1 None None 0%nat [Chunk (be_enc 4 (2 ^ 20 + 1))] [] in
  (∃ s, e = RecvFailed (AVsock ("message too large: " +:+ s))) ∧ outgoing w = [].
Proof.
  pose proof (agent_bad_input (H:=demo_env) demo_enc demo_render (λ r, eq_refl) [] (be_enc 4 (2 ^ 20 + 1))
    [Chunk (be_enc 4 (2 ^ 20 + 1))] [] 0%nat) as Hbad.
  cbn [serve length] in Hbad. destruct (agent_main 1 None None 0%nat _ []) as [st [e w]].
  destruct Hbad as (_ & Hbig & _); [split; [|done]; constructor; [by vm_compute|constructor]|constructor..|].
  destruct (Hbig (2 ^ 20 + 1) []) as (He & _ & Hout); [by rewrite app_nil_r|by unfold max_message|]. split; [exact He|exact Hout].
Defined.
