(* ===== verification/Eye.v ===== *)
(** * The event pipeline (nova-eye-common, nova-eye, nova-eye-ebpf,
    nova-eye-agent and the sensor loop of nova-api's server.rs)

    Probes in the kernel of a guest or of the host write an event header to a
    perf buffer; the guest's agent forwards it in a UDP datagram; sources of
    the host's pipeline decode headers, which the pipeline collects, filters
    and hands to its sinks.  The perf buffers, the UDP socket, the JSON reader
    and the file behind a sink are the environment's: they appear as the
    data they deliver and the errors they return. *)

From stdpp Require Import gmap strings pretty.
From S2P Require Import Prelude Pool Wasm Sandbox Policy Store.

(** ** Events (nova-eye-common) *)

Inductive EventType : Type :=
  | ProcessExec | ProcessExit | ProcessFork | FileOpen | FileWrite | FileUnlink
  | NetConnect | NetAccept | NetClose | HttpRequest | HttpResponse | DnsQuery.

Definition type_code (t : EventType) : Z :=
  match t with
  | ProcessExec => 1 | ProcessExit => 2 | ProcessFork => 3
  | FileOpen => 10 | FileWrite => 11 | FileUnlink => 12
  | NetConnect => 20 | NetAccept => 21 | NetClose => 22
  | HttpRequest => 30 | HttpResponse => 31 | DnsQuery => 40
  end.

Record EventHeader : Type := {
  event_type : Z;
  timestamp_ns : Z;
  pid : Z;
  tid : Z;
  uid : Z;
  gid : Z;
  comm : list byte;
}.

Definition MAX_COMM_LEN : Z := 16.
Definition MAX_PATH_LEN : Z := 128.
Definition MAX_ADDR_LEN : Z := 64.
Definition MAX_HTTP_DATA_LEN : Z := 128.

Definition default_header : EventHeader :=
  {| event_type := 0; timestamp_ns := 0; pid := 0; tid := 0; uid := 0; gid := 0;
     comm := replicate 16 (z2b 0) |}.

(** [comm_str]: the bytes before the first NUL. *)
Fixpoint until_nul (l : list byte) : list byte :=
  match l with [] => [] | b :: l => if b2z b =? 0 then [] else b :: until_nul l end.
Definition comm_str (h : EventHeader) : string :=
  default "<invalid>" (from_utf8 (until_nul (comm h))).

(** The [#[repr(C)]] layout: each field at the next multiple of its alignment,
    the size rounded up to the largest alignment. *)
Inductive ctype : Type := U16 | U32 | I32 | U64 | Bytes (n : Z) | Header.
Definition align_up (n a : Z) : Z := (n + a - 1) / a * a.
Definition csize (hdr : Z) (c : ctype) : Z :=
  match c with U16 => 2 | U32 | I32 => 4 | U64 => 8 | Bytes n => n | Header => hdr end.
Definition calign (c : ctype) : Z :=
  match c with U16 => 2 | U32 | I32 => 4 | U64 | Header => 8 | Bytes _ => 1 end.
Fixpoint offsets (hdr pos : Z) (fs : list ctype) : list Z * Z :=
  match fs with
  | [] => ([], pos)
  | f :: fs =>
      let o := align_up pos (calign f) in
      let '(os, e) := offsets hdr (o + csize hdr f) fs in (o :: os, e)
  end.
Definition struct_size (hdr : Z) (fs : list ctype) : Z :=
  align_up (offsets hdr 0 fs).2 (foldr (λ f a, Z.max (calign f) a) 1 fs).

Definition EventHeader_fields : list ctype := [U32; U64; U32; U32; U32; U32; Bytes MAX_COMM_LEN].
Definition header_size : Z := struct_size 0 EventHeader_fields.

Definition ProcessExecEvent : list ctype := [Header; Bytes MAX_PATH_LEN; U32; U32].
Definition ProcessExitEvent : list ctype := [Header; I32; U32; U64].
Definition ProcessForkEvent : list ctype := [Header; U32; U32].
Definition FileOpenEvent : list ctype := [Header; Bytes MAX_PATH_LEN; U32; U32].
Definition FileWriteEvent : list ctype := [Header; Bytes MAX_PATH_LEN; U64].
Definition FileUnlinkEvent : list ctype := [Header; Bytes MAX_PATH_LEN].
Definition NetConnectEvent : list ctype := [Header; Bytes 16; Bytes 16; U16; U16; U16; U16].
Definition NetAcceptEvent : list ctype := [Header; Bytes 16; Bytes 16; U16; U16; U16; U16].
Definition NetCloseEvent : list ctype := [Header; Bytes 16; Bytes 16; U16; U16; U64; U64].
Definition HttpRequestEvent : list ctype := [Header; Bytes MAX_HTTP_DATA_LEN; U32; U32].
Definition HttpResponseEvent : list ctype := [Header; Bytes MAX_HTTP_DATA_LEN; U32; U32].
Definition DnsQueryEvent : list ctype := [Header; Bytes MAX_ADDR_LEN; U16; Bytes 6].

(** The bytes of a header; [pad] is what the four padding bytes hold.
    [read_header] is [ptr::read_unaligned]. *)
Definition header_to_bytes (pad : list byte) (h : EventHeader) : list byte :=
  le_enc 4 (event_type h) ++ pad ++ le_enc 8 (timestamp_ns h) ++ le_enc 4 (pid h) ++
  le_enc 4 (tid h) ++ le_enc 4 (uid h) ++ le_enc 4 (gid h) ++ comm h.
Definition read_header (b : list byte) : EventHeader :=
  let u32 o := le_dec (sub_list o 4 b) in
  {| event_type := u32 0; timestamp_ns := le_dec (sub_list 8 8 b); pid := u32 16; tid := u32 20;
     uid := u32 24; gid := u32 28; comm := sub_list 32 MAX_COMM_LEN b |}.

(** ** The probes (nova-eye-ebpf): one header each, of their own type *)

Inductive probe : Type :=
  | handle_exec | handle_vfs_open | handle_tcp_v4_connect | handle_ssl_write | handle_ssl_read.
Definition probe_type (p : probe) : EventType :=
  match p with
  | handle_exec => ProcessExec | handle_vfs_open => FileOpen | handle_tcp_v4_connect => NetConnect
  | handle_ssl_write => HttpRequest | handle_ssl_read => HttpResponse
  end.
Definition probe_header (p : probe) (pid_tgid uid_gid ts : Z) (cm : list byte) : EventHeader :=
  {| event_type := type_code (probe_type p); timestamp_ns := ts;
     pid := Z.shiftr pid_tgid 32; tid := wrap32 pid_tgid;
     uid := wrap32 uid_gid; gid := Z.shiftr uid_gid 32; comm := cm |}.

(** ** The guest's agent (nova-eye-agent) *)

Definition heartbeat (polls events errors : Z) : list byte :=
  string_bytes ("NOVA-EYE-HB:polls=" +:+ pretty polls +:+ ",events=" +:+ pretty events
                +:+ ",errors=" +:+ pretty errors).

Record AgentCounters : Type := { total_events : Z; total_polls : Z; total_errors : Z }.

(** One round of the poll loop: each perf buffer's records ([None]: the read
    failed), and whether five seconds have passed; the datagrams sent. *)
Fixpoint drain_bufs (bufs : list (option (list (list byte)))) (c : AgentCounters)
    : list (list byte) * AgentCounters :=
  match bufs with
  | [] => ([], c)
  | None :: bufs =>
      drain_bufs bufs {| total_events := total_events c; total_polls := total_polls c;
                         total_errors := wrap64 (total_errors c + 1) |}
  | Some recs :: bufs =>
      let sent := List.filter (λ d, header_size <=? zlen d) recs in
      let '(ds, c') := drain_bufs bufs
        {| total_events := wrap64 (total_events c + zlen sent); total_polls := total_polls c;
           total_errors := total_errors c |} in
      (sent ++ ds, c')
  end.
Definition agent_poll (bufs : list (option (list (list byte)))) (five_secs : bool) (c : AgentCounters)
    : list (list byte) * AgentCounters :=
  let '(ds, c1) := drain_bufs bufs c in
  let c2 := {| total_events := total_events c1; total_polls := wrap64 (total_polls c1 + 1);
               total_errors := total_errors c1 |} in
  (ds ++ (if five_secs then [heartbeat (total_polls c2) (total_events c2) (total_errors c2)] else []), c2).

(** ** Errors and filters (nova-eye) *)

Inductive EyeError : Type :=
  | LoadError (name reason : string)
  | MapError (map_name reason : string)
  | IoError (e : string).

Record EventFilter : Type := { allowed_types : gset Z; allowed_pids : gset Z }.
Definition filter_new : EventFilter := {| allowed_types := ∅; allowed_pids := ∅ |}.
Definition allow_type (t : EventType) (f : EventFilter) : EventFilter :=
  {| allowed_types := {[type_code t]} ∪ allowed_types f; allowed_pids := allowed_pids f |}.
Definition allow_pid (p : Z) (f : EventFilter) : EventFilter :=
  {| allowed_types := allowed_types f; allowed_pids := {[p]} ∪ allowed_pids f |}.
Definition matches (f : EventFilter) (h : EventHeader) : bool :=
  let type_ok := bool_decide (allowed_types f = ∅) || bool_decide (event_type h ∈ allowed_types f) in
  let pid_ok := bool_decide (allowed_pids f = ∅) || bool_decide (pid h ∈ allowed_pids f) in
  type_ok && pid_ok.

(** ** Sources *)

Definition RawEvent : Type := EventHeader * list byte.

(** The trait [SensorSource]. *)
Class SensorSource (S : Type) : Type := {
  poll_events : S → (EyeError + list RawEvent) * S;
  source_name : S → string;
}.

(** What [recv_from] returns on the non-blocking socket. *)
Inductive Recv : Type := Datagram (d : list byte) | WouldBlock | RecvError.

(** [GuestEventSource::poll_events] with its 4096-byte buffer; a read of the
    exhausted list would block. *)
Fixpoint guest_poll (rs : list Recv) : list RawEvent * list Recv :=
  match rs with
  | [] => ([], [])
  | Datagram d :: rs =>
      let buf := take 4096 d in
      let '(evs, rs') := guest_poll rs in
      (if header_size <=? zlen buf then (read_header buf, buf) :: evs else evs, rs')
  | WouldBlock :: rs | RecvError :: rs => ([], rs)
  end.

(** [AyaBpfSource::poll_events]: the next result of each CPU's buffer. *)
Fixpoint bpf_poll (bufs : list (list (option (list (list byte))))) : list RawEvent * list (list (option (list (list byte)))) :=
  match bufs with
  | [] => ([], [])
  | b :: bufs =>
      let evs := match head b with
        | Some (Some recs) => (λ d, (read_header d, d)) <$> List.filter (λ d, header_size <=? zlen d) recs
        | _ => [] end in
      let '(evs', bufs') := bpf_poll bufs in (evs ++ evs', tail b :: bufs')
  end.

Inductive AnySource : Type :=
  | SimulatedSource (name : string) (events : list RawEvent)
  | ReplaySource (name : string) (events : list RawEvent)
  | GuestEventSource (sandbox_id : string) (socket : list Recv)
  | AyaBpfSource (name : string) (bufs : list (list (option (list (list byte))))).

(** Draining the queue of a simulated or replayed source. *)
Definition Polled : Type := (EyeError + list RawEvent) * AnySource.
Definition simulated_poll (name : string) (events : list RawEvent) : Polled :=
  (inr events, SimulatedSource name []).
Definition replay_poll (name : string) (events : list RawEvent) : Polled :=
  (inr events, ReplaySource name []).
Definition guest_name (sandbox_id : string) : string := "guest:" +:+ sandbox_id.

#[export] Instance any_source : SensorSource AnySource := {|
  poll_events := λ s,
    match s with
    | SimulatedSource n evs => simulated_poll n evs
    | ReplaySource n evs => replay_poll n evs
    | GuestEventSource sid rs => let '(evs, rs') := guest_poll rs in (inr evs, GuestEventSource sid rs')
    | AyaBpfSource n bufs => let '(evs, bufs') := bpf_poll bufs in (inr evs, AyaBpfSource n bufs')
    end;
  source_name := λ s,
    match s with
    | SimulatedSource n _ | ReplaySource n _ | AyaBpfSource n _ => n
    | GuestEventSource sid _ => guest_name sid
    end |}.

(** A header made from a command name, at most 16 bytes of it. *)
Definition comm_of (s : string) : list byte :=
  let b := take 16 (string_bytes s) in b ++ replicate (16 - length b) (z2b 0).
Definition make_header (t p : Z) (cm : string) (now_ns : Z) : EventHeader :=
  {| event_type := t; pid := p; tid := p; uid := 1000; gid := 1000; comm := comm_of cm;
     timestamp_ns := wrap64 now_ns |}.
Definition sim_add (t : EventType) (p : Z) (cm : string) (now_ns : Z) (pad : list byte) (evs : list RawEvent)
    : list RawEvent :=
  let h := make_header (type_code t) p cm now_ns in evs ++ [(h, header_to_bytes pad h)].

(** A line of a replay file: the fields serde_json finds in it. *)
Record ReplayLine : Type := {
  rl_type : option Z; rl_pid : option Z; rl_tid : option Z; rl_uid : option Z; rl_ts : option Z;
  rl_comm : option string;
}.
Definition replay_event (pad : list byte) (v : ReplayLine) : RawEvent :=
  let p := wrap32 (default 0 (rl_pid v)) in
  let h := {| event_type := wrap32 (default 0 (rl_type v)); timestamp_ns := default 0 (rl_ts v);
              pid := p; tid := wrap32 (default p (rl_tid v)); uid := wrap32 (default 0 (rl_uid v));
              gid := 0; comm := comm_of (default "" (rl_comm v)) |} in
  (h, header_to_bytes pad h).
(** [from_file]: lines that are empty or no JSON are skipped; [inl] is a line
    that cannot be read. *)
Fixpoint from_file (parse : string → option ReplayLine) (blank : string → bool) (pad : list byte)
    (lines : list (string + string)) : EyeError + list RawEvent :=
  match lines with
  | [] => inr []
  | inl e :: _ => inl (IoError e)
  | inr l :: lines =>
      match from_file parse blank pad lines with
      | inl e => inl e
      | inr evs =>
          if blank l then inr evs else
          match parse l with Some v => inr (replay_event pad v :: evs) | None => inr evs end
      end
  end.

(** ** Sinks *)

(** The trait [TelemetrySink]; [None]: the call blocks for ever. *)
Class TelemetrySink (K : Type) : Type := {
  send : EventHeader → list byte → string → K → option ((EyeError + unit) * K);
}.

(** Event lines. The command name and the sandbox id are not escaped. *)
Definition stdout_line (h : EventHeader) (raw : list byte) : string :=
  "[eye] type=" +:+ pretty (event_type h) +:+ " pid=" +:+ pretty (pid h) +:+ " tid=" +:+ pretty (tid h)
  +:+ " uid=" +:+ pretty (uid h) +:+ " comm=" +:+ comm_str h +:+ " ts=" +:+ pretty (timestamp_ns h)
  +:+ " raw_len=" +:+ pretty (zlen raw).
Definition quote : string := String (Ascii.ascii_of_nat 34) "".
Definition newline : string := String (Ascii.ascii_of_nat 10) "".
Definition field (name value : string) : string := quote +:+ name +:+ quote +:+ ":" +:+ value.
Definition quoted (s : string) : string := quote +:+ s +:+ quote.
Definition file_line (h : EventHeader) (raw : list byte) : string :=
  "{" +:+ field "type" (pretty (event_type h)) +:+ "," +:+ field "pid" (pretty (pid h)) +:+ ","
  +:+ field "tid" (pretty (tid h)) +:+ "," +:+ field "uid" (pretty (uid h)) +:+ ","
  +:+ field "comm" (quoted (comm_str h)) +:+ "," +:+ field "ts" (pretty (timestamp_ns h)) +:+ ","
  +:+ field "raw_len" (pretty (zlen raw)) +:+ "}" +:+ newline.

Definition sandbox_of (source : string) : string :=
  match strip_prefix "guest:" source with Some id => id | None => "" end.
Definition jsond_line (h : EventHeader) (raw : list byte) (source : string) : string :=
  let id := sandbox_of source in
  "{" +:+ field "event_type" (quoted (event_type_to_str (event_type h))) +:+ ","
  +:+ field "timestamp_ns" (pretty (timestamp_ns h)) +:+ "," +:+ field "pid" (pretty (pid h)) +:+ ","
  +:+ field "tid" (pretty (tid h)) +:+ "," +:+ field "uid" (pretty (uid h)) +:+ ","
  +:+ field "gid" (pretty (gid h)) +:+ "," +:+ field "comm" (quoted (comm_str h)) +:+ ","
  +:+ field "raw_len" (pretty (zlen raw))
  +:+ (if (id =? "")%string then "" else "," +:+ field "sandbox_id" (quoted id)) +:+ "}" +:+ newline.

(** A file opened for appending; [fails] are the outcomes of the writes to come. *)
Record LogFile : Type := { written : string; fails : list (option string) }.
Definition append_line (l : string) (f : LogFile) : (EyeError + unit) * LogFile :=
  match head (fails f) with
  | Some (Some e) => (inl (IoError e), {| written := written f; fails := tail (fails f) |})
  | _ => (inr tt, {| written := written f +:+ l; fails := tail (fails f) |})
  end.

Definition ChannelEvent : Type := EventHeader * list byte * string.

Inductive AnySink : Type :=
  | StdoutSink (count : Z) (out : list string)
  | FileSink (file : LogFile) (count : Z)
  | GrpcSink (endpoint : string) (count : Z)
  | OtelSink (endpoint service_name : string) (count : Z)
  | JsondSink (file : LogFile) (count : Z)
  (** A bounded channel: its capacity, the queue, and whether the receiver
      still exists. *)
  | ChannelSink (capacity : Z) (queue : list ChannelEvent) (connected : bool) (count : Z).

(** The constructors; opening a file or its directory can fail. *)
Definition stdout_new : AnySink := StdoutSink 0 [].
Definition file_new (opened : string + LogFile) : outcome EyeError AnySink :=
  map_err IoError (of_sum opened) ≫= λ f, Ok (FileSink f 0).
Definition grpc_new (endpoint : string) : AnySink := GrpcSink endpoint 0.
Definition otel_new (endpoint service_name : string) : AnySink := OtelSink endpoint service_name 0.
Definition jsond_new (created : string + unit) (opened : string + LogFile) : outcome EyeError AnySink :=
  map_err IoError (of_sum created) ≫= λ _, map_err IoError (of_sum opened) ≫= λ f, Ok (JsondSink f 0).
Definition channel_new (capacity : Z) : AnySink := ChannelSink capacity [] true 0.

Definition Sent : Type := option ((EyeError + unit) * AnySink).

Definition stdout_send (h : EventHeader) (raw : list byte) (n : Z) (out : list string) : Sent :=
  Some (inr tt, StdoutSink (wrap64 (n + 1)) (out ++ [stdout_line h raw])).

(** A line is written; an error is returned before the event is counted. *)
Definition log_send (line : string) (f : LogFile) (n : Z) (mk : LogFile → Z → AnySink) : Sent :=
  let '(r, f') := append_line line f in
  Some (r, mk f' (match r with inr _ => wrap64 (n + 1) | inl _ => n end)).
Definition file_send (h : EventHeader) (raw : list byte) (f : LogFile) (n : Z) : Sent :=
  log_send (file_line h raw) f n FileSink.
Definition jsond_send (h : EventHeader) (raw : list byte) (source : string) (f : LogFile) (n : Z) : Sent :=
  log_send (jsond_line h raw source) f n JsondSink.

(** Two placeholders that only count. *)
Definition grpc_send (endpoint : string) (n : Z) : Sent := Some (inr tt, GrpcSink endpoint (wrap64 (n + 1))).
Definition otel_send (endpoint service : string) (n : Z) : Sent :=
  Some (inr tt, OtelSink endpoint service (wrap64 (n + 1))).

(** [Sender::send] blocks on a full channel and fails on a closed one; the
    failure is dropped. *)
Definition channel_send (h : EventHeader) (raw : list byte) (source : string) (cap : Z)
    (q : list ChannelEvent) (connected : bool) (n : Z) : Sent :=
  if negb connected then Some (inr tt, ChannelSink cap q false (wrap64 (n + 1))) else
  if zlen q <? cap then Some (inr tt, ChannelSink cap (q ++ [(h, raw, source)]) true (wrap64 (n + 1)))
  else None.

Definition any_send (h : EventHeader) (raw : list byte) (source : string) (k : AnySink) : Sent :=
  match k with
  | StdoutSink n out => stdout_send h raw n out
  | FileSink f n => file_send h raw f n
  | GrpcSink e n => grpc_send e n
  | OtelSink e s n => otel_send e s n
  | JsondSink f n => jsond_send h raw source f n
  | ChannelSink cap q c n => channel_send h raw source cap q c n
  end.
#[export] Instance any_sink : TelemetrySink AnySink := {| send := any_send |}.

(** ** The pipeline *)

Record SensorPipeline (S K : Type) : Type := {
  sources : list S;
  pending_events : list ChannelEvent;
  event_filter : EventFilter;
  sinks : list K;
}.
#[global] Arguments sources {S K}. #[global] Arguments pending_events {S K}.
#[global] Arguments event_filter {S K}. #[global] Arguments sinks {S K}.
#[global] Arguments Build_SensorPipeline {S K}.

Section Pipeline.
Context {S K : Type} `{SensorSource S} `{TelemetrySink K}.

Definition pipeline_new : SensorPipeline S K :=
  {| sources := []; pending_events := []; event_filter := filter_new; sinks := [] |}.
Definition add_source (s : S) (p : SensorPipeline S K) : SensorPipeline S K :=
  {| sources := sources p ++ [s]; pending_events := pending_events p; event_filter := event_filter p; sinks := sinks p |}.
Definition add_sink (k : K) (p : SensorPipeline S K) : SensorPipeline S K :=
  {| sources := sources p; pending_events := pending_events p; event_filter := event_filter p; sinks := sinks p ++ [k] |}.
Definition set_filter (f : EventFilter) (p : SensorPipeline S K) : SensorPipeline S K :=
  {| sources := sources p; pending_events := pending_events p; event_filter := f; sinks := sinks p |}.

(** [poll_sources]: the sources in order; an error ends the round and leaves
    what was collected pending. *)
Fixpoint poll_sources (ss : list S) (pending : list ChannelEvent) (total : Z)
    : (EyeError + Z) * (list S * list ChannelEvent) :=
  match ss with
  | [] => (inr total, ([], pending))
  | s :: ss =>
      let name := source_name s in
      let '(r, s') := poll_events s in
      match r with
      | inl e => (inl e, (s' :: ss, pending))
      | inr evs =>
          let pushed := (λ '(h, raw), (h, raw, name)) <$> evs in
          let '(r', (ss', pending')) := poll_sources ss (pending ++ pushed) (total + zlen evs) in
          (r', (s' :: ss', pending'))
      end
  end.

(** [PipelineSinkHandler::handle_event], with the sinks' errors dropped. *)
Fixpoint send_all (e : ChannelEvent) (ks : list K) : option (list K) :=
  match ks with
  | [] => Some []
  | k :: ks =>
      '(_, k') ← send e.1.1 e.1.2 e.2 k;
      ks' ← send_all e ks;
      Some (k' :: ks')
  end.
Definition handle_event (f : EventFilter) (e : ChannelEvent) (ks : list K) (dispatched : Z)
    : option (list K * Z) :=
  if negb (matches f e.1.1) then Some (ks, dispatched) else
  ks' ← send_all e ks; Some (ks', dispatched + 1).

Fixpoint process_events (f : EventFilter) (evs : list ChannelEvent) (ks : list K) (dispatched : Z)
    : option (list K * Z) :=
  match evs with
  | [] => Some (ks, dispatched)
  | e :: evs => '(ks', n) ← handle_event f e ks dispatched; process_events f evs ks' n
  end.

Definition tick (p : SensorPipeline S K) : option ((EyeError + Z) * SensorPipeline S K) :=
  let '(r, (ss, pending)) := poll_sources (sources p) (pending_events p) 0 in
  let p1 := {| sources := ss; pending_events := pending; event_filter := event_filter p; sinks := sinks p |} in
  match r with
  | inl e => Some (inl e, p1)
  | inr _ =>
      '(ks, n) ← process_events (event_filter p) pending (sinks p) 0;
      Some (inr n, {| sources := ss; pending_events := []; event_filter := event_filter p; sinks := ks |})
  end.

Fixpoint run_cycles (n : nat) (total : Z) (p : SensorPipeline S K)
    : option ((EyeError + Z) * SensorPipeline S K) :=
  match n with
  | O => Some (inr total, p)
  | Datatypes.S n =>
      '(r, p') ← tick p;
      match r with inl e => Some (inl e, p') | inr k => run_cycles n (total + k) p' end
  end.
End Pipeline.

(** ** The sensor loop of the daemon (server.rs) *)

Record SensorEvent : Type := {
  se_type : Z; se_timestamp : Z; se_pid : Z; se_tid : Z; se_uid : Z; se_comm : string; se_sandbox : string;
}.
(** [EventType] of sensor.proto numbers the types from 1. *)
Definition common_to_proto_event_type (t : Z) : Z :=
  if t =? 1 then 1 else if t =? 2 then 2 else if t =? 3 then 3 else
  if t =? 10 then 4 else if t =? 11 then 5 else if t =? 12 then 6 else
  if t =? 20 then 7 else if t =? 21 then 8 else if t =? 22 then 9 else
  if t =? 30 then 10 else if t =? 31 then 11 else if t =? 40 then 12 else 0.
Definition sensor_event (e : ChannelEvent) : SensorEvent :=
  let h := e.1.1 in
  {| se_type := common_to_proto_event_type (event_type h); se_timestamp := timestamp_ns h;
     se_pid := pid h; se_tid := tid h; se_uid := uid h; se_comm := comm_str h;
     se_sandbox := sandbox_of e.2 |}.

(** The receiving end of the channel is emptied by the thread that runs the
    pipeline, after the tick. *)
Fixpoint drain_channel (ks : list AnySink) : list ChannelEvent * list AnySink :=
  match ks with
  | [] => ([], [])
  | ChannelSink cap q c n :: ks => (q, ChannelSink cap [] c n :: ks)
  | k :: ks => let '(q, ks') := drain_channel ks in (q, k :: ks')
  end.

Section Daemon.
Context `{WasmHost}.

(** Each event is forwarded or dropped, and counted; [locks] and [counts] are
    the outcomes of [try_lock] on the policy and on the sensor state, whose
    [total_events] goes with the policy state. *)
Fixpoint forward_all (locks counts : nat → bool) (i : nat) (evs : list ChannelEvent)
    (st : PolicyState * Z) : list SensorEvent * (PolicyState * Z) :=
  match evs with
  | [] => ([], st)
  | e :: evs =>
      let '(fwd, ps1) := forward_event (locks i) (event_type e.1.1) st.1 in
      let total := if counts i then wrap64 (st.2 + 1) else st.2 in
      let '(out, st2) := forward_all locks counts (Datatypes.S i) evs (ps1, total) in
      ((if fwd then [sensor_event e] else []) ++ out, st2)
  end.

(** One round of the loop. *)
Definition sensor_round (news : list AnySource) (locks counts : nat → bool) (st : PolicyState * Z)
    (p : SensorPipeline AnySource AnySink)
    : option (list SensorEvent * ((PolicyState * Z) * SensorPipeline AnySource AnySink)) :=
  '(_, p1) ← tick (foldl (λ p s, add_source s p) p news);
  let '(evs, ks) := drain_channel (sinks p1) in
  let '(out, st') := forward_all locks counts 0 evs st in
  Some (out, (st', {| sources := sources p1; pending_events := pending_events p1;
                      event_filter := event_filter p1; sinks := ks |})).
End Daemon.

(** The pipeline the daemon starts with: a channel of 4096 events, then the
    event log if it could be opened. *)
Definition daemon_pipeline (srcs : list AnySource) (log : option LogFile) : SensorPipeline AnySource AnySink :=
  {| sources := srcs; pending_events := []; event_filter := filter_new;
     sinks := channel_new 4096 :: match log with Some f => [JsondSink f 0] | None => [] end |}.

(** ** Layouts *)

Example header_layout :
  offsets 0 0 EventHeader_fields = ([0; 8; 16; 20; 24; 28; 32], 48) ∧ header_size = 48.
Proof. done. Qed.

(** Every event struct fits the 512-byte stack of an eBPF program, and the
    header is at most 64 bytes and comes first in each. *)
Theorem event_sizes :
  header_size ≤ 64 ∧
  Forall (λ fs, struct_size header_size fs ≤ 512 ∧ head (offsets header_size 0 fs).1 = Some 0 ∧
                head fs = Some Header)
    [ProcessExecEvent; ProcessExitEvent; ProcessForkEvent; FileOpenEvent; FileWriteEvent; FileUnlinkEvent;
     NetConnectEvent; NetAcceptEvent; NetCloseEvent; HttpRequestEvent; HttpResponseEvent; DnsQueryEvent].
Proof. split; [done|]. repeat constructor; done. Qed.

(** A header whose fields have their widths. *)
Definition header_ok (h : EventHeader) : Prop :=
  fits 32 (event_type h) ∧ fits 64 (timestamp_ns h) ∧ fits 32 (pid h) ∧ fits 32 (tid h) ∧
  fits 32 (uid h) ∧ fits 32 (gid h) ∧ length (comm h) = 16%nat.

Lemma length_header pad h : length pad = 4%nat → header_ok h → length (header_to_bytes pad h) = 48%nat.
Proof.
  intros Hp (_ & _ & _ & _ & _ & _ & Hc). unfold header_to_bytes.
  rewrite !length_app, !length_le_enc, Hp, Hc. done.
Qed.

Lemma read_header_to_bytes pad h rest :
  length pad = 4%nat → header_ok h → read_header (header_to_bytes pad h ++ rest) = h.
Proof.
  intros Hp (Ht & Hts & Hpid & Htid & Hu & Hg & Hc).
  assert (Hpz : zlen pad = 4) by (unfold zlen; lia). assert (Hcz : zlen (comm h) = 16) by (unfold zlen; lia).
  unfold read_header, header_to_bytes. rewrite <- !(assoc_L (++)).
  assert (Hskip : ∀ o n (l : list byte), 4 ≤ o → sub_list o n (pad ++ l) = sub_list (o - 4) n l).
  { intros. rewrite sub_list_skip by lia. by rewrite Hpz. }
  destruct h as [t ts p ti u g c]; cbn [event_type timestamp_ns pid tid uid gid comm] in *.
  cbv zeta.
  f_equal; repeat (first [rewrite Hskip by lia | rewrite sub_list_skip by (rewrite zlen_le_enc; lia)];
    rewrite ?zlen_le_enc; eval_offset); [rewrite sub_list_here, le_dec_enc by (rewrite zlen_le_enc; lia); by apply wrap_small..|].
  by apply sub_list_here.
Qed.

(** ** From a probe to the host *)

(** What the kernel passes a probe: the helpers' results and the padding. *)
Record ProbeCall : Type := {
  pc_probe : probe; pc_pid_tgid : Z; pc_uid_gid : Z; pc_ts : Z; pc_comm : list byte; pc_pad : list byte;
}.
Definition call_header (c : ProbeCall) : EventHeader :=
  probe_header (pc_probe c) (pc_pid_tgid c) (pc_uid_gid c) (pc_ts c) (pc_comm c).
Definition call_bytes (c : ProbeCall) : list byte := header_to_bytes (pc_pad c) (call_header c).
Definition call_ok (c : ProbeCall) : Prop :=
  fits 64 (pc_pid_tgid c) ∧ fits 64 (pc_uid_gid c) ∧ fits 64 (pc_ts c) ∧
  length (pc_comm c) = 16%nat ∧ length (pc_pad c) = 4%nat.

Lemma call_header_ok c : call_ok c → header_ok (call_header c).
Proof.
  intros (Hp & Hu & Ht & Hc & _). unfold fits in *. split_and!; try done; simpl.
  - by destruct (pc_probe c).
  - rewrite Z.shiftr_div_pow2 by lia. split; [apply Z.div_pos; lia|apply Z.div_lt_upper_bound; lia].
  - apply wrap_fits. lia.
  - apply wrap_fits. lia.
  - rewrite Z.shiftr_div_pow2 by lia. split; [apply Z.div_pos; lia|apply Z.div_lt_upper_bound; lia].
Qed.

Lemma call_bytes_length c : call_ok c → length (call_bytes c) = 48%nat.
Proof. intros Hc. apply length_header; [apply Hc|by apply call_header_ok]. Qed.

Lemma guest_poll_events ds rest :
  Forall (λ d, zlen d ≤ 4096) ds →
  guest_poll ((Datagram <$> ds) ++ WouldBlock :: rest) =
  ((λ d, (read_header d, d)) <$> List.filter (λ d, header_size <=? zlen d) ds, rest).
Proof.
  induction 1 as [|d ds Hd Hds IH]; [done|]. rewrite fmap_cons, <- app_comm_cons.
  cbn [guest_poll List.filter]. rewrite IH, take_ge by (unfold zlen in Hd; lia). by destruct (_ <=? _).
Qed.

Lemma drain_bufs_sent bufs c :
  (drain_bufs bufs c).1 =
  List.filter (λ d, header_size <=? zlen d) (concat (default [] <$> bufs)).
Proof.
  revert c. induction bufs as [|[recs|] bufs IH]; intros c; [done|..]; cbn [drain_bufs fmap list_fmap concat default].
  - set (c1 := Build_AgentCounters _ _ _). specialize (IH c1). destruct (drain_bufs bufs c1) as [ds c2].
    simpl in *. rewrite List.filter_app. by f_equal.
  - apply IH.
Qed.

Lemma beat_type p e r :
  event_type_to_str (event_type (read_header (heartbeat p e r))) = "unknown".
Proof. unfold heartbeat. generalize (pretty p +:+ ",events=" +:+ pretty e +:+ ",errors=" +:+ pretty r). by vm_compute. Qed.

(** The perf buffers of a round, one per CPU: what the probes wrote. *)
Definition perf_bytes (bufs : list (option (list ProbeCall))) : list (option (list (list byte))) :=
  List.map (option_map (List.map call_bytes)) bufs.
Definition perf_calls (bufs : list (option (list ProbeCall))) : list ProbeCall :=
  concat (default [] <$> bufs).

Lemma perf_filter calls :
  Forall call_ok calls →
  List.filter (λ d, header_size <=? zlen d) (call_bytes <$> calls) = call_bytes <$> calls.
Proof.
  intros Hok. apply filter_all. apply forallb_forall. intros d Hd%list_elem_of_In.
  apply list_elem_of_fmap in Hd as (p & -> & Hp). rewrite Forall_forall in Hok.
  unfold zlen. by rewrite call_bytes_length by auto.
Qed.

Lemma perf_records bufs :
  Forall call_ok (perf_calls bufs) →
  List.filter (λ d, header_size <=? zlen d) (concat (default [] <$> perf_bytes bufs)) =
  call_bytes <$> perf_calls bufs.
Proof.
  intros Hok.
  assert (Hc : concat (default [] <$> perf_bytes bufs) = call_bytes <$> perf_calls bufs).
  { clear Hok. unfold perf_bytes, perf_calls. induction bufs as [|[b|] bufs IH]; [done|..];
      cbn [List.map option_map]; rewrite !fmap_cons; cbn [concat default from_option].
    - by rewrite fmap_app, IH.
    - exact IH. }
  rewrite Hc. by apply perf_filter.
Qed.


Definition demo_call : ProbeCall := {|
  pc_probe := handle_vfs_open; pc_pid_tgid := 7 * 2 ^ 32 + 9; pc_uid_gid := 100 * 2 ^ 32 + 1000; pc_ts := 55;
  pc_comm := comm_of "cat"; pc_pad := z2b <$> [1; 2; 3; 4] |}.


(** An hour and a half of a busy guest is enough. *)
Example heartbeat_is_an_event : zlen (heartbeat 50000 10000000 0) = header_size.
Proof. by vm_compute. Qed.

(** ** The pipeline delivers every matching event once *)

Section Delivery.
Context {S K : Type} `{SensorSource S} `{TelemetrySink K}.

(** The events of the sources before the first that fails, and the sources
    after the poll. *)
Fixpoint emit (ss : list S) : list ChannelEvent * list S :=
  match ss with
  | [] => ([], [])
  | s :: ss =>
      match poll_events s with
      | (inl _, s') => ([], s' :: ss)
      | (inr evs, s') =>
          let '(es, ss') := emit ss in
          (((λ '(h, raw), (h, raw, source_name s)) <$> evs) ++ es, s' :: ss')
      end
  end.
Fixpoint emitted (n : nat) (ss : list S) : list ChannelEvent :=
  match n with
  | O => []
  | Datatypes.S n => let '(es, ss') := emit ss in es ++ emitted n ss'
  end.

(** [n] ticks whose results are dropped, as the daemon does; the counts of
    the successful ones. *)
Fixpoint run_ticks (n : nat) (p : SensorPipeline S K) : option (list (EyeError + Z) * SensorPipeline S K) :=
  match n with
  | O => Some ([], p)
  | Datatypes.S n =>
      '(r, p1) ← tick p; '(rs, p2) ← run_ticks n p1; Some (r :: rs, p2)
  end.

(** A sink after a list of events. *)
Definition feed1 (k : K) (e : ChannelEvent) : K :=
  match send e.1.1 e.1.2 e.2 k with Some (_, k') => k' | None => k end.
Definition feed (es : list ChannelEvent) (k : K) : K := foldl feed1 k es.

Definition sum_ok (rs : list (EyeError + Z)) : Z :=
  foldr (λ r n, match r with inr k => k + n | inl _ => n end) 0 rs.

Lemma poll_sources_emit ss pending total :
  ∃ r, poll_sources ss pending total = (r, ((emit ss).2, pending ++ (emit ss).1)).
Proof.
  revert pending total. induction ss as [|s ss IH]; intros pending total; cbn [poll_sources emit].
  - eexists. by rewrite app_nil_r.
  - destruct (poll_events s) as [[e|evs] s'].
    + eexists. by rewrite app_nil_r.
    + destruct (IH (pending ++ ((λ '(h, raw), (h, raw, source_name s)) <$> evs)) (total + zlen evs)) as [r ->].
      destruct (emit ss) as [es ss']. eexists. cbn [fst snd]. by rewrite <- (assoc_L (++)).
Qed.

(** Sinks that never block, by a property their calls keep. *)
Context (ok : K → Prop).
Context (Hok : ∀ h raw src k, ok k → ∃ r k', send h raw src k = Some (r, k') ∧ ok k').

Lemma feed1_ok k e : ok k → ok (feed1 k e).
Proof. intros Hk. unfold feed1. by destruct (Hok e.1.1 e.1.2 e.2 k Hk) as (r & k' & -> & ?). Qed.

Lemma send_all_ok e ks : Forall ok ks → send_all e ks = Some ((λ k, feed1 k e) <$> ks).
Proof.
  induction 1 as [|k ks Hk Hks IH]; [done|]. cbn [send_all]. unfold feed1.
  destruct (Hok e.1.1 e.1.2 e.2 k Hk) as (r & k' & E & _). rewrite E. cbn [mbind option_bind].
  rewrite IH. cbn [mbind option_bind fmap list_fmap]. unfold feed1. by rewrite E.
Qed.

Lemma process_events_ok f evs ks n :
  Forall ok ks →
  let sent := List.filter (λ e, matches f e.1.1) evs in
  process_events f evs ks n = Some (feed sent <$> ks, n + zlen sent) ∧ Forall ok (feed sent <$> ks).
Proof.
  revert ks n. induction evs as [|e evs IH]; intros ks n Hks; cbn [process_events List.filter].
  - unfold feed. cbn [foldl]. rewrite list_fmap_id. split; [f_equal; f_equal; unfold zlen; simpl; lia|done].
  - unfold handle_event. destruct (matches f e.1.1) eqn:E; cbn [negb].
    + rewrite send_all_ok by done. cbn [mbind option_bind].
      assert (Hks' : Forall ok ((λ k, feed1 k e) <$> ks)).
      { apply Forall_fmap, (Forall_impl _ _ _ Hks). intros k. apply feed1_ok. }
      destruct (IH _ (n + 1) Hks') as [-> Hr]. rewrite <- list_fmap_compose in Hr |- *.
      split; [f_equal; f_equal; rewrite zlen_cons; lia|done].
    + cbn [mbind option_bind]. by apply IH.
Qed.

(** One tick: what it delivers. *)
Lemma tick_delivers p :
  Forall ok (sinks p) →
  ∃ r p', tick p = Some (r, p') ∧ sources p' = (emit (sources p)).2 ∧
    event_filter p' = event_filter p ∧ Forall ok (sinks p') ∧
    ∃ out, let sent := List.filter (λ e, matches (event_filter p) e.1.1) out in
      pending_events p ++ (emit (sources p)).1 = out ++ pending_events p' ∧
      sinks p' = feed sent <$> sinks p ∧
      match r with inr n => n = zlen sent ∧ pending_events p' = [] | inl _ => out = [] end.
Proof.
  intros Hks. unfold tick.
  destruct (poll_sources_emit (sources p) (pending_events p) 0) as [r ->].
  destruct r as [e|n].
  - eexists _, _. split; [done|]. split_and!; [done..|]. exists []. simpl. split_and!; [done| |done].
    unfold feed. cbn [foldl]. by rewrite list_fmap_id.
  - destruct (process_events_ok (event_filter p) (pending_events p ++ (emit (sources p)).1) (sinks p) 0 Hks)
      as [-> Hks']. cbn [mbind option_bind].
    eexists _, _. split; [done|]. split_and!; [done..|].
    eexists. cbn [pending_events sinks]. rewrite app_nil_r. split_and!; [done..|lia|done].
Qed.

End Delivery.

(** Every sink but a connected channel returns. *)
Definition never_blocks (k : AnySink) : Prop :=
  match k with ChannelSink _ _ true _ => False | _ => True end.
Lemma never_blocks_ok h raw src k :
  never_blocks k → ∃ r k', send h raw src k = Some (r, k') ∧ never_blocks k'.
Proof.
  destruct k as [|f n| | |f n|? ? []]; cbn; try done; intros _; try (eexists _, _; done);
    unfold file_send, jsond_send, log_send; destruct (append_line _ f) as [[] ?]; by eexists _, _.
Qed.

(** A source that fails once, then delivers. *)
#[local] Instance demo_flaky : SensorSource (list (EyeError + list RawEvent)) := {|
  poll_events := λ s, match s with [] => (inr [], []) | r :: s => (r, s) end;
  source_name := λ _, "flaky" |}.

Definition demo_event (t : Z) : RawEvent := (make_header t 1 "sh" 0, []).


(** ** The daemon's loop *)

Section DaemonProofs.
Context `{WasmHost}.

(** The channel takes what fits; one event more and the call never returns,
    since its receiver is the thread that makes it. *)
Lemma channel_process f evs cap q n rest d :
  zlen q ≤ cap → Forall never_blocks rest →
  let sent := List.filter (λ e, matches f e.1.1) evs in
  (cap < zlen q + zlen sent → process_events f evs (ChannelSink cap q true n :: rest) d = None) ∧
  (zlen q + zlen sent ≤ cap → ∃ n', process_events f evs (ChannelSink cap q true n :: rest) d =
     Some (ChannelSink cap (q ++ sent) true n' :: (feed sent <$> rest), d + zlen sent)).
Proof.
  revert q n rest d. induction evs as [|e evs IH]; intros q n rest d Hq Hrest; cbn [process_events List.filter].
  - rewrite zlen_nil. split; [lia|]. intros _. exists n. rewrite app_nil_r, Z.add_0_r. unfold feed. cbn [foldl].
    by rewrite list_fmap_id.
  - unfold handle_event. destruct (matches f e.1.1); cbn [negb]; [|by apply IH].
    cbn [send_all send any_sink any_send]. unfold channel_send. cbn [negb]. rewrite zlen_cons.
    destruct (zlen q <? cap) eqn:E; to_prop.
    + cbn [mbind option_bind].
      rewrite (send_all_ok never_blocks never_blocks_ok) by done. cbn [mbind option_bind].
      assert (Hrest' : Forall never_blocks ((λ k, feed1 k e) <$> rest)).
      { apply Forall_fmap, (Forall_impl _ _ _ Hrest). intros k. apply (feed1_ok never_blocks never_blocks_ok). }
      assert (Hq1 : zlen (q ++ [(e.1.1, e.1.2, e.2)]) = zlen q + 1).
      { by rewrite zlen_app. }
      destruct (IH (q ++ [(e.1.1, e.1.2, e.2)]) (wrap64 (n + 1)) ((λ k, feed1 k e) <$> rest) (d + 1))
        as [Hb Hf]; [lia|exact Hrest'|].
      rewrite Hq1 in Hb, Hf. split; intros Hc; [apply Hb; lia|].
      destruct Hf as [n' Hf]; [lia|]. exists n'. etrans; [apply Hf|].
      rewrite <- list_fmap_compose, <- (assoc_L (++)). destruct e as [[h raw] src].
      do 2 f_equal. lia.
    + split; intros; [done|]. pose proof (zlen_nonneg (List.filter (λ e, matches f e.1.1) evs)). lia.
Qed.

Lemma any_poll (ss : list AnySource) pending total :
  ∃ n, poll_sources ss pending total = (inr n, ((emit ss).2, pending ++ (emit ss).1)).
Proof.
  destruct (poll_sources_emit ss pending total) as [r Hr]. assert (∃ n, r = inr n) as [n ->]; [|by exists n].
  revert pending total r Hr. induction ss as [|s ss IH]; intros pending total r; cbn [poll_sources].
  - intros [= <-]. by eexists.
  - assert (∃ evs s', poll_events s = (inr evs, s')) as (evs & s' & ->).
    { destruct s as [| |sid rs|nm bufs]; cbn; [by eexists _, _..|destruct (guest_poll rs)|destruct (bpf_poll bufs)];
        by eexists _, _. }
    destruct (poll_sources ss _ _) as [r' [ss' pend']] eqn:E. intros [= <- _].
    destruct (poll_sources_emit ss (pending ++ ((λ '(h, raw), (h, raw, source_name s)) <$> evs)) (total + zlen evs))
      as [r2 Hr2]. rewrite Hr2 in E. injection E as <- _ _. by eapply IH.
Qed.

Lemma forward_all_off locks counts i evs st :
  enforcement_enabled st.1 = false →
  (forward_all locks counts i evs st).1 = sensor_event <$> evs ∧ (forward_all locks counts i evs st).2.1 = st.1.
Proof.
  revert i st. induction evs as [|e evs IH]; intros i [ps t] Hoff; [done|]. cbn [forward_all fst snd] in *.
  unfold forward_event. rewrite Hoff, andb_false_r.
  set (st1 := (ps, if counts i then _ else _)). specialize (IH (Datatypes.S i) st1 Hoff).
  destruct (forward_all locks counts (Datatypes.S i) evs st1) as [out st2]. cbn [fst snd app] in *.
  destruct IH as [-> ->]. done.
Qed.

End DaemonProofs.

#[local] Existing Instance demo_host.

Definition quiet_policy : PolicyState :=
  {| ps_engine := PolicyEngine_new; ps_bundles := {| bundles := ∅; bundle_dir := "" |};
     ps_checker := AdmissionChecker_new; ps_enforcement := EnforcementEngine_new;
     admission_enabled := false; enforcement_enabled := false |}.
Definition flood (n : nat) : AnySource := SimulatedSource "sim" (replicate n (demo_event 1)).

