(* ===== verification/Probes.v ===== *)
(** * Loading probes (nova-eye: policy.rs, loader.rs, bpf_source.rs;
    nova-eye-agent; the probe loop of nova-api's server.rs)

    The configuration lists probes; the host's daemon and the guest's agent
    load their bytecode through the aya library, which is a parameter. *)

From stdpp Require Import strings.
From S2P Require Import Prelude Eye.

(** ** The configuration (policy.rs) *)

Record ProbeSpec : Type := {
  hook_type : string;
  target : string;
  bytecode : option string;
  binary : option string;
  enabled : bool;
}.

Record FilterSpec : Type := {
  pids : option (list Z);
  event_types : option (list string);
  exclude_comms : option (list string);
}.

Record TracingPolicy : Type := {
  tp_name : string;
  probes : list ProbeSpec;
  filters : option FilterSpec;
}.

Definition policy_error (reason : string) (e : string) : EyeError := LoadError "tracing_policy" (reason +:+ e).
Definition from_toml (parse : string → string + TracingPolicy) (content : string)
    : outcome EyeError TracingPolicy :=
  map_err (policy_error "failed to parse TOML: ") (of_sum (parse content)).
Definition policy_from_file (parse : string → string + TracingPolicy) (read : string + string)
    : outcome EyeError TracingPolicy :=
  map_err (policy_error "failed to read policy file: ") (of_sum read) ≫= from_toml parse.

(** ** The structural loader (loader.rs) *)

Inductive AttachKind : Type :=
  | Tracepoint (category name : string)
  | Kprobe (fn_name : string)
  | Uprobe (binary fn_name : string).

Record AttachedProgram : Type := { ap_name : string; ap_kind : AttachKind }.

Record SensorLoader : Type := {
  bytecode_cache : list (string * list byte);
  attached : list AttachedProgram;
}.

Definition loader_new : SensorLoader := {| bytecode_cache := []; attached := [] |}.
Definition load_program (name : string) (code : list byte) : stm SensorLoader EyeError unit := λ l,
  match code with
  | [] => (Err (LoadError name "bytecode is empty"), l)
  | _ => (Ok tt, {| bytecode_cache := bytecode_cache l ++ [(name, code)]; attached := attached l |})
  end.
Definition attach (name : string) (k : AttachKind) : stm SensorLoader EyeError unit :=
  modify (λ l, {| bytecode_cache := bytecode_cache l;
                  attached := attached l ++ [{| ap_name := name; ap_kind := k |}] |}).
Definition attach_tracepoint (category name : string) : stm SensorLoader EyeError unit :=
  attach (category +:+ "/" +:+ name) (Tracepoint category name).
Definition attach_kprobe (fn_name : string) : stm SensorLoader EyeError unit :=
  attach ("kprobe:" +:+ fn_name) (Kprobe fn_name).
Definition attach_uprobe (binary fn_name : string) : stm SensorLoader EyeError unit :=
  attach ("uprobe:" +:+ binary +:+ ":" +:+ fn_name) (Uprobe binary fn_name).

(** ** aya *)

Inductive ProgramKind : Type := KTracePoint | KKProbe | KUProbe.

Class Aya : Type := {
  Bpf : Type;
  PerfArray : Type;
  PerfBuf : Type;
  Program : Type;
  file_exists : string → bool;
  read_file : string → string + list byte;
  bpf_load : list byte → string + Bpf;
  take_map : Bpf → string → option (string + PerfArray);
  online_cpus : string + list Z;
  perf_open : PerfArray → Z → Z → string + PerfBuf;
  program_of : Bpf → string → option Program;
  program_as : ProgramKind → Program → string + unit;
  program_load : Program → string + unit;
  program_attach : Program → AttachKind → string + unit;
}.

Section Loading.
Context `{Aya}.

(** A perf buffer on each CPU, or the first error with its CPU. *)
Fixpoint open_bufs (pages : Z) (m : PerfArray) (cpus : list Z) : outcome (Z * string) (list PerfBuf) :=
  match cpus with
  | [] => Ok []
  | c :: cpus =>
      map_err (pair c) (of_sum (perf_open m c pages)) ≫= λ b,
      open_bufs pages m cpus ≫= λ bs, Ok (b :: bs)
  end.

Definition map_error (reason : string) : EyeError := MapError "EVENTS" reason.

(** [load_and_take_perf_array]; [show] prints a number. *)
Definition load_and_take_perf_array (show : Z → string) (name path : string)
    : outcome EyeError (Bpf * list PerfBuf) :=
  if negb (file_exists path) then Err (LoadError name ("bytecode not found: " +:+ path)) else
  map_err (λ e, LoadError name ("failed to read bytecode: " +:+ e)) (of_sum (read_file path)) ≫= λ data,
  map_err (λ e, LoadError name ("aya load failed: " +:+ e)) (of_sum (bpf_load data)) ≫= λ bpf,
  ok_or (map_error "perf event array map not found") (take_map bpf "EVENTS") ≫= λ m,
  map_err (λ e, map_error ("failed to create PerfEventArray: " +:+ e)) (of_sum m) ≫= λ perf,
  map_err (λ e, map_error ("failed to get online CPUs: " +:+ e)) (of_sum online_cpus) ≫= λ cpus,
  map_err (λ '(c, e), map_error ("failed to open perf buffer for CPU " +:+ show c +:+ ": " +:+ e))
    (open_bufs 64 perf cpus) ≫= λ bufs,
  Ok (bpf, bufs).

(** A live source: its program, hook and buffers. *)
Record BpfSource : Type := { bs_name : string; bs_hook : AttachKind; bs_bufs : list PerfBuf }.

(** The body the four loaders share. *)
Definition load_source (show : Z → string) (name prog not_a attach_failed path : string)
    (kind : ProgramKind) (hook : AttachKind) : outcome EyeError BpfSource :=
  let err reason := LoadError name reason in
  load_and_take_perf_array show name path ≫= λ '(bpf, bufs),
  ok_or (err ("program '" +:+ prog +:+ "' not found in ELF")) (program_of bpf prog) ≫= λ p,
  map_err (λ e, err (not_a +:+ e)) (of_sum (program_as kind p)) ≫= λ _,
  map_err (λ e, err ("program load failed: " +:+ e)) (of_sum (program_load p)) ≫= λ _,
  map_err (λ e, err (attach_failed +:+ e)) (of_sum (program_attach p hook)) ≫= λ _,
  Ok {| bs_name := "ebpf:" +:+ name +:+ ":" +:+ path; bs_hook := hook; bs_bufs := bufs |}.

Definition load_process_exec (show : Z → string) (path : string) : outcome EyeError BpfSource :=
  load_source show "process_exec" "handle_exec" "not a tracepoint program: " "attach tracepoint failed: " path
    KTracePoint (Tracepoint "sched" "sched_process_exec").
Definition load_tcp_connect (show : Z → string) (path : string) : outcome EyeError BpfSource :=
  load_source show "tcp_connect" "handle_tcp_v4_connect" "not a kprobe program: " "attach kprobe failed: " path
    KKProbe (Kprobe "tcp_v4_connect").
Definition load_file_monitor (show : Z → string) (path : string) : outcome EyeError BpfSource :=
  load_source show "file_monitor" "handle_vfs_open" "not a kprobe program: " "attach kprobe failed: " path
    KKProbe (Kprobe "vfs_open").
Definition load_ssl_monitor (show : Z → string) (path libssl : string) : outcome EyeError BpfSource :=
  load_source show "ssl_monitor" "handle_ssl_write" "not a uprobe program: " "attach uprobe failed: " path
    KUProbe (Uprobe libssl "SSL_write").

(** ** The daemon's probes (server.rs) *)

Fixpoint str_contains (s sub : string) : bool :=
  String.prefix sub s || match s with EmptyString => false | String _ s => str_contains s sub end.

(** The loader a probe gets; [None]: it is skipped. *)
Definition host_probe (show : Z → string) (ebpf_dir : string) (p : ProbeSpec)
    : option (outcome EyeError BpfSource) :=
  if negb (enabled p) then None else
  name ← bytecode p;
  let path := ebpf_dir +:+ "/" +:+ name in
  if (hook_type p =? "tracepoint")%string && str_contains (target p) "sched_process_exec"
  then Some (load_process_exec show path) else
  if (hook_type p =? "kprobe")%string && (target p =? "tcp_v4_connect")%string
  then Some (load_tcp_connect show path) else
  if (hook_type p =? "kprobe")%string && (target p =? "vfs_open")%string
  then Some (load_file_monitor show path) else
  if (hook_type p =? "uprobe")%string && (target p =? "SSL_write")%string
  then Some (load_ssl_monitor show path (default "/usr/lib/libssl.so" (binary p))) else None.

(** The sources the pipeline starts with. *)
Definition host_sources (show : Z → string) (ebpf_dir : string) (ps : list ProbeSpec) : list BpfSource :=
  omap (λ p, match host_probe show ebpf_dir p with Some (Ok s) => Some s | _ => None end) ps.

(** ** The guest agent's probes (nova-eye-agent) *)

Definition EBPF_DIR : string := "/opt/nova/ebpf".

(** [find_program_name]: the first known program of the object. *)
Definition find_program_name (bpf : Bpf) : string :=
  default "unknown" (List.find (λ n, bool_decide (is_Some (program_of bpf n)))
    ["handle_exec"; "handle_vfs_open"; "handle_tcp_v4_connect"; "handle_ssl_write"; "handle_ssl_read"]).

(** [splitn(2, '/')]. *)
Fixpoint split_slash (s : string) : option (string * string) :=
  match s with
  | EmptyString => None
  | String c s =>
      if Ascii.eqb c (Ascii.ascii_of_nat 47) then Some ("", s) else
      match split_slash s with Some (a, b) => Some (String c a, b) | None => None end
  end.

Definition attach_program (bpf : Bpf) (kind : ProgramKind) (what : string) (hook : AttachKind)
    (attach_msg : string) : outcome string unit :=
  let prog := find_program_name bpf in
  ok_or ("program '" +:+ prog +:+ "' not found") (program_of bpf prog) ≫= λ p,
  map_err (λ e, what +:+ e) (of_sum (program_as kind p)) ≫= λ _,
  map_err (λ e, "prog_load: " +:+ e) (of_sum (program_load p)) ≫= λ _,
  map_err (λ e, attach_msg +:+ e) (of_sum (program_attach p hook)).

(** [load_probe]. *)
Definition load_probe (show : Z → string) (hook target path : string) : outcome string (list PerfBuf) :=
  map_err (λ e, "read: " +:+ e) (of_sum (read_file path)) ≫= λ data,
  map_err (λ e, "bpf_load: " +:+ e) (of_sum (bpf_load data)) ≫= λ bpf,
  (if (hook =? "tracepoint")%string then
     ok_or ("invalid tracepoint target: " +:+ target) (split_slash target) ≫= λ '(cat, name),
     attach_program bpf KTracePoint "not a tracepoint: " (Tracepoint cat name)
       ("attach(" +:+ cat +:+ "/" +:+ name +:+ "): ")
   else if (hook =? "kprobe")%string then
     attach_program bpf KKProbe "not a kprobe: " (Kprobe target) ("attach(" +:+ target +:+ "): ")
   else Err ("unsupported hook type: " +:+ hook)) ≫= λ _,
  ok_or "EVENTS map not found" (take_map bpf "EVENTS") ≫= λ m,
  map_err (λ e, "perf_array: " +:+ e) (of_sum m) ≫= λ perf,
  map_err (λ e, "online_cpus: " +:+ e) (of_sum online_cpus) ≫= λ cpus,
  map_err (λ '(c, e), "open perf buf CPU " +:+ show c +:+ ": " +:+ e) (open_bufs 32 perf cpus).

(** The loop of [main] over the configured probes: what was loaded, and how
    many were and were not. *)
Fixpoint agent_probes (show : Z → string) (ps : list ProbeSpec)
    : list (list PerfBuf) * (Z * Z) :=
  match ps with
  | [] => ([], (0, 0))
  | p :: ps =>
      let '(loaded, (ok, failed)) := agent_probes show ps in
      match enabled p, bytecode p with
      | true, Some name =>
          let path := EBPF_DIR +:+ "/" +:+ name in
          if negb (file_exists path) then (loaded, (ok, failed + 1)) else
          match load_probe show (hook_type p) (target p) path with
          | Ok bufs => (bufs :: loaded, (ok + 1, failed))
          | _ => (loaded, (ok, failed + 1))
          end
      | _, _ => (loaded, (ok, failed))
      end
  end.

(** ** Lemmas *)

Lemma open_bufs_length pages m cpus bufs :
  open_bufs pages m cpus = Ok bufs → length bufs = length cpus.
Proof.
  revert bufs. induction cpus as [|c cpus IH]; cbn [open_bufs]; intros bufs; [by intros [= <-]|].
  intros (b & _ & Hb)%outcome_bind_ok. apply outcome_bind_ok in Hb as (bs & Hbs & [= <-]).
  cbn [length]. f_equal. by apply IH.
Qed.

(** A loaded source is attached to its hook and has one buffer per CPU. *)
Lemma load_source_ok show name prog na af path kind hook s :
  load_source show name prog na af path kind hook = Ok s →
  bs_hook s = hook ∧ (∃ bpf p, program_of bpf prog = Some p ∧ program_attach p hook = inr tt) ∧
  ∃ cpus, online_cpus = inr cpus ∧ length (bs_bufs s) = length cpus.
Proof.
  unfold load_source. intros ([bpf bufs] & Hload & Hs)%outcome_bind_ok.
  apply outcome_bind_ok in Hs as (pr & Hp & Hs). apply outcome_bind_ok in Hs as ([] & _ & Hs).
  apply outcome_bind_ok in Hs as ([] & _ & Hs). apply outcome_bind_ok in Hs as ([] & Ha & [= <-]).
  split; [done|]. split.
  - exists bpf, pr. destruct (program_of bpf prog) as [x|]; [|done]. injection Hp as ->. split; [done|].
    by destruct (program_attach pr hook) as [|[]].
  - unfold load_and_take_perf_array in Hload. destruct (negb _); [done|].
    do 4 (apply outcome_bind_ok in Hload as (? & _ & Hload)).
    apply outcome_bind_ok in Hload as (cpus & Hc & Hload). apply outcome_bind_ok in Hload as (bs & Hb & [= _ <-]).
    exists cpus. split; [destruct online_cpus; [done|by injection Hc as ->]|].
    destruct (open_bufs 64 _ cpus) as [bs'| |] eqn:E; [|done..]. injection Hb as ->. by eapply open_bufs_length.
Qed.

(** The agent's summary counts every enabled probe that names bytecode. *)
Lemma agent_probes_counts show ps :
  let '(loaded, (ok, failed)) := agent_probes show ps in
  zlen loaded = ok ∧
  ok + failed = zlen (List.filter (λ p, enabled p && bool_decide (is_Some (bytecode p))) ps).
Proof.
  induction ps as [|p ps IH]; [done|]. cbn [agent_probes List.filter].
  destruct (agent_probes show ps) as [loaded [ok failed]]. destruct IH as [IH1 IH2].
  destruct (enabled p); [|done]. destruct (bytecode p) as [name|]; [|done].
  rewrite bool_decide_eq_true_2 by by eexists. cbn [andb]. rewrite zlen_cons, <- IH2.
  destruct (negb _); [split; lia|]. destruct (load_probe _ _ _ _); rewrite ?zlen_cons; split; lia.
Qed.
End Loading.
