(* ===== verification/Kvm.v ===== *)
(** * KVM handles (crates/nova-kvm)

    The ioctl encoding of the bindings, the structures passed to the kernel,
    and the safe handles [Kvm], [VmFd] and [VcpuFd] over a kernel interface,
    [KvmHost].  The kernel is a parameter: a state [K] and what each call
    answers in it.  [Logged] adds to any kernel the sequence of calls it
    received, which is what the theorems about the VM builder and the
    snapshots speak of. *)

From S2P Require Import Prelude GuestMem BootParams LongMode.

(** ** ioctl request numbers (kvm_bindings.rs) *)

Definition _IOC_NRBITS : Z := 8.
Definition _IOC_TYPEBITS : Z := 8.
Definition _IOC_SIZEBITS : Z := 14.
Definition _IOC_NRSHIFT : Z := 0.
Definition _IOC_TYPESHIFT : Z := _IOC_NRSHIFT + _IOC_NRBITS.
Definition _IOC_SIZESHIFT : Z := _IOC_TYPESHIFT + _IOC_TYPEBITS.
Definition _IOC_DIRSHIFT : Z := _IOC_SIZESHIFT + _IOC_SIZEBITS.
Definition _IOC_NONE : Z := 0.
Definition _IOC_WRITE : Z := 1.
Definition _IOC_READ : Z := 2.

(** [u32] shifts: the bits above 31 are lost. *)
Definition shl32 (v n : Z) : Z := wrap 32 (Z.shiftl v n).

Definition _ioc (dir ty nr sz : Z) : Z :=
  Z.lor (Z.lor (Z.lor (shl32 dir _IOC_DIRSHIFT) (shl32 ty _IOC_TYPESHIFT))
               (shl32 nr _IOC_NRSHIFT)) (shl32 sz _IOC_SIZESHIFT).

(** [#[repr(C)]]: a structure is its fields' sizes and alignments, in order;
    each field is placed at the next multiple of its alignment. *)
Definition ctype : Type := Z * Z.

Definition align_up (n a : Z) : Z := (n + a - 1) / a * a.

Definition repr_C (fields : list ctype) : ctype :=
  let '(off, al) := foldl (λ '(off, al) '(sz, a), (align_up off a + sz, Z.max al a))
                      (0, 1) fields in
  (align_up off al, al).

Definition array (n : Z) (t : ctype) : ctype := (n * t.1, t.2).
Definition size_of (t : ctype) : Z := t.1.

Definition u8 : ctype := (1, 1).
Definition u16 : ctype := (2, 2).
Definition u32 : ctype := (4, 4).
Definition u64 : ctype := (8, 8).

Definition _io (ty nr : Z) : Z := _ioc _IOC_NONE ty nr 0.
Definition _iow (t : ctype) (ty nr : Z) : Z := _ioc _IOC_WRITE ty nr (size_of t).
Definition _ior (t : ctype) (ty nr : Z) : Z := _ioc _IOC_READ ty nr (size_of t).
Definition _iowr (t : ctype) (ty nr : Z) : Z :=
  _ioc (Z.lor _IOC_READ _IOC_WRITE) ty nr (size_of t).

Definition KVMIO : Z := 0xAE.

(** *** The layouts of the structures *)

Definition layout_memory_region : ctype := repr_C [u32; u32; u64; u64; u64].
Definition layout_pit_config : ctype := repr_C [u32; array 15 u32].
Definition layout_irq_level : ctype := repr_C [u32; u32].
Definition layout_irqfd : ctype := repr_C [u32; u32; u32; u32; array 16 u8].
Definition layout_regs : ctype := repr_C (replicate 18 u64).
Definition layout_segment : ctype :=
  repr_C ([u64; u32; u16] ++ replicate 10 u8).
Definition layout_dtable : ctype := repr_C [u64; u16; array 3 u16].
Definition layout_sregs : ctype :=
  repr_C (replicate 8 layout_segment ++ replicate 2 layout_dtable ++ replicate 7 u64
          ++ [array 4 u64]).
Definition layout_dirty_log : ctype := repr_C [u32; u32; u64].
Definition layout_clock : ctype := repr_C [u64; u32; array 9 u32].
Definition layout_irqchip : ctype := repr_C [u32; u32; array 512 u8].
Definition layout_pit_channel : ctype := repr_C ([u32; u16] ++ replicate 10 u8 ++ [u64]).
Definition layout_pit_state2 : ctype :=
  repr_C [array 3 layout_pit_channel; u32; array 9 u32].
Definition layout_msrs_hdr : ctype := repr_C [u32; u32].
Definition layout_cpuid2_hdr : ctype := repr_C [u32; u32].
Definition layout_xsave : ctype := repr_C [array 1024 u32].
Definition layout_xcr : ctype := repr_C [u32; u32; u64].
Definition layout_xcrs : ctype := repr_C [u32; u32; array 16 layout_xcr; array 16 u64].
Definition layout_event_exception : ctype := repr_C [u8; u8; u8; u8; u32].
Definition layout_event_interrupt : ctype := repr_C [u8; u8; u8; u8].
Definition layout_event_nmi : ctype := repr_C [u8; u8; u8; u8].
Definition layout_event_smi : ctype := repr_C [u8; u8; u8; u8].
Definition layout_vcpu_events : ctype :=
  repr_C [layout_event_exception; layout_event_interrupt; layout_event_nmi; u32; u32;
          layout_event_smi; array 27 u8; u8; u64].
Definition KVM_APIC_REG_SIZE : Z := 0x400.
Definition layout_lapic : ctype := repr_C [array KVM_APIC_REG_SIZE u8].

(** *** The requests *)

Definition KVM_GET_API_VERSION : Z := _io KVMIO 0x00.
Definition KVM_CREATE_VM : Z := _io KVMIO 0x01.
Definition KVM_CHECK_EXTENSION : Z := _io KVMIO 0x03.
Definition KVM_GET_VCPU_MMAP_SIZE : Z := _io KVMIO 0x04.
Definition KVM_CREATE_VCPU : Z := _io KVMIO 0x41.
Definition KVM_SET_USER_MEMORY_REGION : Z := _iow layout_memory_region KVMIO 0x46.
Definition KVM_CREATE_IRQCHIP : Z := _io KVMIO 0x60.
Definition KVM_CREATE_PIT2 : Z := _iow layout_pit_config KVMIO 0x77.
Definition KVM_IRQFD : Z := _iow layout_irqfd KVMIO 0x76.
Definition KVM_IRQ_LINE : Z := _iow layout_irq_level KVMIO 0x61.
Definition KVM_SET_TSS_ADDR : Z := _io KVMIO 0x47.
Definition KVM_GET_DIRTY_LOG : Z := _iow layout_dirty_log KVMIO 0x42.
Definition KVM_GET_CLOCK : Z := _ior layout_clock KVMIO 0x7C.
Definition KVM_SET_CLOCK : Z := _iow layout_clock KVMIO 0x7B.
Definition KVM_GET_IRQCHIP : Z := _iowr layout_irqchip KVMIO 0x62.
Definition KVM_SET_IRQCHIP : Z := _ior layout_irqchip KVMIO 0x63.
Definition KVM_GET_PIT2 : Z := _ior layout_pit_state2 KVMIO 0x9F.
Definition KVM_SET_PIT2 : Z := _iow layout_pit_state2 KVMIO 0xA0.
Definition KVM_RUN : Z := _io KVMIO 0x80.
Definition KVM_GET_REGS : Z := _ior layout_regs KVMIO 0x81.
Definition KVM_SET_REGS : Z := _iow layout_regs KVMIO 0x82.
Definition KVM_GET_SREGS : Z := _ior layout_sregs KVMIO 0x83.
Definition KVM_SET_SREGS : Z := _iow layout_sregs KVMIO 0x84.
Definition KVM_GET_LAPIC : Z := _ior layout_lapic KVMIO 0x8E.
Definition KVM_SET_LAPIC : Z := _iow layout_lapic KVMIO 0x8F.
Definition KVM_GET_XSAVE : Z := _ior layout_xsave KVMIO 0xA4.
Definition KVM_SET_XSAVE : Z := _iow layout_xsave KVMIO 0xA5.
Definition KVM_GET_XCRS : Z := _ior layout_xcrs KVMIO 0xA6.
Definition KVM_SET_XCRS : Z := _iow layout_xcrs KVMIO 0xA7.
Definition KVM_GET_VCPU_EVENTS : Z := _ior layout_vcpu_events KVMIO 0x9F.
Definition KVM_SET_VCPU_EVENTS : Z := _iow layout_vcpu_events KVMIO 0xA0.
Definition KVM_GET_MSRS : Z := _iowr layout_msrs_hdr KVMIO 0x88.
Definition KVM_SET_MSRS : Z := _iow layout_msrs_hdr KVMIO 0x89.
Definition KVM_GET_SUPPORTED_CPUID : Z := _iowr layout_cpuid2_hdr KVMIO 0x05.
Definition KVM_SET_CPUID2 : Z := _iow layout_cpuid2_hdr KVMIO 0x90.

Definition KVM_MEM_LOG_DIRTY_PAGES : Z := 1.
Definition KVM_MEM_READONLY : Z := 2.
Definition KVM_PIT_SPEAKER_DUMMY : Z := 1.
Definition KVM_API_VERSION : Z := 12.

Definition MSR_IA32_TSC : Z := 0x10.
Definition MSR_IA32_SYSENTER_CS : Z := 0x174.
Definition MSR_IA32_SYSENTER_ESP : Z := 0x175.
Definition MSR_IA32_SYSENTER_EIP : Z := 0x176.
Definition MSR_IA32_MISC_ENABLE : Z := 0x1A0.
Definition MSR_STAR : Z := 0xC0000081.
Definition MSR_LSTAR : Z := 0xC0000082.
Definition MSR_CSTAR : Z := 0xC0000083.
Definition MSR_SYSCALL_MASK : Z := 0xC0000084.
Definition MSR_KERNEL_GS_BASE : Z := 0xC0000102.
Definition MSR_IA32_TSC_ADJUST : Z := 0x3B.

Definition SNAPSHOT_MSRS : list Z :=
  [MSR_IA32_TSC; MSR_IA32_SYSENTER_CS; MSR_IA32_SYSENTER_ESP; MSR_IA32_SYSENTER_EIP;
   MSR_IA32_MISC_ENABLE; MSR_STAR; MSR_LSTAR; MSR_CSTAR; MSR_SYSCALL_MASK;
   MSR_KERNEL_GS_BASE; MSR_IA32_TSC_ADJUST].

(** ** Structures passed to the kernel (kvm_bindings.rs) *)

Record KvmUserspaceMemoryRegion : Type := {
  slot : Z; mr_flags : Z; guest_phys_addr : Z; memory_size : Z; userspace_addr : Z }.
Record KvmPitConfig : Type := { pit_flags : Z; pit_pad : list Z }.
Record KvmIrqLevel : Type := { il_irq : Z; il_level : Z }.
Record KvmIrqfd : Type := {
  if_fd : Z; if_gsi : Z; if_flags : Z; if_resamplefd : Z; if_pad : list Z }.
Record KvmClockData : Type := { clock : Z; clock_flags : Z; clock_pad : list Z }.
Record KvmIrqchip : Type := { chip_id : Z; chip_padding : Z; chip : list byte }.
Record KvmPitChannelState : Type := {
  pc_count : Z; pc_latched_count : Z; pc_count_latched : Z; pc_status_latched : Z;
  pc_status : Z; pc_read_state : Z; pc_write_state : Z; pc_write_latch : Z;
  pc_rw_mode : Z; pc_mode : Z; pc_bcd : Z; pc_gate : Z; pc_count_load_time : Z }.
Record KvmPitState2 : Type := {
  pit_channels : list KvmPitChannelState; pit2_flags : Z; pit2_padding : list Z }.
Record KvmMsrEntry : Type := { msr_index : Z; msr_reserved : Z; msr_data : Z }.
Record KvmCpuidEntry2 : Type := {
  cpuid_function : Z; cpuid_index : Z; cpuid_flags : Z;
  eax : Z; ebx : Z; ecx : Z; edx : Z; cpuid_padding : list Z }.
Record KvmXsave : Type := { xsave_region : list Z }.
Record KvmXcr : Type := { xcr : Z; xcr_reserved : Z; xcr_value : Z }.
Record KvmXcrs : Type := {
  nr_xcrs : Z; xcrs_flags : Z; xcrs : list KvmXcr; xcrs_padding : list Z }.
Record KvmVcpuEventException : Type := {
  ex_injected : Z; ex_nr : Z; ex_has_error_code : Z; ex_pending : Z; ex_error_code : Z }.
Record KvmVcpuEventInterrupt : Type := {
  int_injected : Z; int_nr : Z; int_soft : Z; int_shadow : Z }.
Record KvmVcpuEventNmi : Type := {
  nmi_injected : Z; nmi_pending : Z; nmi_masked : Z; nmi_pad : Z }.
Record KvmVcpuEventSmi : Type := {
  smi_smm : Z; smi_pending : Z; smi_smm_inside_nmi : Z; smi_latched_init : Z }.
Record KvmVcpuEvents : Type := {
  ev_exception : KvmVcpuEventException; ev_interrupt : KvmVcpuEventInterrupt;
  ev_nmi : KvmVcpuEventNmi; ev_sipi_vector : Z; ev_flags : Z; ev_smi : KvmVcpuEventSmi;
  ev_reserved : list Z; ev_has_payload : Z; ev_payload : Z }.
Record KvmLapicState : Type := { lapic_regs : list byte }.

Definition KvmIrqchip_default : KvmIrqchip :=
  {| chip_id := 0; chip_padding := 0; chip := replicate 512 x00 |}.
Definition KvmXcr_default : KvmXcr := {| xcr := 0; xcr_reserved := 0; xcr_value := 0 |}.
Definition KvmXcrs_default : KvmXcrs :=
  {| nr_xcrs := 0; xcrs_flags := 0; xcrs := replicate 16 KvmXcr_default;
     xcrs_padding := replicate 16 0 |}.

(** ** Capabilities (cap.rs) *)

Module KvmCap.

Inductive t : Type :=
| Irqchip | Hlt | UserMemory | SetTssAddr | ExtCpuid | NrVcpus | MaxVcpus | MaxVcpuId
| Pit2 | Irqfd | IoEventfd | ImmediateExit | MpState | DirtyLogRing | SplitIrqchip.

#[global] Instance t_eq_dec : EqDecision t.
Proof. solve_decision. Defined.

Definition as_raw (c : t) : Z :=
  match c with
  | Irqchip => 0 | Hlt => 1 | UserMemory => 3 | SetTssAddr => 4 | ExtCpuid => 7
  | NrVcpus => 9 | MaxVcpus => 66 | MaxVcpuId => 128 | Pit2 => 33 | Irqfd => 32
  | IoEventfd => 36 | ImmediateExit => 136 | MpState => 14 | DirtyLogRing => 192
  | SplitIrqchip => 121
  end.

Definition name (c : t) : string :=
  match c with
  | Irqchip => "KVM_CAP_IRQCHIP"
  | Hlt => "KVM_CAP_HLT"
  | UserMemory => "KVM_CAP_USER_MEMORY"
  | SetTssAddr => "KVM_CAP_SET_TSS_ADDR"
  | ExtCpuid => "KVM_CAP_EXT_CPUID"
  | NrVcpus => "KVM_CAP_NR_VCPUS"
  | MaxVcpus => "KVM_CAP_MAX_VCPUS"
  | MaxVcpuId => "KVM_CAP_MAX_VCPU_ID"
  | Pit2 => "KVM_CAP_PIT2"
  | Irqfd => "KVM_CAP_IRQFD"
  | IoEventfd => "KVM_CAP_IOEVENTFD"
  | ImmediateExit => "KVM_CAP_IMMEDIATE_EXIT"
  | MpState => "KVM_CAP_MP_STATE"
  | DirtyLogRing => "KVM_CAP_DIRTY_LOG_RING"
  | SplitIrqchip => "KVM_CAP_SPLIT_IRQCHIP"
  end.

End KvmCap.

(** ** Errors (error.rs); an [io::Error] is its errno *)

Inductive KvmError : Type :=
| DeviceOpen (errno : Z)
| ApiVersion (version : Z)
| MissingCapability (cap : string)
| VmCreate (errno : Z)
| VcpuCreate (errno : Z)
| MemoryRegion (errno : Z)
| Ioctl (name : string) (errno : Z)
| VcpuMmap (errno : Z)
| SetRegs (errno : Z)
| GetRegs (errno : Z)
| SetSregs (errno : Z)
| GetSregs (errno : Z)
| VcpuRun (errno : Z)
| CreateIrqChip (errno : Z)
| CreatePit2 (errno : Z)
| RegisterIrqfd (errno : Z)
| SetTssAddr (errno : Z)
| GetSupportedCpuid (errno : Z)
| SetCpuid (errno : Z).

(** ** The kernel interface

    A [request] is an ioctl with the argument the source passes: a value, or
    what the pointed-to structure holds.  [reply] is what the kernel writes
    back through the pointer. *)
Inductive request : Type :=
| RqGetApiVersion
| RqCreateVm
| RqCheckExtension (cap : Z)
| RqGetVcpuMmapSize
| RqGetSupportedCpuid (nent : Z)
| RqCreateVcpu (id : Z)
| RqSetUserMemoryRegion (r : KvmUserspaceMemoryRegion)
| RqCreateIrqchip
| RqCreatePit2 (c : KvmPitConfig)
| RqIrqfd (i : KvmIrqfd)
| RqIrqLine (l : KvmIrqLevel)
| RqSetTssAddr (a : Z)
| RqGetDirtyLog (slot : Z) (words : nat)
| RqGetClock
| RqSetClock (c : KvmClockData)
| RqGetIrqchip (id : Z)
| RqSetIrqchip (c : KvmIrqchip)
| RqGetPit2
| RqSetPit2 (p : KvmPitState2)
| RqGetRegs
| RqSetRegs (r : KvmRegs)
| RqGetSregs
| RqSetSregs (s : KvmSregs)
| RqGetLapic
| RqSetLapic (l : KvmLapicState)
| RqGetXsave
| RqSetXsave (x : KvmXsave)
| RqGetXcrs
| RqSetXcrs (x : KvmXcrs)
| RqGetVcpuEvents
| RqSetVcpuEvents (e : KvmVcpuEvents)
| RqGetMsrs (indices : list Z)
| RqSetMsrs (entries : list KvmMsrEntry)
| RqSetCpuid2 (entries : list KvmCpuidEntry2).

Definition reply (r : request) : Type :=
  match r with
  | RqGetSupportedCpuid _ => Z * list KvmCpuidEntry2
  | RqGetDirtyLog _ _ => list Z
  | RqGetClock => KvmClockData
  | RqGetIrqchip _ => KvmIrqchip
  | RqGetPit2 => KvmPitState2
  | RqGetRegs => KvmRegs
  | RqGetSregs => KvmSregs
  | RqGetLapic => KvmLapicState
  | RqGetXsave => KvmXsave
  | RqGetXcrs => KvmXcrs
  | RqGetVcpuEvents => KvmVcpuEvents
  | RqGetMsrs _ => list KvmMsrEntry
  | _ => unit
  end.

(** The number of the request the source passes to [ioctl]. *)
Definition number (r : request) : Z :=
  match r with
  | RqGetApiVersion => KVM_GET_API_VERSION
  | RqCreateVm => KVM_CREATE_VM
  | RqCheckExtension _ => KVM_CHECK_EXTENSION
  | RqGetVcpuMmapSize => KVM_GET_VCPU_MMAP_SIZE
  | RqGetSupportedCpuid _ => KVM_GET_SUPPORTED_CPUID
  | RqCreateVcpu _ => KVM_CREATE_VCPU
  | RqSetUserMemoryRegion _ => KVM_SET_USER_MEMORY_REGION
  | RqCreateIrqchip => KVM_CREATE_IRQCHIP
  | RqCreatePit2 _ => KVM_CREATE_PIT2
  | RqIrqfd _ => KVM_IRQFD
  | RqIrqLine _ => KVM_IRQ_LINE
  | RqSetTssAddr _ => KVM_SET_TSS_ADDR
  | RqGetDirtyLog _ _ => KVM_GET_DIRTY_LOG
  | RqGetClock => KVM_GET_CLOCK
  | RqSetClock _ => KVM_SET_CLOCK
  | RqGetIrqchip _ => KVM_GET_IRQCHIP
  | RqSetIrqchip _ => KVM_SET_IRQCHIP
  | RqGetPit2 => KVM_GET_PIT2
  | RqSetPit2 _ => KVM_SET_PIT2
  | RqGetRegs => KVM_GET_REGS
  | RqSetRegs _ => KVM_SET_REGS
  | RqGetSregs => KVM_GET_SREGS
  | RqSetSregs _ => KVM_SET_SREGS
  | RqGetLapic => KVM_GET_LAPIC
  | RqSetLapic _ => KVM_SET_LAPIC
  | RqGetXsave => KVM_GET_XSAVE
  | RqSetXsave _ => KVM_SET_XSAVE
  | RqGetXcrs => KVM_GET_XCRS
  | RqSetXcrs _ => KVM_SET_XCRS
  | RqGetVcpuEvents => KVM_GET_VCPU_EVENTS
  | RqSetVcpuEvents _ => KVM_SET_VCPU_EVENTS
  | RqGetMsrs _ => KVM_GET_MSRS
  | RqSetMsrs _ => KVM_SET_MSRS
  | RqSetCpuid2 _ => KVM_SET_CPUID2
  end.

(** The system calls: an errno, or a result (for an ioctl the value returned
    and the reply). *)
Class KvmHost (K : Type) : Type := {
  sys_open_kvm : K → (Z + Z) * K;
  sys_ioctl : Z → ∀ r : request, K → (Z + Z * reply r) * K;
  sys_mmap_run : Z → Z → K → (Z + Z) * K;      (* fd, length: the address *)
  sys_munmap : Z → Z → K → K;
  sys_close : Z → K → K;
}.

(** Any kernel, with the calls it received in order. *)
Inductive kvm_call : Type :=
| CallOpen
| CallIoctl (fd : Z) (r : request)
| CallMmapRun (fd len : Z)
| CallMunmap (addr len : Z)
| CallClose (fd : Z).

Definition log_call {K A} (c : kvm_call) (r : A * K) (l : list kvm_call) : A * (K * list kvm_call) :=
  (r.1, (r.2, l ++ [c])).

#[export] Instance Logged `{KvmHost K} : KvmHost (K * list kvm_call) := {
  sys_open_kvm k := log_call CallOpen (sys_open_kvm k.1) k.2;
  sys_ioctl fd r k := log_call (CallIoctl fd r) (sys_ioctl fd r k.1) k.2;
  sys_mmap_run fd n k := log_call (CallMmapRun fd n) (sys_mmap_run fd n k.1) k.2;
  sys_munmap a n k := (sys_munmap a n k.1, k.2 ++ [CallMunmap a n]);
  sys_close fd k := (sys_close fd k.1, k.2 ++ [CallClose fd]);
}.

(** ** The handles (lib.rs, vm.rs, vcpu.rs) *)

Record Kvm : Type := { kvm_fd : Z; kvm_run_size : Z }.
Record VmFd : Type := { vm_raw_fd : Z; vm_run_size : Z }.
Record VcpuFd : Type := { vcpu_raw_fd : Z; kvm_run : Z; mmap_size : Z }.

Section Handles.
Context {K : Type} `{KvmHost K}.

(** A system call: its errno or its result. *)
Definition syscall {A} (f : K → (Z + A) * K) : stm K KvmError (Z + A) :=
  λ k, let '(x, k) := f k in (Ok x, k).

(** A system call followed by the test of its result: [err] wraps the errno
    of a negative one. *)
Definition checked {A} (f : K → (Z + A) * K) (err : Z → KvmError) : stm K KvmError A :=
  x ← syscall f;
  match x with inl e => throw (err e) | inr a => mret a end.

Definition ioctl (fd : Z) (r : request) (err : Z → KvmError) : stm K KvmError (Z * reply r) :=
  checked (sys_ioctl fd r) err.

(** An ioctl whose result the source does not keep. *)
Definition ioctl_ (fd : Z) (r : request) (err : Z → KvmError) : stm K KvmError unit :=
  ioctl fd r err ≫= λ _, mret tt.

(** An ioctl that fills a structure. *)
Definition ioctl_get (fd : Z) (r : request) (err : Z → KvmError) : stm K KvmError (reply r) :=
  ioctl fd r err ≫= λ x, mret x.2.

Definition close (fd : Z) : stm K KvmError unit := modify (sys_close fd).

(** The value of a raw [ioctl]: -1 when it fails. *)
Definition ioctl_raw (fd : Z) (r : request) : stm K KvmError Z :=
  x ← syscall (sys_ioctl fd r);
  mret (match x with inl _ => -1 | inr x => x.1 end).

Definition Kvm_open : stm K KvmError Kvm :=
  fd ← checked sys_open_kvm DeviceOpen;
  version ← ioctl_raw fd RqGetApiVersion;
  if negb (version =? KVM_API_VERSION) then close fd ;; throw (ApiVersion version) else
  run_size ← syscall (sys_ioctl fd RqGetVcpuMmapSize);
  match run_size with
  | inl e => close fd ;; throw (Ioctl "KVM_GET_VCPU_MMAP_SIZE" e)
  | inr x => mret {| kvm_fd := fd; kvm_run_size := x.1 |}
  end.

Definition check_capability (h : Kvm) (c : KvmCap.t) : stm K KvmError Z :=
  ioctl_raw (kvm_fd h) (RqCheckExtension (KvmCap.as_raw c)).

Definition require_capability (h : Kvm) (c : KvmCap.t) : stm K KvmError Z :=
  v ← check_capability h c;
  if v <=? 0 then throw (MissingCapability (KvmCap.name c)) else mret v.

Definition create_vm (h : Kvm) : stm K KvmError VmFd :=
  x ← ioctl (kvm_fd h) RqCreateVm VmCreate;
  mret {| vm_raw_fd := x.1; vm_run_size := kvm_run_size h |}.

Definition max_vcpus (h : Kvm) : stm K KvmError Z :=
  max ← check_capability h KvmCap.MaxVcpus;
  if max <=? 0 then
    nr ← check_capability h KvmCap.NrVcpus;
    mret (if 0 <? nr then nr else 1)
  else mret max.

Definition vcpu_mmap_size (h : Kvm) : Z := kvm_run_size h.

Definition get_supported_cpuid (h : Kvm) (max_entries : Z) : stm K KvmError (list KvmCpuidEntry2) :=
  x ← ioctl_get (kvm_fd h) (RqGetSupportedCpuid max_entries) GetSupportedCpuid;
  mret (take (Z.to_nat x.1) x.2).

Definition Kvm_drop (h : Kvm) : stm K KvmError unit := close (kvm_fd h).

(** *** vm.rs *)

Definition VcpuFd_new (fd run_size : Z) : stm K KvmError VcpuFd :=
  addr ← syscall (sys_mmap_run fd run_size);
  match addr with
  | inl e => close fd ;; throw (VcpuMmap e)
  | inr a => mret {| vcpu_raw_fd := fd; kvm_run := a; mmap_size := run_size |}
  end.

Definition VmFd_new (fd run_size : Z) : VmFd := {| vm_raw_fd := fd; vm_run_size := run_size |}.

Definition create_vcpu (v : VmFd) (id : Z) : stm K KvmError VcpuFd :=
  x ← ioctl (vm_raw_fd v) (RqCreateVcpu id) VcpuCreate;
  VcpuFd_new x.1 (vm_run_size v).

Definition set_user_memory_region (v : VmFd) (r : KvmUserspaceMemoryRegion) : stm K KvmError unit :=
  ioctl_ (vm_raw_fd v) (RqSetUserMemoryRegion r) MemoryRegion.
Definition create_irqchip (v : VmFd) : stm K KvmError unit :=
  ioctl_ (vm_raw_fd v) RqCreateIrqchip CreateIrqChip.
Definition pit_config : KvmPitConfig :=
  {| pit_flags := KVM_PIT_SPEAKER_DUMMY; pit_pad := replicate 15 0 |}.
Definition create_pit2 (v : VmFd) : stm K KvmError unit :=
  ioctl_ (vm_raw_fd v) (RqCreatePit2 pit_config) CreatePit2.
Definition set_irq_line (v : VmFd) (irq level : Z) : stm K KvmError unit :=
  ioctl_ (vm_raw_fd v) (RqIrqLine {| il_irq := irq; il_level := level |}) (Ioctl "KVM_IRQ_LINE").
Definition register_irqfd (v : VmFd) (fd gsi : Z) : stm K KvmError unit :=
  ioctl_ (vm_raw_fd v)
    (RqIrqfd {| if_fd := wrap 32 fd; if_gsi := gsi; if_flags := 0; if_resamplefd := 0;
                if_pad := replicate 16 0 |}) RegisterIrqfd.
Definition set_tss_addr (v : VmFd) (a : Z) : stm K KvmError unit :=
  ioctl_ (vm_raw_fd v) (RqSetTssAddr a) SetTssAddr.
Definition get_dirty_log (v : VmFd) (slot : Z) (bitmap : list Z) : stm K KvmError (list Z) :=
  ioctl_get (vm_raw_fd v) (RqGetDirtyLog slot (length bitmap)) (Ioctl "KVM_GET_DIRTY_LOG").
Definition get_clock (v : VmFd) : stm K KvmError KvmClockData :=
  ioctl_get (vm_raw_fd v) RqGetClock (Ioctl "KVM_GET_CLOCK").
Definition set_clock (v : VmFd) (c : KvmClockData) : stm K KvmError unit :=
  ioctl_ (vm_raw_fd v) (RqSetClock c) (Ioctl "KVM_SET_CLOCK").
Definition get_irqchip (v : VmFd) (id : Z) : stm K KvmError KvmIrqchip :=
  ioctl_get (vm_raw_fd v) (RqGetIrqchip id) (Ioctl "KVM_GET_IRQCHIP").
Definition set_irqchip (v : VmFd) (c : KvmIrqchip) : stm K KvmError unit :=
  ioctl_ (vm_raw_fd v) (RqSetIrqchip c) (Ioctl "KVM_SET_IRQCHIP").
Definition get_pit2 (v : VmFd) : stm K KvmError KvmPitState2 :=
  ioctl_get (vm_raw_fd v) RqGetPit2 (Ioctl "KVM_GET_PIT2").
Definition set_pit2 (v : VmFd) (p : KvmPitState2) : stm K KvmError unit :=
  ioctl_ (vm_raw_fd v) (RqSetPit2 p) (Ioctl "KVM_SET_PIT2").
Definition VmFd_drop (v : VmFd) : stm K KvmError unit := close (vm_raw_fd v).

(** *** vcpu.rs *)

Definition get_regs (v : VcpuFd) : stm K KvmError KvmRegs :=
  ioctl_get (vcpu_raw_fd v) RqGetRegs GetRegs.
Definition set_regs (v : VcpuFd) (r : KvmRegs) : stm K KvmError unit :=
  ioctl_ (vcpu_raw_fd v) (RqSetRegs r) SetRegs.
Definition get_sregs (v : VcpuFd) : stm K KvmError KvmSregs :=
  ioctl_get (vcpu_raw_fd v) RqGetSregs GetSregs.
Definition set_sregs (v : VcpuFd) (s : KvmSregs) : stm K KvmError unit :=
  ioctl_ (vcpu_raw_fd v) (RqSetSregs s) SetSregs.
Definition set_cpuid2 (v : VcpuFd) (es : list KvmCpuidEntry2) : stm K KvmError unit :=
  ioctl_ (vcpu_raw_fd v) (RqSetCpuid2 es) SetCpuid.
Definition get_xsave (v : VcpuFd) : stm K KvmError KvmXsave :=
  ioctl_get (vcpu_raw_fd v) RqGetXsave (Ioctl "KVM_GET_XSAVE").
Definition set_xsave (v : VcpuFd) (x : KvmXsave) : stm K KvmError unit :=
  ioctl_ (vcpu_raw_fd v) (RqSetXsave x) (Ioctl "KVM_SET_XSAVE").
Definition get_xcrs (v : VcpuFd) : stm K KvmError KvmXcrs :=
  ioctl_get (vcpu_raw_fd v) RqGetXcrs (Ioctl "KVM_GET_XCRS").
Definition set_xcrs (v : VcpuFd) (x : KvmXcrs) : stm K KvmError unit :=
  ioctl_ (vcpu_raw_fd v) (RqSetXcrs x) (Ioctl "KVM_SET_XCRS").
Definition get_vcpu_events (v : VcpuFd) : stm K KvmError KvmVcpuEvents :=
  ioctl_get (vcpu_raw_fd v) RqGetVcpuEvents (Ioctl "KVM_GET_VCPU_EVENTS").
Definition set_vcpu_events (v : VcpuFd) (e : KvmVcpuEvents) : stm K KvmError unit :=
  ioctl_ (vcpu_raw_fd v) (RqSetVcpuEvents e) (Ioctl "KVM_SET_VCPU_EVENTS").

(** The number of MSRs the kernel read is the value of the ioctl. *)
Definition get_msrs (v : VcpuFd) (indices : list Z) : stm K KvmError (list KvmMsrEntry) :=
  x ← ioctl (vcpu_raw_fd v) (RqGetMsrs indices) (Ioctl "KVM_GET_MSRS");
  mret (take (Z.to_nat x.1) x.2).
Definition set_msrs (v : VcpuFd) (es : list KvmMsrEntry) : stm K KvmError unit :=
  ioctl_ (vcpu_raw_fd v) (RqSetMsrs es) (Ioctl "KVM_SET_MSRS").

Definition get_lapic (v : VcpuFd) : stm K KvmError KvmLapicState :=
  ioctl_get (vcpu_raw_fd v) RqGetLapic (Ioctl "KVM_GET_LAPIC").
Definition set_lapic (v : VcpuFd) (l : KvmLapicState) : stm K KvmError unit :=
  ioctl_ (vcpu_raw_fd v) (RqSetLapic l) (Ioctl "KVM_SET_LAPIC").

Definition APIC_LVT0 : Z := 0x350.
Definition APIC_LVT1 : Z := 0x360.
Definition APIC_MODE_NMI : Z := 0x4.
Definition APIC_MODE_EXTINT : Z := 0x7.

Definition get_reg (l : KvmLapicState) (offset : Z) : Z :=
  le_dec (sub_list offset 4 (lapic_regs l)).
Definition set_reg (l : KvmLapicState) (offset v : Z) : KvmLapicState :=
  {| lapic_regs := splice offset (le_enc 4 v) (lapic_regs l) |}.
(** [(reg & !0x700) | (mode << 8)]. *)
Definition set_delivery_mode (reg mode : Z) : Z :=
  Z.lor (Z.land reg (0xFFFFFFFF - 0x700)) (shl32 mode 8).

Definition lint_state (l : KvmLapicState) : KvmLapicState :=
  let l := set_reg l APIC_LVT0 (set_delivery_mode (get_reg l APIC_LVT0) APIC_MODE_EXTINT) in
  set_reg l APIC_LVT1 (set_delivery_mode (get_reg l APIC_LVT1) APIC_MODE_NMI).

Definition set_lint (v : VcpuFd) : stm K KvmError unit :=
  l ← get_lapic v;
  set_lapic v (lint_state l).

Definition VcpuFd_drop (v : VcpuFd) : stm K KvmError unit :=
  modify (sys_munmap (kvm_run v) (mmap_size v)) ;; close (vcpu_raw_fd v).

End Handles.

(** ** The request numbers are those of linux/kvm.h *)

Example linux_numbers :
  (number <$> [RqGetApiVersion; RqCreateVm; RqCheckExtension 0; RqGetVcpuMmapSize;
     RqGetSupportedCpuid 0; RqCreateVcpu 0; RqCreateIrqchip; RqSetTssAddr 0])
  = [0xAE00; 0xAE01; 0xAE03; 0xAE04; 0xC008AE05; 0xAE41; 0xAE60; 0xAE47]
  ∧ [KVM_SET_USER_MEMORY_REGION; KVM_CREATE_PIT2; KVM_IRQFD; KVM_IRQ_LINE; KVM_GET_DIRTY_LOG;
     KVM_GET_CLOCK; KVM_SET_CLOCK; KVM_GET_IRQCHIP; KVM_SET_IRQCHIP; KVM_GET_PIT2; KVM_SET_PIT2]
  = [0x4020AE46; 0x4040AE77; 0x4020AE76; 0x4008AE61; 0x4010AE42;
     0x8030AE7C; 0x4030AE7B; 0xC208AE62; 0x8208AE63; 0x8070AE9F; 0x4070AEA0]
  ∧ [KVM_RUN; KVM_GET_REGS; KVM_SET_REGS; KVM_GET_SREGS; KVM_SET_SREGS; KVM_GET_LAPIC;
     KVM_SET_LAPIC; KVM_GET_XSAVE; KVM_SET_XSAVE; KVM_GET_XCRS; KVM_SET_XCRS;
     KVM_GET_VCPU_EVENTS; KVM_SET_VCPU_EVENTS; KVM_GET_MSRS; KVM_SET_MSRS; KVM_SET_CPUID2]
  = [0xAE80; 0x8090AE81; 0x4090AE82; 0x8138AE83; 0x4138AE84; 0x8400AE8E;
     0x4400AE8F; 0x9000AEA4; 0x5000AEA5; 0x8188AEA6; 0x4188AEA7;
     0x8040AE9F; 0x4040AEA0; 0xC008AE88; 0x4008AE89; 0x4008AE90].
Proof. by vm_compute. Qed.

(** ** The calls a run makes

    [calls_ok m R]: a successful run of [m] appends to the log a sequence [R]
    relates to its result. *)
Section Logs.
Context {K : Type} `{KvmHost K} {E : Type}.

Definition calls_ok {A} (m : stm (K * list kvm_call) E A) (R : A → list kvm_call → Prop) : Prop :=
  ∀ s a s', m s = (Ok a, s') → ∃ cs, s'.2 = s.2 ++ cs ∧ R a cs.

Lemma calls_weaken {A} (m : stm (K * list kvm_call) E A) (R R' : A → list kvm_call → Prop) :
  calls_ok m R → (∀ a cs, R a cs → R' a cs) → calls_ok m R'.
Proof. intros Hm HR s a s' E'. destruct (Hm s a s' E') as (cs & ? & ?). eauto. Qed.

Lemma calls_ret {A} (a : A) : calls_ok (mret a) (λ b cs, b = a ∧ cs = []).
Proof. intros s b s' [= <- <-]. exists []. by rewrite app_nil_r. Qed.

Lemma calls_throw {A} (e : E) (R : A → list kvm_call → Prop) : calls_ok (throw e) R.
Proof. by intros s b s' [=]. Qed.

Lemma calls_lift {A} (o : outcome E A) : calls_ok (lift o) (λ b cs, o = Ok b ∧ cs = []).
Proof. intros s b s' [= -> <-]. exists []. by rewrite app_nil_r. Qed.

Lemma calls_bind {A B} (m : stm (K * list kvm_call) E A) (f : A → stm (K * list kvm_call) E B)
    (R : A → list kvm_call → Prop) (R' : A → B → list kvm_call → Prop) :
  calls_ok m R → (∀ a, calls_ok (f a) (R' a)) →
  calls_ok (m ≫= f) (λ b cs, ∃ a c1 c2, cs = c1 ++ c2 ∧ R a c1 ∧ R' a b c2).
Proof.
  intros Hm Hf s b s' (a & s1 & E1 & E2)%stm_bind_ok.
  destruct (Hm _ _ _ E1) as (c1 & L1 & ?), (Hf _ _ _ _ E2) as (c2 & L2 & ?).
  exists (c1 ++ c2). rewrite L2, L1, <- (assoc_L (++)). eauto 10.
Qed.

End Logs.

Section HandleCalls.
Context {K : Type} `{KvmHost K}.

Lemma checked_calls {A} (f : K * list kvm_call → (Z + A) * (K * list kvm_call)) c err :
  (∀ k, (f k).2.2 = k.2 ++ [c]) →
  calls_ok (checked f err) (λ _ cs, cs = [c]).
Proof.
  intros Hc s a s'. unfold checked, syscall, mbind, stm_bind. specialize (Hc s).
  destruct (f s) as [[e|x] s1]; intros [=]; subst. by exists [c].
Qed.

Lemma ioctl_calls fd r err :
  calls_ok (ioctl fd r err) (λ _ cs, cs = [CallIoctl fd r]).
Proof. by apply checked_calls. Qed.

Lemma ioctl_unit_calls fd r err : calls_ok (ioctl_ fd r err) (λ _ cs, cs = [CallIoctl fd r]).
Proof.
  eapply calls_weaken; [apply calls_bind; [apply ioctl_calls|intros; apply calls_ret]|].
  by intros ? ? (? & ? & ? & -> & -> & _ & ->).
Qed.

Lemma ioctl_get_calls fd r err : calls_ok (ioctl_get fd r err) (λ _ cs, cs = [CallIoctl fd r]).
Proof.
  eapply calls_weaken; [apply calls_bind; [apply ioctl_calls|intros; apply calls_ret]|].
  by intros ? ? (? & ? & ? & -> & -> & _ & ->).
Qed.

(** [/dev/kvm]: on success nothing is closed; after a failure the descriptor
    that was opened is. *)
Lemma Kvm_open_calls (s s' : K * list kvm_call) o :
  Kvm_open s = (o, s') →
  ∃ cs, s'.2 = s.2 ++ cs ∧
  match o with
  | Ok h => cs = [CallOpen; CallIoctl (kvm_fd h) RqGetApiVersion;
                  CallIoctl (kvm_fd h) RqGetVcpuMmapSize]
  | Err (DeviceOpen _) => cs = [CallOpen]
  | Err _ => ∃ fd mid, cs = CallOpen :: mid ++ [CallClose fd] ∧
      mid ⊆+ [CallIoctl fd RqGetApiVersion; CallIoctl fd RqGetVcpuMmapSize]
  | Panic _ => False
  end.
Proof.
  destruct s as [k l].
  unfold Kvm_open, checked, syscall, ioctl_raw, close, throw, modify, mbind, stm_bind, mret, stm_ret.
  simpl. destruct (sys_open_kvm k) as [[e|fd] k1]; simpl.
  { intros [= <- <-]. by exists [CallOpen]. }
  destruct (sys_ioctl fd RqGetApiVersion k1) as [v k2]; simpl.
  destruct (negb _); simpl.
  - intros [= <- <-]. simpl. rewrite <- !(assoc_L (++)).
    eexists. split; [done|]. exists fd, [CallIoctl fd RqGetApiVersion]. split; [done|].
    by apply submseteq_skip, submseteq_nil_l.
  - destruct (sys_ioctl fd RqGetVcpuMmapSize k2) as [[e|x] k3]; simpl.
    + intros [= <- <-]. simpl. rewrite <- !(assoc_L (++)).
      eexists. split; [done|]. by exists fd, [CallIoctl fd RqGetApiVersion; CallIoctl fd RqGetVcpuMmapSize].
    + intros [= <- <-]. simpl. rewrite <- !(assoc_L (++)). by eexists.
Qed.

Lemma create_vm_calls h :
  calls_ok (create_vm h) (λ v cs, cs = [CallIoctl (kvm_fd h) RqCreateVm] ∧ vm_run_size v = kvm_run_size h).
Proof.
  eapply calls_weaken; [apply calls_bind; [apply ioctl_calls|intros; apply calls_ret]|].
  by intros ? ? (? & ? & ? & -> & -> & -> & ->).
Qed.

Lemma create_vcpu_calls v id :
  calls_ok (create_vcpu v id) (λ c cs,
    cs = [CallIoctl (vm_raw_fd v) (RqCreateVcpu id); CallMmapRun (vcpu_raw_fd c) (vm_run_size v)]
    ∧ mmap_size c = vm_run_size v).
Proof.
  intros [k l] c [k' l']. unfold create_vcpu, ioctl, checked, VcpuFd_new, syscall, close, throw, modify,
    mbind, stm_bind, mret, stm_ret. simpl.
  destruct (sys_ioctl _ _ k) as [[e|x] k1]; simpl; [done|].
  destruct (sys_mmap_run _ _ k1) as [[e|a] k2]; simpl; [done|].
  intros [= <- <- <-]. simpl. rewrite <- (assoc_L (++)). by eexists.
Qed.

(** A vCPU whose run area cannot be mapped is closed again. *)
Lemma create_vcpu_closes v id k l e s' :
  create_vcpu v id (k, l) = (Err (VcpuMmap e), s') →
  ∃ fd, s'.2 = l ++ [CallIoctl (vm_raw_fd v) (RqCreateVcpu id);
                     CallMmapRun fd (vm_run_size v); CallClose fd].
Proof.
  unfold create_vcpu, ioctl, checked, VcpuFd_new, syscall, close, throw, modify,
    mbind, stm_bind, mret, stm_ret. simpl.
  destruct (sys_ioctl _ _ k) as [[e'|x] k1]; simpl; [done|].
  destruct (sys_mmap_run _ _ k1) as [[e'|a] k2]; simpl; intros [= <- <-].
  rewrite <- !(assoc_L (++)). by eexists.
Qed.

Lemma set_lint_calls v :
  calls_ok (set_lint v) (λ _ cs, ∃ l,
    cs = [CallIoctl (vcpu_raw_fd v) RqGetLapic; CallIoctl (vcpu_raw_fd v) (RqSetLapic (lint_state l))]).
Proof.
  eapply calls_weaken; [apply calls_bind;
    [apply (ioctl_get_calls _ RqGetLapic)|intros; apply ioctl_unit_calls]|].
  intros ? ? (l & ? & ? & -> & -> & ->). by exists l.
Qed.

End HandleCalls.

(** ** The local APIC after [set_lint] *)

Lemma set_delivery_mode_spec reg mode i :
  0 ≤ mode < 8 → 0 ≤ i < 32 →
  Z.testbit (set_delivery_mode reg mode) i =
    if decide (8 ≤ i < 11) then Z.testbit mode (i - 8) else Z.testbit reg i.
Proof.
  intros Hm Hi. unfold set_delivery_mode, shl32, wrap.
  rewrite Z.lor_spec, Z.land_spec, Z.mod_pow2_bits_low by lia.
  rewrite Z.shiftl_spec by lia.
  assert (Hhigh : ∀ j, 3 ≤ j → Z.testbit mode j = false).
  { intros j Hj. apply (Z.bits_above_log2 mode j); [lia|].
    destruct (decide (mode = 0)) as [->|]; [simpl; lia|]. apply Z.log2_lt_pow2; [lia|].
    assert (2 ^ 3 ≤ 2 ^ j) by (apply Z.pow_le_mono_r; lia). lia. }
  assert (Hmask : Z.testbit (0xFFFFFFFF - 0x700) i = negb (bool_decide (8 ≤ i < 11))).
  { change (0xFFFFFFFF - 0x700) with (Z.ldiff (Z.ones 32) (Z.shiftl (Z.ones 3) 8)).
    rewrite Z.ldiff_spec, Z.testbit_ones_nonneg, Z.shiftl_spec, Z.testbit_ones by lia.
    rewrite (proj2 (Z.ltb_lt i 32)) by lia. simpl. f_equal.
    apply Bool.eq_true_iff_eq. rewrite bool_decide_eq_true, andb_true_iff, Z.leb_le, Z.ltb_lt. lia. }
  rewrite Hmask. destruct (decide (8 ≤ i < 11)) as [Hd|Hd].
  - rewrite (bool_decide_true _ Hd). simpl. by rewrite andb_false_r.
  - rewrite (bool_decide_false _ Hd). simpl. rewrite andb_true_r.
    destruct (decide (i < 8)).
    + rewrite (Z.testbit_neg_r mode) by lia. by rewrite orb_false_r.
    + rewrite Hhigh by lia. by rewrite orb_false_r.
Qed.


Lemma zlen_set_reg l off v :
  0 ≤ off → off + 4 ≤ zlen (lapic_regs l) → zlen (lapic_regs (set_reg l off v)) = zlen (lapic_regs l).
Proof. intros. apply zlen_splice; rewrite ?zlen_le_enc; lia. Qed.

Lemma get_set_reg l off v :
  0 ≤ off → off + 4 ≤ zlen (lapic_regs l) → fits 32 v → get_reg (set_reg l off v) off = v.
Proof.
  intros Ho Hl Hv. unfold get_reg, set_reg. simpl.
  rewrite <- (zlen_le_enc 4 v) at 1. rewrite sub_list_splice_same by (rewrite ?zlen_le_enc; lia).
  rewrite le_dec_enc. by apply wrap_small.
Qed.

Lemma lookup_set_reg l off v (j : nat) :
  0 ≤ off → off + 4 ≤ zlen (lapic_regs l) → ¬ (off ≤ Z.of_nat j < off + 4) →
  lapic_regs (set_reg l off v) !! j = lapic_regs l !! j.
Proof.
  intros Ho Hl Hj. unfold set_reg. simpl. rewrite lookup_splice by lia.
  rewrite zlen_le_enc. by rewrite decide_False by lia.
Qed.

Lemma get_reg_other l off off' v :
  0 ≤ off → off + 4 ≤ zlen (lapic_regs l) → 0 ≤ off' → off' + 4 ≤ zlen (lapic_regs l) →
  off' + 4 ≤ off ∨ off + 4 ≤ off' → get_reg (set_reg l off v) off' = get_reg l off'.
Proof.
  intros. unfold get_reg, set_reg. simpl.
  rewrite sub_list_splice_other; [done|lia..|]. rewrite zlen_le_enc. lia.
Qed.

Lemma get_reg_fits l off :
  0 ≤ off → off + 4 ≤ zlen (lapic_regs l) → fits 32 (get_reg l off).
Proof. intros. by apply le_dec_sub_fits. Qed.

Lemma set_delivery_mode_fits reg mode : fits 32 reg → fits 32 (set_delivery_mode reg mode).
Proof.
  intros Hr. unfold set_delivery_mode, shl32. apply lor_fits; [lia| |].
  - split; [apply Z.land_nonneg; left; apply Hr|].
    change (0xFFFFFFFF - 0x700) with (Z.land (Z.ones 32) (0xFFFFFFFF - 0x700)).
    rewrite (Z.land_comm (Z.ones 32)), Z.land_assoc, Z.land_ones by lia.
    by apply Z.mod_pos_bound.
  - by apply wrap_fits.
Qed.

(** LINT0 delivers ExtINT and LINT1 NMI; the other bits of the two entries
    and every other register are those the kernel reported. *)
Lemma lint_state_spec l :
  zlen (lapic_regs l) = KVM_APIC_REG_SIZE →
  zlen (lapic_regs (lint_state l)) = KVM_APIC_REG_SIZE ∧
  (∀ i, 0 ≤ i < 32 →
     Z.testbit (get_reg (lint_state l) APIC_LVT0) i =
       if decide (8 ≤ i < 11) then Z.testbit 7 (i - 8) else Z.testbit (get_reg l APIC_LVT0) i) ∧
  (∀ i, 0 ≤ i < 32 →
     Z.testbit (get_reg (lint_state l) APIC_LVT1) i =
       if decide (8 ≤ i < 11) then Z.testbit 4 (i - 8) else Z.testbit (get_reg l APIC_LVT1) i) ∧
  (∀ j : nat, ¬ (0x350 ≤ Z.of_nat j < 0x354) → ¬ (0x360 ≤ Z.of_nat j < 0x364) →
     lapic_regs (lint_state l) !! j = lapic_regs l !! j).
Proof.
  intros Hl. unfold lint_state.
  set (v0 := set_delivery_mode _ APIC_MODE_EXTINT). set (l1 := set_reg l APIC_LVT0 v0).
  assert (H1 : zlen (lapic_regs l1) = KVM_APIC_REG_SIZE)
    by (unfold l1; rewrite zlen_set_reg; rewrite ?Hl; done).
  assert (Ho : get_reg l1 APIC_LVT1 = get_reg l APIC_LVT1).
  { apply get_reg_other; rewrite ?Hl; try done. by right. }
  rewrite Ho. set (v1 := set_delivery_mode _ APIC_MODE_NMI).
  split_and!.
  - by rewrite zlen_set_reg; rewrite ?H1.
  - intros i Hi. rewrite get_reg_other; rewrite ?H1; try done; [|by left].
    unfold l1. rewrite get_set_reg; rewrite ?Hl; try done.
    + by apply set_delivery_mode_spec.
    + apply set_delivery_mode_fits, get_reg_fits; by rewrite ?Hl.
  - intros i Hi. rewrite get_set_reg; rewrite ?H1; try done.
    + by apply set_delivery_mode_spec.
    + apply set_delivery_mode_fits, get_reg_fits; by rewrite ?Hl.
  - intros j Hj0 Hj1.
    trans (lapic_regs l1 !! j); apply lookup_set_reg; rewrite ?H1, ?Hl; done.
Qed.

(** ** A kernel that grants everything

    File descriptors are allotted in order, and every register reads as
    zero: a concrete host for examples. *)

Definition zero_regs : KvmRegs :=
  {| rax := 0; rbx := 0; rcx := 0; rdx := 0; rsi := 0; rdi := 0; rsp := 0; rbp := 0;
     r8 := 0; r9 := 0; r10 := 0; r11 := 0; r12 := 0; r13 := 0; r14 := 0; r15 := 0;
     rip := 0; rflags := 2 |}.
Definition zero_segment : KvmSegment :=
  {| seg_base := 0; limit := 0; selector := 0; type_ := 0; present := 0; dpl := 0; db := 0;
     seg_s := 0; seg_l := 0; seg_g := 0; avl := 0; unusable := 0; padding := 0 |}.
Definition zero_dtable : KvmDtable := {| dt_base := 0; dt_limit := 0; dt_padding := [0; 0; 0] |}.
Definition zero_sregs : KvmSregs :=
  {| cs := zero_segment; ds := zero_segment; es := zero_segment; fs := zero_segment;
     gs := zero_segment; ss := zero_segment; tr := zero_segment; ldt := zero_segment;
     gdt := zero_dtable; idt := zero_dtable; cr0 := 0; cr2 := 0; cr3 := 0; cr4 := 0; cr8 := 0;
     efer := 0; apic_base := 0; interrupt_bitmap := [0; 0; 0; 0] |}.
Definition zero_pit : KvmPitState2 :=
  let ch := {| pc_count := 0; pc_latched_count := 0; pc_count_latched := 0; pc_status_latched := 0;
               pc_status := 0; pc_read_state := 0; pc_write_state := 0; pc_write_latch := 0;
               pc_rw_mode := 0; pc_mode := 0; pc_bcd := 0; pc_gate := 0; pc_count_load_time := 0 |} in
  {| pit_channels := [ch; ch; ch]; pit2_flags := 0; pit2_padding := replicate 9 0 |}.
Definition zero_events : KvmVcpuEvents :=
  {| ev_exception := {| ex_injected := 0; ex_nr := 0; ex_has_error_code := 0; ex_pending := 0;
                        ex_error_code := 0 |};
     ev_interrupt := {| int_injected := 0; int_nr := 0; int_soft := 0; int_shadow := 0 |};
     ev_nmi := {| nmi_injected := 0; nmi_pending := 0; nmi_masked := 0; nmi_pad := 0 |};
     ev_sipi_vector := 0; ev_flags := 0;
     ev_smi := {| smi_smm := 0; smi_pending := 0; smi_smm_inside_nmi := 0; smi_latched_init := 0 |};
     ev_reserved := replicate 27 0; ev_has_payload := 0; ev_payload := 0 |}.

Definition zero_reply (r : request) : reply r :=
  match r with
  | RqGetSupportedCpuid _ => (0, [])
  | RqGetDirtyLog _ n => replicate n 0
  | RqGetClock => {| clock := 1; clock_flags := 2; clock_pad := replicate 9 7 |}
  | RqGetIrqchip id => {| chip_id := id; chip_padding := 0; chip := replicate 512 (z2b id) |}
  | RqGetPit2 => zero_pit
  | RqGetRegs => zero_regs
  | RqGetSregs => zero_sregs
  | RqGetLapic => {| lapic_regs := replicate 1024 x00 |}
  | RqGetXsave => {| xsave_region := replicate 1024 0 |}
  | RqGetXcrs => KvmXcrs_default
  | RqGetVcpuEvents => zero_events
  | RqGetMsrs l => (λ i, {| msr_index := i; msr_reserved := 0; msr_data := 0 |}) <$> l
  | _ => tt
  end.

(** What the ioctl returns: the API version, a descriptor, a count. *)
Definition demo_return (r : request) (next : Z) : Z :=
  match r with
  | RqGetApiVersion => KVM_API_VERSION
  | RqCheckExtension _ => 1
  | RqGetVcpuMmapSize => 12288
  | RqCreateVm | RqCreateVcpu _ => next
  | RqGetMsrs l => zlen l
  | _ => 0
  end.

Record demo_kvm : Type := { next_fd : Z }.

#[export] Instance demo_kvm_host : KvmHost demo_kvm := {
  sys_open_kvm k := (inr (next_fd k), {| next_fd := next_fd k + 1 |});
  sys_ioctl _ r k := (inr (demo_return r (next_fd k), zero_reply r), {| next_fd := next_fd k + 1 |});
  sys_mmap_run _ _ k := (inr 0x7f0000000000, k);
  sys_munmap _ _ k := k;
  sys_close _ k := k;
}.

Example kvm_opens :
  Kvm_open ({| next_fd := 3 |}, []) =
    (Ok {| kvm_fd := 3; kvm_run_size := 12288 |},
     ({| next_fd := 6 |}, [CallOpen; CallIoctl 3 RqGetApiVersion; CallIoctl 3 RqGetVcpuMmapSize])).
Proof. reflexivity. Qed.

(** ** The requests are typed

    What a request number says of its argument: the direction of the copy and
    the size of the structure. *)
Definition ioc_dir (n : Z) : Z := n / 2 ^ 30.
Definition ioc_size (n : Z) : Z := n / 2 ^ 16 mod 2 ^ 14.
Definition ioc_type (n : Z) : Z := n / 2 ^ 8 mod 2 ^ 8.

(** The structure behind the pointer a request passes, if it passes one, and
    which way it is copied. *)
Definition argument (r : request) : option (Z * ctype) :=
  let w t := Some (_IOC_WRITE, t) in
  let r_ t := Some (_IOC_READ, t) in
  let rw t := Some (3, t) in
  match r with
  | RqSetUserMemoryRegion _ => w layout_memory_region
  | RqCreatePit2 _ => w layout_pit_config
  | RqIrqfd _ => w layout_irqfd
  | RqIrqLine _ => w layout_irq_level
  | RqGetDirtyLog _ _ => w layout_dirty_log
  | RqGetClock => r_ layout_clock
  | RqSetClock _ => w layout_clock
  | RqGetIrqchip _ => rw layout_irqchip
  | RqSetIrqchip _ => r_ layout_irqchip
  | RqGetPit2 => r_ layout_pit_state2
  | RqSetPit2 _ => w layout_pit_state2
  | RqGetRegs => r_ layout_regs
  | RqSetRegs _ => w layout_regs
  | RqGetSregs => r_ layout_sregs
  | RqSetSregs _ => w layout_sregs
  | RqGetLapic => r_ layout_lapic
  | RqSetLapic _ => w layout_lapic
  | RqGetXsave => r_ layout_xsave
  | RqSetXsave _ => w layout_xsave
  | RqGetXcrs => r_ layout_xcrs
  | RqSetXcrs _ => w layout_xcrs
  | RqGetVcpuEvents => r_ layout_vcpu_events
  | RqSetVcpuEvents _ => w layout_vcpu_events
  | RqGetMsrs _ => rw layout_msrs_hdr
  | RqSetMsrs _ => w layout_msrs_hdr
  | RqGetSupportedCpuid _ => rw layout_cpuid2_hdr
  | RqSetCpuid2 _ => w layout_cpuid2_hdr
  | _ => None
  end.

(** Which request it is, whatever its argument. *)
Definition request_kind (r : request) : nat :=
  match r with
  | RqGetApiVersion => 0 | RqCreateVm => 1 | RqCheckExtension _ => 2 | RqGetVcpuMmapSize => 3
  | RqGetSupportedCpuid _ => 4 | RqCreateVcpu _ => 5 | RqSetUserMemoryRegion _ => 6 | RqCreateIrqchip => 7
  | RqCreatePit2 _ => 8 | RqIrqfd _ => 9 | RqIrqLine _ => 10 | RqSetTssAddr _ => 11 | RqGetDirtyLog _ _ => 12
  | RqGetClock => 13 | RqSetClock _ => 14 | RqGetIrqchip _ => 15 | RqSetIrqchip _ => 16 | RqGetPit2 => 17
  | RqSetPit2 _ => 18 | RqGetRegs => 19 | RqSetRegs _ => 20 | RqGetSregs => 21 | RqSetSregs _ => 22
  | RqGetLapic => 23 | RqSetLapic _ => 24 | RqGetXsave => 25 | RqSetXsave _ => 26 | RqGetXcrs => 27
  | RqSetXcrs _ => 28 | RqGetVcpuEvents => 29 | RqSetVcpuEvents _ => 30 | RqGetMsrs _ => 31
  | RqSetMsrs _ => 32 | RqSetCpuid2 _ => 33
  end%nat.
Definition numbers : list Z :=
  [KVM_GET_API_VERSION; KVM_CREATE_VM; KVM_CHECK_EXTENSION; KVM_GET_VCPU_MMAP_SIZE; KVM_GET_SUPPORTED_CPUID;
   KVM_CREATE_VCPU; KVM_SET_USER_MEMORY_REGION; KVM_CREATE_IRQCHIP; KVM_CREATE_PIT2; KVM_IRQFD; KVM_IRQ_LINE;
   KVM_SET_TSS_ADDR; KVM_GET_DIRTY_LOG; KVM_GET_CLOCK; KVM_SET_CLOCK; KVM_GET_IRQCHIP; KVM_SET_IRQCHIP;
   KVM_GET_PIT2; KVM_SET_PIT2; KVM_GET_REGS; KVM_SET_REGS; KVM_GET_SREGS; KVM_SET_SREGS; KVM_GET_LAPIC;
   KVM_SET_LAPIC; KVM_GET_XSAVE; KVM_SET_XSAVE; KVM_GET_XCRS; KVM_SET_XCRS; KVM_GET_VCPU_EVENTS;
   KVM_SET_VCPU_EVENTS; KVM_GET_MSRS; KVM_SET_MSRS; KVM_SET_CPUID2].

Lemma number_lookup r : numbers !! request_kind r = Some (number r).
Proof. by destruct r. Qed.
Lemma numbers_distinct : NoDup numbers.
Proof. apply (bool_decide_unpack _). vm_compute. reflexivity. Qed.

(** *** [repr(C)] *)

(** Where the fields of a structure lie. *)
Fixpoint field_offsets (off : Z) (fields : list ctype) : list Z :=
  match fields with
  | [] => []
  | t :: fields => let o := align_up off t.2 in o :: field_offsets (o + t.1) fields
  end.
Definition ctype_ok (t : ctype) : Prop := 0 ≤ t.1 ∧ 0 < t.2.

Lemma align_up_spec n a : 0 < a → n ≤ align_up n a < n + a ∧ (a | align_up n a).
Proof.
  intros Ha. unfold align_up. split; [|by apply Z.divide_factor_r].
  pose proof (Z.div_mod (n + a - 1) a ltac:(lia)). pose proof (Z.mod_pos_bound (n + a - 1) a Ha). nia.
Qed.

Lemma repr_C_end fields off al : 0 < al → Forall ctype_ok fields →
  let '(off', al') := foldl (λ '(off, al) '(sz, a), (align_up off a + sz, Z.max al a)) (off, al) fields in
  off ≤ off' ∧ 0 < al' ∧
  (∀ i o t, field_offsets off fields !! i = Some o → fields !! i = Some t → (t.2 | o) ∧ off ≤ o ∧ o + t.1 ≤ off') ∧
  (∀ i j o t o', (i < j)%nat → field_offsets off fields !! i = Some o → fields !! i = Some t →
     field_offsets off fields !! j = Some o' → o + t.1 ≤ o').
Proof.
  intros Hal HF. revert off al Hal. induction HF as [|[sz a] fields [Hsz Ha] _ IH]; intros off al Hal; cbn [foldl field_offsets fst snd].
  { split_and!; [lia|done|..]; by intros []. }
  cbn in Hsz, Ha. specialize (IH (align_up off a + sz) (Z.max al a) ltac:(lia)).
  destruct (align_up_spec off a Ha) as [Hup Hdiv].
  destruct (foldl _ _ fields) as [off' al']. destruct IH as (Hle & Hal' & Hin & Hord).
  split_and!; [lia|done|..].
  - intros [|i] o t Ho Ht; [injection Ho as <-; injection Ht as <-; cbn; split; [done|lia]|].
    destruct (Hin i o t Ho Ht) as (? & ? & ?). split; [done|lia].
  - intros [|i] [|j] o t o' Hij Ho Ht Ho'; try lia.
    + injection Ho as <-. injection Ht as <-. cbn. 
      assert (Hj : is_Some (fields !! j)).
      { apply lookup_lt_is_Some_2. apply lookup_lt_Some in Ho'. cbn in Ho'.
        assert (Hlen : ∀ off, length (field_offsets off fields) = length fields) by (clear; induction fields; intros; cbn; auto).
        rewrite Hlen in Ho'. lia. }
      destruct Hj as [t' Ht']. by destruct (Hin j o' t' Ho' Ht') as (_ & ? & _).
    + apply (Hord i j o t o'); [lia|done..].
Qed.


