(* ===== verification/Network.v ===== *)
(** * Host networking of a VM (crates/nova-vmm/src/network.rs, crates/nova-virtio/src/tap.rs)

    The commands that configure the host side of a TAP interface and take
    the configuration back, the network address, the init script of the
    guest, and the opening of the TAP device.  The programs the code runs
    are a host interface; [NatLaws] states what iptables(8) promises of
    them. *)

From stdpp Require Import pretty.
From S2P Require Import Prelude.
#[local] Open Scope Z_scope.

(** ** Addresses *)

(** [Ipv4Addr] is its [u32]; [Display] prints the octets. *)
Definition ipv4 (a b c d : Z) : Z := ((a * 256 + b) * 256 + c) * 256 + d.

Definition octet (ip i : Z) : Z := Z.shiftr ip (8 * i) mod 256.

Definition ipv4_text (ip : Z) : string :=
  (pretty (octet ip 3) +:+ "." +:+ pretty (octet ip 2) +:+ "." +:+
   pretty (octet ip 1) +:+ "." +:+ pretty (octet ip 0))%string.

Record NetworkSetup : Type := {
  tap_name : string;
  host_ip : Z;
  guest_ip : Z;
  netmask : Z;
  host_iface : string;
  applied : bool;
}.

Definition NetworkSetup_new (name : string) (host guest mask : Z) (iface : string) : NetworkSetup :=
  {| tap_name := name; host_ip := host; guest_ip := guest; netmask := mask;
     host_iface := iface; applied := false |}.

Definition default_for_tap (name : string) : NetworkSetup :=
  NetworkSetup_new name (ipv4 172 16 0 1) (ipv4 172 16 0 2) 30 "eth0".

Definition set_applied (n : NetworkSetup) (b : bool) : NetworkSetup :=
  {| tap_name := tap_name n; host_ip := host_ip n; guest_ip := guest_ip n;
     netmask := netmask n; host_iface := host_iface n; applied := b |}.

(** [1u32 << k]: the release profile shifts by [k] modulo 32; [!] is the
    complement of a [u32]. *)
Definition shl_u32 (a k : Z) : Z := wrap 32 (Z.shiftl a (k mod 32)).
Definition not_u32 (a : Z) : Z := 0xFFFFFFFF - a.

Definition network_addr (n : NetworkSetup) : Z :=
  let mask := if 32 <=? netmask n then 0xFFFFFFFF
              else not_u32 (wrap 32 (shl_u32 1 (32 - netmask n) - 1)) in
  Z.land (host_ip n) mask.

(** [format!("{}/{}", addr, prefix)]. *)
Definition cidr (addr prefix : Z) : string := (ipv4_text addr +:+ "/" +:+ pretty prefix)%string.

(** ** The commands *)

(** [Command::output]: an errno when the program cannot be run, otherwise
    whether it exited with success, and its standard error. *)
Class CmdHost (K : Type) : Type := {
  run_program : string → list string → K → (Z + bool * list byte) * K;
}.

Inductive CmdError : Type :=
| CmdIo (errno : Z)
| CmdFailed (cmd : string) (stderr : list byte).

Section Setup.
Context {K : Type} `{CmdHost K}.

Definition run_cmd (cmd : string) (args : list string) : stm K CmdError unit :=
  λ k, match run_program cmd args k with
       | (inl e, k) => (Err (CmdIo e), k)
       | (inr (true, _), k) => (Ok tt, k)
       | (inr (false, err), k) => (Err (CmdFailed cmd err), k)
       end.

(** [let _ = run_cmd(..)] and [run_cmd(..).is_err()]. *)
Definition ignore {A} (m : stm K CmdError A) : stm K CmdError unit :=
  λ k, match m k with
       | (Panic p, k) => (Panic p, k)
       | (_, k) => (Ok tt, k)
       end.
Definition fails {A} (m : stm K CmdError A) : stm K CmdError bool :=
  λ k, match m k with
       | (Panic p, k) => (Panic p, k)
       | (Err _, k) => (Ok true, k)
       | (Ok _, k) => (Ok false, k)
       end.

(** [iptables -t nat <verb> POSTROUTING -s <subnet> -o <iface> -j MASQUERADE]. *)
Definition nat_rule (n : NetworkSetup) : list string :=
  ["POSTROUTING"; "-s"; cidr (network_addr n) (netmask n); "-o"; host_iface n;
   "-j"; "MASQUERADE"]%string.
Definition iptables (verb : string) (rule : list string) : stm K CmdError unit :=
  run_cmd "iptables" (["-t"; "nat"; verb]%string ++ rule).

Definition addr_args (verb : string) (n : NetworkSetup) : list string :=
  ["addr"; verb; cidr (host_ip n) (netmask n); "dev"; tap_name n]%string.

Definition setup (n : NetworkSetup) : stm K CmdError NetworkSetup :=
  ignore (run_cmd "ip" (addr_args "add" n)) ;;
  run_cmd "ip" ["link"; "set"; tap_name n; "up"]%string ;;
  run_cmd "sysctl" ["-w"; "net.ipv4.ip_forward=1"]%string ;;
  missing ← fails (iptables "-C" (nat_rule n));
  (if missing : bool then iptables "-A" (nat_rule n) else mret tt) ;;
  mret (set_applied n true).

Definition teardown (n : NetworkSetup) : stm K CmdError NetworkSetup :=
  if negb (applied n) then mret n else
  ignore (iptables "-D" (nat_rule n)) ;;
  ignore (run_cmd "ip" (addr_args "del" n)) ;;
  mret (set_applied n false).

(** [Drop::drop]. *)
Definition network_drop (n : NetworkSetup) : stm K CmdError unit :=
  if applied n then ignore (teardown n) else mret tt.

End Setup.

(** ** The guest's init script *)

Definition dq : string := String (Ascii.ascii_of_nat 34) EmptyString.
Definition nl : string := String (Ascii.ascii_of_nat 10) EmptyString.

(** Text of the given lines, each ended by a newline. *)
Definition lines (l : list string) : string :=
  foldr (λ x rest, x +:+ nl +:+ rest)%string EmptyString l.

Definition agent_lines : list string :=
  [""; "# Verify UDP works from guest to host";
   "echo " +:+ dq +:+ "NOVA-INIT-UDP-TEST" +:+ dq +:+
     " > /dev/udp/172.16.0.1/9876 2>/dev/null || true";
   "echo " +:+ dq +:+ "NovaVM: UDP test sent" +:+ dq +:+ " >&2";
   ""; "# Start nova-eye eBPF telemetry agent";
   "if [ -x /sbin/nova-eye-agent ]; then";
   "    /sbin/nova-eye-agent &";
   "    sleep 1";
   "    # Send another UDP test after agent starts";
   "    echo " +:+ dq +:+ "NOVA-INIT-UDP-TEST2" +:+ dq +:+
     " > /dev/udp/172.16.0.1/9876 2>/dev/null || true";
   "fi"]%string.

Definition guest_init_script_with_agent (n : NetworkSetup) (entrypoint : string)
    (inject_eye_agent : bool) : string :=
  (lines
     ["#!/bin/sh"; "# NovaVM network init";
      "ip addr add " +:+ cidr (guest_ip n) (netmask n) +:+ " dev eth0";
      "ip link set eth0 up";
      "ip route add default via " +:+ ipv4_text (host_ip n);
      ""; "# DNS (use Google DNS)";
      "echo " +:+ dq +:+ "nameserver 8.8.8.8" +:+ dq +:+ " > /etc/resolv.conf"] +:+
   (if inject_eye_agent then lines agent_lines else EmptyString) +:+
   lines [""; "# Execute the entrypoint"; "exec " +:+ entrypoint])%string.

Definition guest_init_script (n : NetworkSetup) (entrypoint : string) : string :=
  guest_init_script_with_agent n entrypoint false.

(** ** The TAP device (tap.rs) *)

Definition IFF_TAP : Z := 0x0002.
Definition IFF_NO_PI : Z := 0x1000.
Definition TUNSETIFF : Z := 0x400454CA.
Definition IFNAMSIZ : Z := 16.
Definition O_NONBLOCK : Z := 0x800.

Record Ifreq : Type := { ifr_name : list byte; ifr_flags : Z; ifr_pad : list byte }.
Record Tap : Type := { tap_raw_fd : Z; tap_ifname : list byte }.

(** The system calls; TUNSETIFF may rewrite the name in the request. *)
Class TapHost (K : Type) : Type := {
  sys_open_tun : K → (Z + Z) * K;
  sys_tunsetiff : Z → Ifreq → K → (Z + Ifreq) * K;
  sys_getfl : Z → K → (Z + Z) * K;
  sys_setfl : Z → Z → K → (Z + unit) * K;
  sys_close_tap : Z → K → K;
}.

Section Taps.
Context {K : Type} `{TapHost K}.

Definition tap_ifreq (name : list byte) : Ifreq :=
  let name := take (Z.to_nat (IFNAMSIZ - 1)) name in
  {| ifr_name := splice 0 name (replicate (Z.to_nat IFNAMSIZ) x00);
     ifr_flags := Z.lor IFF_TAP IFF_NO_PI; ifr_pad := replicate 22 x00 |}.

(** The bytes before the first NUL. *)
Fixpoint until_nul (l : list byte) : list byte :=
  match l with
  | [] => []
  | b :: l => if Byte.eqb b x00 then [] else b :: until_nul l
  end.

Definition Tap_open (name : list byte) : stm K Z Tap :=
  λ k, match sys_open_tun k with
       | (inl e, k) => (Err e, k)
       | (inr fd, k) =>
           match sys_tunsetiff fd (tap_ifreq name) k with
           | (inl e, k) => (Err e, sys_close_tap fd k)
           | (inr ifr, k) => (Ok {| tap_raw_fd := fd; tap_ifname := until_nul (ifr_name ifr) |}, k)
           end
       end.

Definition set_nonblocking (t : Tap) : stm K Z unit :=
  λ k, match sys_getfl (tap_raw_fd t) k with
       | (inl e, k) => (Err e, k)
       | (inr fl, k) =>
           match sys_setfl (tap_raw_fd t) (Z.lor fl O_NONBLOCK) k with
           | (inl e, k) => (Err e, k)
           | (inr _, k) => (Ok tt, k)
           end
       end.

Definition Tap_drop (t : Tap) (k : K) : K :=
  if 0 <=? tap_raw_fd t then sys_close_tap (tap_raw_fd t) k else k.

End Taps.

(** ** The network address *)

Lemma network_addr_spec n :
  fits 32 (host_ip n) → 1 ≤ netmask n →
  network_addr n = host_ip n / 2 ^ Z.max 0 (32 - netmask n) * 2 ^ Z.max 0 (32 - netmask n).
Proof.
  intros Hip Hn. unfold network_addr. destruct (Z.leb_spec 32 (netmask n)).
  - rewrite Z.max_l by lia. change 0xFFFFFFFF with (Z.ones 32).
    rewrite Z.land_ones, Z.mod_small by (done || lia). change (2 ^ 0) with 1.
    by rewrite Z.div_1_r, Z.mul_1_r.
  - rewrite Z.max_r by lia. set (h := 32 - netmask n).
    assert (Hh : 0 < h < 32) by lia. assert (0 < 2 ^ h < 2 ^ 32).
    { split; [by apply Z.pow_pos_nonneg; lia|]. apply Z.pow_lt_mono_r; lia. }
    unfold shl_u32, wrap. rewrite (Z.mod_small h), Z.shiftl_1_l by lia.
    rewrite (Z.mod_small (2 ^ h)) by lia. rewrite Z.mod_small by lia.
    assert (Hm : not_u32 (2 ^ h - 1) = Z.ldiff (Z.ones 32) (Z.ones h)).
    { unfold not_u32. rewrite <- Z.sub_nocarry_ldiff.
      - rewrite !Z.ones_equiv. change (2 ^ 32) with 0x100000000. lia.
      - apply Z.bits_inj'. intros i Hi.
        rewrite Z.ldiff_spec, Z.testbit_0_l, !Z.testbit_ones_nonneg by lia.
        destruct (Z.ltb_spec i h); [|done]. by rewrite (proj2 (Z.ltb_lt i 32)) by lia. }
    rewrite Hm. rewrite <- Z.shiftl_mul_pow2, <- Z.shiftr_div_pow2 by lia.
    rewrite <- Z.ldiff_ones_r by lia.
    apply Z.bits_inj'. intros i Hi. rewrite Z.land_spec, !Z.ldiff_spec.
    rewrite (Z.testbit_ones_nonneg 32) by lia.
    destruct (Z.ltb_spec i 32) as [|Hge]; [done|].
    assert (Z.testbit (host_ip n) i = false) as ->; [|done].
    destruct Hip as [Hip0 Hip1]. apply Z.bits_above_log2; [done|].
    destruct (decide (host_ip n = 0)) as [->|]; [simpl; lia|].
    apply Z.log2_lt_pow2; [lia|]. eapply Z.lt_le_trans; [exact Hip1|].
    apply Z.pow_le_mono_r; lia.
Qed.

(** A prefix of length 0 shifts by 32: the whole address is its own network. *)
Lemma network_addr_zero n :
  fits 32 (host_ip n) → netmask n = 0 → network_addr n = host_ip n.
Proof.
  intros Hip Hn. unfold network_addr. rewrite Hn. simpl.
  change (not_u32 _) with (Z.ones 32). rewrite Z.land_ones by lia. by apply wrap_small.
Qed.

(** ** What iptables promises *)

Fixpoint remove_first (r : list string) (rs : list (list string)) : list (list string) :=
  match rs with
  | [] => []
  | x :: rs => if decide (x = r) then rs else x :: remove_first r rs
  end.

(** The rules of the nat table's chain, and whether the caller may change
    them.  [-C] looks a rule up, [-A] appends it, [-D] deletes its first
    occurrence; without the privilege every command fails. *)
Class NatLaws (K : Type) `{CmdHost K} : Type := {
  nat_rules : K → list (list string);
  nat_usable : K → bool;
  nat_other : ∀ cmd args k, cmd ≠ "iptables"%string →
    nat_rules (run_program cmd args k).2 = nat_rules k ∧
    nat_usable (run_program cmd args k).2 = nat_usable k;
  nat_denied : ∀ verb rule k, nat_usable k = false →
    let '(r, k') := run_program "iptables" (["-t"; "nat"; verb]%string ++ rule) k in
    (∀ err, r ≠ inr (true, err)) ∧ nat_rules k' = nat_rules k ∧ nat_usable k' = false;
  nat_check : ∀ rule k, nat_usable k = true →
    let '(r, k') := run_program "iptables" (["-t"; "nat"; "-C"]%string ++ rule) k in
    nat_rules k' = nat_rules k ∧ nat_usable k' = true ∧
    ((∃ err, r = inr (true, err)) ↔ rule ∈ nat_rules k);
  nat_append : ∀ rule k, nat_usable k = true →
    let '(r, k') := run_program "iptables" (["-t"; "nat"; "-A"]%string ++ rule) k in
    nat_rules k' = nat_rules k ++ [rule] ∧ nat_usable k' = true ∧ (∃ err, r = inr (true, err));
  nat_delete : ∀ rule k, nat_usable k = true →
    let '(r, k') := run_program "iptables" (["-t"; "nat"; "-D"]%string ++ rule) k in
    nat_rules k' = remove_first rule (nat_rules k) ∧ nat_usable k' = true;
}.

Section NatProofs.
Context {K : Type} `{NatLaws K}.

Lemma run_other cmd args k o k' :
  cmd ≠ "iptables"%string → run_cmd cmd args k = (o, k') →
  nat_rules k' = nat_rules k ∧ nat_usable k' = nat_usable k.
Proof.
  intros Hc. unfold run_cmd. destruct (nat_other cmd args k Hc) as [? ?].
  destruct (run_program cmd args k) as [[e|[[] err]] k1]; intros [= <- <-]; done.
Qed.

Lemma ignore_ok {A} (m : stm K CmdError A) k o k' :
  ignore m k = (Ok o, k') → ∃ r, m k = (r, k').
Proof. unfold ignore. destruct (m k) as [[a|e|p] k1]; intros [= <- <-]; eauto. Qed.

Lemma check_rule rule k b k' :
  fails (iptables "-C" rule) k = (Ok b, k') →
  nat_rules k' = nat_rules k ∧ nat_usable k' = nat_usable k ∧
  (nat_usable k = true → b = bool_decide (rule ∉ nat_rules k)) ∧
  (nat_usable k = false → b = true).
Proof.
  unfold fails, iptables, run_cmd. destruct (nat_usable k) eqn:Hu.
  - pose proof (nat_check rule k Hu) as Hr. destruct (run_program _ _ k) as [r k1].
    destruct Hr as (? & ? & Hiff). destruct r as [e|[[] err]]; intros [= <- <-]; split_and!; try done; intros _;
      symmetry; first [apply bool_decide_eq_true|apply bool_decide_eq_false]; rewrite <- Hiff; try naive_solver.
  - pose proof (nat_denied "-C" rule k Hu) as Hr. destruct (run_program _ _ k) as [r k1].
    destruct Hr as (Hf & ? & ?). destruct r as [e|[[] err]]; intros [= <- <-]; split_and!; try done.
    by destruct (Hf err).
Qed.

Lemma append_rule rule k k' :
  iptables "-A" rule k = (Ok tt, k') →
  nat_usable k = true ∧ nat_usable k' = true ∧ nat_rules k' = nat_rules k ++ [rule].
Proof.
  unfold iptables, run_cmd. destruct (nat_usable k) eqn:Hu.
  - pose proof (nat_append rule k Hu) as Hr. destruct (run_program _ _ k) as [r k1].
    destruct Hr as (? & ? & ?). destruct r as [e|[[] err]]; by intros [= <-].
  - pose proof (nat_denied "-A" rule k Hu) as Hr. destruct (run_program _ _ k) as [r k1].
    destruct Hr as (Hf & ?). destruct r as [e|[[] err]]; intros [=]. by destruct (Hf err).
Qed.

Lemma delete_rule rule k r k' :
  nat_usable k = true → iptables "-D" rule k = (r, k') →
  nat_usable k' = true ∧ nat_rules k' = remove_first rule (nat_rules k).
Proof.
  intros Hu. unfold iptables, run_cmd. pose proof (nat_delete rule k Hu) as Hr.
  destruct (run_program _ _ k) as [x k1]. destruct Hr.
  destruct x as [e|[[] err]]; by intros [= <- <-].
Qed.

(** A successful [setup] leaves the rule in the table, once more only when
    it was missing. *)
Lemma setup_ok n k n' k' :
  setup n k = (Ok n', k') →
  n' = set_applied n true ∧ nat_usable k' = true ∧
  nat_rules k' = nat_rules k ++ (if decide (nat_rule n ∈ nat_rules k) then [] else [nat_rule n]).
Proof.
  unfold setup. intros ([] & k1 & (r1 & E1)%ignore_ok & E)%stm_bind_ok.
  apply stm_bind_ok in E as ([] & k2 & E2 & E). apply stm_bind_ok in E as ([] & k3 & E3 & E).
  apply stm_bind_ok in E as (b & k4 & E4 & E). apply stm_bind_ok in E as ([] & k5 & E5 & E).
  injection E as <- <-.
  apply run_other in E1 as [R1 U1], E2 as [R2 U2], E3 as [R3 U3]; try done.
  apply check_rule in E4 as (R4 & U4 & Hb & Hb').
  rewrite R3, R2, R1 in R4, Hb. split; [done|].
  destruct b.
  - apply append_rule in E5 as (Hu & ? & ->). split; [done|].
    rewrite <- U4 in *. specialize (Hb Hu). symmetry in Hb. apply bool_decide_eq_true in Hb.
    by rewrite decide_False, R4 by done.
  - injection E5 as <-. destruct (nat_usable k3) eqn:Hu; [|by specialize (Hb' eq_refl)].
    split; [congruence|]. specialize (Hb eq_refl). symmetry in Hb. apply bool_decide_eq_false in Hb.
    apply dec_stable in Hb. by rewrite decide_True, app_nil_r by done.
Qed.

Lemma teardown_ok n k n' k' :
  applied n = true → nat_usable k = true → teardown n k = (Ok n', k') →
  n' = set_applied n false ∧ nat_usable k' = true ∧ nat_rules k' = remove_first (nat_rule n) (nat_rules k).
Proof.
  unfold teardown. intros -> Hu. simpl.
  intros ([] & k1 & (r1 & E1)%ignore_ok & E)%stm_bind_ok.
  apply stm_bind_ok in E as ([] & k2 & (r2 & E2)%ignore_ok & E). injection E as <- <-.
  apply delete_rule in E1 as [U1 R1]; [|done]. apply run_other in E2 as [R2 U2]; [|done].
  split; [done|]. by rewrite R2, U2.
Qed.

Lemma remove_first_app rule rs : rule ∉ rs → remove_first rule (rs ++ [rule]) = rs.
Proof.
  induction rs as [|r rs IH]; simpl; intros Hn.
  - by rewrite decide_True.
  - apply not_elem_of_cons in Hn as [Hne Hn]. rewrite decide_False by congruence. f_equal. by apply IH.
Qed.

End NatProofs.

(** The NAT rule of a VM's network.  A successful setup leaves its
    masquerade rule in the table, adding it only when it is missing; the
    teardown of that network restores the table if setup added the rule.  The
    rule does not name the TAP device, and all VMs get the addresses of
    [default_for_tap], so two VMs share one rule: tearing down the first
    removes the rule of the second, which still counts as applied. *)
Theorem network_nat_lifecycle {K} `{NatLaws K} (a b : string) k n1 k1 n2 k2 n3 k3 :
  let rule := nat_rule (default_for_tap a) in
  setup (default_for_tap a) k = (Ok n1, k1) →
  setup (default_for_tap b) k1 = (Ok n2, k2) →
  teardown n1 k2 = (Ok n3, k3) →
  rule ∈ nat_rules k1 ∧ nat_rules k2 = nat_rules k1 ∧
  applied n2 = true ∧ applied n3 = false ∧
  nat_rules k3 = remove_first rule (nat_rules k1) ∧
  (rule ∉ nat_rules k → nat_rules k3 = nat_rules k) ∧
  (∀ n3' k3', teardown n1 k1 = (Ok n3', k3') → rule ∉ nat_rules k → nat_rules k3' = nat_rules k).
Proof.
  intros rule E1 E2 E3.
  apply setup_ok in E1 as (-> & U1 & R1). apply setup_ok in E2 as (-> & U2 & R2).
  change (nat_rule (default_for_tap b)) with rule in R2. fold rule in R1.
  assert (Hin : rule ∈ nat_rules k1).
  { rewrite R1. apply elem_of_app. destruct (decide _); [by left|right]. by apply list_elem_of_singleton. }
  rewrite decide_True, app_nil_r in R2 by done.
  apply teardown_ok in E3 as (-> & _ & R3); [|done..].
  change (nat_rule _) with rule in R3. rewrite R2 in R3.
  assert (Hback : rule ∉ nat_rules k → remove_first rule (nat_rules k1) = nat_rules k).
  { intros Hn. rewrite R1, decide_False by done. by apply remove_first_app. }
  split_and!; try done.
  - intros Hn. by rewrite R3, Hback.
  - intros n3' k3' (-> & _ & ->)%teardown_ok Hn; [|done..]. by apply Hback.
Qed.

(** ** A host with an iptables, for the witness *)

Record demo_net : Type := { dn_rules : list (list string) }.

#[export] Instance demo_cmd : CmdHost demo_net := {
  run_program cmd args k :=
    match cmd, args with
    | "iptables"%string, _ :: _ :: verb :: rule =>
        if decide (verb = "-C"%string)
        then (inr (bool_decide (rule ∈ dn_rules k), []), k)
        else if decide (verb = "-A"%string)
        then (inr (true, []), {| dn_rules := dn_rules k ++ [rule] |})
        else if decide (verb = "-D"%string)
        then (inr (bool_decide (rule ∈ dn_rules k), []),
              {| dn_rules := remove_first rule (dn_rules k) |})
        else (inr (true, []), k)
    | _, _ => (inr (true, []), k)
    end
}.

#[export] Program Instance demo_nat : NatLaws demo_net := {
  nat_rules := dn_rules;
  nat_usable _ := true;
}.
Next Obligation.
  intros cmd args k Hc. unfold run_program, demo_cmd.
  repeat (case_match; subst; try done).
Qed.
Next Obligation. done. Qed.
Next Obligation.
  intros rule k _. simpl. split_and!; [done..|].
  split; [intros (err & [=])|intros; eexists]; [by eapply bool_decide_eq_true|].
  by rewrite bool_decide_true.
Qed.
Next Obligation. intros rule k _. simpl. split_and!; [done..|]. by eexists. Qed.
Next Obligation. done. Qed.

Lemma network_nat_lifecycle_witness :
  let k0 := {| dn_rules := [] |} in
  let '(_, k1) := setup (default_for_tap "tap0") k0 in
  let '(n2, k2) := setup (default_for_tap "tap1") k1 in
  let '(_, k3) := teardown (set_applied (default_for_tap "tap0") true) k2 in
  n2 = Ok (set_applied (default_for_tap "tap1") true) ∧ nat_rules k3 = [].
Proof.
  intros k0.
  destruct (setup (default_for_tap "tap0") k0) as [r1 k1] eqn:E1.
  destruct (setup (default_for_tap "tap1") k1) as [r2 k2] eqn:E2.
  destruct (teardown (set_applied (default_for_tap "tap0") true) k2) as [r3 k3] eqn:E3.
  vm_compute in E1. injection E1 as <- <-. vm_compute in E2. injection E2 as <- <-.
  vm_compute in E3. injection E3 as <- <-.
  edestruct (network_nat_lifecycle "tap0" "tap1" k0) as (_ & _ & _ & _ & _ & Hr & _);
    [vm_compute; reflexivity..|].
  split; [vm_compute; reflexivity|]. apply Hr. vm_compute. by intros ?%elem_of_nil.
Defined.
