(* ===== verification/Builder.v ===== *)
(** * The VM builder (crates/nova-vmm/src/config.rs, crates/nova-vmm/src/builder.rs)

    The configuration and the construction of a VM from it: the KVM handles,
    the guest memory, the devices on the bus and their announcement on the
    kernel command line, and the two boot paths, which write the kernel, the
    boot parameters and the initial ramdisk into guest memory and program
    every vCPU. *)

From stdpp Require Import pretty.
From S2P Require Import Prelude GuestMem Virtqueue Mmio Devices Net DeviceMgr BootParams LongMode Elf Initrd Kvm Network.
#[local] Open Scope Z_scope.

(** ** Configuration (config.rs)

    What the TOML parser yields: a key is absent or has a value.  The
    [#[serde(default)]] attributes fill in the absent ones. *)

Record KernelConfig : Type := {
  kc_path : string;
  kc_cmdline : string;
  kc_initrd : option string;
  kc_boot_method : string;
}.
Record BlockConfig : Type := { bc_path : string; bc_read_only : bool }.
Record NetworkConfig : Type := { nc_tap : string; nc_mac : option string }.
Record ConsoleConfig : Type := { cc_mode : string }.
Record VsockConfig : Type := { vc_guest_cid : Z }.

Record VmConfig : Type := {
  cfg_vcpus : Z;
  cfg_memory_mib : Z;
  cfg_kernel : KernelConfig;
  cfg_block : list BlockConfig;
  cfg_network : option NetworkConfig;
  cfg_console : ConsoleConfig;
  cfg_vsock : option VsockConfig;
}.

Definition default_vcpus : Z := 1.
Definition default_memory_mib : Z := 256.
Definition default_cmdline : string := "console=ttyS0 reboot=k panic=1 pci=off".
Definition default_boot_method : string := "bzimage".
Definition default_tap_name : string := "nova-tap0".
Definition default_console_mode : string := "serial".

Record KernelToml : Type := {
  kt_path : string; kt_cmdline : option string; kt_initrd : option string;
  kt_boot_method : option string }.
Record BlockToml : Type := { bt_path : string; bt_read_only : option bool }.
Record NetworkToml : Type := { nt_tap : option string; nt_mac : option string }.
Record ConsoleToml : Type := { ct_mode : option string }.
Record VmToml : Type := {
  vt_vcpus : option Z; vt_memory_mib : option Z; vt_kernel : KernelToml;
  vt_block : option (list BlockToml); vt_network : option NetworkToml;
  vt_console : option ConsoleToml; vt_vsock : option VsockConfig }.

(** [ConsoleConfig] derives [Default], so a missing table has the empty mode;
    [default_console_mode] serves a table without the key. *)
Definition ConsoleConfig_default : ConsoleConfig := {| cc_mode := EmptyString |}.

Definition VmConfig_of_toml (t : VmToml) : VmConfig :=
  {| cfg_vcpus := default default_vcpus (vt_vcpus t);
     cfg_memory_mib := default default_memory_mib (vt_memory_mib t);
     cfg_kernel :=
       {| kc_path := kt_path (vt_kernel t);
          kc_cmdline := default default_cmdline (kt_cmdline (vt_kernel t));
          kc_initrd := kt_initrd (vt_kernel t);
          kc_boot_method := default default_boot_method (kt_boot_method (vt_kernel t)) |};
     cfg_block :=
       (λ b, {| bc_path := bt_path b; bc_read_only := default false (bt_read_only b) |})
         <$> default [] (vt_block t);
     cfg_network :=
       (λ n, {| nc_tap := default default_tap_name (nt_tap n); nc_mac := nt_mac n |})
         <$> vt_network t;
     cfg_console :=
       from_option (λ c, {| cc_mode := default default_console_mode (ct_mode c) |})
         ConsoleConfig_default (vt_console t);
     cfg_vsock := vt_vsock t |}.

(** [self.memory_mib * 1024 * 1024], wrapping at [u64]. *)
Definition memory_bytes (c : VmConfig) : Z := wrap64 (wrap64 (cfg_memory_mib c * 1024) * 1024).

(** ** Errors: an [anyhow] error is its context and what it wraps

    [Hangs] marks a run that does not end: the note loop of the ELF parser
    on an image whose note sizes wrap around. *)
Inductive VmCause : Type :=
| CauseKvm (e : KvmError)
| CauseMem (e : MemError)
| CauseBoot (e : BootError)
| CauseIo (errno : Z)
| CauseNone.

Inductive VmError : Type :=
| Context (msg : string) (cause : VmCause)
| Hangs.

(** ** Constants and formats (builder.rs) *)

Definition MMIO_BASE : Z := 0xD0000000.
Definition MMIO_SIZE : Z := 0x1000.
Definition MMIO_IRQ_BASE : Z := 5.

Inductive KernelFormat : Type := FormatBzImage | FormatElf.

Definition detect_kernel_format (data : list byte) : KernelFormat :=
  if (4 <=? zlen data) && bool_decide (sub_list 0 4 data = ELF_MAGIC) then FormatElf
  else FormatBzImage.

(** The two arms of the source's second test are the same. *)
Definition kernel_format (c : VmConfig) (data : list byte) : KernelFormat :=
  if decide (kc_boot_method (cfg_kernel c) = "elf"%string) then FormatElf
  else detect_kernel_format data.

(** [{:x}] of a [u64]. *)
Definition hex_char (d : Z) : Ascii.ascii :=
  Ascii.ascii_of_nat (Z.to_nat (if d <? 10 then 48 + d else 87 + d)).
Fixpoint hex_go (fuel : nat) (z : Z) (acc : string) : string :=
  match fuel with
  | O => acc
  | S fuel =>
      let acc := String (hex_char (z mod 16)) acc in
      if z / 16 =? 0 then acc else hex_go fuel (z / 16) acc
  end.
Definition fmt_x (z : Z) : string := hex_go 16 z EmptyString.

(** The parameter of one device: [(addr, size, irq)]. *)
Definition device_param (d : Z * Z * Z) : string :=
  let '(addr, sz, irq) := d in
  ("virtio_mmio.device=0x" +:+ fmt_x sz +:+ "@0x" +:+ fmt_x addr +:+ ":" +:+ pretty irq)%string.

Definition kernel_cmdline (c : VmConfig) (ds : list (Z * Z * Z)) : CmdlineBuilder :=
  foldl (λ b d, cl_raw b (string_bytes (device_param d)))
    (cl_raw CmdlineBuilder_new (string_bytes (kc_cmdline (cfg_kernel c)))) ds.

(** [u8::from_str_radix(part, 16)]: an optional [+], then one or more hex
    digits, without overflow. *)
Definition hex_value (c : Ascii.ascii) : option Z :=
  let z := Z.of_nat (Ascii.nat_of_ascii c) in
  if (48 <=? z) && (z <=? 57) then Some (z - 48)
  else if (97 <=? z) && (z <=? 102) then Some (z - 87)
  else if (65 <=? z) && (z <=? 70) then Some (z - 55) else None.
Fixpoint radix16 (acc : Z) (s : string) : option Z :=
  match s with
  | EmptyString => Some acc
  | String c s =>
      d ← hex_value c;
      let v := acc * 16 + d in
      if 255 <? v then None else radix16 v s
  end.
Definition from_str_radix16 (s : string) : option Z :=
  match s with
  | EmptyString => None
  | String c EmptyString => radix16 0 s
  | String c s' => if decide (c = Ascii.ascii_of_nat 43) then radix16 0 s' else radix16 0 s
  end.

(** [s.split(c)]. *)
Fixpoint split_on (c : Ascii.ascii) (s : string) : list string :=
  match s with
  | EmptyString => [EmptyString]
  | String a s =>
      if decide (a = c) then EmptyString :: split_on c s
      else match split_on c s with
           | p :: ps => String a p :: ps
           | [] => [String a EmptyString]
           end
  end.

Definition parse_mac (s : string) : option (list byte) :=
  let parts := split_on (Ascii.ascii_of_nat 58) s in
  if negb (length parts =? 6)%nat then None
  else fmap z2b <$> mapM from_str_radix16 parts.

Definition default_mac : list byte := z2b <$> [0x52; 0x54; 0x00; 0x12; 0x34; 0x56].

(** The memory map given to the kernel. *)
Definition e820_map (mem_size : Z) : list E820Entry :=
  [{| e820_addr := 0; e820_size := 0x9FC00; e820_type := E820_RAM |};
   {| e820_addr := 0x100000; e820_size := Z.max 0 (mem_size - 0x100000);
      e820_type := E820_RAM |}].

Definition set_e820 (b : BootParams) (mem_size : Z) : BootParams :=
  set_e820_count
    (foldl (λ b e, (set_e820_entry b e.1 e.2).2) b (zip (seqZ 0 2) (e820_map mem_size)))
    (zlen (e820_map mem_size)).

(** ** Register programming *)

(** The code segment keeps the fields the source does not assign. *)
Definition bz_code_segment (s : KvmSegment) : KvmSegment :=
  {| seg_base := 0; limit := 0xFFFFFFFF; selector := 0; type_ := 11; present := 1;
     dpl := dpl s; db := 1; seg_s := 1; seg_l := seg_l s; seg_g := 1; avl := avl s;
     unusable := unusable s; padding := padding s |}.
Definition bz_data_segment : KvmSegment :=
  {| seg_base := 0; limit := 0xFFFFFFFF; selector := 0; type_ := 3; present := 1;
     dpl := 0; db := 1; seg_s := 1; seg_l := 0; seg_g := 1; avl := 0; unusable := 0;
     padding := 0 |}.
Definition bz_sregs (s : KvmSregs) : KvmSregs :=
  {| cs := bz_code_segment (cs s); ds := bz_data_segment; es := bz_data_segment; fs := fs s;
     gs := gs s; ss := bz_data_segment; tr := tr s; ldt := ldt s; gdt := gdt s; idt := idt s;
     cr0 := Z.lor (cr0 s) 1; cr2 := cr2 s; cr3 := cr3 s; cr4 := cr4 s; cr8 := cr8 s;
     efer := efer s; apic_base := apic_base s; interrupt_bitmap := interrupt_bitmap s |}.
Definition set_rsi (r : KvmRegs) (v : Z) : KvmRegs :=
  {| rax := rax r; rbx := rbx r; rcx := rcx r; rdx := rdx r; rsi := v; rdi := rdi r;
     rsp := rsp r; rbp := rbp r; r8 := r8 r; r9 := r9 r; r10 := r10 r; r11 := r11 r;
     r12 := r12 r; r13 := r13 r; r14 := r14 r; r15 := r15 r; rip := rip r; rflags := rflags r |}.
(** [rip], [rsi], [rsp] and [rflags] of the protected-mode entry. *)
Definition bz_regs (r : KvmRegs) : KvmRegs :=
  {| rax := rax r; rbx := rbx r; rcx := rcx r; rdx := rdx r; rsi := ZERO_PAGE_ADDR; rdi := rdi r;
     rsp := BOOT_STACK_ADDR; rbp := rbp r; r8 := r8 r; r9 := r9 r; r10 := r10 r; r11 := r11 r;
     r12 := r12 r; r13 := r13 r; r14 := r14 r; r15 := r15 r; rip := KERNEL_LOAD_ADDR;
     rflags := 0x2 |}.
Definition elf_regs (entry : Z) (r : KvmRegs) : KvmRegs :=
  set_rsi (configure_64bit_regs r entry) ZERO_PAGE_ADDR.

(** ** Reading files and mapping memory *)

(** [File::open] and [read_to_end]: an errno of the first, or of the second,
    or the contents; and [mmap] of anonymous memory. *)
Class FileHost (K : Type) : Type := {
  read_path : string → K → (Z + (Z + list byte)) * K;
  mmap_anon : K → Z → bool → (Z + Z) * K;
}.

#[export] Instance Logged_files {K} `{FileHost K} : FileHost (K * list kvm_call) := {
  read_path p k := let '(r, k') := read_path p k.1 in (r, (k', k.2));
  mmap_anon k n h := let '(r, k') := mmap_anon k.1 n h in (r, (k', k.2));
}.

(** [for x in l] collecting results. *)
Fixpoint map_stm {S E A B} (f : A → stm S E B) (l : list A) : stm S E (list B) :=
  match l with
  | [] => mret []
  | x :: l => y ← f x; ys ← map_stm f l; mret (y :: ys)
  end.

(** [.context(msg)] on a result. *)
Definition with_context {S E A} (msg : string) (c : E → VmCause) (m : stm S E A) : stm S VmError A :=
  λ s, match m s with
       | (Ok a, s) => (Ok a, s)
       | (Err e, s) => (Err (Context msg (c e)), s)
       | (Panic p, s) => (Panic p, s)
       end.

Section VcpuSetup.
Context {K : Type} `{KvmHost K}.

Definition kvm_ctx {A} (msg : string) (m : stm K KvmError A) : stm K VmError A :=
  with_context msg CauseKvm m.

Definition vcpu_msg (msg : string) (i : Z) : string := (msg +:+ pretty i)%string.

(** The body of the vCPU loop, with the registers of the boot path. *)
Definition boot_vcpu (vm : VmFd) (cpuid : list KvmCpuidEntry2) (fs : KvmSregs → KvmSregs)
    (fr : KvmRegs → KvmRegs) (i : Z) : stm K VmError VcpuFd :=
  v ← kvm_ctx (vcpu_msg "failed to create vCPU " i) (create_vcpu vm i);
  kvm_ctx (vcpu_msg "failed to set CPUID for vCPU " i) (set_cpuid2 v cpuid) ;;
  s ← kvm_ctx "failed to get sregs" (get_sregs v);
  kvm_ctx "failed to set sregs" (set_sregs v (fs s)) ;;
  r ← kvm_ctx "failed to get regs" (get_regs v);
  kvm_ctx "failed to set regs" (set_regs v (fr r)) ;;
  kvm_ctx "failed to set LAPIC LINT" (set_lint v) ;;
  mret v.

Definition boot_vcpus (c : VmConfig) (vm : VmFd) (cpuid : list KvmCpuidEntry2)
    (fs : KvmSregs → KvmSregs) (fr : KvmRegs → KvmRegs) : stm K VmError (list VcpuFd) :=
  map_stm (boot_vcpu vm cpuid fs fr) (seqZ 0 (cfg_vcpus c)).

End VcpuSetup.

(** ** The two boot paths: guest memory and the kernel's state change *)
Section Boot.
Context {M K : Type} `{ByteMemory M} `{KvmHost K} `{FileHost K}.

Definition on_host {A} (m : stm K VmError A) : stm (M * K) VmError A :=
  λ '(mem, k), let '(r, k) := m k in (r, (mem, k)).

Definition on_mem {A} (msg : string) (m : stm M BootError A) : stm (M * K) VmError A :=
  λ '(mem, k), let '(r, mem) := with_context msg CauseBoot m mem in (r, (mem, k)).

(** A loader that also changes the boot parameters. *)
Definition on_params (msg : string) (f : M → BootParams → outcome BootError unit * (BootParams * M))
    (b : BootParams) : stm (M * K) VmError BootParams :=
  λ '(mem, k), match f mem b with
               | (Ok _, (b, mem)) => (Ok b, (mem, k))
               | (Err e, (_, mem)) => (Err (Context msg (CauseBoot e)), (mem, k))
               | (Panic p, (_, mem)) => (Panic p, (mem, k))
               end.

(** [File::open(path).context("failed to open initrd")]; reading happens in
    the loader, which gets the reader. *)
Definition open_file (msg : string) (path : string) : stm K VmError (Z + list byte) :=
  λ k, match read_path path k with
       | (inl e, k) => (Err (Context msg (CauseIo e)), k)
       | (inr reader, k) => (Ok reader, k)
       end.

Definition load_initrd_file (c : VmConfig) (b : BootParams) (addr : Z)
    : stm (M * K) VmError BootParams :=
  match kc_initrd (cfg_kernel c) with
  | None => mret b
  | Some path =>
      reader ← on_host (open_file "failed to open initrd" path);
      on_params "failed to load initrd" (λ mem b, load_initrd_at reader mem b addr) b
  end.

Definition build_bzimage (c : VmConfig) (kernel_data : list byte) (mem_size : Z) (vm : VmFd)
    (cpuid : list KvmCpuidEntry2) (ds : list (Z * Z * Z)) : stm (M * K) VmError (list VcpuFd) :=
  bz ← lift (map_err (λ e, Context "failed to parse bzImage" (CauseBoot e))
                     (BzImage_parse (inr kernel_data)));
  b ← on_params "failed to write kernel command line"
        (cl_write_to_memory (kernel_cmdline c ds)) (set_e820 (boot_params bz) mem_size);
  b ← load_initrd_file c b INITRD_ADDR;
  let bz := {| boot_params := b; kernel_code := kernel_code bz;
               protocol_version := protocol_version bz; setup_sects := setup_sects bz |} in
  on_mem "failed to load kernel into guest memory"
    (λ mem, let '(r, (_, mem)) := BzImage_load_into_memory bz mem in (r, mem)) ;;
  on_host (boot_vcpus c vm cpuid bz_sregs bz_regs).

(** [type_of_loader] and the loaded-high flag of the ELF path. *)
Definition mark_elf_params (b : BootParams) : BootParams :=
  let b := set_header b "type_of_loader" 0xFF in
  set_header b "loadflags" (Z.lor (get_header b "loadflags") 0x01).

(** The end of the highest segment, with [u64] wrap-around. *)
Definition kernel_end (segs : list LoadSegment) : Z :=
  match (λ s, guest_addr s ⊞ mem_size s) <$> segs with
  | [] => 0x2000000
  | e :: es => foldl Z.max e es
  end.

(** [((kernel_end + 0x10_0000) + 0xFFF) & !0xFFF]. *)
Definition initrd_addr (segs : list LoadSegment) : Z :=
  Z.land (kernel_end segs ⊞ 0x100000 ⊞ 0xFFF) (2 ^ 64 - 1 - 0xFFF).

Definition parse_elf (data : list byte) : outcome VmError ElfKernel :=
  match ElfKernel_parse (inr data) with
  | Some r => map_err (λ e, Context "failed to parse ELF" (CauseBoot e)) r
  | None => Err Hangs
  end.

Definition write_zero_page (b : BootParams) : stm (M * K) VmError unit :=
  λ '(mem, k), match bm_write mem ZERO_PAGE_ADDR (as_bytes b) with
               | Ok mem => (Ok tt, (mem, k))
               | Err e => (Err (Context "failed to write boot params" (CauseMem e)), (mem, k))
               | Panic p => (Panic p, (mem, k))
               end.

Definition build_elf (c : VmConfig) (kernel_data : list byte) (mem_size : Z) (vm : VmFd)
    (cpuid : list KvmCpuidEntry2) (ds : list (Z * Z * Z)) : stm (M * K) VmError (list VcpuFd) :=
  elf ← lift (parse_elf kernel_data);
  on_mem "failed to load ELF into guest memory" (ElfKernel_load_into_memory elf) ;;
  on_mem "failed to set up page tables" setup_long_mode_page_tables ;;
  on_mem "failed to set up GDT" setup_gdt ;;
  b ← on_params "failed to write kernel command line"
        (cl_write_to_memory (kernel_cmdline c ds)) (set_e820 BootParams_new mem_size);
  b ← load_initrd_file c (mark_elf_params b) (initrd_addr (segments elf));
  write_zero_page b ;;
  on_host (boot_vcpus c vm cpuid configure_64bit_sregs (elf_regs (entry_point elf))).

End Boot.

(** ** The whole VM *)

Record BuiltVm : Type := {
  bv_kvm : Kvm;
  bv_vm_fd : VmFd;
  bv_vcpus : list VcpuFd;
  bv_guest_memory : GuestMemoryMmap;
  bv_mmio_bus : MmioBus AnyDevice;
  bv_network_setup : option NetworkSetup;
}.

Section Build.
Context {K : Type} `{KvmHost K} `{FileHost K} `{CmdHost K} `{TapHost K} `{HostIo K}.
Context `{Block.Padding}.

(** [MmioTransport::new] of a device, given the guest memory. *)
Definition new_transport (d : AnyDevice) : MmioTransport AnyDevice :=
  set_guest_memory (MmioTransport_new (M:=GuestMemoryMmap) (W:=K) d).

Definition map_memory (mem_size : Z) : stm K VmError GuestMemoryMmap :=
  λ k, match GuestMemoryMmap_new mmap_anon k [(0, mem_size)] false with
       | (Ok m, k) => (Ok m, k)
       | (Err e, k) => (Err (Context "failed to allocate guest memory" (CauseMem e)), k)
       | (Panic p, k) => (Panic p, k)
       end.

(** The TAP of the network device: every failure leaves the device without
    one. *)
Definition attach_tap (tap : string) (n : Net) : stm K VmError Net :=
  λ k, match Tap_open (string_bytes tap) k with
       | (Ok t, k) =>
           match set_nonblocking t k with
           | (Panic p, k) => (Panic p, k)
           | (_, k) => (Ok (set_tap_fd n (tap_raw_fd t)), k)
           end
       | (Err _, k) => (Ok n, k)
       | (Panic p, k) => (Panic p, k)
       end.

Definition config_mac (n : NetworkConfig) : list byte :=
  match nc_mac n with
  | Some s => default default_mac (parse_mac s)
  | None => default_mac
  end.

(** The devices: the console first, the network device, if configured, in
    the next window with the next interrupt. *)
Definition build_bus (c : VmConfig) (vm : VmFd)
    : stm K VmError (MmioBus AnyDevice * list (Z * Z * Z)) :=
  let bus := set_vm_fd bus_new (vm_raw_fd vm) in
  let bus := register bus MMIO_BASE MMIO_SIZE (new_transport (DynConsole (Console.new [])))
               (Some MMIO_IRQ_BASE) in
  let console := (MMIO_BASE, MMIO_SIZE, MMIO_IRQ_BASE) in
  match cfg_network c with
  | None => mret (bus, [console])
  | Some n =>
      net ← attach_tap (nc_tap n) (Net_new (nc_tap n) (config_mac n));
      let addr := MMIO_BASE + MMIO_SIZE in
      let irq := MMIO_IRQ_BASE + 1 in
      mret (register bus addr MMIO_SIZE (new_transport (DynNet net)) (Some irq),
            [console; (addr, MMIO_SIZE, irq)])
  end.

(** Host networking: a failure is only logged. *)
Definition build_network (c : VmConfig) : stm K VmError (option NetworkSetup) :=
  match cfg_network c with
  | None => mret None
  | Some n =>
      λ k, match setup (default_for_tap (nc_tap n)) k with
           | (Ok s, k) => (Ok (Some s), k)
           | (Err _, k) => (Ok (Some (default_for_tap (nc_tap n))), k)
           | (Panic p, k) => (Panic p, k)
           end
  end.

(** Run a boot path on the VM's memory. *)
Definition with_memory {A} (m : stm (GuestMemoryMmap * K) VmError A) (mem : GuestMemoryMmap)
    : stm K VmError (A * GuestMemoryMmap) :=
  λ k, match m (mem, k) with
       | (Ok a, (mem, k)) => (Ok (a, mem), k)
       | (Err e, (_, k)) => (Err e, k)
       | (Panic p, (_, k)) => (Panic p, k)
       end.

Definition read_kernel (c : VmConfig) : stm K VmError (list byte) :=
  reader ← open_file "failed to open kernel image" (kc_path (cfg_kernel c));
  match reader with
  | inl e => throw (Context "failed to read kernel image" (CauseIo e))
  | inr data => mret data
  end.

Definition main_region (mem_size host_addr : Z) : KvmUserspaceMemoryRegion :=
  {| slot := 0; mr_flags := 0; guest_phys_addr := 0; memory_size := mem_size;
     userspace_addr := host_addr |}.

Definition build_vm (c : VmConfig) : stm K VmError BuiltVm :=
  kvm ← kvm_ctx "failed to open /dev/kvm" Kvm_open;
  kvm_ctx "KVM_CAP_USER_MEMORY required" (require_capability kvm KvmCap.UserMemory) ;;
  kvm_ctx "KVM_CAP_IRQCHIP required" (require_capability kvm KvmCap.Irqchip) ;;
  vm ← kvm_ctx "failed to create VM" (create_vm kvm);
  kvm_ctx "failed to set TSS address" (set_tss_addr vm 0xFFFBD000) ;;
  kvm_ctx "failed to create irqchip" (create_irqchip vm) ;;
  kvm_ctx "failed to create PIT2" (create_pit2 vm) ;;
  let mem_size := memory_bytes c in
  mem ← map_memory mem_size;
  host_addr ← lift (ok_or (Context "no memory region" CauseNone) (region_host_addr mem 0));
  kvm_ctx "failed to set user memory region"
    (set_user_memory_region vm (main_region mem_size host_addr)) ;;
  data ← read_kernel c;
  '(bus, ds) ← build_bus c vm;
  cpuid ← kvm_ctx "failed to get supported CPUID" (get_supported_cpuid kvm 256);
  '(vcpus, mem) ←
     with_memory (match kernel_format c data with
                  | FormatBzImage => build_bzimage c data mem_size vm cpuid ds
                  | FormatElf => build_elf c data mem_size vm cpuid ds
                  end) mem;
  net ← build_network c;
  mret {| bv_kvm := kvm; bv_vm_fd := vm; bv_vcpus := vcpus; bv_guest_memory := mem;
          bv_mmio_bus := bus; bv_network_setup := net |}.

End Build.

(** ** The boot parameters *)

Lemma get_header_other b n v n' :
  bp_wf b →
  (header_field n').1 + (header_field n').2 ≤ (header_field n).1 ∨
  (header_field n).1 + (header_field n).2 ≤ (header_field n').1 →
  get_header (set_header b n v) n' = get_header b n'.
Proof.
  intros Hb Hd. unfold get_header. pose proof (header_field_range n').
  destruct (header_field n') as [off sz] eqn:E'. cbn [fst snd] in Hd. f_equal.
  apply set_header_other; [done|lia..|]. destruct (header_field n) as [o z]. simpl in *. lia.
Qed.

Lemma zlen_e820_bytes e : zlen (e820_bytes e) = 20.
Proof. unfold e820_bytes. by rewrite !zlen_app, !zlen_le_enc. Qed.

Lemma set_e820_data b ms :
  bp_data (set_e820 b ms) =
    splice 0x1E8 (le_enc 1 2)
      (splice (0x2D0 + 20) (e820_bytes {| e820_addr := 0x100000;
         e820_size := Z.max 0 (ms - 0x100000); e820_type := E820_RAM |})
        (splice 0x2D0 (e820_bytes {| e820_addr := 0; e820_size := 0x9FC00; e820_type := E820_RAM |})
           (bp_data b))).
Proof. done. Qed.

(** The page the kernel reads: the memory map, the command line, the loader
    marks and the initial ramdisk. *)
Record zero_page_ok (mem_size : Z) (cl : list byte) (rd : option (Z * list byte)) (page : list byte)
    : Prop := {
  zp_len : zlen page = 4096;
  zp_e820_count : le_dec (sub_list 0x1E8 1 page) = 2;
  zp_e820_low : sub_list 0x2D0 20 page =
    e820_bytes {| e820_addr := 0; e820_size := 0x9FC00; e820_type := E820_RAM |};
  zp_e820_high : sub_list (0x2D0 + 20) 20 page =
    e820_bytes {| e820_addr := 0x100000; e820_size := Z.max 0 (mem_size - 0x100000);
                  e820_type := E820_RAM |};
  zp_cmdline : get_header {| bp_data := page |} "cmd_line_ptr" = CMDLINE_ADDR ∧
               get_header {| bp_data := page |} "cmdline_size" = zlen cl;
  zp_loader : get_header {| bp_data := page |} "type_of_loader" = 0xFF ∧
              Z.testbit (get_header {| bp_data := page |} "loadflags") 0 = true;
  zp_ramdisk addr d : rd = Some (addr, d) →
    get_header {| bp_data := page |} "ramdisk_image" = wrap 32 addr ∧
    get_header {| bp_data := page |} "ramdisk_size" = wrap 32 (zlen d);
}.

(** The memory map survives assignments to the header. *)
Record e820_ok (mem_size : Z) (b : BootParams) : Prop := {
  eo_wf : bp_wf b;
  eo_count : le_dec (sub_list 0x1E8 1 (bp_data b)) = 2;
  eo_low : sub_list 0x2D0 20 (bp_data b) =
    e820_bytes {| e820_addr := 0; e820_size := 0x9FC00; e820_type := E820_RAM |};
  eo_high : sub_list (0x2D0 + 20) 20 (bp_data b) =
    e820_bytes {| e820_addr := 0x100000; e820_size := Z.max 0 (mem_size - 0x100000);
                  e820_type := E820_RAM |};
}.

Lemma sub_list_splice_len {A} off n (d l : list A) :
  zlen d = n → 0 ≤ off → off ≤ zlen l → sub_list off n (splice off d l) = d.
Proof. intros <-. apply sub_list_splice_same. Qed.

Lemma set_e820_ok b ms : bp_wf b → e820_ok ms (set_e820 b ms).
Proof.
  unfold bp_wf. intros Hb.
  set (e0 := {| e820_addr := 0; e820_size := 0x9FC00; e820_type := E820_RAM |}).
  set (e1 := {| e820_addr := 0x100000; e820_size := Z.max 0 (ms - 0x100000); e820_type := E820_RAM |}).
  pose proof (zlen_e820_bytes e0) as H0. pose proof (zlen_e820_bytes e1) as H1.
  set (d0 := splice 0x2D0 (e820_bytes e0) (bp_data b)).
  set (d1 := splice (0x2D0 + 20) (e820_bytes e1) d0).
  assert (L0 : zlen d0 = 4096) by (unfold d0; rewrite zlen_splice; lia).
  assert (L1 : zlen d1 = 4096) by (unfold d1; rewrite zlen_splice; lia).
  assert (Hd : bp_data (set_e820 b ms) = splice 0x1E8 (le_enc 1 2) d1) by done.
  assert (Hc : zlen (le_enc 1 2) = 1) by by rewrite zlen_le_enc.
  split; unfold bp_wf; rewrite Hd.
  - rewrite zlen_splice; lia.
  - rewrite sub_list_splice_len by lia. by rewrite le_dec_enc.
  - rewrite sub_list_splice_other by lia. unfold d1. rewrite sub_list_splice_other by lia.
    unfold d0. by rewrite sub_list_splice_len by lia.
  - rewrite sub_list_splice_other by lia. unfold d1.
    by rewrite sub_list_splice_len by lia.
Qed.

Lemma set_header_e820 ms b n v : e820_ok ms b → e820_ok ms (set_header b n v).
Proof.
  intros [Hw Hc Hl Hh]. pose proof (header_field_range n) as Hr.
  assert (Hlow : 0x1F1 ≤ (header_field n).1 ∨ (header_field n) = (0, 0)).
  { unfold header_field. destruct (lookup_field n SETUP_HEADER_OFFSET setup_header_fields) as [[o z]|] eqn:E;
      [left|by right]. simpl.
    assert (Hgen : ∀ fs off, Forall (λ f, 0 ≤ f.2) fs → lookup_field n off fs = Some (o, z) → off ≤ o).
    { clear. induction fs as [|[x s] fs IH]; intros off Hs; [done|]. simpl.
      apply Forall_cons in Hs as [Hs Hss]. simpl in Hs.
      destruct (String.eqb x n); [intros [= -> ->]; lia|]. intros E. specialize (IH _ Hss E). lia. }
    eapply Hgen; [|exact E]. by repeat constructor. }
  destruct (header_field n) as [o z] eqn:Ef.
  split; [by apply set_header_wf|..]; rewrite set_header_other; try done; try lia;
    rewrite Ef; simpl in Hlow; destruct Hlow as [?|[= -> ->]]; lia.
Qed.

(** What the loaders assign, in order. *)
Lemma cmdline_params_ok b (cl : list byte) :
  bp_wf b → 0 ≤ zlen cl < 4096 →
  let b' := set_header (set_header b "cmd_line_ptr" CMDLINE_ADDR) "cmdline_size" (zlen cl) in
  get_header b' "cmd_line_ptr" = CMDLINE_ADDR ∧ get_header b' "cmdline_size" = zlen cl.
Proof.
  intros Hb Hl b'. unfold b'. split.
  - rewrite get_header_other; [|by apply set_header_wf|by left; vm_compute].
    by apply get_set_header.
  - apply get_set_header; [by apply set_header_wf|].
    change (8 * _) with 32. unfold fits. lia.
Qed.

Lemma marked_flag b :
  bp_wf b → get_header (marked_header b) "type_of_loader" = 0xFF ∧
  Z.testbit (get_header (marked_header b) "loadflags") 0 = true.
Proof.
  intros Hb. unfold marked_header. cbv zeta. set (b1 := set_header b "type_of_loader" 0xFF).
  assert (Hb1 : bp_wf b1) by by apply set_header_wf.
  split.
  - rewrite get_header_other; [|done|by left; vm_compute]. by apply get_set_header.
  - rewrite get_set_header; [|done|].
    + rewrite Z.lor_spec. by apply orb_true_r.
    + change (8 * _) with 8. apply lor_fits; [lia| |by vm_compute].
      unfold get_header. rewrite header_field_flags. apply le_dec_sub_fits; [lia..| |lia].
      unfold bp_wf in Hb1. lia.
Qed.

Definition initrd_params (b : BootParams) (rd : option (Z * list byte)) : BootParams :=
  match rd with
  | Some (a, d) =>
      set_header (set_header b "ramdisk_image" (wrap 32 a)) "ramdisk_size" (wrap 32 (zlen d))
  | None => b
  end.
Definition cmdline_params (b : BootParams) (cl : list byte) : BootParams :=
  set_header (set_header b "cmd_line_ptr" CMDLINE_ADDR) "cmdline_size" (zlen cl).

(** Reading a field through the assignments to others. *)
Ltac header_wf := repeat first [assumption | apply set_header_wf].
Ltac read_field :=
  repeat (rewrite get_header_other;
    [ | by header_wf | first [by left; vm_compute | by right; vm_compute] ]).
Ltac read_own :=
  read_field; apply get_set_header; [by header_wf|].

Lemma initrd_params_wf b rd : bp_wf b → bp_wf (initrd_params b rd).
Proof. intros Hb. destruct rd as [[a d]|]; [|done]. simpl. by header_wf. Qed.

Lemma initrd_params_keep b rd n :
  bp_wf b → n ∈ ["cmd_line_ptr"; "cmdline_size"; "type_of_loader"; "loadflags"]%string →
  get_header (initrd_params b rd) n = get_header b n.
Proof.
  intros Hb Hn. destruct rd as [[a d]|]; [|done]. unfold initrd_params.
  repeat (apply elem_of_cons in Hn as [->|Hn]; [by read_field|]). by apply elem_of_nil in Hn.
Qed.

Lemma marked_keep b n :
  bp_wf b → n ∈ ["cmd_line_ptr"; "cmdline_size"; "ramdisk_image"; "ramdisk_size"]%string →
  get_header (marked_header b) n = get_header b n.
Proof.
  intros Hb Hn. unfold marked_header. cbv zeta.
  repeat (apply elem_of_cons in Hn as [->|Hn]; [by read_field|]). by apply elem_of_nil in Hn.
Qed.

Lemma initrd_params_ramdisk b a d :
  bp_wf b →
  get_header (initrd_params b (Some (a, d))) "ramdisk_image" = wrap 32 a ∧
  get_header (initrd_params b (Some (a, d))) "ramdisk_size" = wrap 32 (zlen d).
Proof.
  intros Hb. unfold initrd_params. split; read_own; by apply wrap_fits.
Qed.

(** Both loaders build such a page: the ELF path marks the parameters before
    the initial ramdisk is loaded, the bzImage path after. *)
Lemma params_e820 ms b cl rd : bp_wf b →
  e820_ok ms (initrd_params (marked_header (cmdline_params (set_e820 b ms) cl)) rd) ∧
  e820_ok ms (marked_header (initrd_params (cmdline_params (set_e820 b ms) cl) rd)).
Proof.
  intros Hb. pose proof (set_e820_ok b ms Hb) as He.
  destruct rd as [[a d]|]; split; unfold initrd_params, marked_header, cmdline_params; cbv zeta;
    repeat first [assumption | apply set_header_e820].
Qed.

Lemma zero_page_elf ms b cl rd :
  bp_wf b → zlen cl < 4096 →
  zero_page_ok ms cl rd (as_bytes (initrd_params (marked_header (cmdline_params (set_e820 b ms) cl)) rd)).
Proof.
  intros Hb Hl. destruct (params_e820 ms b cl rd Hb) as [[Hw Hc Hlo Hhi] _].
  assert (Hb0 : bp_wf (set_e820 b ms)) by by apply set_e820_ok.
  set (b1 := cmdline_params (set_e820 b ms) cl) in *.
  assert (Hb1 : bp_wf b1) by (unfold b1, cmdline_params; by header_wf).
  assert (Hb2 : bp_wf (marked_header b1)) by by apply marked_header_wf.
  pose proof (zlen_nonneg cl).
  destruct (cmdline_params_ok (set_e820 b ms) cl Hb0 ltac:(lia)) as [Hp Hs].
  fold (cmdline_params (set_e820 b ms) cl) in Hp, Hs. fold b1 in Hp, Hs.
  split; try done.
  - change (get_header (initrd_params (marked_header b1) rd) "cmd_line_ptr" = CMDLINE_ADDR ∧
            get_header (initrd_params (marked_header b1) rd) "cmdline_size" = zlen cl).
    by rewrite !initrd_params_keep, !marked_keep by (done || set_solver).
  - change (get_header (initrd_params (marked_header b1) rd) "type_of_loader" = 0xFF ∧
      Z.testbit (get_header (initrd_params (marked_header b1) rd) "loadflags") 0 = true).
    rewrite !initrd_params_keep by (done || set_solver). by apply marked_flag.
  - intros a d ->. by apply (initrd_params_ramdisk (marked_header b1)).
Qed.

Lemma zero_page_bz ms b cl rd :
  bp_wf b → zlen cl < 4096 →
  zero_page_ok ms cl rd (as_bytes (marked_header (initrd_params (cmdline_params (set_e820 b ms) cl) rd))).
Proof.
  intros Hb Hl. destruct (params_e820 ms b cl rd Hb) as [_ [Hw Hc Hlo Hhi]].
  assert (Hb0 : bp_wf (set_e820 b ms)) by by apply set_e820_ok.
  set (b1 := cmdline_params (set_e820 b ms) cl) in *.
  assert (Hb1 : bp_wf b1) by (unfold b1, cmdline_params; by header_wf).
  assert (Hb2 : bp_wf (initrd_params b1 rd)) by by apply initrd_params_wf.
  pose proof (zlen_nonneg cl).
  destruct (cmdline_params_ok (set_e820 b ms) cl Hb0 ltac:(lia)) as [Hp Hs].
  fold (cmdline_params (set_e820 b ms) cl) in Hp, Hs. fold b1 in Hp, Hs.
  split; try done.
  - change (get_header (marked_header (initrd_params b1 rd)) "cmd_line_ptr" = CMDLINE_ADDR ∧
            get_header (marked_header (initrd_params b1 rd)) "cmdline_size" = zlen cl).
    by rewrite !marked_keep, !initrd_params_keep by (done || set_solver).
  - by apply (marked_flag (initrd_params b1 rd)).
  - intros a d ->.
    change (get_header (marked_header (initrd_params b1 (Some (a, d)))) "ramdisk_image" = wrap 32 a ∧
            get_header (marked_header (initrd_params b1 (Some (a, d)))) "ramdisk_size" = wrap 32 (zlen d)).
    rewrite !marked_keep by (done || set_solver). by apply initrd_params_ramdisk.
Qed.

(** ** The writes of a boot path *)
Section Wrote.
Context `{ByteMemoryLaws M}.
Implicit Types (m : M).

Definition wrote m (ws : list (Z * list byte)) m' : Prop :=
  store_all (E:=BootError) BootMemory ws m = (Ok tt, m').
Definition small (ws : list (Z * list byte)) : Prop := Forall (λ w, fits 63 (zlen w.2)) ws.

Lemma wrote_app m ws1 m1 ws2 m2 : wrote m ws1 m1 → wrote m1 ws2 m2 → wrote m (ws1 ++ ws2) m2.
Proof.
  unfold wrote, store_all. intros E1 E2. rewrite for_each_app. unfold mbind, stm_bind.
  by rewrite E1.
Qed.

Lemma wrote_one m a d m' : bm_write m a d = Ok m' → wrote m [(a, d)] m'.
Proof. unfold wrote, store_all, store. simpl. unfold mbind, stm_bind. by intros ->. Qed.

Lemma wrote_wf m ws m' : bm_wf m → small ws → wrote m ws m' → bm_wf m'.
Proof.
  intros Hwf Hs E. pose proof (store_all_spec (E:=BootError) BootMemory ws m Hwf Hs) as Hspec.
  rewrite E in Hspec. apply Hspec.
Qed.

Lemma wrote_read m ws1 w ws2 m' :
  bm_wf m → small (ws1 ++ w :: ws2) → wrote m (ws1 ++ w :: ws2) m' →
  Forall (λ w', w.1 + zlen w.2 ≤ w'.1 ∨ w'.1 + zlen w'.2 ≤ w.1) ws2 →
  bm_read m' w.1 (zlen w.2) = Ok w.2.
Proof. intros Hwf Hs E Hd. by eapply (store_all_read_last BootMemory). Qed.

(** A write of an ascending block, all of whose later writes avoid it. *)
Lemma wrote_read_block m ws1 blk w ws2 m' :
  bm_wf m → small (ws1 ++ blk ++ ws2) → wrote m (ws1 ++ blk ++ ws2) m' →
  ascending blk → w ∈ blk →
  Forall (λ w', w.1 + zlen w.2 ≤ w'.1 ∨ w'.1 + zlen w'.2 ≤ w.1) ws2 →
  bm_read m' w.1 (zlen w.2) = Ok w.2.
Proof.
  intros Hwf Hs E Ha Hin Hd. apply list_elem_of_split in Hin as (b1 & b2 & ->).
  replace (ws1 ++ (b1 ++ w :: b2) ++ ws2) with ((ws1 ++ b1) ++ w :: (b2 ++ ws2)) in E, Hs
    by by rewrite <- !(assoc_L (++)).
  eapply wrote_read; [done|exact Hs|exact E|]. apply Forall_app. split; [|done].
  apply Forall_lookup. intros j w' Hj. left.
  eapply (StronglySorted_lookup (λ w w', w.1 + zlen w.2 ≤ w'.1) _ (length b1) (length b1 + S j)%nat); [exact Ha|lia|..].
  - by apply list_lookup_middle.
  - rewrite lookup_app_r by lia. by replace (length b1 + S j - length b1)%nat with (S j) by lia.
Qed.

(** The parts of the guest memory below 0x21000 that the builder fills. *)
Definition low_writes (cl : list byte) : list (Z * list byte) :=
  page_table_writes ++ gdt_writes ++ [(CMDLINE_ADDR, cl ++ [x00])].

Lemma page_table_range w : w ∈ page_table_writes →
  PAGE_TABLE_ADDR ≤ w.1 ∧ w.1 + zlen w.2 ≤ 0xC000.
Proof.
  unfold page_table_writes. intros [->|[->|Hw]%elem_of_cons]%elem_of_cons.
  - simpl. rewrite zlen_le_enc. unfold PAGE_TABLE_ADDR. lia.
  - simpl. rewrite zlen_le_enc. unfold PAGE_TABLE_ADDR, PDPT_ADDR. lia.
  - apply list_elem_of_fmap in Hw as (i & -> & Hi%elem_of_seqZ). simpl. rewrite zlen_le_enc.
    unfold PAGE_TABLE_ADDR, PD_ADDR. lia.
Qed.

Lemma gdt_range w : w ∈ gdt_writes → GDT_ADDR ≤ w.1 ∧ w.1 + zlen w.2 ≤ 0x518.
Proof.
  intros Hw. unfold gdt_writes in Hw. simpl in Hw.
  repeat (apply elem_of_cons in Hw as [->|Hw];
    [simpl; rewrite zlen_le_enc; unfold GDT_ADDR, GDT_ENTRY_SIZE; lia|]).
  by apply elem_of_nil in Hw.
Qed.

End Wrote.

(** The initial ramdisk the configuration names, as read from the host. *)
Definition initrd_writes (rd : option (Z * list byte)) : list (Z * list byte) :=
  match rd with Some w => [w] | None => [] end.

Definition initrd_of {K} `{FileHost K} (c : VmConfig) (k : K) (addr : Z)
    (rd : option (Z * list byte)) : Prop :=
  match kc_initrd (cfg_kernel c), rd with
  | None, None => True
  | Some p, Some (a, d) => a = addr ∧ (read_path p k).1 = inr (inr d) ∧ zlen d ≤ 512 * 1024 * 1024
  | _, _ => False
  end.

Lemma initrd_small {K} `{FileHost K} c (k : K) addr rd : initrd_of c k addr rd → small (initrd_writes rd).
Proof.
  unfold initrd_of. destruct (kc_initrd _), rd as [[a d]|]; try done; [|constructor].
  intros (_ & _ & Hl). constructor; [|constructor]. simpl. pose proof (zlen_nonneg d). unfold fits. lia.
Qed.

Section Steps.
Context {M K : Type} `{ByteMemoryLaws M} `{KvmHost K} `{FileHost K}.
Implicit Types (m : M) (s : K * list kvm_call).

Lemma on_host_ok {A} (f : stm (K * list kvm_call) VmError A) m s a m' s' :
  on_host f (m, s) = (Ok a, (m', s')) → f s = (Ok a, s') ∧ m' = m.
Proof. unfold on_host. destruct (f s) as [r k1]. by intros [= -> -> ->]. Qed.

Lemma on_mem_ok {A} msg (f : stm M BootError A) m s a m' s' :
  on_mem msg f (m, s) = (Ok a, (m', s')) → f m = (Ok a, m') ∧ s' = s.
Proof.
  unfold on_mem, with_context. destruct (f m) as [[x|e|p] m1]; by intros [= -> -> ->].
Qed.

Lemma on_params_ok msg f b m s b' m' s' :
  on_params (M:=M) msg f b (m, s) = (Ok b', (m', s')) → f m b = (Ok tt, (b', m')) ∧ s' = s.
Proof.
  unfold on_params. destruct (f m b) as [[[]|e|p] [b1 m1]]; by intros [= -> -> ->].
Qed.

Lemma cl_write_ok (cl : CmdlineBuilder) m b b' m' :
  cl_write_to_memory cl m b = (Ok tt, (b', m')) →
  zlen (cl_build cl) < 4096 ∧ wrote m [(CMDLINE_ADDR, cl_build cl ++ [x00])] m' ∧
  b' = cmdline_params b (cl_build cl).
Proof.
  unfold cl_write_to_memory. destruct (_ <=? _) eqn:Hl; [done|]. to_prop.
  destruct (bm_write m CMDLINE_ADDR _) as [m1| |] eqn:E; intros [= <- <-].
  split; [done|]. split; [by apply wrote_one|done].
Qed.

Lemma open_file_ok msg p s r s' :
  open_file msg p s = (Ok r, s') → (read_path p s.1).1 = inr r ∧ s'.2 = s.2.
Proof.
  unfold open_file. simpl. destruct (read_path p s.1) as [[e|x] k1]; simpl; by intros [= -> <-].
Qed.

Lemma initrd_file_ok c b addr m s b' m' s' :
  load_initrd_file c b addr (m, s) = (Ok b', (m', s')) →
  ∃ rd, s'.2 = s.2 ∧ wrote m (initrd_writes rd) m' ∧ initrd_of c s.1 addr rd ∧
        b' = initrd_params b rd.
Proof.
  unfold load_initrd_file, initrd_of. destruct (kc_initrd (cfg_kernel c)) as [p|].
  - intros (reader & [m1 s1] & [E ->]%on_host_ok & [E' ->]%on_params_ok)%stm_bind_ok.
    apply open_file_ok in E as [Hr Hl]. unfold load_initrd_at in E'.
    destruct reader as [e|d]; [done|]. destruct (_ <? _) eqn:Hd; [done|]. to_prop.
    destruct (bm_write m addr d) as [m2| |] eqn:Hw; [|done..]. injection E' as <- <-.
    exists (Some (addr, d)). split; [done|]. split; [by apply wrote_one|]. done.
  - intros [= <- <- <-]. by exists None.
Qed.

(** *** vCPUs *)

(** The calls that bring up vCPU [i]: its registers are what [fs] and [fr]
    make of those it had. *)
Definition vcpu_calls (vm : VmFd) (cpuid : list KvmCpuidEntry2) (fs : KvmSregs → KvmSregs)
    (fr : KvmRegs → KvmRegs) (i : Z) (v : VcpuFd) (cs : list kvm_call) : Prop :=
  let io := CallIoctl (vcpu_raw_fd v) in
  ∃ sregs regs lapic,
    cs = [CallIoctl (vm_raw_fd vm) (RqCreateVcpu i); CallMmapRun (vcpu_raw_fd v) (vm_run_size vm);
          io (RqSetCpuid2 cpuid); io RqGetSregs; io (RqSetSregs (fs sregs)); io RqGetRegs;
          io (RqSetRegs (fr regs)); io RqGetLapic; io (RqSetLapic (lint_state lapic))].

Lemma calls_context {A} msg (m : stm (K * list kvm_call) KvmError A) R :
  calls_ok m R → calls_ok (kvm_ctx msg m) R.
Proof.
  intros Hm s a s'. unfold kvm_ctx, with_context.
  destruct (m s) as [[x|e|p] s1] eqn:E; intros [= -> ->]. by apply Hm.
Qed.

Lemma boot_vcpu_calls vm cpuid fs fr i :
  calls_ok (K:=K) (boot_vcpu vm cpuid fs fr i) (vcpu_calls vm cpuid fs fr i).
Proof.
  intros s v s' E. unfold boot_vcpu in E.
  apply stm_bind_ok in E as (v0 & s1 & E1 & E). apply stm_bind_ok in E as ([] & s2 & E2 & E).
  apply stm_bind_ok in E as (sr & s3 & E3 & E). apply stm_bind_ok in E as ([] & s4 & E4 & E).
  apply stm_bind_ok in E as (rg & s5 & E5 & E). apply stm_bind_ok in E as ([] & s6 & E6 & E).
  apply stm_bind_ok in E as ([] & s7 & E7 & E). injection E as -> ->.
  apply (calls_context _ _ _ (create_vcpu_calls _ _)) in E1 as (c1 & L1 & -> & _).
  apply (calls_context _ _ _ (ioctl_unit_calls _ _ _)) in E2 as (c2 & L2 & ->).
  apply (calls_context _ _ _ (ioctl_get_calls _ RqGetSregs _)) in E3 as (c3 & L3 & ->).
  apply (calls_context _ _ _ (ioctl_unit_calls _ _ _)) in E4 as (c4 & L4 & ->).
  apply (calls_context _ _ _ (ioctl_get_calls _ RqGetRegs _)) in E5 as (c5 & L5 & ->).
  apply (calls_context _ _ _ (ioctl_unit_calls _ _ _)) in E6 as (c6 & L6 & ->).
  apply (calls_context _ _ _ (set_lint_calls _)) in E7 as (c7 & L7 & lap & ->).
  eexists. split; [|by exists sr, rg, lap].
  by rewrite L7, L6, L5, L4, L3, L2, L1, <- !(assoc_L (++)).
Qed.

Lemma map_stm_calls {A B} (f : A → stm (K * list kvm_call) VmError B) R (l : list A) s ys s' :
  (∀ x, calls_ok (f x) (R x)) → map_stm f l s = (Ok ys, s') →
  ∃ css, s'.2 = s.2 ++ concat css ∧ Forall3 R l ys css.
Proof.
  intros Hf. revert s ys. induction l as [|x l IH]; intros s ys E.
  - injection E as <- <-. exists []. rewrite app_nil_r. split; [done|constructor].
  - apply stm_bind_ok in E as (y & s1 & E1 & E). apply stm_bind_ok in E as (ys' & s2 & E2 & E).
    injection E as <- <-. destruct (Hf x _ _ _ E1) as (c & L1 & HR).
    destruct (IH _ _ E2) as (css & L2 & HF). exists (c :: css). simpl.
    rewrite L2, L1, (assoc_L (++)). split; [done|by constructor].
Qed.

End Steps.

(** ** The ELF path *)

Lemma parse_elf_ok data elf : parse_elf data = Ok elf → ElfKernel_parse (inr data) = Some (Ok elf).
Proof. unfold parse_elf. destruct (ElfKernel_parse (inr data)) as [[]|]; by intros [= ->]. Qed.

Lemma parsed_image data elf : ElfKernel_parse (inr data) = Some (Ok elf) → elf_image elf = data.
Proof.
  unfold ElfKernel_parse. repeat (case_match; try done); by intros [= <-].
Qed.

(** A segment above the structures the builder puts in low memory. *)
Record kernel_above (s : LoadSegment) : Prop := {
  ka_fits : segment_fits s;
  ka_low : 0x21000 ≤ guest_addr s;
  ka_sizes : file_size s ≤ mem_size s;
  ka_high : guest_addr s + mem_size s < 0x4000000000000000;
}.

Lemma foldl_max_le l a : a ≤ foldl Z.max a l ∧ Forall (λ x, x ≤ foldl Z.max a l) l.
Proof.
  revert a. induction l as [|x l IH]; intros a; simpl; [split; [lia|constructor]|].
  destruct (IH (a `max` x)) as [Ha Hl]. split; [lia|]. constructor; [lia|done].
Qed.

Lemma foldl_max_lt l a b : a < b → Forall (λ x, x < b) l → foldl Z.max a l < b.
Proof.
  revert a. induction l as [|x l IH]; intros a Ha Hl; [done|].
  apply Forall_cons in Hl as [? ?]. simpl. apply IH; [lia|done].
Qed.

Lemma kernel_end_spec segs :
  Forall kernel_above segs →
  0 ≤ kernel_end segs < 0x4000000000000000 ∧ Forall (λ s, guest_addr s + mem_size s ≤ kernel_end segs) segs.
Proof.
  intros Ha. unfold kernel_end.
  assert (He : (λ s, guest_addr s ⊞ mem_size s) <$> segs = (λ s, guest_addr s + mem_size s) <$> segs).
  { apply Forall_fmap_ext_1. eapply Forall_impl; [exact Ha|]. intros s [[] ? ? ?].
    apply add64_small. width_lia. }
  rewrite He. destruct segs as [|s segs]; [split; [simpl; lia|constructor]|]. rewrite fmap_cons. cbv iota beta.
  apply Forall_cons in Ha as [[[] ? ? ?] Ha].
  destruct (foldl_max_le ((λ s, guest_addr s + mem_size s) <$> segs) (guest_addr s + mem_size s)) as [H1 H2].
  split_and!; [lia| |].
  - apply foldl_max_lt; [done|]. apply Forall_fmap. eapply Forall_impl; [exact Ha|]. by intros x [].
  - constructor; [done|]. apply Forall_forall. intros x Hx. rewrite Forall_forall in H2.
    apply (H2 (guest_addr x + mem_size x)), list_elem_of_fmap. by exists x.
Qed.

Lemma page_align_spec x : fits 64 x → Z.land x (2 ^ 64 - 1 - 0xFFF) = x / 4096 * 4096.
Proof.
  intros Hx. change (2 ^ 64 - 1 - 0xFFF) with (Z.land (Z.ones 64) (Z.lnot (Z.ones 12))).
  rewrite Z.land_assoc, Z.land_ones, Z.mod_small by (done || lia). fold (Z.ldiff x (Z.ones 12)).
  rewrite <- Z.ldiff_land, Z.ldiff_ones_r, Z.shiftl_mul_pow2, Z.shiftr_div_pow2 by lia. done.
Qed.

(** The initial ramdisk starts on a page, at least 1 MiB above the kernel. *)
Lemma initrd_addr_spec segs :
  Forall kernel_above segs →
  initrd_addr segs mod 4096 = 0 ∧ 0x100000 ≤ initrd_addr segs < 0x5000000000000000 ∧
  Forall (λ s, guest_addr s + mem_size s + 0x100000 ≤ initrd_addr segs) segs.
Proof.
  intros Ha. destruct (kernel_end_spec segs Ha) as [He Hs]. unfold initrd_addr.
  rewrite (add64_small (kernel_end segs)) by width_lia.
  rewrite add64_small by width_lia.
  rewrite page_align_spec by width_lia. set (e := kernel_end segs) in *.
  split; [by apply Z.mod_mul|]. pose proof (Z.div_mod (e + 0x100000 + 0xFFF) 4096).
  pose proof (Z.mod_pos_bound (e + 0x100000 + 0xFFF) 4096).
  split; [lia|]. eapply Forall_impl; [exact Hs|]. simpl. lia.
Qed.

Section ElfPath.
Context {M K : Type} `{ByteMemoryLaws M} `{KvmHost K} `{FileHost K}.
Implicit Types (m : M) (s : K * list kvm_call).

Lemma bm_read_is_mapped m a n d : bm_wf m → fits 63 n → bm_read m a n = Ok d → bm_mapped m a n.
Proof.
  intros Hwf Hn Hr. destruct (decide (bm_mapped m a n)) as [|Hm]; [done|].
  destruct (bm_read_err m a n Hwf Hn Hm) as [e He]. congruence.
Qed.

(** The page tables survive writes elsewhere. *)
Lemma tables_from_wrote m ws1 ws2 m' :
  bm_wf m → small (ws1 ++ page_table_writes ++ ws2) →
  wrote m (ws1 ++ page_table_writes ++ ws2) m' →
  Forall (λ w, w.1 + zlen w.2 ≤ PAGE_TABLE_ADDR ∨ 0xC000 ≤ w.1) ws2 →
  tables_at m'.
Proof.
  intros Hwf Hs E Hd.
  assert (Hread : ∀ a v, (a, le_enc 8 v) ∈ page_table_writes → fits 64 v → read_obj pod_u64 m' a = Ok v).
  { intros a v Hin Hv. apply read_u64_written; [|done].
    assert (Hr : bm_read m' (a, le_enc 8 v).1 (zlen (a, le_enc 8 v).2) = Ok (a, le_enc 8 v).2).
    { eapply (wrote_read_block m); [done|exact Hs|exact E|apply page_table_writes_ascending|done|].
      pose proof (page_table_range _ Hin) as Hr. eapply Forall_impl; [exact Hd|].
      cbv beta. intros w Hw. lia. }
    simpl in Hr. by rewrite zlen_le_enc in Hr. }
  split.
  - apply Hread; [by left|done].
  - apply Hread; [by right; left|done].
  - intros i Hi. apply Hread; [|by apply pd_entry_bits].
    do 2 right. apply list_elem_of_fmap. exists i. rewrite elem_of_seqZ. split; [|lia].
    by rewrite Z.mul_comm.
Qed.

(** What [build_elf] writes, in order, and what it asks of the kernel. *)
Lemma build_elf_steps c data mem_size vm cpuid ds m s vs m' s' elf :
  bm_wf m → zlen data < 2 ^ 63 →
  ElfKernel_parse (inr data) = Some (Ok elf) → Forall segment_fits (segments elf) →
  build_elf c data mem_size vm cpuid ds (m, s) = (Ok vs, (m', s')) →
  let cl := cl_build (kernel_cmdline c ds) in
  ∃ rd page css, zlen cl < 4096 ∧ initrd_of c s.1 (initrd_addr (segments elf)) rd ∧
    zero_page_ok mem_size cl rd page ∧
    Forall (segment_in_file data) (segments elf) ∧
    wrote m ((segments elf ≫= segment_writes data) ++ low_writes cl ++ initrd_writes rd ++
             [(ZERO_PAGE_ADDR, page)]) m' ∧
    s'.2 = s.2 ++ concat css ∧
    Forall3 (vcpu_calls vm cpuid configure_64bit_sregs (elf_regs (entry_point elf)))
      (seqZ 0 (cfg_vcpus c)) vs css.
Proof.
  intros Hwf Hl Hp Hfits E cl. unfold build_elf in E.
  apply stm_bind_ok in E as (elf' & [m0 s0] & E0 & E). injection E0 as E0 <- <-.
  apply parse_elf_ok in E0. assert (elf' = elf) as -> by congruence.
  pose proof (parsed_image _ _ Hp) as Himg.
  apply stm_bind_ok in E as ([] & [m1 s1] & [E1 ->]%on_mem_ok & E).
  apply stm_bind_ok in E as ([] & [m2 s2] & [E2 ->]%on_mem_ok & E).
  apply stm_bind_ok in E as ([] & [m3 s3] & [E3 ->]%on_mem_ok & E).
  apply stm_bind_ok in E as (b4 & [m4 s4] & [E4 ->]%on_params_ok & E).
  apply stm_bind_ok in E as (b5 & [m5 s5] & E5 & E).
  apply stm_bind_ok in E as ([] & [m6 s6] & E6 & E). apply on_host_ok in E as [E7 ->].
  apply cl_write_ok in E4 as (Hcl & W4 & ->). fold cl in Hcl, W4.
  apply initrd_file_ok in E5 as (rd & L5 & W5 & Hrd & ->). fold cl in E6.
  unfold write_zero_page in E6. destruct (bm_write m5 ZERO_PAGE_ADDR _) as [m6'| |] eqn:W6; [|done..].
  injection E6 as <- <-.
  apply (map_stm_calls _ _ _ _ _ _ (boot_vcpu_calls vm cpuid _ _)) in E7 as (css & L7 & Hcss).
  pose proof (load_segments_spec data (segments elf) m Hwf Hl Hfits) as Hs.
  unfold ElfKernel_load_into_memory in E1. rewrite Himg in E1. rewrite E1 in Hs. destruct Hs as [Hin W1].
  rewrite setup_page_tables_writes in E2. rewrite setup_gdt_writes in E3.
  eexists rd, _, css. split_and!; [done|done| |done| |by rewrite L7, L5|done].
  - apply (zero_page_elf mem_size BootParams_new); [apply BootParams_new_wf|done].
  - unfold low_writes. rewrite <- !(assoc_L (++)).
    eapply wrote_app; [exact W1|]. eapply wrote_app; [exact E2|]. eapply wrote_app; [exact E3|].
    eapply wrote_app; [exact W4|]. eapply wrote_app; [exact W5|]. by apply wrote_one.
Qed.

End ElfPath.

(** ** The bzImage path *)
Lemma lift_done {S E A} (r : outcome E A) (s s' : S) a : lift r s = (Ok a, s') → r = Ok a ∧ s' = s.
Proof. by intros [= -> ->]. Qed.

Lemma map_err_done {E F A} (f : E → F) (r : outcome E A) a : map_err f r = Ok a → r = Ok a.
Proof. destruct r; by intros [= ->]. Qed.

Section BzPath.
Context {M K : Type} `{ByteMemoryLaws M} `{KvmHost K} `{FileHost K}.
Implicit Types (m : M) (s : K * list kvm_call).

Lemma bz_load_ok k m k' m' :
  BzImage_load_into_memory k m = (Ok tt, (k', m')) →
  wrote m [(KERNEL_LOAD_ADDR, kernel_code k);
           (ZERO_PAGE_ADDR, as_bytes (marked_header (boot_params k)))] m'.
Proof.
  unfold BzImage_load_into_memory. fold (marked_header (boot_params k)). cbn [kernel_code].
  destruct (bm_write m _ _) as [m1| |] eqn:E1; [|done..].
  destruct (bm_write m1 _ _) as [m2| |] eqn:E2; [|done..]. intros [= _ <-].
  change (wrote m ([(KERNEL_LOAD_ADDR, kernel_code k)] ++
    [(ZERO_PAGE_ADDR, as_bytes (marked_header (boot_params k)))]) m2).
  eapply wrote_app; by apply wrote_one.
Qed.

Lemma build_bzimage_steps c data mem_size vm cpuid ds m s vs m' s' :
  zlen data < 2 ^ 63 →
  build_bzimage c data mem_size vm cpuid ds (m, s) = (Ok vs, (m', s')) →
  let cl := cl_build (kernel_cmdline c ds) in
  ∃ bz rd page css, BzImage_parse (inr data) = Ok bz ∧ parsed data bz ∧ zlen cl < 4096 ∧
    initrd_of c s.1 INITRD_ADDR rd ∧ zero_page_ok mem_size cl rd page ∧
    wrote m ([(CMDLINE_ADDR, cl ++ [x00])] ++ initrd_writes rd ++
             [(KERNEL_LOAD_ADDR, kernel_code bz); (ZERO_PAGE_ADDR, page)]) m' ∧
    s'.2 = s.2 ++ concat css ∧
    Forall3 (vcpu_calls vm cpuid bz_sregs bz_regs) (seqZ 0 (cfg_vcpus c)) vs css.
Proof.
  intros Hl E cl. unfold build_bzimage in E.
  apply stm_bind_ok in E as (bz & [m0 s0] & [E0%map_err_done [= -> ->]]%lift_done & E).
  apply stm_bind_ok in E as (b1 & [m1 s1] & [E1 ->]%on_params_ok & E).
  apply stm_bind_ok in E as (b2 & [m2 s2] & E2 & E).
  apply stm_bind_ok in E as ([] & [m3 s3] & [E3 ->]%on_mem_ok & E).
  apply on_host_ok in E as [E4 ->].
  apply cl_write_ok in E1 as (Hcl & W1 & ->). fold cl in Hcl, W1, E2.
  apply initrd_file_ok in E2 as (rd & L2 & W2 & Hrd & ->).
  apply (map_stm_calls _ _ _ _ _ _ (boot_vcpu_calls vm cpuid _ _)) in E4 as (css & L4 & Hcss).
  pose proof (BzImage_parse_spec data Hl) as Hp.
  rewrite E0 in Hp.
  set (k := {| boot_params := _ |}) in E3.
  destruct (BzImage_load_into_memory k m2) as [r [k' m4]] eqn:E5. injection E3 as -> ->.
  apply bz_load_ok in E5.
  eexists bz, rd, _, css. split_and!; [done|done|done|done| | |by rewrite L4, L2|done].
  - apply (zero_page_bz mem_size (boot_params bz)); [|done].
    rewrite (pk_params _ _ Hp). apply copy_setup_header_wf, BootParams_new_wf.
  - eapply wrote_app; [exact W1|]. eapply wrote_app; [exact W2|exact E5].
Qed.

End BzPath.

(** ** Properties *)

(** A file that fits above the low structures and below the initial ramdisk. *)
Lemma bz_small {K} `{FileHost K} c (k : K) cl rd bz page data :
  zlen data < 2 ^ 63 → parsed data bz → zlen cl < 4096 → initrd_of c k INITRD_ADDR rd →
  zlen page = 4096 →
  small ([(CMDLINE_ADDR, cl ++ [x00])] ++ initrd_writes rd ++
         [(KERNEL_LOAD_ADDR, kernel_code bz); (ZERO_PAGE_ADDR, page)]).
Proof.
  intros Hl Hp Hcl Hrd Hpage. pose proof (zlen_nonneg cl). pose proof (zlen_nonneg data).
  apply Forall_app. split; [|apply Forall_app; split; [by eapply initrd_small|]].
  { constructor; [|constructor]. simpl. rewrite zlen_app. unfold fits, zlen in *. simpl. lia. }
  constructor; [|constructor; [|constructor]]; simpl.
  - rewrite (pk_code _ _ Hp), zlen_drop. unfold fits. lia.
  - rewrite Hpage. unfold fits. lia.
Qed.

Section BuildProps.
Context {M K : Type} `{ByteMemoryLaws M} `{KvmHost K} `{FileHost K}.

Lemma wrote_split (m : M) ws1 ws2 m' :
  wrote m (ws1 ++ ws2) m' → ∃ m1, wrote m ws1 m1 ∧ wrote m1 ws2 m'.
Proof.
  unfold wrote, store_all. rewrite for_each_app. intros ([] & m1 & ? & ?)%stm_bind_ok. by exists m1.
Qed.

(** The writes after the kernel's, and the ranges they stay out of. *)
Definition boot_writes (cl : list byte) (rd : option (Z * list byte)) (page : list byte)
    : list (Z * list byte) :=
  low_writes cl ++ initrd_writes rd ++ [(ZERO_PAGE_ADDR, page)].

Lemma boot_writes_small c (k : K) addr cl rd page :
  zlen cl < 4096 → initrd_of c k addr rd → zlen page = 4096 → small (boot_writes cl rd page).
Proof.
  intros Hcl Hrd Hpage. pose proof (zlen_nonneg cl).
  unfold boot_writes, low_writes. rewrite <- !(assoc_L (++)).
  repeat (apply Forall_app; split); [apply page_table_writes_small|apply gdt_writes_small| |
    by eapply initrd_small|].
  - constructor; [|constructor]. simpl. rewrite zlen_app. unfold fits, zlen in *. simpl. lia.
  - constructor; [|constructor]. simpl. rewrite Hpage. unfold fits. lia.
Qed.

Lemma initrd_start c (k : K) addr rd w : initrd_of c k addr rd → w ∈ initrd_writes rd → w.1 = addr.
Proof.
  unfold initrd_of. destruct (kc_initrd _), rd as [[a d]|]; simpl; try done.
  - intros (-> & _) Hw. by apply list_elem_of_singleton in Hw as ->.
  - by intros _ ?%elem_of_nil.
Qed.

Lemma boot_writes_avoid c (k : K) addr cl rd page a n :
  zlen cl < 4096 → initrd_of c k addr rd → zlen page = 4096 → 0x21000 ≤ a → a + n ≤ addr →
  Forall (λ w, a + n ≤ w.1 ∨ w.1 + zlen w.2 ≤ a) (boot_writes cl rd page).
Proof.
  intros Hcl Hrd Hpage Ha Hn. apply Forall_forall. intros w. unfold boot_writes, low_writes.
  intros [[Hw|[Hw|Hw]%elem_of_app]%elem_of_app|[Hw|Hw]%elem_of_app]%elem_of_app.
  - apply page_table_range in Hw. lia.
  - apply gdt_range in Hw. lia.
  - apply list_elem_of_singleton in Hw as ->. simpl. rewrite zlen_app.
    unfold CMDLINE_ADDR, zlen in *. simpl. lia.
  - eapply initrd_start in Hw; [|done]. lia.
  - apply list_elem_of_singleton in Hw as ->. simpl. rewrite Hpage. unfold ZERO_PAGE_ADDR. lia.
Qed.

(** The low structures and the initial ramdisk do not overwrite each other. *)
Lemma boot_writes_read c (k : K) addr cl rd page (m : M) ws m' :
  bm_wf m → small (ws ++ boot_writes cl rd page) → wrote m (ws ++ boot_writes cl rd page) m' →
  zlen cl < 4096 → initrd_of c k addr rd → zlen page = 4096 → 0x100000 ≤ addr →
  tables_at m' ∧
  bm_read m' CMDLINE_ADDR (zlen cl + 1) = Ok (cl ++ [x00]) ∧
  (∀ a d, rd = Some (a, d) → bm_read m' a (zlen d) = Ok d) ∧
  bm_read m' ZERO_PAGE_ADDR 4096 = Ok page.
Proof.
  intros Hwf Hs W Hcl Hrd Hpage Haddr. pose proof (zlen_nonneg cl).
  assert (Hiw : Forall (λ w, 0x100000 ≤ w.1) (initrd_writes rd)).
  { apply Forall_forall. intros w Hw. eapply initrd_start in Hw; [|done]. lia. }
  assert (Hzp : ∀ P : Z * list byte → Prop, P (ZERO_PAGE_ADDR, page) → Forall P [(ZERO_PAGE_ADDR, page)])
    by (intros; by constructor; [|constructor]).
  unfold boot_writes, low_writes in W, Hs. rewrite <- !(assoc_L (++)) in W, Hs.
  split_and!.
  - eapply (tables_from_wrote m ws); [done|exact Hs|exact W|]. repeat (apply Forall_app; split).
    + apply Forall_forall. intros w Hw%gdt_range. unfold PAGE_TABLE_ADDR. lia.
    + constructor; [|constructor]. simpl. unfold CMDLINE_ADDR. lia.
    + eapply Forall_impl; [exact Hiw|]. cbv beta. lia.
    + apply Hzp. simpl. rewrite Hpage. unfold ZERO_PAGE_ADDR, PAGE_TABLE_ADDR. lia.
  - replace (zlen cl + 1) with (zlen (CMDLINE_ADDR, cl ++ [x00]).2) by (simpl; by rewrite zlen_app).
    apply (wrote_read m (ws ++ page_table_writes ++ gdt_writes) (CMDLINE_ADDR, cl ++ [x00])
             (initrd_writes rd ++ [(ZERO_PAGE_ADDR, page)]));
      rewrite <- ?(assoc_L (++)); [done|exact Hs|exact W|].
    simpl. rewrite zlen_app. change (zlen [x00]) with 1. apply Forall_app. split.
    + eapply Forall_impl; [exact Hiw|]. unfold CMDLINE_ADDR. cbv beta. lia.
    + apply Hzp. simpl. rewrite Hpage. unfold ZERO_PAGE_ADDR, CMDLINE_ADDR. lia.
  - intros a d ->. simpl in W, Hs.
    assert (a = addr) as ->.
    { by eapply (initrd_start c k addr (Some (a, d)) (a, d)); [|by apply list_elem_of_singleton]. }
    apply (wrote_read m (ws ++ page_table_writes ++ gdt_writes ++ [(CMDLINE_ADDR, cl ++ [x00])])
             (addr, d) [(ZERO_PAGE_ADDR, page)]);
      rewrite <- ?(assoc_L (++)); [done|exact Hs|exact W|].
    apply Hzp. simpl. rewrite Hpage. unfold ZERO_PAGE_ADDR. lia.
  - rewrite <- Hpage.
    apply (wrote_read m (ws ++ page_table_writes ++ gdt_writes ++ [(CMDLINE_ADDR, cl ++ [x00])] ++
             initrd_writes rd) (ZERO_PAGE_ADDR, page) []);
      rewrite <- ?(assoc_L (++)); [done|exact Hs|exact W|constructor].
Qed.

End BuildProps.


Lemma bm_read_sub `{ByteMemoryLaws M} (m : M) a n d i j :
  bm_wf m → fits 63 n → bm_read m a n = Ok d → 0 ≤ i → i < n → 0 ≤ j → i + j ≤ n →
  bm_read m (a + i) j = Ok (sub_list i j d).
Proof.
  intros Hwf Hn Hr Hi0 Hi Hj Hij. pose proof (bm_read_is_mapped m a n d Hwf Hn Hr) as Hm.
  rewrite bm_read_ok in Hr by done. injection Hr as <-.
  rewrite bm_read_ok; [|done|unfold fits in *; lia|by eapply bm_mapped_sub].
  f_equal. unfold sub_list. rewrite drop_fmap_seqZ, take_fmap_seqZ by lia. done.
Qed.

(** C12. The bzImage boot path, end to end.  When it succeeds, guest memory
    holds the kernel at 1 MiB, the command line, and a zero page that points
    to it and describes the memory, and every vCPU starts at the kernel's
    32-bit entry in flat protected mode.  The initial ramdisk is loaded at
    16 MiB before the kernel: it is intact when the kernel is at most 15 MiB
    long; the tail of a longer kernel overwrites its start, and nothing
    reports that. *)
Theorem build_bzimage_boots {M K} `{ByteMemoryLaws M} `{KvmHost K} `{FileHost K}
    c data ram vm cpuid ds (m : M) (k : K) l vs m' k' l' :
  bm_wf m → zlen data < 2 ^ 63 →
  build_bzimage c data ram vm cpuid ds (m, (k, l)) = (Ok vs, (m', (k', l'))) →
  let cl := cl_build (kernel_cmdline c ds) in
  ∃ bz rd css,
    BzImage_parse (inr data) = Ok bz ∧ initrd_of c k INITRD_ADDR rd ∧
    bm_read m' KERNEL_LOAD_ADDR (zlen (kernel_code bz)) =
      Ok (drop (Z.to_nat ((1 + setup_sects bz) * 512)) data) ∧
    bm_read m' CMDLINE_ADDR (zlen cl + 1) = Ok (cl ++ [x00]) ∧
    (∃ page, bm_read m' ZERO_PAGE_ADDR 4096 = Ok page ∧ zero_page_ok ram cl rd page) ∧
    (∀ a d, rd = Some (a, d) → a = INITRD_ADDR ∧
       (zlen (kernel_code bz) ≤ 0xF00000 → bm_read m' a (zlen d) = Ok d) ∧
       (0xF00000 < zlen (kernel_code bz) →
          bm_read m' a 1 = Ok (sub_list 0xF00000 1 (kernel_code bz)))) ∧
    l' = l ++ concat css ∧
    Forall3 (vcpu_calls vm cpuid bz_sregs bz_regs) (seqZ 0 (cfg_vcpus c)) vs css.
Proof.
  intros Hwf Hl E cl.
  destruct (build_bzimage_steps c data ram vm cpuid ds m (k, l) vs m' (k', l') Hl E)
    as (bz & rd & page & css & Hp & Hpz & Hcl & Hrd & Hpage & W & Hlog & Hcss).
  fold cl in Hcl, Hpage, W. pose proof (zp_len _ _ _ _ Hpage) as Hlen.
  pose proof (bz_small c k cl rd bz page data Hl Hpz Hcl Hrd Hlen) as Hs.
  pose proof (zlen_nonneg cl). set (code := kernel_code bz) in *.
  set (zp := (ZERO_PAGE_ADDR, page)) in *. set (kn := (KERNEL_LOAD_ADDR, code)) in *.
  assert (Hkn : bm_read m' KERNEL_LOAD_ADDR (zlen code) = Ok code).
  { apply (wrote_read m ((CMDLINE_ADDR, cl ++ [x00]) :: initrd_writes rd) kn [zp]);
      [done|exact Hs|exact W|]. constructor; [|constructor]. simpl. rewrite Hlen.
    unfold ZERO_PAGE_ADDR, KERNEL_LOAD_ADDR. lia. }
  pose proof (wrote_wf m _ m' Hwf Hs W) as Hwf'.
  assert (Hcode : fits 63 (zlen code)).
  { apply Forall_app in Hs as [_ [_ [Hk _]%Forall_cons]%Forall_app]. done. }
  exists bz, rd, css. fold code. split_and!; try done.
  - rewrite Hkn. f_equal. apply (pk_code _ _ Hpz).
  - replace (zlen cl + 1) with (zlen (CMDLINE_ADDR, cl ++ [x00]).2) by (simpl; by rewrite zlen_app).
    apply (wrote_read m [] (CMDLINE_ADDR, cl ++ [x00]) (initrd_writes rd ++ [kn; zp]));
      [done|exact Hs|exact W|]. simpl. rewrite zlen_app. change (zlen [x00]) with 1.
    apply Forall_app. split; [|constructor; [|constructor; [|constructor]]].
    + apply Forall_forall. intros w Hw. eapply initrd_start in Hw; [|done].
      unfold CMDLINE_ADDR, INITRD_ADDR in *. lia.
    + simpl. unfold CMDLINE_ADDR, KERNEL_LOAD_ADDR. lia.
    + simpl. rewrite Hlen. unfold ZERO_PAGE_ADDR, CMDLINE_ADDR. lia.
  - exists page. split; [|done]. rewrite <- Hlen.
    by apply (wrote_read m ((CMDLINE_ADDR, cl ++ [x00]) :: initrd_writes rd ++ [kn]) zp []);
      simpl; rewrite <- ?(assoc_L (++)).
  - intros a d ->.
    assert (a = INITRD_ADDR) as ->.
    { by eapply (initrd_start c k _ (Some (a, d)) (a, d)); [|by apply list_elem_of_singleton]. }
    split; [done|]. split; intros Hsz.
    + apply (wrote_read m [(CMDLINE_ADDR, cl ++ [x00])] (INITRD_ADDR, d) [kn; zp]);
        [done|exact Hs|exact W|]. constructor; [|constructor; [|constructor]]; simpl; rewrite ?Hlen;
        unfold KERNEL_LOAD_ADDR, ZERO_PAGE_ADDR, INITRD_ADDR; lia.
    + change INITRD_ADDR with (KERNEL_LOAD_ADDR + 0xF00000). apply (bm_read_sub _ _ (zlen code)); (done || lia).
Qed.

(** ** The devices and what the guest is told of them *)

(** The kernel's syntax of a [virtio_mmio.device] parameter:
    [<size>@<base>:<irq>], with the numbers in C notation. *)
Fixpoint strip (p s : string) : option string :=
  match p, s with
  | EmptyString, _ => Some s
  | String a p, String b s => if decide (a = b) then strip p s else None
  | String _ _, EmptyString => None
  end.

Fixpoint digits (radix acc : Z) (s : string) : Z * string :=
  match s with
  | EmptyString => (acc, s)
  | String c s' =>
      match hex_value c with
      | Some d => if d <? radix then digits radix (acc * radix + d) s' else (acc, s)
      | None => (acc, s)
      end
  end.

Definition kernel_device_param (s : string) : option (Z * Z * Z) :=
  s ← strip "virtio_mmio.device=0x" s;
  let '(sz, s) := digits 16 0 s in
  s ← strip "@0x" s;
  let '(addr, s) := digits 16 0 s in
  s ← strip ":" s;
  let '(irq, s) := digits 10 0 s in
  match s with EmptyString => Some (addr, sz, irq) | _ => None end.

Lemma cmdline_parts c ds :
  parts (kernel_cmdline c ds) =
    string_bytes (kc_cmdline (cfg_kernel c)) :: ((string_bytes ∘ device_param) <$> ds).
Proof.
  unfold kernel_cmdline.
  assert (Hgen : ∀ b, parts (foldl (λ b d, cl_raw b (string_bytes (device_param d))) b ds) =
    parts b ++ ((string_bytes ∘ device_param) <$> ds)).
  { induction ds as [|d ds IH]; intros b; simpl; [by rewrite app_nil_r|].
    rewrite IH. simpl. by rewrite <- (assoc_L (++)). }
  by rewrite Hgen.
Qed.

Section Layout.
Context {K : Type} `{KvmHost K} `{FileHost K} `{CmdHost K} `{TapHost K} `{HostIo K}.
Context `{Block.Padding}.

Lemma map_memory_ok n (k : K) mem k' :
  map_memory n k = (Ok mem, k') →
  ∃ r, regions mem = [r] ∧ guest_base r = 0 ∧ mm_size (mmap r) = n.
Proof.
  unfold map_memory, GuestMemoryMmap_new. simpl. unfold MmapRegion_new.
  destruct (mmap_anon k n false) as [[e|a] k1]; simpl; intros [= <- <-]. by eexists.
Qed.

Lemma attach_tap_net tap n (k : K) n' k' : attach_tap tap n k = (Ok n', k') → n' = n ∨ ∃ fd, n' = set_tap_fd n fd.
Proof.
  unfold attach_tap. destruct (Tap_open _ k) as [[t|e|p] k1]; [|by intros [= <- _]; left|done].
  destruct (set_nonblocking t k1) as [[[]|e|p] k2]; intros [=]; subst; right; by eexists.
Qed.

(** The bus as built: one window per device, in order. *)
Lemma build_bus_ok c vm (k : K) bus ds k' :
  build_bus c vm k = (Ok (bus, ds), k') →
  ds = (MMIO_BASE, MMIO_SIZE, MMIO_IRQ_BASE) ::
       match cfg_network c with
       | Some _ => [(MMIO_BASE + MMIO_SIZE, MMIO_SIZE, MMIO_IRQ_BASE + 1)] | None => [] end ∧
  ((λ d, (base d, win_size d, irq d)) <$> devices bus) = ((λ d, (d.1.1, d.1.2, Some d.2)) <$> ds) ∧
  Forall (λ d, guest_memory (transport d) = true ∧ activated (transport d) = false) (devices bus).
Proof.
  unfold build_bus. destruct (cfg_network c) as [n|].
  - intros (net & k1 & E & [= <- <- <-])%stm_bind_ok. split_and!; [done|done|].
    by repeat constructor.
  - intros [= <- <- <-]. split_and!; [done|done|]. by repeat constructor.
Qed.

Lemma memory_bytes_small c :
  0 ≤ cfg_memory_mib c < 2 ^ 44 → memory_bytes c = cfg_memory_mib c * 0x100000.
Proof.
  intros Hm. change (2 ^ 44) with 17592186044416 in Hm. unfold memory_bytes.
  rewrite (wrap_small 64 (cfg_memory_mib c * 1024)) by width_lia.
  rewrite wrap_small by width_lia. lia.
Qed.

End Layout.

(** The windows of one or two devices. *)
Lemma windows_ok {D} (net : option NetworkConfig) (l : list (MmioDevice D)) ds :
  ds = (MMIO_BASE, MMIO_SIZE, MMIO_IRQ_BASE) ::
       match net with Some _ => [(MMIO_BASE + MMIO_SIZE, MMIO_SIZE, MMIO_IRQ_BASE + 1)] | None => [] end →
  (λ d, (base d, win_size d, irq d)) <$> l = (λ d, (d.1.1, d.1.2, Some d.2)) <$> ds →
  bus_wf l ∧ (∃ d, d ∈ l ∧ base d = MMIO_BASE ∧ win_size d = MMIO_SIZE) ∧
  Forall (λ d, MMIO_BASE ≤ base d) l.
Proof.
  intros -> Hw. destruct l as [|d1 l]; [by destruct net|]. injection Hw as Hb1 Hs1 _ Hw.
  assert (Hl : l = [] ∨ ∃ d2, l = [d2] ∧ base d2 = MMIO_BASE + MMIO_SIZE ∧ win_size d2 = MMIO_SIZE).
  { destruct net, l as [|d2 [|]]; try done; [|by left]. injection Hw as ? ?. right. by exists d2. }
  unfold MMIO_BASE, MMIO_SIZE in *. split; [split|split].
  - destruct Hl as [->|(d2 & -> & ? & ?)]; repeat constructor; unfold window_end; try lia; width_lia.
  - intros i j d d' Hij Hi Hj. unfold window_end.
    destruct Hl as [->|(d2 & -> & ? & ?)]; destruct i as [|[|]], j as [|[|]]; simplify_eq/=; lia.
  - exists d1. split; [by left|done].
  - destruct Hl as [->|(d2 & -> & ? & ?)]; repeat constructor; lia.
Qed.


(** ** Witnesses *)

(** Files by path, an anonymous mapping at a fixed address, no TAP, and
    programs that all succeed, beside [demo_kvm]. *)
Definition demo_initrd : list byte := string_bytes "070701".
Definition demo_bzimage : list byte :=
  replicate 0x1F1 x00 ++ [z2b 4] ++ replicate 16 x00 ++ le_enc 4 HDRS_MAGIC ++ le_enc 2 0x20F ++
  replicate (5 * 512 - 0x208) x00 ++ string_bytes "kernel".

#[export] Instance demo_files : FileHost demo_kvm := {
  read_path p k :=
    ((if decide (p = "vmlinux"%string) then inr (inr demo_elf)
      else if decide (p = "bzImage"%string) then inr (inr demo_bzimage)
      else if decide (p = "initrd"%string) then inr (inr demo_initrd) else inl 2), k);
  mmap_anon k _ _ := (inr 0x7e0000000000, k);
}.
#[export] Instance demo_cmds : CmdHost demo_kvm := { run_program _ _ k := (inr (true, []), k) }.
#[export] Instance demo_taps : TapHost demo_kvm := {
  sys_open_tun k := (inl 1, k);
  sys_tunsetiff _ i k := (inr i, k);
  sys_getfl _ k := (inr 0, k);
  sys_setfl _ _ k := (inr tt, k);
  sys_close_tap _ k := k;
}.
#[export] Instance demo_io : HostIo demo_kvm := {
  tap_read w _ _ := ([], w); tap_write w _ _ := w; eventfd_signal w _ := w; irq_line w _ _ _ := w;
}.

Definition demo_config (kernel : string) (mib : Z) : VmConfig :=
  {| cfg_vcpus := 2; cfg_memory_mib := mib;
     cfg_kernel := {| kc_path := kernel; kc_cmdline := default_cmdline;
                      kc_initrd := Some "initrd"%string; kc_boot_method := default_boot_method |};
     cfg_block := []; cfg_network := Some {| nc_tap := default_tap_name; nc_mac := None |};
     cfg_console := ConsoleConfig_default; cfg_vsock := None |}.
Definition demo_vm : VmFd := {| vm_raw_fd := 4; vm_run_size := 12288 |}.
Definition demo_devices : list (Z * Z * Z) := [(MMIO_BASE, MMIO_SIZE, 5); (MMIO_BASE + MMIO_SIZE, MMIO_SIZE, 6)].

Example demo_cmdline :
  bytes_string (cl_build (kernel_cmdline (demo_config "vmlinux" 64) demo_devices)) =
  ("console=ttyS0 reboot=k panic=1 pci=off virtio_mmio.device=0x1000@0xd0000000:5" +:+
   " virtio_mmio.device=0x1000@0xd0001000:6")%string.
Proof. by vm_compute. Qed.

Example demo_mac :
  parse_mac "aa:BB:0c:+d:00:7f" = Some (z2b <$> [0xaa; 0xbb; 0x0c; 0x0d; 0; 0x7f]) ∧
  parse_mac "aa:bb" = None ∧ parse_mac "aa:bb:cc:dd:ee:100" = None.
Proof. by vm_compute. Qed.


Lemma build_bzimage_boots_witness :
  match build_bzimage (demo_config "bzImage" 32) demo_bzimage 0x2000000 demo_vm [] demo_devices
          (boot_ram 0x2000000, ({| next_fd := 5 |}, [])) with
  | (Ok vs, (m', (_, l'))) =>
      bm_read m' KERNEL_LOAD_ADDR 6 = Ok (string_bytes "kernel") ∧
      bm_read m' INITRD_ADDR 6 = Ok demo_initrd ∧ length vs = 2%nat
  | _ => False
  end.
Proof.
  destruct (build_bzimage (demo_config "bzImage" 32) demo_bzimage 0x2000000 demo_vm [] demo_devices
    (boot_ram 0x2000000, ({| next_fd := 5 |}, []))) as [r [m' [k' l']]] eqn:E.
  assert (Hok : is_ok r = true).
  { change r with (r, (m', (k', l'))).1. rewrite <- E. by vm_compute. }
  destruct r as [vs|e|p]; [|discriminate..].
  destruct (build_bzimage_boots (demo_config "bzImage" 32) demo_bzimage 0x2000000 demo_vm []
    demo_devices (boot_ram 0x2000000) {| next_fd := 5 |} [] vs m' k' l') as
    (bz & rd & css & Hp & Hrd & Hk & _ & _ & Hi & _ & Hcss); [| |exact E|].
  - apply boot_ram_wf. lia.
  - vm_compute. reflexivity.
  - clear E Hok. vm_compute in Hp. injection Hp as <-. cbn [kernel_code setup_sects] in Hk.
    assert (Hc : drop (Z.to_nat ((1 + 4) * 512)) demo_bzimage = string_bytes "kernel")
      by (vm_compute; reflexivity).
    split_and!.
    + rewrite Hc in Hk. exact Hk.
    + destruct rd as [[a d]|]; [|by destruct Hrd]. destruct Hrd as (_ & Hr & _).
      vm_compute in Hr. injection Hr as <-.
      destruct (Hi a _ eq_refl) as (-> & Hsmall & _). by apply Hsmall.
    + apply Forall3_length_lm in Hcss as Hlen. by rewrite <- Hlen.
Defined.

