(* ===== verification/Snapshot.v ===== *)
(** * VM snapshots (crates/nova-vmm/src/snapshot.rs)

    Saving a VM's registers, interrupt controllers, timers, device queues
    and memory to a directory, and restoring a VM from it with the memory
    mapped from the saved file.  JSON is a parameter with its round trip;
    files and mappings are a host interface, [SnapHost], with the behaviour
    of the system calls in [SnapLaws]. *)

From stdpp Require Import pretty.
From S2P Require Import Prelude GuestMem Virtqueue Mmio Devices Net DeviceMgr BootParams LongMode Kvm Network Builder.
#[local] Open Scope Z_scope.

(** A file of the snapshot directory: the directory and the name joined to it. *)
Definition fpath : Type := string * string.

Record SnapshotFiles : Type := { state_path : fpath; memory_path : fpath }.

Record VcpuSnapshot : Type := {
  vs_regs : KvmRegs; vs_sregs : KvmSregs; vs_msrs : list KvmMsrEntry;
  vs_xsave : list Z; vs_xcrs : list KvmXcr }.
Record IrqchipSnapshot : Type := {
  pic_master : list byte; pic_slave : list byte; ioapic : list byte }.
Record VmSnapshotConfig : Type := {
  sc_vcpus : Z; sc_memory_mib : Z; sc_kernel_cmdline : string }.
(** [VirtioQueueState] has the fields of the saved tuple. *)
Definition VirtioQueueState : Type := saved_queue.
Record VirtioDeviceState : Type := {
  vd_device_type : Z; vd_queues : list VirtioQueueState }.
Record VmSnapshot : Type := {
  version : Z;
  sn_vcpus : list VcpuSnapshot;
  sn_clock : KvmClockData;
  sn_irqchip : IrqchipSnapshot;
  sn_pit : KvmPitState2;
  memory_regions : list (Z * Z);
  sn_config : VmSnapshotConfig;
  virtio_devices : list VirtioDeviceState;
}.

Definition SNAPSHOT_VERSION : Z := 3.

(** ** The host *)

(** System calls on files and file mappings: an errno or the result.  An
    open file is its descriptor, read from its start on. *)
Class SnapHost (K : Type) : Type := {
  fs_create_dir_all : string → K → (Z + unit) * K;
  fs_create : fpath → K → (Z + Z) * K;
  fs_write_all : Z → list byte → K → (Z + unit) * K;
  fs_flush : Z → K → (Z + unit) * K;
  fs_put : fpath → list byte → K → (Z + unit) * K;
  fs_get : fpath → K → (Z + list byte) * K;
  fs_open : fpath → K → (Z + Z) * K;
  fs_read_exact : Z → Z → K → (Z + list byte) * K;
  fs_close : Z → K → K;
  mmap_file : K → Z → Z → Z → (Z + Z * gmap Z byte) * K;
}.

Definition keep_log {K A} (r : A * K) (l : list kvm_call) : A * (K * list kvm_call) :=
  (r.1, (r.2, l)).

#[export] Instance Logged_snap `{SnapHost K} : SnapHost (K * list kvm_call) := {
  fs_create_dir_all d k := keep_log (fs_create_dir_all d k.1) k.2;
  fs_create p k := keep_log (fs_create p k.1) k.2;
  fs_write_all fd bs k := keep_log (fs_write_all fd bs k.1) k.2;
  fs_flush fd k := keep_log (fs_flush fd k.1) k.2;
  fs_put p bs k := keep_log (fs_put p bs k.1) k.2;
  fs_get p k := keep_log (fs_get p k.1) k.2;
  fs_open p k := keep_log (fs_open p k.1) k.2;
  fs_read_exact fd n k := keep_log (fs_read_exact fd n k.1) k.2;
  fs_close fd k := (fs_close fd k.1, k.2);
  mmap_file k fd n off := keep_log (mmap_file k.1 fd n off) k.2;
}.

#[export] Instance Logged_io `{HostIo W} : HostIo (W * list kvm_call) := {
  tap_read w fd n := let '(r, w') := tap_read w.1 fd n in (r, (w', w.2));
  tap_write w fd bs := (tap_write w.1 fd bs, w.2);
  eventfd_signal w fd := (eventfd_signal w.1 fd, w.2);
  irq_line w fd i v := (irq_line w.1 fd i v, w.2);
}.

Section Snapshot.
Context {K : Type} `{KvmHost K} `{SnapHost K} `{HostIo K} `{Block.Padding}.
(** [serde_json]: [None] is a parse error. *)
Variable to_json : VmSnapshot → list byte.
Variable from_json : list byte → option VmSnapshot.

(** A file operation with its context message; a bare [?] has none. *)
Definition file_op {A} (msg : string) (f : K → (Z + A) * K) : stm K VmError A :=
  λ k, match f k with
       | (inl e, k) => (Err (Context msg (CauseIo e)), k)
       | (inr a, k) => (Ok a, k)
       end.

Definition mem_op {A} (msg : string) (r : outcome MemError A) : stm K VmError A :=
  with_context msg CauseMem (lift r).

(** An open [File] is closed when it goes out of scope. *)
Definition with_file {A} (fd : Z) (m : stm K VmError A) : stm K VmError A :=
  λ k, match m k with
       | (Panic p, k) => (Panic p, k)
       | (r, k) => (r, fs_close fd k)
       end.

(** ** Guest memory *)

(** [for (base, size, _) in mem.iter_regions()]. *)
Definition dump_region (m : GuestMemoryMmap) (fd : Z) (r : Z * Z * Z) : stm K VmError unit :=
  let '(ba, sz, _) := r in
  buf ← mem_op "read region" (read_slice m ba sz);
  file_op "" (fs_write_all fd buf).

Definition dump_guest_memory (m : GuestMemoryMmap) (p : fpath) : stm K VmError unit :=
  fd ← file_op "create memory dump file" (fs_create p);
  with_file fd (for_each (dump_region m fd) (iter_regions m) ;; file_op "" (fs_flush fd)).

Fixpoint load_regions (fd : Z) (rs : list (Z * Z * Z)) (m : GuestMemoryMmap)
    : stm K VmError GuestMemoryMmap :=
  match rs with
  | [] => mret m
  | (ba, sz, _) :: rs =>
      buf ← file_op "read region" (fs_read_exact fd sz);
      m ← mem_op "write region" (write_slice m ba buf);
      load_regions fd rs m
  end.

Definition load_guest_memory (m : GuestMemoryMmap) (p : fpath) : stm K VmError GuestMemoryMmap :=
  fd ← file_op "open memory dump file" (fs_open p);
  with_file fd (load_regions fd (iter_regions m) m).

(** ** Saving *)

(** The indexing of the fixed array [xcrs] panics past its 16 entries. *)
Definition saved_xcrs (x : KvmXcrs) : outcome VmError (list KvmXcr) :=
  if 16 <? nr_xcrs x then Panic PanicBounds else Ok (take (Z.to_nat (nr_xcrs x)) (xcrs x)).

(** [match f() { Ok(x) => .., Err(_) => Vec::new() }]. *)
Definition optional {A} (m : stm K KvmError A) : stm K VmError (option A) :=
  λ k, match m k with
       | (Ok a, k) => (Ok (Some a), k)
       | (Err _, k) => (Ok None, k)
       | (Panic p, k) => (Panic p, k)
       end.

Definition save_vcpu (iv : Z * VcpuFd) : stm K VmError VcpuSnapshot :=
  let '(i, v) := iv in
  r ← kvm_ctx (vcpu_msg "get regs for vCPU " i) (get_regs v);
  s ← kvm_ctx (vcpu_msg "get sregs for vCPU " i) (get_sregs v);
  msrs ← kvm_ctx (vcpu_msg "get MSRs for vCPU " i) (get_msrs v SNAPSHOT_MSRS);
  xs ← optional (get_xsave v);
  xc ← optional (get_xcrs v);
  xc ← lift (match xc with Some x => saved_xcrs x | None => Ok [] end);
  mret {| vs_regs := r; vs_sregs := s; vs_msrs := msrs;
          vs_xsave := from_option xsave_region [] xs; vs_xcrs := xc |}.

Definition saved_regions (m : GuestMemoryMmap) : list (Z * Z) :=
  omap (region_info m) (seq 0 (num_regions m)).

Definition saved_devices (b : MmioBus AnyDevice) : list VirtioDeviceState :=
  (λ '(ty, qs), {| vd_device_type := ty; vd_queues := qs |})
    <$> snapshot_virtio_queues (M:=GuestMemoryMmap) (W:=K) b.

Definition save_snapshot (vm : BuiltVm) (dir : string) (cfg : VmSnapshotConfig)
    : stm K VmError SnapshotFiles :=
  file_op "" (fs_create_dir_all dir) ;;
  vcpus ← map_stm save_vcpu (zip (seqZ 0 (zlen (bv_vcpus vm))) (bv_vcpus vm));
  clk ← kvm_ctx "get VM clock" (get_clock (bv_vm_fd vm));
  pm ← kvm_ctx "get PIC master" (get_irqchip (bv_vm_fd vm) 0);
  ps ← kvm_ctx "get PIC slave" (get_irqchip (bv_vm_fd vm) 1);
  io ← kvm_ctx "get IOAPIC" (get_irqchip (bv_vm_fd vm) 2);
  pit ← kvm_ctx "get PIT state" (get_pit2 (bv_vm_fd vm));
  let mp := (dir, "vm_memory.bin"%string) in
  dump_guest_memory (bv_guest_memory vm) mp ;;
  let snapshot :=
    {| version := SNAPSHOT_VERSION; sn_vcpus := vcpus; sn_clock := clk;
       sn_irqchip := {| pic_master := chip pm; pic_slave := chip ps; ioapic := chip io |};
       sn_pit := pit; memory_regions := saved_regions (bv_guest_memory vm);
       sn_config := cfg; virtio_devices := saved_devices (bv_mmio_bus vm) |} in
  let sp := (dir, "vm_state.json"%string) in
  file_op "" (fs_put sp (to_json snapshot)) ;;
  mret {| state_path := sp; memory_path := mp |}.

(** ** Restoring *)

Definition read_state (dir : string) : stm K VmError VmSnapshot :=
  json ← file_op "read snapshot state" (fs_get (dir, "vm_state.json"%string));
  if negb (utf8_valid json) then throw (Context "read snapshot state" CauseNone) else
  snap ← lift (ok_or (Context "deserialize snapshot" CauseNone) (from_json json));
  if SNAPSHOT_VERSION <? version snap then throw (Context "snapshot version too new" CauseNone)
  else mret snap.

(** A [u64] as an [i64]. *)
Definition as_i64 (z : Z) : Z := let w := wrap 64 z in if w <? 2 ^ 63 then w else w - 2 ^ 64.

(** The regions with their offsets in the dump, which accumulate ([i64]). *)
Fixpoint file_regions (off : Z) (rs : list (Z * Z)) : list (Z * Z * Z) :=
  match rs with
  | [] => []
  | (addr, sz) :: rs => (addr, sz, off) :: file_regions (as_i64 (off + as_i64 sz)) rs
  end.

Definition map_snapshot (fd : Z) (rs : list (Z * Z)) : stm K VmError GuestMemoryMmap :=
  λ k, match GuestMemoryMmap_from_file mmap_file k fd (file_regions 0 rs) with
       | (Ok m, k) => (Ok m, k)
       | (Err e, k) => (Err (Context "mmap snapshot memory (demand-paged)" (CauseMem e)), k)
       | (Panic p, k) => (Panic p, k)
       end.

Definition register_region (vm : VmFd) (m : GuestMemoryMmap) (ir : nat * (Z * Z)) : stm K VmError unit :=
  let '(i, (addr, sz)) := ir in
  host_addr ← lift (ok_or (Context "get region host addr" CauseNone) (region_host_addr m i));
  kvm_ctx "set memory region" (set_user_memory_region vm
    {| slot := wrap 32 (Z.of_nat i); mr_flags := 0; guest_phys_addr := addr; memory_size := sz;
       userspace_addr := host_addr |}).

(** [chip[..data.len()].copy_from_slice(data)] on the zeroed 512 bytes. *)
Definition restored_chip (id : Z) (data : list byte) : outcome VmError KvmIrqchip :=
  if 512 <? zlen data then Panic PanicBounds
  else Ok {| chip_id := id; chip_padding := 0; chip := splice 0 data (chip KvmIrqchip_default) |}.

Definition restore_chip (vm : VmFd) (msg : string) (id : Z) (data : list byte) : stm K VmError unit :=
  c ← lift (restored_chip id data);
  kvm_ctx msg (set_irqchip vm c).

Definition restored_xcrs (l : list KvmXcr) : outcome VmError KvmXcrs :=
  if 16 <? zlen l then Panic PanicBounds
  else Ok {| nr_xcrs := zlen l; xcrs_flags := 0; xcrs := splice 0 l (xcrs KvmXcrs_default);
             xcrs_padding := xcrs_padding KvmXcrs_default |}.

Definition restore_vcpu (vm : VmFd) (cpuid : list KvmCpuidEntry2) (iv : Z * VcpuSnapshot)
    : stm K VmError VcpuFd :=
  let '(i, s) := iv in
  v ← kvm_ctx (vcpu_msg "create vCPU " i) (create_vcpu vm i);
  kvm_ctx (vcpu_msg "set CPUID for vCPU " i) (set_cpuid2 v cpuid) ;;
  kvm_ctx (vcpu_msg "restore sregs for vCPU " i) (set_sregs v (vs_sregs s)) ;;
  (if zlen (vs_xsave s) =? 1024
   then kvm_ctx (vcpu_msg "restore XSAVE for vCPU " i) (set_xsave v {| xsave_region := vs_xsave s |})
   else mret tt) ;;
  (match vs_xcrs s with
   | [] => mret tt
   | l => x ← lift (restored_xcrs l); _ ← optional (set_xcrs v x); mret tt
   end) ;;
  (match vs_msrs s with
   | [] => mret tt
   | l => kvm_ctx (vcpu_msg "restore MSRs for vCPU " i) (set_msrs v l)
   end) ;;
  kvm_ctx (vcpu_msg "restore regs for vCPU " i) (set_regs v (vs_regs s)) ;;
  mret v.

(** The clock with its flags and padding cleared. *)
Definition restored_clock (c : KvmClockData) : KvmClockData :=
  {| clock := clock c; clock_flags := 0; clock_pad := replicate 9 0 |}.

Definition restored_mac : list byte := z2b <$> [0xAA; 0xBB; 0xCC; 0xDD; 0xEE; 0x01].

(** The console, and the network device when a TAP name is given. *)
Definition restored_bus (vm : VmFd) (tap : option string) : MmioBus AnyDevice :=
  let bus := register (set_vm_fd bus_new (vm_raw_fd vm)) MMIO_BASE MMIO_SIZE
               (new_transport (K:=K) (DynConsole (Console.new []))) (Some 5) in
  match tap with
  | None => bus
  | Some name =>
      register bus (MMIO_BASE + MMIO_SIZE) MMIO_SIZE
        (new_transport (K:=K) (DynNet (Net_new name restored_mac))) (Some 6)
  end.

Fixpoint activate_devices (b : MmioBus AnyDevice) (ds : list VirtioDeviceState)
    : infallible (MmioBus AnyDevice) :=
  match ds with
  | [] => Ok b
  | d :: ds =>
      b ← force_activate_device (M:=GuestMemoryMmap) (W:=K) b (vd_device_type d)
            (restore_queue <$> vd_queues d);
      activate_devices b ds
  end.

Definition restore_snapshot (dir : string) (tap : option string) : stm K VmError BuiltVm :=
  snap ← read_state dir;
  kvm ← kvm_ctx "open /dev/kvm" Kvm_open;
  vm ← kvm_ctx "create VM for restore" (create_vm kvm);
  kvm_ctx "set TSS addr" (set_tss_addr vm 0xFFFBD000) ;;
  kvm_ctx "create IRQ chip" (create_irqchip vm) ;;
  kvm_ctx "create PIT2" (create_pit2 vm) ;;
  fd ← file_op "open memory dump for demand paging" (fs_open (dir, "vm_memory.bin"%string));
  mem ← with_file fd (map_snapshot fd (memory_regions snap));
  for_each (register_region vm mem)
    (zip (seq 0 (length (memory_regions snap))) (memory_regions snap)) ;;
  restore_chip vm "restore PIC master" 0 (pic_master (sn_irqchip snap)) ;;
  restore_chip vm "restore PIC slave" 1 (pic_slave (sn_irqchip snap)) ;;
  restore_chip vm "restore IOAPIC" 2 (ioapic (sn_irqchip snap)) ;;
  kvm_ctx "restore PIT" (set_pit2 vm (sn_pit snap)) ;;
  cpuid ← kvm_ctx "get supported CPUID" (get_supported_cpuid kvm 256);
  vcpus ← map_stm (restore_vcpu vm cpuid) (zip (seqZ 0 (zlen (sn_vcpus snap))) (sn_vcpus snap));
  kvm_ctx "restore clock" (set_clock vm (restored_clock (sn_clock snap))) ;;
  bus ← lift (map_err (λ _, Hangs) (activate_devices (restored_bus vm tap) (virtio_devices snap)));
  mret {| bv_kvm := kvm; bv_vm_fd := vm; bv_vcpus := vcpus; bv_guest_memory := mem;
          bv_mmio_bus := bus; bv_network_setup := None |}.

End Snapshot.

(** ** What the system calls promise

    [files] is the contents of each file, [fd_path] the file a descriptor
    refers to; a mapping of a file holds the file's bytes (mmap(2),
    MAP_PRIVATE), and KVM does not touch files. *)
Class SnapLaws (K : Type) `{KvmHost K} `{SnapHost K} : Type := {
  files : K → fpath → option (list byte);
  fd_path : K → Z → option fpath;
  sl_create p k fd k' : fs_create p k = (inr fd, k') →
    fd_path k' fd = Some p ∧ files k' p = Some [];
  sl_write fd bs k k' p d : fs_write_all fd bs k = (inr tt, k') →
    fd_path k fd = Some p → files k p = Some d →
    files k' p = Some (d ++ bs) ∧ fd_path k' fd = Some p;
  sl_flush fd k q : files (fs_flush fd k).2 q = files k q;
  sl_close fd k q : files (fs_close fd k) q = files k q;
  sl_put p bs k k' : fs_put p bs k = (inr tt, k') →
    files k' p = Some bs ∧ ∀ q, q ≠ p → files k' q = files k q;
  sl_get p k d k' : fs_get p k = (inr d, k') → files k p = Some d ∧ ∀ q, files k' q = files k q;
  sl_open p k fd k' : fs_open p k = (inr fd, k') →
    fd_path k' fd = Some p ∧ ∀ q, files k' q = files k q;
  sl_mmap k fd n off p d :
    fd_path k fd = Some p → files k p = Some d →
    fd_path (mmap_file k fd n off).2 fd = Some p ∧ files (mmap_file k fd n off).2 p = Some d ∧
    ∀ a g, (mmap_file k fd n off).1 = inr (a, g) → 0 ≤ off → off + n ≤ zlen d →
      ∀ i, 0 ≤ i < n → g !! i = d !! Z.to_nat (off + i);
  sl_kvm k q :
    files (sys_open_kvm k).2 q = files k q ∧
    (∀ fd r, files (sys_ioctl fd r k).2 q = files k q) ∧
    (∀ fd n, files (sys_mmap_run fd n k).2 q = files k q) ∧
    (∀ a n, files (sys_munmap a n k) q = files k q) ∧
    (∀ fd, files (sys_close fd k) q = files k q);
}.

(** ** The memory dump *)

(** The bytes of a region in guest memory. *)
Definition region_bytes (m : GuestMemoryMmap) (e : Z * Z) : list byte := mem_byte m <$> seqZ e.1 e.2.
Definition dump_bytes (m : GuestMemoryMmap) (es : list (Z * Z)) : list byte := es ≫= region_bytes m.

Lemma dump_bytes_cons m e es : dump_bytes m (e :: es) = region_bytes m e ++ dump_bytes m es.
Proof. done. Qed.

Lemma sort_sorted rs : StronglySorted base_le rs → sort_by_base rs = rs.
Proof.
  induction 1 as [|r rs Hs IH Hall]; [done|]. simpl. rewrite IH.
  destruct rs as [|r' rs]; [done|]. simpl. apply Forall_cons in Hall as [Hr _].
  unfold base_le in Hr. by rewrite (proj2 (Z.leb_le _ _)).
Qed.

Lemma saved_regions_extents m : saved_regions m = extents (regions m).
Proof.
  unfold saved_regions, num_regions, region_info, extents.
  assert (Hgen : ∀ l pre, omap (λ i, (λ r, (guest_base r, mm_size (mmap r))) <$> (pre ++ l) !! i)
    (seq (length pre) (length l)) = (λ r, (guest_base r, mm_size (mmap r))) <$> l).
  { induction l as [|r l IH]; intros pre; [done|]. simpl.
    rewrite list_lookup_middle by done. simpl. f_equal. specialize (IH (pre ++ [r])).
    rewrite <- (assoc_L (++)), length_app in IH. simpl in IH.
    by replace (length pre + 1)%nat with (S (length pre)) in IH by lia. }
  apply (Hgen (regions m) []).
Qed.

Section DumpProofs.
Context {K : Type} `{SnapLaws K}.

Lemma file_op_ok {A} msg (f : K → (Z + A) * K) k a k' :
  file_op msg f k = (Ok a, k') → f k = (inr a, k').
Proof. unfold file_op. destruct (f k) as [[e|x] k1]; by intros [= -> ->]. Qed.

Lemma with_file_ok {A} fd (m : stm K VmError A) k a k' :
  with_file fd m k = (Ok a, k') → ∃ k1, m k = (Ok a, k1) ∧ k' = fs_close fd k1.
Proof. unfold with_file. destruct (m k) as [[x|e|p] k1]; intros [= -> <-]. by exists k1. Qed.

Lemma dump_regions_ok m fd p es k d k' :
  mem_wf m → Forall (λ e, fits 63 e.2) es →
  fd_path k fd = Some p → files k p = Some d →
  for_each (dump_region m fd) ((λ e, (e.1, e.2, 0)) <$> es) k = (Ok tt, k') →
  files k' p = Some (d ++ dump_bytes m es).
Proof.
  intros Hwf. revert k d. induction es as [|[b n] es IH]; intros k d Hs Hfd Hd E.
  - injection E as <-. by rewrite app_nil_r.
  - apply Forall_cons in Hs as [Hn Hs]. simpl in Hn.
    apply stm_bind_ok in E as ([] & k1 & E1 & E). unfold dump_region in E1. simpl in E1.
    apply stm_bind_ok in E1 as (buf & k2 & E1 & E2%file_op_ok).
    unfold mem_op, with_context, lift in E1.
    destruct (read_slice m b n) as [bs| |] eqn:Er; [|done..]. injection E1 as <- <-.
    pose proof (bm_read_is_mapped m b n bs Hwf Hn Er) as Hm.
    pose proof (bm_read_ok m b n Hwf Hn Hm) as Hr. simpl in Hr. rewrite Er in Hr. injection Hr as ->.
    destruct (sl_write _ _ _ _ _ _ E2 Hfd Hd) as [Hd' Hfd'].
    rewrite (IH _ _ Hs Hfd' Hd' E). by rewrite <- (assoc_L (++)).
Qed.

Lemma dump_ok m p k k' :
  mem_wf m → dump_guest_memory m p k = (Ok tt, k') →
  files k' p = Some (dump_bytes m (extents (regions m))).
Proof.
  intros Hwf. unfold dump_guest_memory. intros (fd & k1 & E1%file_op_ok & E)%stm_bind_ok.
  apply sl_create in E1 as [Hfd Hd].
  apply with_file_ok in E as (k2 & E2 & ->).
  apply stm_bind_ok in E2 as ([] & k3 & E2 & E3%file_op_ok).
  rewrite sl_close. replace k2 with (fs_flush fd k3).2 by by rewrite E3. rewrite sl_flush.
  assert (Hfe : for_each (dump_region m fd) (iter_regions m) k1 =
                for_each (dump_region m fd) ((λ e, (e.1, e.2, 0)) <$> extents (regions m)) k1).
  { unfold iter_regions, extents. rewrite <- list_fmap_compose, !for_each_fmap. done. }
  rewrite Hfe in E2. apply (dump_regions_ok m fd p _ _ [] _ Hwf) in E2; [done| |done..].
  unfold extents. apply Forall_fmap. eapply Forall_impl; [apply (mwf_regions _ Hwf)|]. by intros r [].
Qed.

End DumpProofs.

(** ** The restored memory *)

(** A region mapped from the dump holds what the saved memory held. *)
Definition same_region (m : GuestMemoryMmap) (e : Z * Z) (r : GuestRegion) : Prop :=
  guest_base r = e.1 ∧ mm_size (mmap r) = e.2 ∧
  ∀ o, 0 ≤ o < e.2 → region_byte (mmap r) o = mem_byte m (e.1 + o).

Lemma zlen_region_bytes m e : 0 ≤ e.2 → zlen (region_bytes m e) = e.2.
Proof. intros. unfold region_bytes. apply zlen_fmap_seqZ. lia. Qed.

Lemma lookup_region_bytes m e o :
  0 ≤ o < e.2 → region_bytes m e !! Z.to_nat o = Some (mem_byte m (e.1 + o)).
Proof.
  intros Ho. unfold region_bytes. rewrite list_lookup_fmap, lookup_seqZ_lt by lia. simpl.
  by rewrite Z2Nat.id by lia.
Qed.

Section MapProofs.
Context {K : Type} `{SnapLaws K}.

Lemma as_i64_small z : fits 63 z → as_i64 z = z.
Proof.
  intros Hz. unfold as_i64. rewrite (wrap_small 64) by width_lia.
  destruct (z <? 2 ^ 63) eqn:E; [done|]. apply Z.ltb_ge in E. unfold fits in Hz. lia.
Qed.

Lemma map_files_ok m fd p d pre es k rs k' :
  zlen d < 2 ^ 63 → Forall (λ e, 0 ≤ e.2) es → fd_path k fd = Some p → files k p = Some d →
  d = pre ++ dump_bytes m es →
  map_files mmap_file k fd (file_regions (zlen pre) es) = (Ok rs, k') →
  Forall2 (same_region m) es rs.
Proof.
  intros Hbig. revert pre k rs. induction es as [|[b n] es IH]; intros pre k rs Hs Hfd Hd Hpre E.
  { injection E as <- _. constructor. }
  apply Forall_cons in Hs as [Hn Hs]. cbn [snd] in Hn. rewrite dump_bytes_cons in Hpre.
  cbn [file_regions map_files] in E. unfold MmapRegion_from_file in E.
  destruct (sl_mmap k fd n (zlen pre) p d Hfd Hd) as (Hfd' & Hd' & Hmap).
  destruct (mmap_file k fd n (zlen pre)) as [[e|[a g]] k1]; [done|]. cbn [fst snd] in *.
  destruct (map_files mmap_file k1 fd _) as [[rs'|e|x] k2] eqn:E'; [|done..].
  injection E as <- <-. pose proof (zlen_nonneg pre).
  pose proof (zlen_region_bytes m (b, n) Hn) as Hlen. cbn [snd] in Hlen.
  assert (Hd2 : d = (pre ++ region_bytes m (b, n)) ++ dump_bytes m es)
    by (rewrite Hpre; by rewrite (assoc_L (++))).
  assert (Hoff : as_i64 (zlen pre + as_i64 n) = zlen (pre ++ region_bytes m (b, n))).
  { pose proof (zlen_nonneg (dump_bytes m es)). rewrite Hd2, !zlen_app, Hlen in Hbig.
    rewrite (as_i64_small n) by (unfold fits; lia). rewrite as_i64_small by (unfold fits; lia).
    by rewrite zlen_app, Hlen. }
  constructor.
  - split; [done|]. split; [done|]. cbn [fst snd mmap mm_size]. intros o Ho. unfold region_byte. cbn.
    rewrite (Hmap a g eq_refl) by (rewrite ?Hd2, ?zlen_app, ?Hlen;
      pose proof (zlen_nonneg (dump_bytes m es)); lia).
    rewrite Hpre, lookup_app_r by (unfold zlen; lia).
    replace (Z.to_nat (zlen pre + o) - length pre)%nat with (Z.to_nat o) by (unfold zlen; lia).
    rewrite lookup_app_l by (unfold zlen in *; lia).
    by rewrite (lookup_region_bytes m (b, n)).
  - apply (IH (pre ++ region_bytes m (b, n)) k1 rs'); try done. rewrite <- Hoff. exact E'.
Qed.

End MapProofs.

Lemma same_extents m es rs : Forall2 (same_region m) es rs → extents rs = es.
Proof.
  induction 1 as [|[b n] r es rs (Hb & Hn & _) _ IH]; [done|]. cbn [fst snd] in *.
  change (extents (r :: rs)) with ((guest_base r, mm_size (mmap r)) :: extents rs). by rewrite IH, Hb, Hn.
Qed.

Lemma sorted_extents rs :
  StronglySorted base_le rs ↔ StronglySorted (λ e e' : Z * Z, e.1 ≤ e'.1) (extents rs).
Proof.
  assert (Hall : ∀ r rs, Forall (base_le r) rs ↔ Forall (λ e : Z * Z, guest_base r ≤ e.1) (extents rs))
    by (intros r l; unfold extents; by rewrite Forall_fmap).
  split.
  - induction 1 as [|r rs _ IH Hr]; [constructor|]. constructor; [done|]. by apply Hall.
  - induction rs as [|r rs IH]; intros Hs; [constructor|].
    apply StronglySorted_inv in Hs as [? Hr]. constructor; [auto|]. by apply Hall.
Qed.

Lemma extents_sorted rs rs' :
  extents rs = extents rs' → StronglySorted base_le rs' → StronglySorted base_le rs.
Proof. intros He. by rewrite !sorted_extents, He. Qed.

Lemma mapped_extents m a n :
  mem_mapped m a n ↔ ∃ e, e ∈ extents (regions m) ∧ e.1 ≤ a ∧ a < e.1 + e.2 ∧ a + n ≤ e.1 + e.2.
Proof.
  unfold mem_mapped, extents. rewrite Exists_exists. split.
  - intros (r & Hr & Hc). exists (guest_base r, mm_size (mmap r)). split; [|exact Hc].
    apply list_elem_of_fmap. by exists r.
  - intros (e & (r & -> & Hr)%list_elem_of_fmap & Hc). by exists r.
Qed.

(** The restored memory is the saved one. *)
Lemma same_memory m rs :
  mem_wf m → Forall2 (same_region m) (extents (regions m)) rs →
  let m' := {| regions := rs |} in
  mem_wf m' ∧ (∀ a n, mem_mapped m' a n ↔ mem_mapped m a n) ∧
  (∀ a, mem_mapped m a 1 → mem_byte m' a = mem_byte m a).
Proof.
  intros Hwf Hf m'. pose proof (same_extents _ _ _ Hf) as He.
  assert (Hwf' : mem_wf m').
  { split; unfold m'; simpl.
    - apply Forall_lookup. intros i r Hr. destruct (Forall2_lookup_r _ _ _ _ _ Hf Hr) as (e & Hi & Hb & Hn & _).
      unfold extents in Hi. apply list_lookup_fmap_Some in Hi as (r0 & -> & Hi).
      pose proof (mwf_regions _ Hwf) as Hall. rewrite Forall_lookup in Hall.
      destruct (Hall _ _ Hi). simpl in *. split; unfold region_end in *; rewrite ?Hb, ?Hn; done.
    - intros i j r r' Hij Hi Hj.
      destruct (Forall2_lookup_r _ _ _ _ _ Hf Hi) as (e & Hei & Hb & Hn & _).
      destruct (Forall2_lookup_r _ _ _ _ _ Hf Hj) as (e' & Hej & Hb' & Hn' & _).
      unfold extents in Hei, Hej. apply list_lookup_fmap_Some in Hei as (r0 & -> & Hi0).
      apply list_lookup_fmap_Some in Hej as (r1 & -> & Hi1). simpl in *.
      pose proof (mwf_disjoint _ Hwf i j r0 r1 Hij Hi0 Hi1) as Hd.
      unfold regions_disjoint, region_end in *. lia. }
  split; [done|]. split.
  - intros a n. rewrite !mapped_extents. unfold m'. simpl. by rewrite He.
  - intros a [r0 [Hr0 Hc]]%Exists_exists. apply list_elem_of_lookup in Hr0 as [i Hi].
    assert (He0 : extents (regions m) !! i = Some (guest_base r0, mm_size (mmap r0)))
      by (unfold extents; by rewrite list_lookup_fmap, Hi).
    destruct (Forall2_lookup_l _ _ _ _ _ Hf He0) as (r & Hr & Hb & Hn & Hbytes). simpl in *.
    unfold contains, region_end in Hc.
    rewrite (mem_byte_at m' i r) by (done || (unfold contains, region_end; lia)).
    rewrite Hb, Hbytes by lia. f_equal. lia.
Qed.

(** ** What a save writes *)

#[export] Instance Logged_snap_laws {K} `{SnapLaws K} : SnapLaws (K * list kvm_call).
Proof.
  refine (Build_SnapLaws _ _ _ (λ k, files k.1) (λ k, fd_path k.1) _ _ _ _ _ _ _ _ _).
  - intros p k fd k' [= E <-]. by apply (sl_create p k.1), injective_projections.
  - intros fd bs k k' p d [= E <-]. by apply (sl_write fd bs k.1), injective_projections.
  - intros fd k q. apply sl_flush.
  - intros fd k q. apply sl_close.
  - intros p bs k k' [= E <-]. by apply (sl_put p bs k.1), injective_projections.
  - intros p k d k' [= E <-]. by apply (sl_get p k.1), injective_projections.
  - intros p k fd k' [= E <-]. by apply (sl_open p k.1), injective_projections.
  - intros k fd n off p d Hp Hd. by apply (sl_mmap k.1 fd n off p d).
  - intros k q. split_and!; intros; apply (sl_kvm k.1 q).
Defined.

(** In some state the kernel answered the request with [x], or refused it. *)
Definition answered_with {K} `{KvmHost K} (fd : Z) (r : request) (n : Z) (x : reply r) : Prop :=
  ∃ k k', sys_ioctl fd r k = (inr (n, x), k').
Definition answered {K} `{KvmHost K} (fd : Z) (r : request) (x : reply r) : Prop :=
  ∃ n, answered_with (K:=K) fd r n x.
Definition refused {K} `{KvmHost K} (fd : Z) (r : request) : Prop :=
  ∃ k e k', sys_ioctl fd r k = (inl e, k').

(** A saved vCPU: what the kernel reported for it. *)
Record vcpu_saved {K} `{KvmHost K} (v : VcpuFd) (s : VcpuSnapshot) : Prop := {
  vsv_regs : answered (K:=K) (vcpu_raw_fd v) RqGetRegs (vs_regs s);
  vsv_sregs : answered (K:=K) (vcpu_raw_fd v) RqGetSregs (vs_sregs s);
  vsv_msrs : ∃ n l, vs_msrs s = take (Z.to_nat n) l ∧
    answered_with (K:=K) (vcpu_raw_fd v) (RqGetMsrs SNAPSHOT_MSRS) n l;
  vsv_xsave : vs_xsave s = [] ∧ refused (K:=K) (vcpu_raw_fd v) RqGetXsave ∨
    ∃ x, vs_xsave s = xsave_region x ∧ answered (K:=K) (vcpu_raw_fd v) RqGetXsave x;
  vsv_xcrs : vs_xcrs s = [] ∧ refused (K:=K) (vcpu_raw_fd v) RqGetXcrs ∨
    ∃ x, vs_xcrs s = take (Z.to_nat (nr_xcrs x)) (xcrs x) ∧ nr_xcrs x ≤ 16 ∧
      answered (K:=K) (vcpu_raw_fd v) RqGetXcrs x;
}.

(** The saved VM: its vCPUs, chips, timers, memory layout and queues. *)
Record vm_saved {K} `{KvmHost K} `{HostIo K} `{Block.Padding} (vm : BuiltVm)
    (cfg : VmSnapshotConfig) (s : VmSnapshot) : Prop := {
  vms_version : version s = 3;
  vms_vcpus : Forall2 (vcpu_saved (K:=K)) (bv_vcpus vm) (sn_vcpus s);
  vms_clock : answered (K:=K) (vm_raw_fd (bv_vm_fd vm)) RqGetClock (sn_clock s);
  vms_pit : answered (K:=K) (vm_raw_fd (bv_vm_fd vm)) RqGetPit2 (sn_pit s);
  vms_chips : Forall2 (λ id bs, ∃ c, bs = chip c ∧
      answered (K:=K) (vm_raw_fd (bv_vm_fd vm)) (RqGetIrqchip id) c) [0; 1; 2]
    [pic_master (sn_irqchip s); pic_slave (sn_irqchip s); ioapic (sn_irqchip s)];
  vms_regions : memory_regions s = extents (regions (bv_guest_memory vm));
  vms_config : sn_config s = cfg;
  vms_devices : virtio_devices s = saved_devices (K:=K) (bv_mmio_bus vm);
}.

Section SaveProofs.
Context {K : Type} `{KvmHost K} `{SnapHost K} `{HostIo K} `{Block.Padding}.

Lemma kvm_ctx_ok {A} msg (m : stm K KvmError A) k a k' :
  kvm_ctx msg m k = (Ok a, k') → m k = (Ok a, k').
Proof. unfold kvm_ctx, with_context. destruct (m k) as [[x|e|p] k1]; by intros [= -> ->]. Qed.

Lemma ioctl_answered fd r err k o k' :
  ioctl (K:=K) fd r err k = (o, k') →
  match o with
  | Ok (n, x) => answered_with (K:=K) fd r n x | Err _ => refused (K:=K) fd r | Panic _ => False
  end.
Proof.
  unfold ioctl, checked, syscall, throw, mbind, stm_bind, mret, stm_ret.
  destruct (sys_ioctl fd r k) as [[e|[n x]] k1] eqn:E; intros [= <- _]; repeat eexists; exact E.
Qed.

Lemma ioctl_get_answered fd r err k o k' :
  ioctl_get (K:=K) fd r err k = (o, k') →
  match o with
  | Ok x => answered (K:=K) fd r x | Err _ => refused (K:=K) fd r | Panic _ => False
  end.
Proof.
  unfold ioctl_get, mbind, stm_bind. destruct (ioctl fd r err k) as [o1 k1] eqn:E.
  apply ioctl_answered in E. destruct o1 as [[n x]|e|p]; intros [= <- _]; [|exact E..]. by exists n.
Qed.

Lemma optional_ok {A} (m : stm K KvmError A) k o k' :
  optional m k = (Ok o, k') →
  match o with Some a => m k = (Ok a, k') | None => ∃ e, m k = (Err e, k') end.
Proof.
  unfold optional. destruct (m k) as [[x|e|p] k1]; intros [= <- <-]; [done|by eexists].
Qed.

Lemma save_vcpu_ok i v k s k' :
  save_vcpu (K:=K) (i, v) k = (Ok s, k') → vcpu_saved (K:=K) v s.
Proof.
  intros (r & k1 & E1%kvm_ctx_ok & E)%stm_bind_ok. apply stm_bind_ok in E as (sr & k2 & E2%kvm_ctx_ok & E).
  apply stm_bind_ok in E as (ms & k3 & E3%kvm_ctx_ok & E).
  apply stm_bind_ok in E as (xs & k4 & E4%optional_ok & E).
  apply stm_bind_ok in E as (xc & k5 & E5%optional_ok & E).
  apply stm_bind_ok in E as (xl & k6 & E6%lift_done & [= <- _]). split; simpl.
  - by apply (ioctl_get_answered _ RqGetRegs) in E1.
  - by apply (ioctl_get_answered _ RqGetSregs) in E2.
  - unfold get_msrs in E3. apply stm_bind_ok in E3 as ([n l] & k7 & E3 & [= <- _]).
    exists n, l. split; [done|]. exact (ioctl_answered _ (RqGetMsrs SNAPSHOT_MSRS) _ _ (Ok (n, l)) _ E3).
  - destruct xs as [x|]; [right; exists x|left; destruct E4 as [e E4]];
      by apply (ioctl_get_answered _ RqGetXsave) in E4.
  - destruct E6 as [E6 _], xc as [x|]; [right|left; destruct E5 as [e E5]].
    + apply (ioctl_get_answered _ RqGetXcrs) in E5.
      unfold saved_xcrs in E6. destruct (16 <? nr_xcrs x) eqn:Hn; [done|]. injection E6 as <-.
      apply Z.ltb_ge in Hn. by exists x.
    + apply (ioctl_get_answered _ RqGetXcrs) in E5. by injection E6 as <-.
Qed.

Lemma map_stm_ok {A B} (f : A → stm K VmError B) (R : A → B → Prop) l k ys k' :
  (∀ x s y s', f x s = (Ok y, s') → R x y) → map_stm f l k = (Ok ys, k') → Forall2 R l ys.
Proof.
  intros Hf. revert k ys. induction l as [|x l IH]; intros k ys E.
  - injection E as <- _. constructor.
  - apply stm_bind_ok in E as (y & k1 & E1 & E). apply stm_bind_ok in E as (ys' & k2 & E2 & [= <- <-]).
    constructor; [exact (Hf _ _ _ _ E1)|exact (IH _ _ E2)].
Qed.

Lemma zip_snd_Forall2 {A B C} (R : B → C → Prop) (ixs : list A) (l : list B) (ys : list C) :
  length ixs = length l → Forall2 (λ x y, R x.2 y) (zip ixs l) ys → Forall2 R l ys.
Proof.
  revert l ys. induction ixs as [|i ixs IH]; intros [|x l] ys Hl HF; simplify_eq/=; inversion HF; subst.
  - constructor.
  - constructor; [done|]. by apply IH.
Qed.

End SaveProofs.

Lemma save_ok {K} `{SnapLaws K} `{HostIo K} `{Block.Padding} to_json vm dir cfg (k k' : K) f :
  mem_wf (bv_guest_memory vm) → save_snapshot to_json vm dir cfg k = (Ok f, k') →
  ∃ snap, vm_saved (K:=K) vm cfg snap ∧ f = {| state_path := (dir, "vm_state.json"%string);
                                     memory_path := (dir, "vm_memory.bin"%string) |} ∧
    files k' (state_path f) = Some (to_json snap) ∧
    files k' (memory_path f) = Some (dump_bytes (bv_guest_memory vm) (memory_regions snap)).
Proof.
  intros Hwf (? & k1 & _ & E)%stm_bind_ok. apply stm_bind_ok in E as (vs & k2 & E2 & E).
  apply stm_bind_ok in E as (clk & k3 & E3%kvm_ctx_ok%(ioctl_get_answered _ RqGetClock _) & E).
  apply stm_bind_ok in E as (pm & k4 & E4%kvm_ctx_ok%(ioctl_get_answered _ (RqGetIrqchip 0) _) & E).
  apply stm_bind_ok in E as (ps & k5 & E5%kvm_ctx_ok%(ioctl_get_answered _ (RqGetIrqchip 1) _) & E).
  apply stm_bind_ok in E as (io & k6 & E6%kvm_ctx_ok%(ioctl_get_answered _ (RqGetIrqchip 2) _) & E).
  apply stm_bind_ok in E as (pit & k7 & E7%kvm_ctx_ok%(ioctl_get_answered _ RqGetPit2 _) & E).
  apply stm_bind_ok in E as ([] & k8 & E8%(dump_ok _ _ _ _ Hwf) & E).
  apply stm_bind_ok in E as ([] & k9 & E9%file_op_ok%sl_put & [= <- <-]).
  destruct E9 as [Hs Hother]. eexists. split_and!; [|done|exact Hs|].
  - split; simpl; try done.
    + eapply zip_snd_Forall2; [|by eapply map_stm_ok; [|exact E2]; intros [i v] ?; apply save_vcpu_ok].
      unfold zlen. rewrite length_seqZ. lia.
    + repeat constructor; by eexists.
    + apply saved_regions_extents.
  - simpl. rewrite saved_regions_extents, Hother; [exact E8|]. by intros [=].
Qed.

(** ** What a restore does

    KVM requests leave the files alone. *)
Section Keeps.
Context {K : Type} `{SnapLaws K} {E : Type}.

Definition keeps {A} (m : stm K E A) : Prop := ∀ k r k', m k = (r, k') → ∀ q, files k' q = files k q.

Lemma keeps_pure {A} (r : outcome E A) : keeps (lift r).
Proof. by intros k ? k' [= _ <-]. Qed.

Lemma keeps_bind {A B} (m : stm K E A) (f : A → stm K E B) :
  keeps m → (∀ a, keeps (f a)) → keeps (m ≫= f).
Proof.
  intros Hm Hf k r k' E' q. unfold mbind, stm_bind in E'.
  destruct (m k) as [[a|e|p] k1] eqn:E1; [|injection E' as _ <-; exact (Hm _ _ _ E1 q)..].
  rewrite (Hf _ _ _ _ E'). exact (Hm _ _ _ E1 q).
Qed.

End Keeps.

Section RestoreKeeps.
Context {K : Type} `{SnapLaws K}.

Lemma keeps_syscall {A} (f : K → (Z + A) * K) :
  (∀ k q, files (f k).2 q = files k q) → keeps (syscall f).
Proof.
  intros Hf k o k' E q. unfold syscall in E. specialize (Hf k q).
  destruct (f k) as [x k1]. injection E as _ <-. exact Hf.
Qed.

Lemma keeps_close fd : keeps (close (K:=K) fd).
Proof. intros k o k' [= _ <-] q. apply (sl_kvm k q). Qed.

Lemma keeps_checked {A} (f : K → (Z + A) * K) err :
  (∀ k q, files (f k).2 q = files k q) → keeps (checked f err).
Proof.
  intros Hf. apply keeps_bind; [by apply keeps_syscall|].
  intros [e|x]; [exact (keeps_pure (Err _))|exact (keeps_pure (Ok x))].
Qed.

Lemma keeps_ioctl fd r err : keeps (ioctl (K:=K) fd r err).
Proof. apply keeps_checked. intros. apply (sl_kvm k q). Qed.

Lemma keeps_ioctl_ fd r err : keeps (ioctl_ (K:=K) fd r err).
Proof. apply keeps_bind; [apply keeps_ioctl|]. intros. exact (keeps_pure (Ok tt)). Qed.

Lemma keeps_create_vm h : keeps (create_vm (K:=K) h).
Proof. apply keeps_bind; [apply keeps_ioctl|]. intros. exact (keeps_pure (Ok _)). Qed.

Lemma keeps_Kvm_open : keeps (Kvm_open (K:=K)).
Proof.
  apply keeps_bind; [apply keeps_checked; intros; apply (sl_kvm k q)|]. intros fd.
  apply keeps_bind; [apply keeps_bind; [apply keeps_syscall; intros; apply (sl_kvm k q)|];
    intros; exact (keeps_pure (Ok _))|]. intros v.
  destruct (negb _); [apply keeps_bind; [apply keeps_close|]; intros; exact (keeps_pure (Err _))|].
  apply keeps_bind; [apply keeps_syscall; intros; apply (sl_kvm k q)|].
  intros [e|x]; [|exact (keeps_pure (Ok _))].
  apply keeps_bind; [apply keeps_close|]; intros; exact (keeps_pure (Err _)).
Qed.

Lemma keeps_ctx {A} msg (m : stm K KvmError A) : keeps m → keeps (kvm_ctx msg m).
Proof.
  intros Hm k r k' E. unfold kvm_ctx, with_context in E.
  destruct (m k) as [[a|e|p] k1] eqn:E1; injection E as _ <-; by eapply Hm.
Qed.

End RestoreKeeps.

(** The calls of a restored vCPU; what was not saved is not set. *)
Definition vcpu_restored (vm : VmFd) (cpuid : list KvmCpuidEntry2) (iv : Z * VcpuSnapshot)
    (v : VcpuFd) (calls : list kvm_call) : Prop :=
  let s := iv.2 in
  calls = [CallIoctl (vm_raw_fd vm) (RqCreateVcpu iv.1); CallMmapRun (vcpu_raw_fd v) (vm_run_size vm)] ++
    (CallIoctl (vcpu_raw_fd v) <$>
       [RqSetCpuid2 cpuid; RqSetSregs (vs_sregs s)] ++
       (if zlen (vs_xsave s) =? 1024 then [RqSetXsave {| xsave_region := vs_xsave s |}] else []) ++
       (match vs_xcrs s with
        | [] => []
        | l => [RqSetXcrs {| nr_xcrs := zlen l; xcrs_flags := 0;
                             xcrs := l ++ replicate (16 - length l) KvmXcr_default;
                             xcrs_padding := replicate 16 0 |}]
        end) ++
       (match vs_msrs s with [] => [] | l => [RqSetMsrs l] end) ++
       [RqSetRegs (vs_regs s)]).

Lemma restored_xcrs_ok l x :
  restored_xcrs l = Ok x →
  x = {| nr_xcrs := zlen l; xcrs_flags := 0; xcrs := l ++ replicate (16 - length l) KvmXcr_default;
         xcrs_padding := replicate 16 0 |}.
Proof.
  unfold restored_xcrs. destruct (16 <? zlen l); [done|]. intros [= <-]. f_equal.
  unfold splice. simpl. change [_; _; _; _; _; _; _; _; _; _; _; _; _; _; _; _]
    with (replicate 16 KvmXcr_default). by rewrite drop_replicate.
Qed.

Section RestoreCalls.
Context {K : Type} `{KvmHost K} `{SnapHost K}.

Lemma file_op_calls {A} msg (f : K * list kvm_call → (Z + A) * (K * list kvm_call)) :
  (∀ k, (f k).2.2 = k.2) → calls_ok (file_op msg f) (λ _ cs, cs = []).
Proof.
  intros Hf k a k' E%file_op_ok. exists []. rewrite app_nil_r. split; [|done].
  change k' with (inr a : Z + A, k').2. by rewrite <- E.
Qed.

Lemma ioctl_unit_always fd r err (k : K * list kvm_call) o k' :
  ioctl_ fd r err k = (o, k') → k'.2 = k.2 ++ [CallIoctl fd r].
Proof.
  unfold ioctl_, ioctl, checked, syscall, throw, mbind, stm_bind, mret, stm_ret. simpl.
  destruct (sys_ioctl fd r k.1) as [[e|x] k1]; by intros [= _ <-].
Qed.

Lemma optional_set_xcrs_calls v x :
  calls_ok (K:=K) (optional (set_xcrs v x)) (λ _ cs, cs = [CallIoctl (vcpu_raw_fd v) (RqSetXcrs x)]).
Proof.
  intros k o k' E. eexists. split; [|reflexivity]. unfold optional in E.
  destruct (set_xcrs v x k) as [[a|e|p] k1] eqn:E1; injection E as _ <-; by eapply ioctl_unit_always.
Qed.

Lemma restore_vcpu_calls vm cpuid iv :
  calls_ok (K:=K) (restore_vcpu vm cpuid iv) (vcpu_restored vm cpuid iv).
Proof.
  destruct iv as [i s]. intros k v k' E. unfold restore_vcpu in E.
  apply stm_bind_ok in E as (v0 & s1 & E1 & E). apply stm_bind_ok in E as ([] & s2 & E2 & E).
  apply stm_bind_ok in E as ([] & s3 & E3 & E). apply stm_bind_ok in E as ([] & s4 & E4 & E).
  apply stm_bind_ok in E as ([] & s5 & E5 & E). apply stm_bind_ok in E as ([] & s6 & E6 & E).
  apply stm_bind_ok in E as ([] & s7 & E7 & E). injection E as -> ->.
  apply (calls_context _ _ _ (create_vcpu_calls _ _)) in E1 as (c1 & L1 & -> & _).
  apply (calls_context _ _ _ (ioctl_unit_calls _ _ _)) in E2 as (c2 & L2 & ->).
  apply (calls_context _ _ _ (ioctl_unit_calls _ _ _)) in E3 as (c3 & L3 & ->).
  apply (calls_context _ _ _ (ioctl_unit_calls _ _ _)) in E7 as (c7 & L7 & ->).
  assert (L4 : s4.2 = s3.2 ++ (CallIoctl (vcpu_raw_fd v) <$>
    (if zlen (vs_xsave s) =? 1024 then [RqSetXsave {| xsave_region := vs_xsave s |}] else []))).
  { destruct (zlen (vs_xsave s) =? 1024).
    - by apply (calls_context _ _ _ (ioctl_unit_calls _ _ _)) in E4 as (c4 & L4 & ->).
    - injection E4 as <-. by rewrite app_nil_r. }
  assert (L6 : s6.2 = s5.2 ++ (CallIoctl (vcpu_raw_fd v) <$>
    (match vs_msrs s with [] => [] | l => [RqSetMsrs l] end))).
  { destruct (vs_msrs s).
    - injection E6 as <-. by rewrite app_nil_r.
    - by apply (calls_context _ _ _ (ioctl_unit_calls _ _ _)) in E6 as (c6 & L6 & ->). }
  eexists. split; [|reflexivity]. cbn [fst snd]. rewrite L7, L6.
  destruct (vs_xcrs s) as [|xc xl] eqn:Hx.
  - injection E5 as <-. rewrite L4, L3, L2, L1, !fmap_app, <- !(assoc_L (++)). by rewrite app_nil_l.
  - apply stm_bind_ok in E5 as (x & s8 & [E8%restored_xcrs_ok ->]%lift_done & E5).
    apply stm_bind_ok in E5 as (o & s9 & E9 & [= <-]).
    apply optional_set_xcrs_calls in E9 as (c9 & L9 & ->). rewrite E8 in L9.
    by rewrite L9, L4, L3, L2, L1, !fmap_app, <- !(assoc_L (++)).
Qed.

End RestoreCalls.

(** The slots registered for the restored memory. *)
Definition slot_request (i : nat) (r : GuestRegion) : request :=
  RqSetUserMemoryRegion
    {| slot := wrap 32 (Z.of_nat i); mr_flags := 0; guest_phys_addr := guest_base r;
       memory_size := mm_size (mmap r); userspace_addr := mm_addr (mmap r) |}.

(** A chip from its saved bytes, the rest of its 512 bytes zero. *)
Definition chip_request (id : Z) (bs : list byte) : request :=
  RqSetIrqchip {| chip_id := id; chip_padding := 0; chip := splice 0 bs (replicate 512 x00) |}.

(** Every request of a restore, in order. *)
Definition restore_calls (snap : VmSnapshot) (vm : BuiltVm) (vcpus : list (list kvm_call))
    : list kvm_call :=
  let kvm := CallIoctl (kvm_fd (bv_kvm vm)) in
  let io := CallIoctl (vm_raw_fd (bv_vm_fd vm)) in
  CallOpen :: (kvm <$> [RqGetApiVersion; RqGetVcpuMmapSize; RqCreateVm]) ++
  (io <$> [RqSetTssAddr 0xFFFBD000; RqCreateIrqchip; RqCreatePit2 pit_config] ++
     imap slot_request (regions (bv_guest_memory vm)) ++
     [chip_request 0 (pic_master (sn_irqchip snap)); chip_request 1 (pic_slave (sn_irqchip snap));
      chip_request 2 (ioapic (sn_irqchip snap)); RqSetPit2 (sn_pit snap)]) ++
  [kvm (RqGetSupportedCpuid 256)] ++ concat vcpus ++
  [io (RqSetClock (restored_clock (sn_clock snap)))].

Section RestoreProofs.
Context {K : Type} `{SnapLaws K}.

Lemma read_state_ok from_json dir (k : K) s k' :
  read_state from_json dir k = (Ok s, k') →
  (∃ d, files k (dir, "vm_state.json"%string) = Some d ∧ from_json d = Some s) ∧
  ∀ q, files k' q = files k q.
Proof.
  intros (d & k1 & [Hd Hf]%file_op_ok%sl_get & E)%stm_bind_ok.
  destruct (negb (utf8_valid d)); [done|].
  apply stm_bind_ok in E as (s' & k2 & [E ->]%lift_done & E2).
  destruct (_ <? _); [done|]. injection E2 as <- <-. split; [|done]. exists d. split; [done|].
  destruct (from_json d); [|done]. by injection E as ->.
Qed.

Lemma read_state_calls from_json dir :
  calls_ok (K:=K) (read_state from_json dir) (λ _ cs, cs = []).
Proof.
  intros k s k' (d & k1 & E1 & E)%stm_bind_ok.
  apply (file_op_calls _ (fs_get _)) in E1 as (c1 & L1 & ->); [|done].
  destruct (negb (utf8_valid d)); [done|].
  apply stm_bind_ok in E as (s' & k2 & [_ ->]%lift_done & E2).
  destruct (_ <? _); [done|]. injection E2 as <- <-. by exists [].
Qed.

Lemma map_snapshot_calls fd rs : calls_ok (K:=K) (map_snapshot fd rs) (λ _ cs, cs = []).
Proof.
  intros k m k' E. exists []. rewrite app_nil_r. split; [|done]. unfold map_snapshot in E.
  destruct (GuestMemoryMmap_from_file mmap_file k fd (file_regions 0 rs)) as [[a|e|p] k1] eqn:Em; [|done..].
  injection E as <- <-. unfold GuestMemoryMmap_from_file in Em.
  destruct (map_files mmap_file k fd (file_regions 0 rs)) as [o k2] eqn:Ef.
  injection Em as _ <-. clear - Ef. revert k o k2 Ef. generalize (file_regions 0 rs) as l.
  induction l as [|[[b n] off] l IH]; intros k o k2 Ef; [by injection Ef as _ <-|].
  cbn [map_files] in Ef. unfold MmapRegion_from_file in Ef.
  change (mmap_file k fd n off) with (keep_log (mmap_file k.1 fd n off) k.2) in Ef. unfold keep_log in Ef.
  destruct (mmap_file k.1 fd n off) as [[e|[a g]] k1]; cbn [fst snd] in Ef;
    [by injection Ef as _ <-|].
  destruct (map_files mmap_file (k1, k.2) fd l) as [[r|e|p] k3] eqn:E3; injection Ef as _ <-;
    by rewrite (IH _ _ _ E3).
Qed.

Lemma with_file_calls {A} fd (m : stm (K * list kvm_call) VmError A) R :
  calls_ok m R → calls_ok (with_file fd m) R.
Proof. intros Hm k a k' (k1 & E & ->)%with_file_ok. exact (Hm _ _ _ E). Qed.

Lemma for_each_calls {A} (f : A → stm (K * list kvm_call) VmError unit) R l k k' :
  (∀ x, calls_ok (f x) (λ _, R x)) → for_each f l k = (Ok tt, k') →
  ∃ css, k'.2 = k.2 ++ concat css ∧ Forall2 R l css.
Proof.
  intros Hf. revert k. induction l as [|x l IH]; intros k E.
  - injection E as <-. exists []. rewrite app_nil_r. split; [done|constructor].
  - apply stm_bind_ok in E as ([] & k1 & (c & L & HR)%(Hf x) & (css & L2 & HF)%IH).
    exists (c :: css). rewrite L2, L. simpl. rewrite (assoc_L (++)). split; [done|by constructor].
Qed.

Lemma register_region_calls vm m ir :
  calls_ok (K:=K) (register_region vm m ir) (λ _ cs, ∃ r, regions m !! ir.1 = Some r ∧
    cs = [CallIoctl (vm_raw_fd vm)
            (RqSetUserMemoryRegion {| slot := wrap 32 (Z.of_nat ir.1); mr_flags := 0;
               guest_phys_addr := ir.2.1; memory_size := ir.2.2; userspace_addr := mm_addr (mmap r) |})]).
Proof.
  destruct ir as [i [a n]]. intros k [] k' (h & k1 & [Eh ->]%lift_done & E)%stm_bind_ok.
  apply (calls_context _ _ _ (ioctl_unit_calls _ _ _)) in E as (c & L & ->).
  eexists. split; [exact L|]. unfold region_host_addr in Eh.
  destruct (regions m !! i) as [r|] eqn:Hr; [|done]. injection Eh as <-. by exists r.
Qed.

(** The slots follow the regions of the restored memory. *)
Lemma slots_ok vm (m : GuestMemoryMmap) css :
  Forall2 (λ (ir : nat * (Z * Z)) cs, ∃ r, regions m !! ir.1 = Some r ∧
    cs = [CallIoctl (vm_raw_fd vm)
            (RqSetUserMemoryRegion {| slot := wrap 32 (Z.of_nat ir.1); mr_flags := 0;
               guest_phys_addr := ir.2.1; memory_size := ir.2.2; userspace_addr := mm_addr (mmap r) |})])
    (zip (seq 0 (length (extents (regions m)))) (extents (regions m))) css →
  concat css = CallIoctl (vm_raw_fd vm) <$> imap slot_request (regions m).
Proof.
  rewrite <- (imap_ext (λ i r, slot_request (0 + i) r)) by done.
  assert (Hgen : ∀ i rs, (∀ j r, rs !! j = Some r → regions m !! (i + j)%nat = Some r) → ∀ css,
    Forall2 (λ (ir : nat * (Z * Z)) cs, ∃ r, regions m !! ir.1 = Some r ∧
    cs = [CallIoctl (vm_raw_fd vm)
            (RqSetUserMemoryRegion {| slot := wrap 32 (Z.of_nat ir.1); mr_flags := 0;
               guest_phys_addr := ir.2.1; memory_size := ir.2.2; userspace_addr := mm_addr (mmap r) |})])
    (zip (seq i (length (extents rs))) (extents rs)) css →
    concat css = CallIoctl (vm_raw_fd vm) <$> imap (λ j r, slot_request (i + j) r) rs).
  { intros i rs. revert i. induction rs as [|r rs IH]; intros i Hrs cs HF.
    { by inversion HF. }
    cbn in HF. apply Forall2_cons_inv_l in HF as (c & cs' & (r' & Hr' & ->) & HF & ->). cbn in Hr'.
    assert (r' = r) as ->.
    { specialize (Hrs 0%nat r eq_refl). rewrite Nat.add_0_r in Hrs. congruence. }
    simpl. rewrite Nat.add_0_r. f_equal. rewrite (IH (S i)); [| |exact HF].
    - f_equal. apply imap_ext. intros j x _. simpl. f_equal. lia.
    - intros j x Hx. rewrite Nat.add_succ_comm. by apply Hrs. }
  by apply (Hgen 0%nat (regions m)).
Qed.

Lemma restore_chip_calls vm msg id bs :
  calls_ok (K:=K) (restore_chip vm msg id bs)
    (λ _ cs, cs = [CallIoctl (vm_raw_fd vm) (chip_request id bs)]).
Proof.
  intros k [] k' (c & k1 & [Ec ->]%lift_done & E)%stm_bind_ok.
  apply (calls_context _ _ _ (ioctl_unit_calls _ _ _)) in E as (c' & L & ->).
  eexists. split; [exact L|]. unfold restored_chip in Ec. destruct (_ <? _); [done|]. by injection Ec as <-.
Qed.

Lemma get_supported_cpuid_calls h n :
  calls_ok (K:=K) (get_supported_cpuid h n) (λ _ cs, cs = [CallIoctl (kvm_fd h) (RqGetSupportedCpuid n)]).
Proof.
  intros k es k' (x & k1 & E & [= _ <-])%stm_bind_ok.
  by apply (ioctl_get_calls _ (RqGetSupportedCpuid n)) in E.
Qed.

(** The mapping of the dump, when the saved layout is in address order. *)
Lemma map_snapshot_ok m fd p k m' k' :
  mem_wf m → StronglySorted base_le (regions m) →
  zlen (dump_bytes m (extents (regions m))) < 2 ^ 63 →
  fd_path k fd = Some p → files k p = Some (dump_bytes m (extents (regions m))) →
  map_snapshot fd (extents (regions m)) k = (Ok m', k') →
  Forall2 (same_region m) (extents (regions m)) (regions m').
Proof.
  intros Hwf Hs Hbig Hfd Hd E. unfold map_snapshot, GuestMemoryMmap_from_file in E.
  destruct (map_files mmap_file k fd _) as [[rs|e|x] k1] eqn:Em; simpl in E; [|done..].
  injection E as <- _. simpl.
  assert (HF : Forall2 (same_region m) (extents (regions m)) rs).
  { apply (map_files_ok m fd p (dump_bytes m (extents (regions m))) [] _ k rs k1); [exact Hbig| |done|exact Hd|done|exact Em].
    unfold extents. rewrite Forall_fmap. eapply Forall_impl; [apply (mwf_regions _ Hwf)|].
    by intros r [_ [? _]]. }
  rewrite sort_sorted; [done|]. eapply extents_sorted; [|exact Hs]. by apply same_extents with m.
Qed.

End RestoreProofs.

Lemma lift_calls {K A} (r : outcome VmError A) k (a : A) k' :
  lift (S:=K) r k = (Ok a, k') → r = Ok a ∧ k' = k.
Proof. by intros [= -> ->]. Qed.

Lemma force_activate_net {W} `{HostIo W} `{Block.Padding} (t : MmioTransport AnyDevice) n qs :
  device t = DynNet n → guest_memory t = true →
  ∃ t' n', force_activate (M:=GuestMemoryMmap) (W:=W) t qs = Ok t' ∧ device t' = DynNet n' ∧
    net_queues n' = Some qs.
Proof. intros Hd Hg. unfold force_activate. rewrite Hg, Hd. by eexists _, _. Qed.

(** The network device, activated on the saved queues, is saved again alike. *)
Lemma restored_net_saved {K W} `{HostIo K} `{HostIo W} `{Block.Padding} vm name (qs : list Queue) bus :
  activate_devices (K:=W) (restored_bus (K:=W) vm (Some name))
    [{| vd_device_type := VIRTIO_NET_DEVICE_TYPE; vd_queues := save_queue <$> qs |}] = Ok bus →
  saved_devices (K:=K) bus =
    [{| vd_device_type := VIRTIO_NET_DEVICE_TYPE; vd_queues := save_queue <$> qs |}].
Proof.
  cbn [activate_devices vd_device_type vd_queues]. rewrite restore_save_queues.
  intros (b & E & [= <-])%outcome_bind_ok. unfold restored_bus, force_activate_device in E.
  cbn [devices register set_vm_fd bus_new app] in E.
  erewrite (force_first_at _ _ _ 1%nat) in E;
    [|reflexivity|reflexivity|intros [|j] d' Hj Hd'; [by injection Hd' as <-|lia]].
  cbn [transport] in E.
  destruct (force_activate_net (W:=W) (new_transport (K:=W) (DynNet (Net_new name restored_mac)))
    (Net_new name restored_mac) qs eq_refl eq_refl) as (t & n & Hf & Hd & Hq).
  rewrite Hf in E. injection E as <-. unfold saved_devices, snapshot_virtio_queues, set_transport.
  cbn [devices list_insert insert snapshot_devices transport].
  unfold get_activated_queue_states, transport_type. rewrite Hd. cbn. by rewrite Hq.
Qed.

(** The steps of a restore. *)
Lemma restore_steps {K} `{SnapLaws K} `{HostIo K} `{Block.Padding} from_json dir tap
    (s : K * list kvm_call) vm s' :
  restore_snapshot from_json dir tap s = (Ok vm, s') →
  ∃ snap d fd s1 s2 css,
    files s.1 (dir, "vm_state.json"%string) = Some d ∧ from_json d = Some snap ∧
    fd_path s1.1 fd = Some (dir, "vm_memory.bin"%string) ∧ (∀ q, files s1.1 q = files s.1 q) ∧
    map_snapshot fd (memory_regions snap) s1 = (Ok (bv_guest_memory vm), s2) ∧
    activate_devices (K:=K * list kvm_call) (restored_bus (K:=K * list kvm_call) (bv_vm_fd vm) tap)
      (virtio_devices snap) = Ok (bv_mmio_bus vm) ∧
    (∃ cpuid, Forall3 (vcpu_restored (bv_vm_fd vm) cpuid)
       (zip (seqZ 0 (zlen (sn_vcpus snap))) (sn_vcpus snap)) (bv_vcpus vm) css) ∧
    (extents (regions (bv_guest_memory vm)) = memory_regions snap →
     s'.2 = s.2 ++ restore_calls snap vm css).
Proof.
  intros (snap & s1 & E1 & E)%stm_bind_ok.
  apply stm_bind_ok in E as (kvm & s2 & E2 & E). apply stm_bind_ok in E as (vmf & s3 & E3 & E).
  apply stm_bind_ok in E as ([] & s4 & E4 & E). apply stm_bind_ok in E as ([] & s5 & E5 & E).
  apply stm_bind_ok in E as ([] & s6 & E6 & E). apply stm_bind_ok in E as (fd & s7 & E7 & E).
  apply stm_bind_ok in E as (mem & s8 & E8 & E). apply stm_bind_ok in E as ([] & s9 & E9 & E).
  apply stm_bind_ok in E as ([] & s10 & E10 & E). apply stm_bind_ok in E as ([] & s11 & E11 & E).
  apply stm_bind_ok in E as ([] & s12 & E12 & E). apply stm_bind_ok in E as ([] & s13 & E13 & E).
  apply stm_bind_ok in E as (cpuid & s14 & E14 & E). apply stm_bind_ok in E as (vcpus & s15 & E15 & E).
  apply stm_bind_ok in E as ([] & s16 & E16 & E). apply stm_bind_ok in E as (bus & s17 & E17 & [= <- <-]).
  apply lift_calls in E17 as [E17%map_err_done ->].
  destruct (read_state_ok _ _ _ _ _ E1) as [(d & Hd & Hj) Hq1].
  apply read_state_calls in E1 as (c1 & L1 & ->).
  pose proof (keeps_ctx _ _ keeps_Kvm_open _ _ _ E2) as Hq2.
  pose proof (keeps_ctx _ _ (keeps_create_vm _) _ _ _ E3) as Hq3.
  pose proof (keeps_ctx _ _ (keeps_ioctl_ _ _ _) _ _ _ E4) as Hq4.
  pose proof (keeps_ctx _ _ (keeps_ioctl_ _ _ _) _ _ _ E5) as Hq5.
  pose proof (keeps_ctx _ _ (keeps_ioctl_ _ _ _) _ _ _ E6) as Hq6.
  pose proof (sl_open _ _ _ _ (file_op_ok _ _ _ _ _ E7)) as [Hfd Hq7].
  apply (file_op_calls _ (fs_open _)) in E7 as (c7 & L7 & ->); [|done].
  pose proof E8 as (k8 & Em & _)%with_file_ok.
  apply (with_file_calls _ _ _ (map_snapshot_calls _ _)) in E8 as (c8 & L8 & ->).
  apply kvm_ctx_ok, Kvm_open_calls in E2 as (c2 & L2 & ->).
  apply (calls_context _ _ _ (create_vm_calls _)) in E3 as (c3 & L3 & -> & _).
  apply (calls_context _ _ _ (ioctl_unit_calls _ _ _)) in E4 as (c4 & L4 & ->).
  apply (calls_context _ _ _ (ioctl_unit_calls _ _ _)) in E5 as (c5 & L5 & ->).
  apply (calls_context _ _ _ (ioctl_unit_calls _ _ _)) in E6 as (c6 & L6 & ->).
  apply (for_each_calls _ _ _ _ _ (register_region_calls _ _)) in E9 as (c9 & L9 & Hslots).
  apply restore_chip_calls in E10 as (c10 & L10 & ->).
  apply restore_chip_calls in E11 as (c11 & L11 & ->).
  apply restore_chip_calls in E12 as (c12 & L12 & ->).
  apply (calls_context _ _ _ (ioctl_unit_calls _ _ _)) in E13 as (c13 & L13 & ->).
  apply (calls_context _ _ _ (get_supported_cpuid_calls _ _)) in E14 as (c14 & L14 & ->).
  apply (map_stm_calls _ _ _ _ _ _ (restore_vcpu_calls _ _)) in E15 as (c15 & L15 & Hv).
  apply (calls_context _ _ _ (ioctl_unit_calls _ _ _)) in E16 as (c16 & L16 & ->).
  exists snap, d, fd, s7, k8, c15. simpl. split_and!; try done.
  - intros q. change (files s7.1 q) with (files s7 q). change (files s.1 q) with (files s q).
    by rewrite Hq7, Hq6, Hq5, Hq4, Hq3, Hq2, Hq1.
  - by exists cpuid.
  - intros He. rewrite <- He in Hslots. apply slots_ok in Hslots.
    rewrite L16, L15, L14, L13, L12, L11, L10, L9, Hslots, L8, L7, L6, L5, L4, L3, L2, L1.
    unfold restore_calls. simpl. rewrite !fmap_app, !app_nil_r, <- !(assoc_L (++)). done.
Qed.

(** C14. A snapshot restores the VM.  Restored from the files a save wrote,
    with the JSON reader inverting the writer on what was saved, a VM has the
    saved one's memory, every mapped byte of it, mapped at the same addresses;
    and KVM received exactly [restore_calls]: the slots of the new mapping, the
    interrupt chips, timer, clock and registers the kernel had reported for
    the saved VM, its vCPUs created in order.  A network device saved as the
    only one with queues, and restored with a TAP, has the same queues.  The
    local APICs are not among the calls: their state is not saved. *)
Theorem snapshot_roundtrip {K} `{SnapLaws K} `{HostIo K} `{Block.Padding} to_json from_json
    vm dir cfg tap (k k1 k2 k3 : K) f l vm' l' :
  let mem := bv_guest_memory vm in let mem' := bv_guest_memory vm' in
  mem_wf mem → StronglySorted base_le (regions mem) →
  zlen (dump_bytes mem (extents (regions mem))) < 2 ^ 63 →
  (∀ s, vm_saved (K:=K) vm cfg s → from_json (to_json s) = Some s) →
  save_snapshot to_json vm dir cfg k = (Ok f, k1) →
  files k2 (state_path f) = files k1 (state_path f) →
  files k2 (memory_path f) = files k1 (memory_path f) →
  restore_snapshot from_json dir tap (k2, l) = (Ok vm', (k3, l')) →
  mem_wf mem' ∧ (∀ a n, mem_mapped mem' a n ↔ mem_mapped mem a n) ∧
  (∀ a, mem_mapped mem a 1 → mem_byte mem' a = mem_byte mem a) ∧
  (∃ snap cpuid css, vm_saved (K:=K) vm cfg snap ∧ l' = l ++ restore_calls snap vm' css ∧
     Forall3 (vcpu_restored (bv_vm_fd vm') cpuid)
       (zip (seqZ 0 (zlen (sn_vcpus snap))) (sn_vcpus snap)) (bv_vcpus vm') css) ∧
  (∀ name qs, tap = Some name →
     saved_devices (K:=K) (bv_mmio_bus vm) =
       [{| vd_device_type := VIRTIO_NET_DEVICE_TYPE; vd_queues := save_queue <$> qs |}] →
     saved_devices (K:=K) (bv_mmio_bus vm') = saved_devices (K:=K) (bv_mmio_bus vm)).
Proof.
  intros mem mem' Hwf Hsort Hbig Hjson (snap & Hsaved & -> & Hstate & Hmem)%(save_ok _ _ _ _ _ _ _ Hwf) Hks Hkm
    (snap' & d & fd & s1 & s2 & css & Hd & Hj & Hfd & Hf & Em & Hbus & [cpuid Hv] & Hcalls)%restore_steps.
  simpl in Hks, Hkm, Hstate, Hmem, Hd.
  assert (snap' = snap) as ->.
  { rewrite Hks, Hstate in Hd. injection Hd as <-. rewrite (Hjson _ Hsaved) in Hj. by injection Hj. }
  rewrite (vms_regions _ _ _ Hsaved) in Em, Hmem.
  assert (HF : Forall2 (same_region mem) (extents (regions mem)) (regions mem')).
  { apply (map_snapshot_ok mem fd (dir, "vm_memory.bin"%string) s1 mem' s2); try done.
    change (files s1.1 (dir, "vm_memory.bin"%string) = Some (dump_bytes mem (extents (regions mem)))).
    rewrite Hf. exact (eq_trans Hkm Hmem). }
  destruct (same_memory mem _ Hwf HF) as (Hwf' & Hm & Hb).
  assert (Hmm : mem' = {| regions := regions mem' |}) by by destruct mem'.
  rewrite <- Hmm in Hwf', Hm, Hb. split_and!; [done..| |].
  - exists snap, cpuid, css. split; [done|]. split; [|done]. apply Hcalls.
    rewrite (vms_regions _ _ _ Hsaved). by apply (same_extents mem).
  - intros name qs -> Hdev. rewrite Hdev. rewrite (vms_devices _ _ _ Hsaved), Hdev in Hbus.
    by apply (restored_net_saved (K:=K) (W:=K * list kvm_call)) with (vm := bv_vm_fd vm') (name := name).
Qed.

(** ** Witness

    A disk and a table of descriptors beside [demo_kvm]. *)
Record demo_disk : Type := {
  dk_kvm : demo_kvm; dk_files : gmap fpath (list byte); dk_fds : gmap Z fpath }.

Definition lift_kvm {A} (k : demo_disk) (r : A * demo_kvm) : A * demo_disk :=
  (r.1, {| dk_kvm := r.2; dk_files := dk_files k; dk_fds := dk_fds k |}).

#[export] Instance demo_disk_kvm : KvmHost demo_disk := {
  sys_open_kvm k := lift_kvm k (sys_open_kvm (dk_kvm k));
  sys_ioctl fd r k := lift_kvm k (sys_ioctl fd r (dk_kvm k));
  sys_mmap_run fd n k := lift_kvm k (sys_mmap_run fd n (dk_kvm k));
  sys_munmap _ _ k := k;
  sys_close _ k := k;
}.
#[export] Instance demo_disk_io : HostIo demo_disk := {
  tap_read w _ _ := ([], w); tap_write w _ _ := w; eventfd_signal w _ := w; irq_line w _ _ _ := w;
}.

Definition with_fd (k : demo_disk) (p : fpath) (fs : gmap fpath (list byte)) : (Z + Z) * demo_disk :=
  let fd := next_fd (dk_kvm k) in
  (inr fd, {| dk_kvm := {| next_fd := fd + 1 |}; dk_files := fs; dk_fds := <[fd := p]> (dk_fds k) |}).
Definition put (k : demo_disk) (p : fpath) (bs : list byte) : demo_disk :=
  {| dk_kvm := dk_kvm k; dk_files := <[p := bs]> (dk_files k); dk_fds := dk_fds k |}.
Definition fd_data (k : demo_disk) (fd : Z) : option (fpath * list byte) :=
  p ← dk_fds k !! fd; d ← dk_files k !! p; Some (p, d).

#[export] Instance demo_disk_snap : SnapHost demo_disk := {
  fs_create_dir_all _ k := (inr tt, k);
  fs_create p k := with_fd k p (<[p := []]> (dk_files k));
  fs_write_all fd bs k :=
    match fd_data k fd with Some (p, d) => (inr tt, put k p (d ++ bs)) | None => (inl 9, k) end;
  fs_flush _ k := (inr tt, k);
  fs_put p bs k := (inr tt, put k p bs);
  fs_get p k := match dk_files k !! p with Some d => (inr d, k) | None => (inl 2, k) end;
  fs_open p k := match dk_files k !! p with Some _ => with_fd k p (dk_files k) | None => (inl 2, k) end;
  fs_read_exact fd n k :=
    match fd_data k fd with Some (_, d) => (inr (take (Z.to_nat n) d), k) | None => (inl 9, k) end;
  fs_close _ k := k;
  mmap_file k fd n off :=
    match fd_data k fd with
    | Some (_, d) => (inr (0x7d0000000000, list_to_map (zip (seqZ 0 n) (sub_list off n d))), k)
    | None => (inl 9, k)
    end;
}.

Lemma zip_seqZ_lookup {A} n (l : list A) i :
  0 ≤ i < n → n ≤ zlen l →
  (list_to_map (zip (seqZ 0 n) l) : gmap Z A) !! i = l !! Z.to_nat i.
Proof.
  intros Hi Hn. destruct (lookup_lt_is_Some_2 l (Z.to_nat i)) as [x Hx]; [unfold zlen in Hn; lia|].
  rewrite Hx. apply elem_of_list_to_map_1.
  - rewrite fst_zip by (rewrite length_seqZ; unfold zlen in Hn; lia). apply NoDup_seqZ.
  - apply list_elem_of_lookup. exists (Z.to_nat i). apply lookup_zip_Some. split; [|done].
    rewrite lookup_seqZ_lt by lia. f_equal. lia.
Qed.

#[export] Instance demo_disk_laws : SnapLaws demo_disk.
Proof.
  refine (Build_SnapLaws _ _ _ (λ k p, dk_files k !! p) (λ k fd, dk_fds k !! fd) _ _ _ _ _ _ _ _ _).
  - intros p k fd k' [= <- <-]. simpl. by rewrite !lookup_insert_eq.
  - intros fd bs k k' p d E Hp Hd. simpl in E. unfold fd_data in E. rewrite Hp in E. simpl in E.
    rewrite Hd in E. injection E as <-. simpl. by rewrite lookup_insert_eq.
  - done.
  - done.
  - intros p bs k k' [= <-]. simpl. rewrite lookup_insert_eq. split; [done|].
    intros q Hq. by rewrite lookup_insert_ne.
  - intros p k d k' E. simpl in E. destruct (dk_files k !! p); [|done]. by injection E as -> ->.
  - intros p k fd k' E. simpl in E. destruct (dk_files k !! p); [|done]. injection E as <- <-. simpl.
    by rewrite lookup_insert_eq.
  - intros k fd n off p d Hp Hd. simpl. unfold fd_data. rewrite Hp. simpl. rewrite Hd. simpl.
    split; [done|]. split; [done|]. intros a g [= _ <-] Ho Hn i Hi.
    rewrite zip_seqZ_lookup by (rewrite ?zlen_sub_list; lia). unfold sub_list.
    rewrite lookup_take_lt, lookup_drop by lia. f_equal. lia.
  - done.
Defined.

Definition demo_saved_mem : GuestMemoryMmap :=
  let region ba sz l := {| guest_base := ba; mmap := {| mm_addr := 0x7e0000000000; mm_size := sz;
    mm_hugetlb := false; mm_data := list_to_map l |} |} in
  {| regions := [region 0 8 [(0, z2b 1); (7, z2b 2)]; region 16 8 [(3, z2b 5)]] |}.

Lemma demo_saved_extents : extents (regions demo_saved_mem) = [(0, 8); (16, 8)].
Proof. reflexivity. Qed.

Lemma demo_saved_wf : mem_wf demo_saved_mem.
Proof.
  apply (layout_ok_wf (regions demo_saved_mem)). rewrite demo_saved_extents. split.
  - repeat constructor; vm_compute; congruence.
  - intros [|[|i]] [|[|j]] b s b' s' Hij Hi Hj; simplify_eq/=; lia.
Qed.

Lemma demo_saved_sorted : StronglySorted base_le (regions demo_saved_mem).
Proof. apply sorted_extents. rewrite demo_saved_extents. by repeat constructor. Qed.

Definition demo_saved_vm : BuiltVm :=
  {| bv_kvm := {| kvm_fd := 3; kvm_run_size := 12288 |};
     bv_vm_fd := {| vm_raw_fd := 4; vm_run_size := 12288 |};
     bv_vcpus := [{| vcpu_raw_fd := 5; kvm_run := 0; mmap_size := 12288 |}];
     bv_guest_memory := demo_saved_mem;
     bv_mmio_bus := default bus_new (match activate_devices (K:=demo_disk)
        (restored_bus (K:=demo_disk) {| vm_raw_fd := 4; vm_run_size := 12288 |} (Some "nova-tap0"%string))
        [{| vd_device_type := VIRTIO_NET_DEVICE_TYPE;
            vd_queues := save_queue <$> [demo_queue 4; demo_queue 8] |}] with
        | Ok b => Some b | _ => None end);
     bv_network_setup := None |}.

Definition demo_snap_config : VmSnapshotConfig :=
  {| sc_vcpus := 1; sc_memory_mib := 64; sc_kernel_cmdline := EmptyString |}.

Definition demo_snapshot : VmSnapshot :=
  let chip_of i := chip (zero_reply (RqGetIrqchip i)) in
  {| version := 3;
     sn_vcpus := [{| vs_regs := zero_regs; vs_sregs := zero_sregs;
                     vs_msrs := zero_reply (RqGetMsrs SNAPSHOT_MSRS);
                     vs_xsave := xsave_region (zero_reply RqGetXsave); vs_xcrs := [] |}];
     sn_clock := zero_reply RqGetClock;
     sn_irqchip := {| pic_master := chip_of 0; pic_slave := chip_of 1; ioapic := chip_of 2 |};
     sn_pit := zero_pit; memory_regions := extents (regions demo_saved_mem);
     sn_config := demo_snap_config;
     virtio_devices := saved_devices (K:=demo_disk) (bv_mmio_bus demo_saved_vm) |}.

Definition demo_snap_files : SnapshotFiles :=
  {| state_path := ("snap", "vm_state.json"); memory_path := ("snap", "vm_memory.bin") |}%string.

Lemma demo_answered fd r n x :
  answered_with (K:=demo_disk) fd r n x → x = zero_reply r ∧ ∃ k, n = demo_return r k.
Proof. intros (k & k' & [= <- <- _]). split; [done|by eexists]. Qed.

Lemma demo_saved s : vm_saved (K:=demo_disk) demo_saved_vm demo_snap_config s → s = demo_snapshot.
Proof.
  assert (Ha : ∀ fd r x, answered (K:=demo_disk) fd r x → x = zero_reply r)
    by (intros fd r x (n & [? _]%demo_answered); done).
  assert (Hr : ∀ fd r, ¬ refused (K:=demo_disk) fd r) by (by intros fd r (k & e & k' & [=])).
  destruct s as [ver vs clk [pm ps io] pit rg cf dv]. intros []. simpl in *. unfold demo_snapshot.
  inversion vms_vcpus0 as [|v [r sr ms xs xc] vs0 vs1 Hv Hvs]; subst. inversion Hvs; subst.
  inversion vms_chips0 as [|? ? ? ? (c0 & -> & ->%Ha) Hc]; subst.
  inversion Hc as [|? ? ? ? (c1 & -> & ->%Ha) Hc1]; subst.
  inversion Hc1 as [|? ? ? ? (c2 & -> & ->%Ha) _]; subst. f_equal; [|by apply Ha in vms_clock0|by apply Ha in vms_pit0].
  destruct Hv as [Hrg%Ha Hsr%Ha (n & l & Hms & [-> [k ->]]%demo_answered) Hx Hxc]. simpl in *.
  subst r sr ms. f_equal. f_equal.
  - destruct Hx as [[_ []%Hr]|(x & -> & ->%Ha)]. done.
  - destruct Hxc as [[_ []%Hr]|(x & -> & _ & ->%Ha)]. done.
Qed.

Lemma snapshot_roundtrip_witness :
  let k := {| dk_kvm := {| next_fd := 6 |}; dk_files := ∅; dk_fds := ∅ |} in
  let to_json := λ _, string_bytes "{}" in
  match save_snapshot to_json demo_saved_vm "snap" demo_snap_config k with
  | (Ok f, k1) =>
      match restore_snapshot (λ _, Some demo_snapshot) "snap" (Some "nova-tap0"%string) (k1, []) with
      | (Ok vm', _) =>
          mem_byte (bv_guest_memory vm') 7 = z2b 2 ∧ mem_byte (bv_guest_memory vm') 19 = z2b 5 ∧
          saved_devices (K:=demo_disk) (bv_mmio_bus vm') =
            [{| vd_device_type := 1; vd_queues := save_queue <$> [demo_queue 4; demo_queue 8] |}]
      | _ => False
      end
  | _ => False
  end.
Proof.
  intros k to_json.
  destruct (save_snapshot to_json demo_saved_vm "snap" demo_snap_config k) as [r1 k1] eqn:E1.
  assert (Hr1 : r1 = Ok demo_snap_files)
    by (change r1 with (r1, k1).1; rewrite <- E1; by vm_compute).
  destruct (restore_snapshot (λ _, Some demo_snapshot) "snap" (Some "nova-tap0"%string) (k1, []))
    as [r2 [k3 l']] eqn:E2.
  assert (Hok2 : is_ok r2 = true).
  { change r2 with (r2, (k3, l')).1. rewrite <- E2. change k1 with (r1, k1).2. rewrite <- E1. by vm_compute. }
  rewrite Hr1 in E1 |- *. destruct r2 as [vm'|e|p]; [|discriminate..].
  destruct (snapshot_roundtrip to_json (λ _, Some demo_snapshot) demo_saved_vm "snap" demo_snap_config
    (Some "nova-tap0"%string) k k1 k1 k3 demo_snap_files [] vm' l') as (_ & _ & Hb & _ & Hd); [| | | |exact E1|..|exact E2|];
    [..|clear E1 E2 Hok2; split_and!].
  - exact demo_saved_wf.
  - exact demo_saved_sorted.
  - by vm_compute.
  - intros s ->%demo_saved. done.
  - done.
  - done.
  - rewrite Hb; [by vm_compute|]. apply mapped_extents. exists (0, 8).
    change (bv_guest_memory demo_saved_vm) with demo_saved_mem. rewrite demo_saved_extents.
    split; [by left|simpl; lia].
  - rewrite Hb; [by vm_compute|]. apply mapped_extents. exists (16, 8).
    change (bv_guest_memory demo_saved_vm) with demo_saved_mem. rewrite demo_saved_extents.
    split; [by right; left|simpl; lia].
  - rewrite (Hd _ [demo_queue 4; demo_queue 8] eq_refl ltac:(by vm_compute)). by vm_compute.
Defined.
