(* ===== verification/Registry.v ===== *)
(** * The registry client (nova-api/src/registry.rs)

    Image references, and the pull of an image from a container registry into
    an OCI layout directory.  HTTP is a host interface that answers any way it
    likes; serde_json and SHA-256 are parameters. *)

From S2P Require Import Prelude Pool Wasm Sandbox Store Oci Initrd Extract Caches Pull.

Inductive RegistryError : Type :=
| Http (e : string)
| Auth (e : string)
| ManifestNotFound (e : string)
| NoPlatformMatch
| DigestMismatch (expected actual : string)
| RegIo (e : string)
| InvalidReference (e : string)
| Json (e : string).

(** ** String operations of the standard library

    On the bytes of a [String]: a UTF-8 pattern is found at character
    boundaries only. *)

(** The text before and after the first ([find]) and the last ([rfind])
    occurrence of a pattern, and of a character. *)
Fixpoint split_first (p s : string) : option (string * string) :=
  match strip_prefix p s with
  | Some r => Some ("", r)
  | None => match s with
            | EmptyString => None
            | String c s => '(a, b) ← split_first p s; Some (String c a, b)
            end
  end.

Fixpoint split_last (ch : Ascii.ascii) (s : string) : option (string * string) :=
  match s with
  | EmptyString => None
  | String c s =>
      match split_last ch s with
      | Some (a, b) => Some (String c a, b)
      | None => if decide (c = ch) then Some ("", s) else None
      end
  end.

Definition contains_str (p s : string) : bool := bool_decide (is_Some (split_first p s)).

(** The [White_Space] characters that [trim] removes, in UTF-8. *)
Definition white_space : list (list Z) :=
  ((λ c, [c]) <$> [9; 10; 11; 12; 13; 32]) ++ [[0xC2; 0x85]; [0xC2; 0xA0]; [0xE1; 0x9A; 0x80]] ++
  ((λ c, [0xE2; 0x80; c]) <$> seqZ 0x80 11) ++
  [[0xE2; 0x80; 0xA8]; [0xE2; 0x80; 0xA9]; [0xE2; 0x80; 0xAF]; [0xE2; 0x81; 0x9F]; [0xE3; 0x80; 0x80]].

Fixpoint drop_prefix (p l : list Z) : option (list Z) :=
  match p, l with
  | [], _ => Some l
  | a :: p, b :: l => if a =? b then drop_prefix p l else None
  | _ :: _, [] => None
  end.

Fixpoint first_prefix (ps : list (list Z)) (l : list Z) : option (list Z) :=
  match ps with
  | [] => None
  | p :: ps => match drop_prefix p l with Some r => Some r | None => first_prefix ps l end
  end.

Fixpoint drop_white (fuel : nat) (ps : list (list Z)) (l : list Z) : list Z :=
  match fuel with
  | O => l
  | S fuel => match first_prefix ps l with Some r => drop_white fuel ps r | None => l end
  end.

(** Each round removes a character, so the length is enough fuel. *)
Definition trim_bytes (l : list Z) : list Z :=
  let l := drop_white (length l) white_space l in
  reverse (drop_white (length l) (reverse <$> white_space) (reverse l)).

Definition trim (s : string) : string :=
  bytes_string (z2b <$> trim_bytes (b2z <$> string_bytes s)).

Definition colon : Ascii.ascii := Ascii.ascii_of_nat 58.
Definition dquote : string := String (Ascii.ascii_of_nat 34) EmptyString.

(** ** Image references *)

Record ImageReference : Type := { registry : string; repository : string; reference : string }.

(** The name and the reference of a trimmed input: split at the first ['@'],
    else at the last [':'] unless it belongs to the registry. *)
Definition split_reference (input : string) : string * string :=
  match split_first "@" input with
  | Some (name, digest) => (name, digest)
  | None =>
      match split_last colon input with
      | Some (name, tag) =>
          match split_first "/" input with
          | Some (before, _) => if (String.length before <? String.length name)%nat then (name, tag)
                                else (input, "latest")
          | None => (name, tag)
          end
      | None => (input, "latest")
      end
  end.

Definition docker_hub : string := "registry-1.docker.io".

(** The registry and the repository of a name. *)
Definition split_name (name_part : string) : string * string :=
  match split_first "/" name_part with
  | Some (first, rest) =>
      if contains_str "." first || contains_str ":" first then (first, rest)
      else (docker_hub, name_part)
  | None => (docker_hub, "library/" +:+ name_part)
  end.

Definition parse (input : string) : outcome RegistryError ImageReference :=
  let input := trim input in
  if String.eqb input "" then Err (InvalidReference "empty image reference") else
  let '(name_part, reference) := split_reference input in
  let '(registry, repository) := split_name name_part in
  Ok {| registry := registry; repository := repository; reference := reference |}.

Definition display_ref (r : ImageReference) : string :=
  if String.prefix "sha256:" (reference r)
  then registry r +:+ "/" +:+ repository r +:+ "@" +:+ reference r
  else registry r +:+ "/" +:+ repository r +:+ ":" +:+ reference r.

(** [sanitize_image_ref]: every character that is not alphanumeric, [-] or [_]
    becomes [-].  A character is its UTF-8 bytes; which of those beyond ASCII
    are alphanumeric is Unicode's to say. *)
Definition ascii_alphanumeric (b : Z) : bool :=
  ((48 <=? b) && (b <=? 57)) || ((65 <=? b) && (b <=? 90)) || ((97 <=? b) && (b <=? 122)).

Fixpoint chars (l : list byte) : list (list byte) :=
  match l with
  | [] => []
  | b :: l =>
      match chars l with
      | (c :: cs) :: rest => if utf8_cont c then (b :: c :: cs) :: rest else [b] :: (c :: cs) :: rest
      | rest => [b] :: rest
      end
  end.

Definition sanitize_char (alphanumeric : list byte → bool) (c : list byte) : list byte :=
  let dash := string_bytes "-" in
  match c with
  | [b] => if ascii_alphanumeric (b2z b) || (b2z b =? 45) || (b2z b =? 95) then c else dash
  | _ => if alphanumeric c then c else dash
  end.

Definition sanitize_image_ref (alphanumeric : list byte → bool) (image_ref : string) : string :=
  bytes_string (concat (sanitize_char alphanumeric <$> chars (string_bytes image_ref))).

(** ** The documents of a registry *)

Module Doc.

Record OciManifestDescriptor : Type := { media_type : string; digest : string; size : Z }.
Record OciManifest : Type := {
  schema_version : Z; config : OciManifestDescriptor; layers : list OciManifestDescriptor }.
Record Platform : Type := { architecture : string; os : string }.
Record ManifestListEntry : Type := { entry_digest : string; platform : option Platform }.
Record ManifestList : Type := { entries : list ManifestListEntry }.
Record OciDescriptor : Type := { od_media_type : string; od_digest : string; od_size : Z }.
Record OciIndex : Type := { index_version : Z; manifests : list OciDescriptor }.
(** The Docker-style [manifest.json]. *)
Record DockerManifest : Type := { dm_config : string; dm_repo_tags : list string; dm_layers : list string }.

End Doc.

(** [serde_json::Value], as far as the client looks into it. *)
Inductive JsonValue : Type :=
| JString (s : string)
| JObject (fields : list (string * JsonValue))
| JOther.

(** [serde_json] at the types the client reads and writes. *)
Class RegistryJson : Type := {
  parse_value : list byte → string + JsonValue;
  read_manifest_list : list byte → string + Doc.ManifestList;
  read_manifest : list byte → string + Doc.OciManifest;
  manifest_to_vec : Doc.OciManifest → list byte;
  index_to_vec_pretty : Doc.OciIndex → list byte;
  docker_to_vec_pretty : Doc.DockerManifest → list byte;
}.

(** ** HTTP *)

(** A response: its headers by lowercase name, and the chunks of its body,
    the last of which may be a transport error. *)
Record HttpResponse : Type := {
  status : Z;
  header : string → option (list byte);
  content_length : option Z;
  body : list (string + list byte);
}.

(** [send]: the method is GET, the headers are those given. *)
Class HttpHost (N : Type) : Type := {
  http_send : string → list (string * string) → N → (string + HttpResponse) * N;
}.

Definition is_success (s : Z) : bool := (200 <=? s) && (s <? 300).

(** [bytes]: the whole body, or the first error. *)
Fixpoint collect (chunks : list (string + list byte)) : string + list byte :=
  match chunks with
  | [] => inr []
  | inl e :: _ => inl e
  | inr b :: rest => match collect rest with inl e => inl e | inr bs => inr (b ++ bs) end
  end.

(** [HeaderValue::to_str]: visible ASCII, spaces and tabs. *)
Definition header_str (r : HttpResponse) (name : string) : option string :=
  v ← header r name;
  if forallb (λ b, ((32 <=? b2z b) && (b2z b <? 127)) || (b2z b =? 9)) v then Some (bytes_string v) else None.

Definition get_field (k : string) (v : JsonValue) : option JsonValue :=
  match v with
  | JObject fs => (λ x, x.2.2) <$> list_find (λ f, f.1 = k) fs
  | _ => None
  end.

(** ** Paths and files *)

(** Operations that create no file this model sees, but can fail. *)
Definition fs_create_dirs : stm Disk string unit := sys (λ d, (tt, files d)) (λ _ d, files d).

(** [write_all] to an open file: its bytes, or some of them, are appended. *)
Definition fs_append (p : string) (data : list byte) : stm Disk string unit :=
  sys (λ d, (tt, <[p := default [] (files d !! p) ++ data]> (files d)))
      (λ n d, <[p := default [] (files d !! p) ++ take n data]> (files d)).

Fixpoint split_slash (s : string) : list string :=
  match s with
  | EmptyString => [""]
  | String c s =>
      if Ascii.eqb c (Ascii.ascii_of_nat 47) then "" :: split_slash s else
      match split_slash s with w :: ws => String c w :: ws | [] => [String c ""] end
  end.
Definition join_slash (ws : list string) : string :=
  match ws with [] => "" | w :: ws => foldl (λ acc w, acc +:+ "/" +:+ w) w ws end.

(** Trailing slashes and [.] components are no file name. *)
Fixpoint drop_dots (ws : list string) : list string :=
  match ws with
  | w :: ws' => if String.eqb w "" || String.eqb w "." then drop_dots ws' else ws
  | [] => []
  end.

(** [Path::with_extension("tmp")]: a path without a file name stays. *)
Definition with_tmp_extension (p : string) : string :=
  match drop_dots (reverse (split_slash p)) with
  | [] => p
  | file :: before =>
      if String.eqb file ".." then p else join_slash (reverse (tmp_name file :: before))
  end.

(** ** The client *)

(** The network, the files, and the progress reported. *)
Record Client (N : Type) : Type := {
  net : N; files_of : Disk; ticks : list (Z * Z * nat * nat) }.
Arguments net {N} _. Arguments files_of {N} _. Arguments ticks {N} _.

Section Client.
Context {N : Type} `{HttpHost N} `{RegistryJson}.
Context (sha256_hex : list byte → string) (status_text : Z → string) (status_error : Z → string).
Local Abbreviation run := (stm (Client N) RegistryError).

(** [?] on an I/O result, on a request and on a parsed document. *)
Definition rio {A} (m : stm Disk string A) : run A := λ s,
  let '(r, d) := m (files_of s) in
  (map_err RegIo r, {| net := net s; files_of := d; ticks := ticks s |}).
Definition send (url : string) (headers : list (string * string)) : run HttpResponse := λ s,
  let '(r, n) := http_send url headers (net s) in
  (map_err Http (of_sum r), {| net := n; files_of := files_of s; ticks := ticks s |}).
Definition bytes_of (r : HttpResponse) : run (list byte) := lift (map_err Http (of_sum (collect (body r)))).
Definition json_of {A} (r : string + A) : run A := lift (map_err Json (of_sum r)).
Definition error_for_status (r : HttpResponse) : run unit :=
  if (400 <=? status r) && (status r <? 600) then throw (Http (status_error (status r))) else mret tt.

Definition bearer (token : string) : list (string * string) :=
  if String.eqb token "" then [] else [("Authorization", "Bearer " +:+ token)].

(** [extract_auth_param]: the text between [param=] and the next quote. *)
Definition extract_auth_param (hdr param : string) : option string :=
  '(_, rest) ← split_first (param +:+ "=" +:+ dquote) hdr;
  '(value, _) ← split_first dquote rest;
  Some value.

Definition digest_to_hash (digest : string) : string :=
  match strip_prefix "sha256:" digest with Some h => h | None => digest end.

(** *** Authentication *)

Definition token_of (v : JsonValue) : option string :=
  t ← match get_field "token" v with Some t => Some t | None => get_field "access_token" v end;
  match t with JString s => Some s | _ => None end.

Definition token_url (realm service : string) (image : ImageReference) : string :=
  let url := realm +:+ "?scope=repository:" +:+ repository image +:+ ":pull" in
  if String.eqb service "" then url else url +:+ "&service=" +:+ service.

Definition authenticate (image : ImageReference) : run string :=
  resp ← send ("https://" +:+ registry image +:+ "/v2/") [];
  if status resp =? 200 then mret "" else
  if negb (status resp =? 401) then
    throw (Auth ("unexpected status from /v2/: " +:+ status_text (status resp))) else
  www_auth ← lift (ok_or (Auth "missing WWW-Authenticate header") (header_str resp "www-authenticate"));
  realm ← lift (ok_or (Auth "missing realm in WWW-Authenticate") (extract_auth_param www_auth "realm"));
  let service := default "" (extract_auth_param www_auth "service") in
  token_resp ← send (token_url realm service image) [];
  if negb (is_success (status token_resp)) then
    throw (Auth ("token request failed: " +:+ status_text (status token_resp))) else
  data ← bytes_of token_resp;
  token_json ← lift (map_err Http (of_sum (parse_value data)));
  lift (ok_or (Auth "no token in response") (token_of token_json)).

(** *** Manifests *)

Definition manifest_types : string :=
  "application/vnd.oci.image.manifest.v1+json, application/vnd.docker.distribution.manifest.v2+json".
Definition accept_any : string :=
  manifest_types +:+ ", application/vnd.oci.image.index.v1+json" +:+
  ", application/vnd.docker.distribution.manifest.list.v2+json".

Definition manifest_url (image : ImageReference) (ref : string) : string :=
  "https://" +:+ registry image +:+ "/v2/" +:+ repository image +:+ "/manifests/" +:+ ref.
Definition blob_url (image : ImageReference) (digest : string) : string :=
  "https://" +:+ registry image +:+ "/v2/" +:+ repository image +:+ "/blobs/" +:+ digest.

Definition is_amd64 (e : Doc.ManifestListEntry) : bool :=
  match Doc.platform e with
  | Some p => String.eqb (Doc.architecture p) "amd64" && String.eqb (Doc.os p) "linux"
  | None => false
  end.

Fixpoint find_target (es : list Doc.ManifestListEntry) : option Doc.ManifestListEntry :=
  match es with [] => None | e :: es => if is_amd64 e then Some e else find_target es end.

Definition is_list_type (content_type : string) : bool :=
  contains_str "manifest.list" content_type || contains_str "image.index" content_type.

Definition parsed_manifest (data : list byte) : run (Doc.OciManifest * string) :=
  m ← json_of (read_manifest data);
  mret (m, "sha256:" +:+ sha256_hex data).

Definition fetch_manifest (image : ImageReference) (token : string) : run (Doc.OciManifest * string) :=
  resp ← send (manifest_url image (reference image)) (("Accept", accept_any) :: bearer token);
  if status resp =? 404 then throw (ManifestNotFound (display_ref image)) else
  if negb (is_success (status resp)) then
    throw (ManifestNotFound (display_ref image +:+ ": status " +:+ status_text (status resp))) else
  let content_type := default "" (header_str resp "content-type") in
  data ← bytes_of resp;
  if is_list_type content_type then
    list ← json_of (read_manifest_list data);
    target ← lift (ok_or NoPlatformMatch (find_target (Doc.entries list)));
    resp2 ← send (manifest_url image (Doc.entry_digest target)) (("Accept", manifest_types) :: bearer token);
    data2 ← bytes_of resp2;
    parsed_manifest data2
  else parsed_manifest data.

(** *** Blobs *)

Definition fetch_blob (image : ImageReference) (digest token : string) : run (list byte) :=
  resp ← send (blob_url image digest) (bearer token);
  error_for_status resp ;;
  bytes_of resp.

Definition verify_and_write (path : string) (data : list byte) (expected_hash : string) : run unit :=
  let actual := sha256_hex data in
  if negb (String.eqb actual expected_hash) then throw (DigestMismatch expected_hash actual) else
  rio (fs_write path data).

Definition tick (progress : bool) (t : Z * Z * nat * nat) : run unit :=
  modify (λ s, {| net := net s; files_of := files_of s;
                  ticks := if progress then ticks s ++ [t] else ticks s |}).

(** The chunks are appended to the file and hashed as they come. *)
Fixpoint stream_chunks (path : string) (progress : bool) (total : Z) (idx n : nat)
    (hashed : list byte) (chunks : list (string + list byte)) : run (list byte) :=
  match chunks with
  | [] => mret hashed
  | inl e :: _ => throw (Http e)
  | inr chunk :: rest =>
      rio (fs_append path chunk) ;;
      let hashed := hashed ++ chunk in
      tick progress (wrap64 (zlen hashed), total, idx, n) ;;
      stream_chunks path progress total idx n hashed rest
  end.

Definition stream_blob (image : ImageReference) (digest output_path token : string) (progress : bool)
    (idx n : nat) : run unit :=
  resp ← send (blob_url image digest) (bearer token);
  error_for_status resp ;;
  let total_size := default 0 (content_length resp) in
  let tmp_path := with_tmp_extension output_path in
  rio (fs_create tmp_path) ;;
  data ← stream_chunks tmp_path progress total_size idx n [] (body resp);
  let actual_hash := sha256_hex data in
  let expected_hash := digest_to_hash digest in
  if negb (String.eqb actual_hash expected_hash) then
    rio (ignore (fs_remove_file tmp_path)) ;; throw (DigestMismatch expected_hash actual_hash)
  else rio (fs_rename tmp_path output_path).

(** *** The pull *)

Definition exists_path (p : string) : run bool := gets (λ s, exists_file (files_of s) p).

Definition pull_config (image : ImageReference) (blobs_dir token : string)
    (c : Doc.OciManifestDescriptor) : run unit :=
  let config_hash := digest_to_hash (Doc.digest c) in
  let config_path := join blobs_dir config_hash in
  there ← exists_path config_path;
  if there : bool then mret tt else
  data ← fetch_blob image (Doc.digest c) token;
  verify_and_write config_path data config_hash.

Definition pull_layer (image : ImageReference) (blobs_dir token : string) (progress : bool) (n : nat)
    (il : nat * Doc.OciManifestDescriptor) : run unit :=
  let '(i, layer) := il in
  let layer_path := join blobs_dir (digest_to_hash (Doc.digest layer)) in
  there ← exists_path layer_path;
  if there : bool then mret tt else
  stream_blob image (Doc.digest layer) layer_path token progress i n.

Definition layout_version : string :=
  "{" +:+ dquote +:+ "imageLayoutVersion" +:+ dquote +:+ ":" +:+ dquote +:+ "1.0.0" +:+ dquote +:+ "}".

Definition pulled_index (manifest_hash : string) (size : Z) : Doc.OciIndex :=
  {| Doc.index_version := 2;
     Doc.manifests := [{| Doc.od_media_type := "application/vnd.oci.image.manifest.v1+json";
                          Doc.od_digest := "sha256:" +:+ manifest_hash; Doc.od_size := size |}] |}.

Definition docker_manifest (image : ImageReference) (m : Doc.OciManifest) : Doc.DockerManifest :=
  let blob d := "blobs/sha256/" +:+ digest_to_hash (Doc.digest d) in
  {| Doc.dm_config := blob (Doc.config m); Doc.dm_repo_tags := [display_ref image];
     Doc.dm_layers := blob <$> Doc.layers m |}.

Definition registry_pull (image : ImageReference) (output_dir : string) (progress : bool) : run string :=
  rio fs_create_dirs ;;
  token ← authenticate image;
  '(manifest, _) ← fetch_manifest image token;
  let blobs_dir := join output_dir "blobs/sha256" in
  rio fs_create_dirs ;;
  rio (fs_write (join output_dir "oci-layout") (string_bytes layout_version)) ;;
  let manifest_bytes := manifest_to_vec manifest in
  let manifest_hash := sha256_hex manifest_bytes in
  rio (fs_write (join blobs_dir manifest_hash) manifest_bytes) ;;
  pull_config image blobs_dir token (Doc.config manifest) ;;
  let total_layers := length (Doc.layers manifest) in
  for_each (pull_layer image blobs_dir token progress total_layers)
    (zip (seq 0 total_layers) (Doc.layers manifest)) ;;
  rio (fs_write (join output_dir "index.json")
    (index_to_vec_pretty (pulled_index manifest_hash (zlen manifest_bytes)))) ;;
  rio (fs_write (join output_dir "manifest.json")
    (docker_to_vec_pretty (docker_manifest image manifest))) ;;
  mret ("sha256:" +:+ manifest_hash).

End Client.

(** * Parsing and printing a reference *)

Definition all_bytes (P : Z → bool) (s : string) : bool := forallb (λ b, P (b2z b)) (string_bytes s).
Definition graphic (b : Z) : bool := (33 <=? b) && (b <=? 126).
Fixpoint free (c : Ascii.ascii) (s : string) : bool :=
  match s with EmptyString => true | String x s => negb (Ascii.eqb x c) && free c s end.

#[local] Arguments Ascii.eqb : simpl never.

Lemma sapp_nil s : "" +:+ s = s.
Proof. done. Qed.
Lemma sapp_cons c a b : String c a +:+ b = String c (a +:+ b).
Proof. done. Qed.

Lemma string_bytes_app a b : string_bytes (a +:+ b) = string_bytes a ++ string_bytes b.
Proof.
  induction a as [|x a IH]; [done|]. rewrite sapp_cons.
  unfold string_bytes in *. cbn [String.list_ascii_of_string]. rewrite fmap_cons, IH. done.
Qed.

Lemma bytes_string_bytes s : bytes_string (string_bytes s) = s.
Proof.
  unfold bytes_string, string_bytes. rewrite <- list_fmap_compose.
  rewrite <- (String.string_of_list_ascii_of_string s) at 2. f_equal.
  rewrite <- (list_fmap_id (String.list_ascii_of_string s)) at 2. apply list_fmap_ext. intros _ c _.
  apply Ascii.ascii_of_byte_of_ascii.
Qed.


Lemma free_app c a b : free c (a +:+ b) = free c a && free c b.
Proof.
  induction a as [|x a IH]; [done|]. rewrite sapp_cons. cbn [free].
  by rewrite IH, andb_assoc.
Qed.
Lemma all_bytes_app P a b : all_bytes P (a +:+ b) = all_bytes P a && all_bytes P b.
Proof. unfold all_bytes. by rewrite string_bytes_app, forallb_app. Qed.

Lemma all_bytes_cons P c s : all_bytes P (String c s) = P (b2z (Ascii.byte_of_ascii c)) && all_bytes P s.
Proof. done. Qed.

Lemma split_first_cons c x s :
  split_first (String c "") (String x s) =
  if Ascii.eqb x c then Some ("", s) else '(a, b) ← split_first (String c "") s; Some (String x a, b).
Proof. cbn. rewrite (Ascii.eqb_sym c x). by destruct (Ascii.eqb x c). Qed.

Lemma split_first_free c a b : free c a = true →
  split_first (String c "") (a +:+ String c b) = Some (a, b).
Proof.
  induction a as [|x a IH]; intros Hf; rewrite ?sapp_nil, ?sapp_cons, split_first_cons.
  - by rewrite Ascii.eqb_refl.
  - cbn in Hf. apply andb_prop in Hf as [Hx Hf]. destruct (Ascii.eqb x c); [done|]. by rewrite IH.
Qed.

Lemma split_first_none c s : free c s = true → split_first (String c "") s = None.
Proof.
  induction s as [|x s IH]; intros Hf; [done|]. rewrite split_first_cons.
  cbn in Hf. apply andb_prop in Hf as [Hx Hf]. destruct (Ascii.eqb x c); [done|]. by rewrite IH.
Qed.

Lemma split_first_inv c s a b :
  split_first (String c "") s = Some (a, b) → s = a +:+ String c b ∧ free c a = true.
Proof.
  revert a. induction s as [|x s IH]; intros a; [done|]. rewrite split_first_cons.
  destruct (Ascii.eqb x c) eqn:E.
  - intros [= <- <-]. by apply Ascii.eqb_eq in E as ->.
  - destruct (split_first _ s) as [[a' b']|]; [|done]. intros [= <- <-].
    destruct (IH a' eq_refl) as [-> Hf]. split; [done|]. cbn. by rewrite E, Hf.
Qed.

Lemma split_first_none_inv c s : split_first (String c "") s = None → free c s = true.
Proof.
  induction s as [|x s IH]; [done|]. rewrite split_first_cons. destruct (Ascii.eqb x c) eqn:E; [done|].
  destruct (split_first _ s) as [[]|]; [done|]. intros _. cbn. by rewrite E, IH.
Qed.

Lemma split_last_none c s : free c s = true → split_last c s = None.
Proof.
  induction s as [|x s IH]; intros Hf; [done|]. cbn in *. apply andb_prop in Hf as [Hx Hf].
  rewrite IH by done. destruct (Ascii.eqb_spec x c); [done|]. by rewrite decide_False.
Qed.

Lemma split_last_free c a b : free c b = true → split_last c (a +:+ String c b) = Some (a, b).
Proof.
  intros Hf. induction a as [|x a IH]; rewrite ?sapp_nil, ?sapp_cons; cbn [split_last].
  - by rewrite split_last_none, decide_True.
  - by rewrite IH.
Qed.

Lemma split_last_inv c s a b : split_last c s = Some (a, b) → s = a +:+ String c b ∧ free c b = true.
Proof.
  assert (Hn : ∀ s, split_last c s = None → free c s = true).
  { clear. induction s as [|x s IH]; cbn; [done|]. destruct (split_last c s) as [[]|]; [done|].
    destruct (decide (x = c)) as [->|Hne]; [done|]. intros _. cbn.
    apply Ascii.eqb_neq in Hne as ->. by rewrite IH. }
  revert a. induction s as [|x s IH]; intros a; cbn; [done|].
  destruct (split_last c s) as [[a' b']|] eqn:E.
  - intros [= <- <-]. by destruct (IH a' eq_refl) as [-> ?].
  - destruct (decide (x = c)) as [->|]; [|done]. intros [= <- <-]. split; [done|by apply Hn].
Qed.

(** A string of graphic ASCII has nothing to trim. *)
Lemma first_prefix_graphic ps b l :
  forallb (λ p, match p with a :: _ => negb (graphic a) | [] => false end) ps = true → graphic b = true →
  first_prefix ps (b :: l) = None.
Proof.
  intros Hps Hb. induction ps as [|p ps IH]; [done|]. cbn in *. apply andb_prop in Hps as [Hp Hps].
  destruct p as [|a p]; [done|]. cbn. destruct (a =? b) eqn:E; [|by apply IH].
  apply Z.eqb_eq in E as ->. by rewrite Hb in Hp.
Qed.

Lemma drop_white_graphic fuel ps l :
  forallb (λ p, match p with a :: _ => negb (graphic a) | [] => false end) ps = true → forallb graphic l = true →
  drop_white fuel ps l = l.
Proof.
  intros Hps Hl. destruct fuel; [done|]. cbn. destruct l as [|b l].
  - assert (first_prefix ps [] = None) as ->; [|done].
    induction ps as [|[|a p] ps IH]; cbn in *; [done|done|]. apply andb_prop in Hps as [_ Hps]. by apply IH.
  - cbn in Hl. apply andb_prop in Hl as [Hb _]. by rewrite first_prefix_graphic.
Qed.

Lemma trim_graphic s : all_bytes graphic s = true → trim s = s.
Proof.
  unfold all_bytes. intros Hs. unfold trim, trim_bytes.
  assert (Hl : forallb graphic (b2z <$> string_bytes s) = true).
  { rewrite <- Hs. generalize (string_bytes s) as l. induction l as [|b l IH]; [done|]. cbn. by rewrite <- IH. }
  rewrite (drop_white_graphic _ white_space) by done.
  rewrite drop_white_graphic; [|done|].
  - rewrite reverse_involutive, <- list_fmap_compose. 
    rewrite <- (bytes_string_bytes s) at 2. f_equal.
    rewrite <- (list_fmap_id (string_bytes s)) at 2. apply list_fmap_ext. intros _ b _. cbn. apply z2b_b2z.
  - apply forallb_forall. intros x Hx. apply (proj1 (forallb_forall _ _) Hl).
    apply list_elem_of_In. apply list_elem_of_In in Hx. by apply elem_of_reverse.
Qed.

(** What [split_name] and [split_reference] return. *)
Definition at_sign : Ascii.ascii := Ascii.ascii_of_nat 64.
Definition slash : Ascii.ascii := Ascii.ascii_of_nat 47.

Lemma contains_free c s : contains_str (String c "") s = negb (free c s).
Proof.
  unfold contains_str. destruct (split_first _ s) as [[a b]|] eqn:E.
  - apply split_first_inv in E as [-> Hf]. rewrite free_app. cbn [free]. rewrite Ascii.eqb_refl, andb_false_r.
    by rewrite bool_decide_eq_true_2.
  - apply split_first_none_inv in E as ->. rewrite bool_decide_eq_false_2; [done|by intros []].
Qed.

(** The registry has no slash, and is recognised as one. *)
Definition registry_like (r : string) : Prop :=
  free slash r = true ∧ contains_str "." r || contains_str ":" r = true.

Lemma split_name_registry name r p :
  split_name name = (r, p) → registry_like r ∧
  (name = r +:+ String slash p ∨ (r = docker_hub ∧ p = name) ∨ (r = docker_hub ∧ p = "library/" +:+ name)).
Proof.
  unfold split_name. change "/" with (String slash "").
  destruct (split_first (String slash "") name) as [[a b]|] eqn:E.
  - apply split_first_inv in E as [-> Hf]. destruct (_ || _) eqn:Er; intros [= <- <-].
    + split; [done|by left].
    + split; [done|by right; left].
  - intros [= <- <-]. split; [done|]. by right; right.
Qed.

Lemma split_name_join r p : registry_like r → split_name (r +:+ String slash p) = (r, p).
Proof.
  intros [Hf Hr]. unfold split_name. change "/" with (String slash "").
  by rewrite split_first_free, Hr.
Qed.

(** The name has no ['@'], and with a text of the right shape after it is
    split off again. *)
Lemma split_reference_digest name t :
  free at_sign name = true → split_reference (name +:+ String at_sign t) = (name, t).
Proof.
  intros Hf. unfold split_reference. change "@" with (String at_sign "").
  by rewrite split_first_free.
Qed.

Lemma length_sapp a b : String.length (a +:+ b) = (String.length a + String.length b)%nat.
Proof. induction a as [|x a IH]; [done|]. rewrite sapp_cons. simpl. by rewrite IH. Qed.
Lemma sapp_assoc a b c : (a +:+ b) +:+ c = a +:+ (b +:+ c).
Proof. induction a as [|x a IH]; [done|]. by rewrite !sapp_cons, IH. Qed.

Lemma split_reference_tag r p t :
  free slash r = true → free at_sign (r +:+ String slash p) = true → free at_sign t = true →
  free colon t = true →
  split_reference ((r +:+ String slash p) +:+ String colon t) = (r +:+ String slash p, t).
Proof.
  intros Hr Hn Ht Hc. unfold split_reference. change "@" with (String at_sign "").
  rewrite split_first_none by (rewrite free_app, Hn; exact Ht).
  rewrite split_last_free by done. change "/" with (String slash "").
  rewrite sapp_assoc, sapp_cons, split_first_free by done. rewrite length_sapp. simpl.
  destruct (Nat.ltb_spec (String.length r) (String.length r + S (String.length p))%nat); [done|lia].
Qed.

Lemma split_reference_free input name t :
  split_reference input = (name, t) →
  free at_sign name = true ∧ (input = name +:+ String at_sign t ∨ input = name +:+ String colon t ∨ (input = name ∧ t = "latest")).
Proof.
  unfold split_reference. change "@" with (String at_sign "").
  destruct (split_first _ input) as [[a b]|] eqn:E.
  - apply split_first_inv in E as [-> Hf]. intros [= <- <-]. auto.
  - apply split_first_none_inv in E. destruct (split_last colon input) as [[a b]|] eqn:El.
    + apply split_last_inv in El as [-> Hb]. rewrite free_app in E. 
      assert (Ha : free at_sign a = true) by (by apply andb_prop in E as [? _]).
      destruct (split_first "/" _) as [[x y]|]; [destruct (_ <? _)%nat|]; intros [= <- <-]; auto.
      rewrite free_app, Ha. apply andb_prop in E as [_ E]. rewrite E. auto.
    + intros [= <- <-]. auto.
Qed.

(** The reference starts with [sha256:], or has neither [':'] nor ['@']. *)
Definition plain_reference (t : string) : bool :=
  String.prefix "sha256:" t || (free colon t && free at_sign t).

(** A reference of graphic characters whose digest is a SHA-256 or whose tag
    has neither ':' nor '@' is displayed as a reference that parses to the same
    image, for every form of the input: short names, names with a registry
    or a port, tags and digests. *)
Theorem parse_display_stable input r :
  all_bytes graphic (trim input) = true → parse input = Ok r → plain_reference (reference r) = true →
  parse (display_ref r) = Ok r.
Proof.
  unfold parse at 1. set (inp := trim input). intros Hg. destruct (inp =? "")%string; [done|].
  destruct (split_reference inp) as [name t] eqn:Es. apply split_reference_free in Es as [Hat Hinp].
  destruct (split_name name) as [reg rep] eqn:En. apply split_name_registry in En as [Hreg Hname].
  intros [= <-]. cbn [reference]. intros Hplain.
  assert (Hgn : all_bytes graphic name = true ∧ all_bytes graphic t = true).
  { destruct Hinp as [E|[E|[E ->]]]; rewrite E in Hg; [..|done];
      rewrite all_bytes_app in Hg; by apply andb_prop in Hg as [? [_ ?]%andb_prop]. }
  destruct Hgn as [Hgn Hgt].
  set (full := reg +:+ String slash rep).
  assert (Hfull : free at_sign full = true ∧ all_bytes graphic full = true).
  { unfold full. destruct Hname as [->|[[-> ->]|[-> ->]]]; [done|..];
      rewrite free_app, all_bytes_app, all_bytes_cons; cbn [free];
      rewrite ?free_app, ?all_bytes_app, ?Hat, ?Hgn; done. }
  destruct Hfull as [Hfat Hfg]. unfold display_ref. cbn [registry repository reference].
  assert (Hgo : ∀ c, graphic (b2z (Ascii.byte_of_ascii c)) = true →
    split_reference (full +:+ String c t) = (full, t) →
    parse (full +:+ String c t) = Ok {| registry := reg; repository := rep; reference := t |}).
  { intros c Hc Hsp. unfold parse.
    rewrite trim_graphic by (rewrite all_bytes_app, all_bytes_cons, Hfg, Hc, Hgt; done).
    destruct (full +:+ String c t =? "")%string eqn:E.
    - apply String.eqb_eq in E. by destruct full.
    - rewrite Hsp. unfold full. by rewrite split_name_join. }
  unfold full in Hgo. setoid_rewrite sapp_assoc in Hgo. unfold plain_reference in Hplain.
  destruct (String.prefix "sha256:" t).
  - apply (Hgo at_sign); [done|]. rewrite <- sapp_assoc. by apply split_reference_digest.
  - apply andb_prop in Hplain as [Hc Ha]. apply (Hgo colon); [done|]. rewrite <- sapp_assoc.
    apply split_reference_tag; try done. apply Hreg.
Qed.

Definition demo_inputs : list string :=
  ["nginx"; " nginx:alpine"; "myuser/myrepo:v1"; "ghcr.io/owner/repo:v1"; "localhost:5000/repo";
   "quay.io/org/img@sha256:abc123"; "nginx:"].

(** The forms the documentation of [parse] lists, and the ports. *)
Lemma parse_display_stable_witness :
  (λ i, match parse i with Ok r => display_ref r | _ => "" end) <$> demo_inputs =
    ["registry-1.docker.io/library/nginx:latest"; "registry-1.docker.io/library/nginx:alpine";
     "registry-1.docker.io/myuser/myrepo:v1"; "ghcr.io/owner/repo:v1"; "localhost:5000/repo:latest";
     "quay.io/org/img@sha256:abc123"; "registry-1.docker.io/library/nginx:"] ∧
  parse (display_ref {| registry := "localhost:5000"; repository := "repo"; reference := "latest" |}) =
    Ok {| registry := "localhost:5000"; repository := "repo"; reference := "latest" |}.
Proof.
  split; [vm_compute; reflexivity|].
  apply (parse_display_stable "localhost:5000/repo"); vm_compute; reflexivity.
Defined.

(** Different references can share one layout directory. *)
Example sanitized :
  sanitize_image_ref (λ _, true) "docker.io/library/nginx:latest" = "docker-io-library-nginx-latest" ∧
  sanitize_image_ref (λ _, true) "a:b" = sanitize_image_ref (λ _, true) "a/b".
Proof. vm_compute. auto. Qed.

(** A tag before a digest stays in the repository's name, and a digest of
    another algorithm is displayed as a tag of another repository. *)
Example tag_and_digest :
  parse "alpine:3.19@sha256:ab" =
    Ok {| registry := docker_hub; repository := "library/alpine:3.19"; reference := "sha256:ab" |} ∧
  parse "q.io/a@sha512:ab" = Ok {| registry := "q.io"; repository := "a"; reference := "sha512:ab" |} ∧
  parse "q.io/a:sha512:ab" = Ok {| registry := "q.io"; repository := "a:sha512"; reference := "ab" |}.
Proof. vm_compute. auto. Qed.

(** * The layout a pull leaves behind *)

Definition blob_at (dir h : string) : string := join (join dir "blobs/sha256") h.

Section Paths.

Lemma split_slash_nonempty s : split_slash s ≠ [].
Proof. destruct s as [|x s]; cbn; [done|]. destruct (Ascii.eqb x _); [done|]. by destruct (split_slash s). Qed.

Lemma split_slash_app a b : split_slash (a +:+ String slash b) = split_slash a ++ split_slash b.
Proof.
  induction a as [|x a IH].
  - rewrite sapp_nil. cbn. by rewrite Ascii.eqb_refl.
  - rewrite sapp_cons. cbn [split_slash]. rewrite IH. destruct (Ascii.eqb x _); [done|].
    pose proof (split_slash_nonempty a). by destruct (split_slash a).
Qed.

Lemma split_slash_free s : free slash s = true → split_slash s = [s].
Proof.
  induction s as [|x s IH]; [done|]. cbn [free split_slash]. intros [Hx Hs]%andb_prop. unfold slash in Hx.
  destruct (Ascii.eqb x _); [done|]. by rewrite IH.
Qed.

Lemma join_slash_snoc ws w : ws ≠ [] → join_slash (ws ++ [w]) = join_slash ws +:+ String slash w.
Proof. destruct ws as [|v ws]; [done|]. intros _. cbn [join_slash app]. by rewrite foldl_app. Qed.

Lemma join_slash_cons x w ws : join_slash (String x w :: ws) = String x (join_slash (w :: ws)).
Proof.
  cbn [join_slash]. revert w. induction ws as [|v ws IH]; intros w; [done|]. cbn [foldl]. rewrite <- IH. done.
Qed.

Lemma join_split s : join_slash (split_slash s) = s.
Proof.
  induction s as [|x s IH]; [done|]. cbn [split_slash]. destruct (Ascii.eqb_spec x (Ascii.ascii_of_nat 47)) as [->|].
  - pose proof (split_slash_nonempty s) as Hne. revert IH. destruct (split_slash s) as [|w ws]; [done|].
    intros <-. cbn [join_slash foldl]. rewrite !sapp_nil.
    assert (Hg : ∀ v w, foldl (λ acc w, acc +:+ "/" +:+ w) (v +:+ w) ws = v +:+ foldl (λ acc w, acc +:+ "/" +:+ w) w ws).
    { clear. induction ws as [|u ws IH]; intros v w; [done|]. cbn [foldl]. by rewrite sapp_assoc, IH. }
    apply (Hg "/" w).
  - pose proof (split_slash_nonempty s) as Hne. revert IH. destruct (split_slash s) as [|w ws]; [done|].
    intros <-. by rewrite join_slash_cons.
Qed.

End Paths.

(** The paths of a layout: a blob, the file it is streamed to, the metadata. *)
Lemma blob_at_eq dir h : all_hex h = true → blob_at dir h = (dir +:+ "/blobs/sha256") +:+ String slash h.
Proof. intros Hh. unfold blob_at, join. by rewrite hex_not_absolute. Qed.

Lemma hex_free h : all_hex h = true → free slash h = true.
Proof.
  induction h as [|c h IH]; [done|]. cbn. intros [Hc Hh]%andb_prop. rewrite IH, andb_true_r by done.
  destruct (Ascii.eqb_spec c slash) as [->|]; [by vm_compute in Hc|done].
Qed.

Lemma tmp_not_absolute h : all_hex h = true → String.prefix "/" (h +:+ ".tmp") = false.
Proof.
  destruct h as [|c h]; [done|]. intros Hh. rewrite sapp_cons. cbn in Hh |- *. apply andb_prop in Hh as [Hc _].
  case_match; by subst.
Qed.

Lemma blob_tmp dir h : is_hex h = true →
  with_tmp_extension (blob_at dir h) = blob_at dir (h +:+ ".tmp").
Proof.
  intros [Hne Hh]%andb_prop. rewrite blob_at_eq by done. unfold with_tmp_extension.
  rewrite split_slash_app, reverse_app, (split_slash_free h) by (by apply hex_free).
  change (reverse [h] ++ ?l) with (h :: l). cbn [drop_dots].
  assert (Hd : (h =? "." = false ∧ h =? ".." = false)%string).
  { split; apply String.eqb_neq; intros ->; by vm_compute in Hh. }
  destruct Hd as [Hd Hdd]. destruct (h =? "")%string; [done|]. rewrite Hd. cbn [orb]. rewrite Hdd.
  rewrite reverse_cons, reverse_involutive, join_slash_snoc, join_split by apply split_slash_nonempty.
  unfold tmp_name. rewrite hex_no_dot by done. unfold blob_at, join. by rewrite tmp_not_absolute.
Qed.

Definition meta_file (n : string) : Prop := n = "oci-layout" ∨ n = "index.json" ∨ n = "manifest.json".

Lemma blob_at_inj dir h h' : all_hex h = true → blob_at dir h = blob_at dir h' →
  String.prefix "/" h' = false → h = h'.
Proof.
  intros Hh He Hp. rewrite blob_at_eq in He by done. unfold blob_at, join in He. rewrite Hp in He.
  by apply (inj (String.append _)) in He as [= ->].
Qed.

Lemma blob_not_meta dir h n : all_hex h = true → meta_file n → blob_at dir h ≠ join dir n.
Proof.
  intros Hh Hn. rewrite blob_at_eq by done. rewrite append_assoc.
  destruct Hn as [->|[->| ->]]; by intros ?%(inj (String.append dir)).
Qed.

Lemma tmp_not_blob dir h h' : all_hex h = true → all_hex h' = true → blob_at dir h ≠ blob_at dir (h' +:+ ".tmp").
Proof.
  intros Hh Hh' He%blob_at_inj; [|done|by apply tmp_not_absolute]. subst. by rewrite hex_tmp in Hh.
Qed.

Lemma tmp_not_meta dir h n : all_hex h = true → meta_file n → blob_at dir (h +:+ ".tmp") ≠ join dir n.
Proof.
  intros Hh Hn. unfold blob_at, join at 1. rewrite tmp_not_absolute by done.
  change (join dir "blobs/sha256") with (dir +:+ "/blobs/sha256"). rewrite append_assoc.
  destruct Hn as [->|[->| ->]]; by intros ?%(inj (String.append dir)).
Qed.

Section Pulled.
Context {N : Type} `{HttpHost N} `{RegistryJson}.
Context (sha256_hex : list byte → string) (status_text : Z → string) (status_error : Z → string).
Context (sha256_is_hex : ∀ b, is_hex (sha256_hex b) = true).
Local Abbreviation run := (stm (Client N) RegistryError).
Implicit Types s : Client N.

(** Computations that talk to the network only. *)
Definition net_only {A} (m : run A) : Prop := ∀ s, files_of (m s).2 = files_of s.

Lemma net_bind {A B} (m : run A) (f : A → run B) : net_only m → (∀ a, net_only (f a)) → net_only (m ≫= f).
Proof.
  intros Hm Hf s. unfold mbind, stm_bind. specialize (Hm s). destruct (m s) as [[a| |] s1]; [|done..].
  by rewrite Hf.
Qed.
Lemma net_ret {A} (a : A) : net_only (mret a).
Proof. done. Qed.
Lemma net_throw {A} e : net_only (throw (A:=A) e).
Proof. done. Qed.
Lemma net_lift {A} (r : outcome RegistryError A) : net_only (lift r).
Proof. done. Qed.
Lemma net_send url hs : net_only (send url hs).
Proof. intros s. unfold send. by destruct (http_send _ _ _). Qed.

Ltac net := repeat first
  [ apply net_ret | apply net_throw | apply net_lift | apply net_send
  | apply net_bind; [|intros ?] | case_match | progress unfold bytes_of, json_of, error_for_status, parsed_manifest ].

Lemma authenticate_net image : net_only (authenticate status_text image).
Proof. unfold authenticate. net. Qed.
Lemma fetch_manifest_net image token : net_only (fetch_manifest sha256_hex status_text image token).
Proof. unfold fetch_manifest. net. Qed.
Lemma fetch_blob_net image digest token : net_only (fetch_blob status_error image digest token).
Proof. unfold fetch_blob. net. Qed.

Lemma net_only_ok {A} (m : run A) s a s' : net_only m → m s = (Ok a, s') → files_of s' = files_of s.
Proof. intros Hm E. specialize (Hm s). by rewrite E in Hm. Qed.

Lemma rio_ok {A} (m : stm Disk string A) s a s' :
  rio m s = (Ok a, s') → m (files_of s) = (Ok a, files_of s').
Proof. unfold rio. destruct (m (files_of s)) as [[]]; intros; by simplify_eq/=. Qed.

Lemma create_ok p d d' : fs_create p d = (Ok tt, d') → files d' = <[p := []]> (files d).
Proof. unfold fs_create, sys. destruct (head _) as [[f|]|]; intros; by simplify_eq/=. Qed.
Lemma create_dirs_ok d d' : fs_create_dirs d = (Ok tt, d') → files d' = files d.
Proof. unfold fs_create_dirs, sys. destruct (head _) as [[f|]|]; intros; by simplify_eq/=. Qed.
Lemma append_ok p b d d' :
  fs_append p b d = (Ok tt, d') → files d' = <[p := default [] (files d !! p) ++ b]> (files d).
Proof. unfold fs_append, sys. destruct (head _) as [[f|]|]; intros; by simplify_eq/=. Qed.
Lemma write_ok p b d d' : fs_write p b d = (Ok tt, d') → files d' = <[p := b]> (files d).
Proof.
  unfold fs_write. intros ([] & d1 & Hc%create_ok & Hw%write_all_ok)%stm_bind_inv.
  by rewrite Hw, Hc, insert_insert_eq.
Qed.
Lemma rename_ok p q d d' :
  fs_rename p q d = (Ok tt, d') → ∃ b, files d !! p = Some b ∧ files d' = <[q := b]> (delete p (files d)).
Proof.
  unfold fs_rename, with_file. destruct (files d !! p) as [b|]; [|done]. unfold sys.
  destruct (head _) as [[f|]|]; intros; simplify_eq/=; eauto.
Qed.

(** Every blob that is there has the digest it is named by. *)
Definition blobs_sound (dir : string) (d : Disk) : Prop :=
  ∀ h b, all_hex h = true → files d !! blob_at dir h = Some b → sha256_hex b = h.

(** A step of the pull: blobs stay sound and stay what they are, and the files
    [ns] of the layout are not touched. *)
Record advances (dir : string) (ns : list string) (d d' : Disk) : Prop := {
  adv_sound : blobs_sound dir d → blobs_sound dir d';
  adv_keep : ∀ h b, all_hex h = true → files d !! blob_at dir h = Some b → files d' !! blob_at dir h = Some b;
  adv_meta : ∀ n, n ∈ ns → files d' !! join dir n = files d !! join dir n;
}.

Lemma advances_refl dir ns d d' : files d' = files d → advances dir ns d d'.
Proof. intros E. constructor; [|by rewrite E..]. unfold blobs_sound. by rewrite E. Qed.

Lemma advances_trans dir ns d1 d2 d3 : advances dir ns d1 d2 → advances dir ns d2 d3 → advances dir ns d1 d3.
Proof.
  intros [S1 K1 M1] [S2 K2 M2]. constructor; [auto|auto|]. intros n Hn. by rewrite M2, M1.
Qed.

(** A metadata file other than [ns] is written. *)
Lemma advances_meta dir ns n b d d' :
  meta_file n → n ∉ ns → fs_write (join dir n) b d = (Ok tt, d') → Forall meta_file ns →
  advances dir ns d d' ∧ files d' !! join dir n = Some b.
Proof.
  intros Hn Hne Hw%write_ok Hns. rewrite Hw. split; [|by apply lookup_insert_eq].
  assert (Hb : ∀ h, all_hex h = true → files d' !! blob_at dir h = files d !! blob_at dir h).
  { intros h Hh. rewrite Hw, lookup_insert_ne; [done|]. intros E. by eapply blob_not_meta. }
  constructor.
  - intros Hs h c Hh. rewrite Hb by done. by apply Hs.
  - intros h c Hh. by rewrite Hb.
  - intros m Hm. rewrite Hw, lookup_insert_ne; [done|].
    rewrite Forall_forall in Hns. specialize (Hns m Hm).
    destruct Hn as [->|[->| ->]], Hns as [->|[->| ->]]; try done; by intros ?%(inj (String.append dir)).
Qed.

(** A blob is put in its place. *)
Lemma advances_blob dir ns h b d d' :
  all_hex h = true → sha256_hex b = h → files d !! blob_at dir h = None →
  Forall meta_file ns →
  (∀ p, p ≠ blob_at dir h → p ≠ blob_at dir (h +:+ ".tmp") → files d' !! p = files d !! p) →
  files d' !! blob_at dir h = Some b → advances dir ns d d'.
Proof.
  intros Hh Hb Hnone Hns Hfr Hat.
  assert (Ho : ∀ h', all_hex h' = true → h' ≠ h → files d' !! blob_at dir h' = files d !! blob_at dir h').
  { intros h' Hh' Hne. apply Hfr; [|by apply tmp_not_blob].
    intros E%blob_at_inj; [done..|by apply hex_not_absolute]. }
  constructor.
  - intros Hs h' c Hh'. destruct (decide (h' = h)) as [->|Hne].
    + rewrite Hat. by intros [= ->].
    + rewrite Ho by done. by apply Hs.
  - intros h' c Hh' Hc. rewrite Ho; [done|done|]. intros ->. by rewrite Hnone in Hc.
  - intros n Hn. rewrite Forall_forall in Hns. specialize (Hns n Hn).
    apply Hfr; [|]; intros E; symmetry in E; revert E; [by apply blob_not_meta|by apply tmp_not_meta].
Qed.

(** *** The configuration and the layers *)

Lemma exists_none s p : exists_file (files_of s) p = false → files (files_of s) !! p = None.
Proof. intros E%bool_decide_eq_false_1. by apply eq_None_not_Some. Qed.

Lemma pull_config_ok image dir token c h ns s s' :
  Doc.digest c = "sha256:" +:+ h → is_hex h = true → Forall meta_file ns →
  pull_config sha256_hex status_error image (join dir "blobs/sha256") token c s = (Ok tt, s') →
  advances dir ns (files_of s) (files_of s') ∧ is_Some (files (files_of s') !! blob_at dir h).
Proof.
  intros Hd Hh Hns. apply andb_prop in Hh as [_ Hh]. unfold pull_config, digest_to_hash, exists_path.
  assert (Hs : strip_prefix "sha256:" (Doc.digest c) = Some h) by (by rewrite Hd; cbn).
  rewrite Hs. fold (blob_at dir h).
  intros (there & s1 & Hg & Hr)%stm_bind_inv. injection Hg as <- <-.
  destruct (exists_file (files_of s) (blob_at dir h)) eqn:Ex.
  { injection Hr as <-. split; [by apply advances_refl|by apply bool_decide_eq_true_1 in Ex]. }
  apply exists_none in Ex.
  apply stm_bind_inv in Hr as (data & s2 & Hf%net_only_ok & Hv); [|apply fetch_blob_net].
  unfold verify_and_write in Hv. destruct (String.eqb_spec (sha256_hex data) h) as [Heq|]; [|done].
  apply rio_ok, write_ok in Hv. rewrite Hf in Hv. split.
  - eapply (advances_blob dir ns h data); [done..| |by rewrite Hv; apply lookup_insert_eq].
    intros p Hp _. by rewrite Hv, lookup_insert_ne.
  - rewrite Hv, lookup_insert_eq. by eexists.
Qed.

(** The file receives what is hashed. *)
Lemma stream_chunks_ok path progress total i n hashed pre chunks s data s' :
  files (files_of s) !! path = Some pre →
  stream_chunks path progress total i n hashed chunks s = (Ok data, s') →
  ∃ bs, data = hashed ++ bs ∧ files (files_of s') = <[path := pre ++ bs]> (files (files_of s)).
Proof.
  revert hashed pre s. induction chunks as [|[e|chunk] rest IH]; intros hashed pre s Hp; [|done|].
  - intros [= <- <-]. exists []. rewrite !app_nil_r. split; [done|]. by rewrite insert_id.
  - cbn [stream_chunks]. intros ([] & s1 & Ha%rio_ok%append_ok & Hr)%stm_bind_inv.
    apply stm_bind_inv in Hr as ([] & s2 & Ht & Hr). injection Ht as <-.
    rewrite Hp in Ha. cbn [default] in Ha.
    apply (IH _ (pre ++ chunk)) in Hr as (bs & -> & Hf); [|cbn [files_of]; rewrite Ha; apply lookup_insert_eq].
    exists (chunk ++ bs). rewrite <- !(assoc_L (++)). split; [done|]. cbn [files_of] in Hf.
    by rewrite Hf, Ha, insert_insert_eq, <- (assoc_L (++)).
Qed.

Lemma stream_blob_ok image dir token progress i n dg h ns s s' :
  dg = "sha256:" +:+ h → is_hex h = true → Forall meta_file ns →
  files (files_of s) !! blob_at dir h = None →
  stream_blob sha256_hex status_error image dg (blob_at dir h) token progress i n s = (Ok tt, s') →
  advances dir ns (files_of s) (files_of s') ∧ is_Some (files (files_of s') !! blob_at dir h).
Proof.
  intros -> Hhex Hns Hnone. pose proof Hhex as [_ Hh]%andb_prop. unfold stream_blob. rewrite blob_tmp by done.
  set (tmp := blob_at dir (h +:+ ".tmp")).
  intros (resp & s1 & Hs%net_only_ok & Hr)%stm_bind_inv; [|apply net_send].
  apply stm_bind_inv in Hr as ([] & s2 & He%net_only_ok & Hr); [|unfold error_for_status; net].
  apply stm_bind_inv in Hr as ([] & s3 & Hc%rio_ok%create_ok & Hr).
  apply stm_bind_inv in Hr as (data & s4 & Hst & Hr).
  eapply stream_chunks_ok in Hst as (bs & -> & Hf); [|rewrite Hc; apply lookup_insert_eq].
  cbn [app] in *. unfold digest_to_hash in Hr.
  change (strip_prefix "sha256:" ("sha256:" +:+ h)) with (Some h) in Hr. cbv beta iota in Hr.
  destruct (String.eqb_spec (sha256_hex bs) h) as [Heq|Hne]; cbn [negb] in Hr.
  2: { by apply stm_bind_inv in Hr as (? & ? & _ & ?). }
  apply rio_ok, rename_ok in Hr as (b & Hb & Hfin).
  rewrite Hf, lookup_insert_eq in Hb. injection Hb as <-. rewrite Hf, Hc, insert_insert_eq, He, Hs in Hfin.
  split; [|rewrite Hfin, lookup_insert_eq; by eexists].
  eapply (advances_blob dir ns h bs); [done..| |by rewrite Hfin; apply lookup_insert_eq].
  intros p Hp Ht. by rewrite Hfin, lookup_insert_ne, lookup_delete_ne, lookup_insert_ne.
Qed.

Definition plain_digest (dg : string) : Prop := ∃ h, dg = "sha256:" +:+ h ∧ is_hex h = true.
Definition has_blob (dir : string) (d : Disk) (dg : string) : Prop :=
  ∃ h, dg = "sha256:" +:+ h ∧ is_Some (files d !! blob_at dir h).

Lemma pull_layer_ok image dir token progress n i layer ns s s' :
  plain_digest (Doc.digest layer) → Forall meta_file ns →
  pull_layer sha256_hex status_error image (join dir "blobs/sha256") token progress n (i, layer) s = (Ok tt, s') →
  advances dir ns (files_of s) (files_of s') ∧ has_blob dir (files_of s') (Doc.digest layer).
Proof.
  intros (h & Hd & Hh) Hns. unfold pull_layer, exists_path, digest_to_hash. rewrite Hd.
  change (strip_prefix "sha256:" ("sha256:" +:+ h)) with (Some h). cbv beta iota. fold (blob_at dir h).
  intros (there & s1 & Hg & Hr)%stm_bind_inv. injection Hg as <- <-.
  destruct (exists_file (files_of s) (blob_at dir h)) eqn:Ex.
  - injection Hr as <-. split; [by apply advances_refl|]. exists h. split; [done|].
    by apply bool_decide_eq_true_1 in Ex.
  - apply exists_none in Ex. eapply stream_blob_ok in Hr as [? ?]; [|done..]. split; [done|]. by exists h.
Qed.

Lemma has_blob_keep dir ns d d' dg : plain_digest dg → advances dir ns d d' → has_blob dir d dg → has_blob dir d' dg.
Proof.
  intros (h & -> & [_ Hh]%andb_prop) [_ Hk _] (h' & E & [b Hb]).
  apply (inj (String.append "sha256:")) in E as <-. exists h. split; [done|]. exists b. by apply Hk.
Qed.

Lemma pull_layers_ok image dir token progress n ls i ns s s' :
  Forall (λ l, plain_digest (Doc.digest l)) ls → Forall meta_file ns →
  for_each (pull_layer sha256_hex status_error image (join dir "blobs/sha256") token progress n)
    (zip (seq i (length ls)) ls) s = (Ok tt, s') →
  advances dir ns (files_of s) (files_of s') ∧
  Forall (λ l, has_blob dir (files_of s') (Doc.digest l)) ls.
Proof.
  intros Hp Hns. revert i s. induction Hp as [|l ls Hl Hls IH]; intros i s.
  { intros [= <-]. split; [by apply advances_refl|constructor]. }
  cbn [length seq zip for_each]. intros ([] & s1 & H1 & H2)%stm_bind_inv.
  eapply (pull_layer_ok image dir token progress n i l ns) in H1 as [A1 B1]; [|done..].
  apply IH in H2 as [A2 B2]. split; [by eapply advances_trans|].
  constructor; [|done]. by eapply has_blob_keep.
Qed.

End Pulled.

(** *** The layout opens *)

Definition oci_descriptor (d : Doc.OciManifestDescriptor) : OciDescriptor := {|
  od_media_type := Doc.media_type d; od_digest := Doc.digest d; od_size := Doc.size d; od_platform := None |}.
Definition oci_manifest (m : Doc.OciManifest) : OciManifest := {|
  om_config := oci_descriptor (Doc.config m); om_layers := oci_descriptor <$> Doc.layers m |}.

(** What serde_json writes for the client's types, nova-runtime's types read:
    they have the same camelCase members. *)
Class LayoutJsonOk `{RegistryJson} `{OciJson} : Prop := {
  version_read : parse_layout (string_bytes layout_version) = inr {| image_layout_version := "1.0.0" |};
  index_read : ∀ h n, parse_index (index_to_vec_pretty (pulled_index h n)) =
    inr {| schema_version := 2;
           manifests := [{| od_media_type := "application/vnd.oci.image.manifest.v1+json";
                            od_digest := "sha256:" +:+ h; od_size := n; od_platform := None |}] |};
  manifest_read : ∀ m, parse_manifest (manifest_to_vec m) = inr (oci_manifest m);
}.

Definition plain_manifest (m : Doc.OciManifest) : Prop :=
  plain_digest (Doc.digest (Doc.config m)) ∧ Forall (λ l, plain_digest (Doc.digest l)) (Doc.layers m).

Section Opened.
Context {N : Type} `{HttpHost N} `{LayoutJsonOk}.
Context (sha256_hex : list byte → string) (status_text : Z → string) (status_error : Z → string).

Definition reading (f : gmap string (list byte)) : Disk := {| files := f; faults := [] |}.

Lemma fs_read_reading p f b : f !! p = Some b → fs_read p (reading f) = (Ok b, reading f).
Proof. intros Hp. unfold fs_read, with_file. cbn [files reading]. by rewrite Hp. Qed.

Lemma on_disk_read pre p f b :
  f !! p = Some b → on_disk pre (fs_read p) (reading f) = (Ok b, reading f).
Proof. intros Hp. unfold on_disk. by rewrite (fs_read_reading p f b). Qed.

Lemma stm_bind_step {S E A B} (m : stm S E A) (f : A → stm S E B) s a s1 :
  m s = (Ok a, s1) → (m ≫= f) s = f a s1.
Proof. unfold mbind, stm_bind. by intros ->. Qed.

Lemma split_colon_sha h : split_colon ("sha256:" +:+ h) = Some ("sha256", h).
Proof. done. Qed.

Lemma blob_path_at dir d h : od_digest d = "sha256:" +:+ h → all_hex h = true →
  descriptor_to_blob_path dir d = blob_at dir h.
Proof.
  intros E Hh. unfold descriptor_to_blob_path. rewrite E, split_colon_sha.
  change (join (join dir "blobs") "sha256") with ((dir +:+ "/blobs") +:+ "/sha256").
  rewrite append_assoc. unfold blob_at. done.
Qed.

Lemma read_blob_at dir d f h b :
  od_digest d = "sha256:" +:+ h → all_hex h = true → f !! blob_at dir h = Some b → sha256_hex b = h →
  read_and_verify_blob sha256_hex dir d (reading f) = (Ok b, reading f).
Proof.
  intros E Hh Hf Hb. unfold read_and_verify_blob. rewrite (blob_path_at dir d h) by done.
  erewrite stm_bind_step; [|by apply on_disk_read]. by rewrite Hb, E, String.eqb_refl.
Qed.

(** A directory with the four files opens, up to the configuration's text. *)
Lemma layout_opens dir f m h cb n :
  f !! join dir "oci-layout" = Some (string_bytes layout_version) →
  f !! join dir "index.json" = Some (index_to_vec_pretty (pulled_index (sha256_hex (manifest_to_vec m)) n)) →
  f !! blob_at dir (sha256_hex (manifest_to_vec m)) = Some (manifest_to_vec m) →
  all_hex (sha256_hex (manifest_to_vec m)) = true →
  Doc.digest (Doc.config m) = "sha256:" +:+ h → all_hex h = true →
  f !! blob_at dir h = Some cb → sha256_hex cb = h →
  (open_layout sha256_hex dir (reading f)).1 =
    match parse_config cb with
    | inr c => Ok {| layout_dir := dir; manifest := oci_manifest m; image_config := c |}
    | inl e => Err (Image ("invalid config: " +:+ e))
    end.
Proof.
  intros Hv Hi Hm Hmh Hd Hh Hc Hch. unfold open_layout.
  erewrite stm_bind_step; [|by apply on_disk_read].
  rewrite version_read. erewrite stm_bind_step; [|done]. cbn [image_layout_version].
  change (negb ("1.0.0" =? "1.0.0")%string) with false. cbv iota.
  erewrite stm_bind_step; [|by apply on_disk_read].
  rewrite index_read. erewrite stm_bind_step; [|done]. erewrite stm_bind_step; [|done].
  erewrite stm_bind_step; [|by eapply read_blob_at].
  rewrite manifest_read. erewrite stm_bind_step; [|done].
  erewrite stm_bind_step; [|eapply (read_blob_at dir (om_config (oci_manifest m))); [exact Hd|done|done|done]].
  by destruct (parse_config cb).
Qed.

(** What opening it with any faults finds, when it succeeds. *)
Lemma layout_opened dir d m cb n l d' :
  files d !! join dir "index.json" = Some (index_to_vec_pretty (pulled_index (sha256_hex (manifest_to_vec m)) n)) →
  files d !! blob_at dir (sha256_hex (manifest_to_vec m)) = Some (manifest_to_vec m) →
  all_hex (sha256_hex (manifest_to_vec m)) = true → all_hex (sha256_hex cb) = true →
  Doc.digest (Doc.config m) = "sha256:" +:+ sha256_hex cb → files d !! blob_at dir (sha256_hex cb) = Some cb →
  open_layout sha256_hex dir d = (Ok l, d') →
  manifest l = oci_manifest m ∧ parse_config cb = inr (image_config l).
Proof.
  intros Hi Hm Hmh Hch Hd Hc Ho.
  apply open_layout_ok in Ho as (_ & _ & ib & idx & desc & mb & cb' & Hib & Hidx & Hin & Hmb & _ & Hpm & Hcb & _ & Hpc).
  rewrite Hi in Hib. injection Hib as <-. rewrite index_read in Hidx. injection Hidx as <-.
  apply list_elem_of_singleton in Hin as ->.
  rewrite (blob_path_at dir _ (sha256_hex (manifest_to_vec m))), Hm in Hmb by done. injection Hmb as <-.
  rewrite manifest_read in Hpm. injection Hpm as Hpm. rewrite <- Hpm in Hcb.
  rewrite (blob_path_at dir _ (sha256_hex cb)), Hc in Hcb by done. by injection Hcb as <-.
Qed.

Context (sha256_is_hex : ∀ b, is_hex (sha256_hex b) = true).
Implicit Types s : Client N.

Lemma sha_hex b : all_hex (sha256_hex b) = true.
Proof. specialize (sha256_is_hex b). by apply andb_prop in sha256_is_hex as [_ ?]. Qed.

Lemma manifest_blob_sound dir b d d' :
  fs_write (join (join dir "blobs/sha256") (sha256_hex b)) b d = (Ok tt, d') →
  blobs_sound sha256_hex dir d → blobs_sound sha256_hex dir d'.
Proof.
  intros Hw%write_ok Hs h c Hh. rewrite Hw. destruct (decide (h = sha256_hex b)) as [->|Hne].
  - rewrite lookup_insert_eq. by intros [= ->].
  - rewrite lookup_insert_ne; [by apply Hs|]. intros E. fold (blob_at dir (sha256_hex b)) in E.
    apply Hne. symmetry. eapply blob_at_inj; [apply sha_hex|exact E|by apply hex_not_absolute].
Qed.

Lemma manifest_blob_meta dir b d d' n :
  fs_write (join (join dir "blobs/sha256") (sha256_hex b)) b d = (Ok tt, d') → meta_file n →
  files d' !! join dir n = files d !! join dir n.
Proof.
  intros Hw%write_ok Hn. rewrite Hw, lookup_insert_ne; [done|]. apply blob_not_meta; [apply sha_hex|done].
Qed.

Lemma meta_all : Forall meta_file ["oci-layout"] ∧ Forall meta_file ["oci-layout"; "index.json"].
Proof. unfold meta_file. split; repeat (apply Forall_cons; split; [auto|]); constructor. Qed.

(** What a successful pull leaves: the manifest it stored, under the digest it
    returns, and all that the manifest names. *)
Lemma registry_pull_files dir image progress s dg s' :
  registry_pull sha256_hex status_text status_error image dir progress s = (Ok dg, s') →
  blobs_sound sha256_hex dir (files_of s) →
  ∃ m token md s1 s2, fetch_manifest sha256_hex status_text image token s1 = (Ok (m, md), s2) ∧
    dg = "sha256:" +:+ sha256_hex (manifest_to_vec m) ∧
    (plain_manifest m →
      let f := files (files_of s') in
      blobs_sound sha256_hex dir (files_of s') ∧
      Forall (λ l, has_blob dir (files_of s') (Doc.digest l)) (Doc.layers m) ∧
      f !! join dir "oci-layout" = Some (string_bytes layout_version) ∧
      (∃ n, f !! join dir "index.json" =
        Some (index_to_vec_pretty (pulled_index (sha256_hex (manifest_to_vec m)) n))) ∧
      f !! blob_at dir (sha256_hex (manifest_to_vec m)) = Some (manifest_to_vec m) ∧
      ∃ cb, Doc.digest (Doc.config m) = "sha256:" +:+ sha256_hex cb ∧
        f !! blob_at dir (sha256_hex cb) = Some cb).
Proof.
  unfold registry_pull. intros ([] & s1 & E1%rio_ok%create_dirs_ok & Hr)%stm_bind_inv Hsound.
  apply stm_bind_inv in Hr as (token & s2 & E2%net_only_ok & Hr); [|apply authenticate_net].
  apply stm_bind_inv in Hr as ([m md] & s3 & Hfetch & Hr).
  pose proof (net_only_ok _ _ _ _ (fetch_manifest_net _ _ _ _) Hfetch) as E3.
  apply stm_bind_inv in Hr as ([] & s4 & E4%rio_ok%create_dirs_ok & Hr).
  assert (S4 : blobs_sound sha256_hex dir (files_of s4)).
  { unfold blobs_sound. rewrite E4, E3, E2, E1. exact Hsound. }
  apply stm_bind_inv in Hr as ([] & s5 & E5%rio_ok & Hr).
  eapply (advances_meta sha256_hex dir [] "oci-layout") in E5 as [A5 V5]; [|by left|set_solver|constructor].
  apply stm_bind_inv in Hr as ([] & s6 & E6%rio_ok & Hr).
  pose proof (manifest_blob_sound _ _ _ _ E6 (adv_sound _ _ _ _ _ A5 S4)) as S6.
  pose proof (manifest_blob_meta _ _ _ _ "oci-layout" E6 ltac:(by left)) as V6. rewrite V5 in V6.
  apply write_ok in E6. fold (blob_at dir (sha256_hex (manifest_to_vec m))) in E6.
  apply stm_bind_inv in Hr as ([] & s7 & E7 & Hr). apply stm_bind_inv in Hr as ([] & s8 & E8 & Hr).
  apply stm_bind_inv in Hr as ([] & s9 & E9%rio_ok & Hr). apply stm_bind_inv in Hr as ([] & s10 & E10%rio_ok & Hr).
  injection Hr as <- <-. exists m, token, md, s2, s3. split_and!; [done|done|].
  intros [(h & Hd & Hh) Hls]. destruct meta_all as (M1 & M2). pose proof Hh as [_ Hhx]%andb_prop.
  eapply (pull_config_ok sha256_hex status_error image dir token _ h ["oci-layout"]) in E7 as [A7 [cb Hcb]]; [|done..].
  eapply (pull_layers_ok sha256_hex status_error image dir token progress _ _ _ ["oci-layout"]) in E8 as [A8 L8]; [|done..].
  eapply (advances_meta sha256_hex dir ["oci-layout"] "index.json") in E9 as [A9 I9];
    [|by right; left|set_solver|done].
  eapply (advances_meta sha256_hex dir ["oci-layout"; "index.json"] "manifest.json") in E10 as [A10 _];
    [|by right; right|set_solver|done].
  pose proof (advances_trans _ _ _ _ _ _ A7 (advances_trans _ _ _ _ _ _ A8 A9)) as A79.
  assert (Hkeep : ∀ h b, all_hex h = true → files (files_of s6) !! blob_at dir h = Some b →
    files (files_of s10) !! blob_at dir h = Some b).
  { intros h' b Hh' Hb. apply (adv_keep _ _ _ _ _ A10), (adv_keep _ _ _ _ _ A79); done. }
  assert (Hcb10 : files (files_of s10) !! blob_at dir h = Some cb).
  { by apply (adv_keep _ _ _ _ _ A10), (adv_keep _ _ _ _ _ A9), (adv_keep _ _ _ _ _ A8). }
  assert (S10 : blobs_sound sha256_hex dir (files_of s10)) by (by apply (adv_sound _ _ _ _ _ A10), (adv_sound _ _ _ _ _ A79)).
  pose proof (S10 _ _ Hhx Hcb10) as Hch.
  split_and!; [done| | | | |].
  - rewrite Forall_forall in *. intros l Hl. eapply has_blob_keep; [by apply Hls|exact A10|].
    eapply has_blob_keep; [by apply Hls|exact A9|]. by apply L8.
  - rewrite (adv_meta _ _ _ _ _ A10), (adv_meta _ _ _ _ _ A79); [exact V6|set_solver..].
  - eexists. rewrite (adv_meta _ _ _ _ _ A10); [exact I9|set_solver].
  - apply Hkeep; [apply sha_hex|]. rewrite E6. apply lookup_insert_eq.
  - exists cb. rewrite Hch. auto.
Qed.

End Opened.

(** ** Witness *)

Definition desc_tuple (d : Doc.OciManifestDescriptor) : string * string * Z := (Doc.media_type d, Doc.digest d, Doc.size d).
Definition tuple_desc (t : string * string * Z) : Doc.OciManifestDescriptor :=
  {| Doc.media_type := t.1.1; Doc.digest := t.1.2; Doc.size := t.2 |}.

Definition demo_manifest_text (m : Doc.OciManifest) : list byte :=
  pos_bits (encode (Doc.schema_version m, desc_tuple (Doc.config m), desc_tuple <$> Doc.layers m)).
Definition demo_read_manifest (b : list byte) : string + Doc.OciManifest :=
  match decode (bits_pos b) with
  | Some (v, c, ls) => inr {| Doc.schema_version := v; Doc.config := tuple_desc c; Doc.layers := tuple_desc <$> ls |}
  | None => inl "bad"
  end.
Definition demo_index_text (i : Doc.OciIndex) : list byte :=
  pos_bits (encode (Doc.index_version i, (λ d, (Doc.od_media_type d, Doc.od_digest d, Doc.od_size d)) <$> Doc.manifests i)).
Definition demo_target : Doc.ManifestListEntry :=
  {| Doc.entry_digest := "sha256:c3"; Doc.platform := Some {| Doc.architecture := "amd64"; Doc.os := "linux" |} |}.

#[local] Instance demo_registry_json : RegistryJson := {|
  parse_value := λ _, inr (JObject [("token", JString "t0")]);
  read_manifest_list := λ _, inr {| Doc.entries := [demo_target] |};
  read_manifest := demo_read_manifest;
  manifest_to_vec := demo_manifest_text;
  index_to_vec_pretty := demo_index_text;
  docker_to_vec_pretty := λ _, [];
|}.
Definition demo_config : OciConfig := {|
  oc_architecture := "amd64"; oc_os := "linux";
  oc_config := {| cmd := None; entrypoint := None; env := None; working_dir := None |};
  oc_rootfs := {| rootfs_type := "layers"; diff_ids := [] |} |}.
#[local] Instance demo_oci_json : OciJson := {|
  parse_layout := λ _, inr {| image_layout_version := "1.0.0" |};
  parse_index := λ b,
    match decode (bits_pos b) with
    | Some (v, ds) => inr {| schema_version := v; manifests := (λ t : string * string * Z,
        {| od_media_type := t.1.1; od_digest := t.1.2; od_size := t.2; od_platform := None |}) <$> ds |}
    | None => inl "bad"
    end;
  parse_manifest := λ b, match demo_read_manifest b with inr m => inr (oci_manifest m) | inl e => inl e end;
  parse_config := λ _, inr demo_config;
|}.

#[local] Instance demo_layout_ok : LayoutJsonOk.
Proof.
  constructor.
  - done.
  - intros h n. cbn. unfold demo_index_text. by rewrite bits_pos_bits, decode_encode.
  - intros m. cbn. unfold demo_manifest_text, demo_read_manifest. rewrite bits_pos_bits, decode_encode.
    assert (Hd : ∀ d, tuple_desc (desc_tuple d) = d) by (by intros []).
    assert (Hl : ∀ ls : list Doc.OciManifestDescriptor, tuple_desc <$> (desc_tuple <$> ls) = ls).
    { induction ls as [|d ls IH]; [done|]. by rewrite !fmap_cons, Hd, IH. }
    cbn. rewrite Hd, Hl. by destruct m.
Qed.

(** Answers in order, whatever is asked. *)
#[local] Instance demo_http : HttpHost (list HttpResponse) := {|
  http_send := λ _ _ n, match n with [] => (inl "connection closed", []) | r :: n => (inr r, n) end |}.

Definition demo_manifest : Doc.OciManifest := {|
  Doc.schema_version := 2;
  Doc.config := {| Doc.media_type := "c"; Doc.digest := "sha256:a1"; Doc.size := 1 |};
  Doc.layers := [{| Doc.media_type := "l"; Doc.digest := "sha256:b2"; Doc.size := 2 |}] |}.

Definition response (st : Z) (h : string) (v : string) (b : list (string + list byte)) : HttpResponse := {|
  status := st; header := λ n, if String.eqb n h then Some (string_bytes v) else None;
  content_length := None; body := b |}.

Definition demo_answers : list HttpResponse :=
  [response 401 "www-authenticate" ("Bearer realm=" +:+ dquote +:+ "https://auth/t" +:+ dquote) [];
   response 200 "" "" [inr [x00]];
   response 200 "content-type" "application/vnd.oci.image.index.v1+json" [inr []];
   response 200 "" "" [inr (demo_manifest_text demo_manifest)];
   response 200 "" "" [inr [x00]];
   response 200 "" "" [inr []; inr [z2b 1]]].

Definition demo_sha256 (b : list byte) : string :=
  match b with [] => "e0" | [c] => if b2z c =? 1 then "b2" else "a1" | _ => "c3" end.
Lemma demo_sha256_hex b : is_hex (demo_sha256 b) = true.
Proof. destruct b as [|c []]; [done| |done]. cbn. by destruct (b2z c =? 1). Qed.
Definition demo_image : ImageReference :=
  {| registry := docker_hub; repository := "library/nginx"; reference := "latest" |}.
Definition demo_client (answers : list HttpResponse) : Client (list HttpResponse) :=
  {| net := answers; files_of := {| files := ∅; faults := [] |}; ticks := [] |}.
Definition demo_pull (answers : list HttpResponse) :=
  registry_pull demo_sha256 (λ _, "") (λ _, "") demo_image "/i/oci" true (demo_client answers).


(** A layer whose content has another digest is not put in its place. *)
Example wrong_layer :
  let '(r, s) := demo_pull (take 5 demo_answers ++ [response 200 "" "" [inr [x00]]]) in
  r = Err (DigestMismatch "b2" "a1") ∧ files (files_of s) !! blob_at "/i/oci" "b2" = None ∧
  files (files_of s) !! blob_at "/i/oci" "b2.tmp" = None.
Proof. vm_compute. auto. Qed.

(** The digest of a reference is not compared with the manifest that is
    answered. *)
Example digest_reference_unchecked :
  (registry_pull demo_sha256 (λ _, "") (λ _, "")
    {| registry := docker_hub; repository := "library/nginx"; reference := "sha256:b2" |} "/i/oci" true
    (demo_client demo_answers)).1 = Ok "sha256:c3".
Proof. vm_compute. reflexivity. Qed.

(** A write of the configuration that fails leaves its first bytes under its
    digest; the next pull takes them for the configuration. *)
Example truncated_config_kept :
  let faults := replicate 7 None ++ [Some {| fault_text := "ENOSPC"; fault_done := 0 |}] in
  let '(r, s) := registry_pull demo_sha256 (λ _, "") (λ _, "") demo_image "/i/oci" true
    {| net := demo_answers; files_of := {| files := ∅; faults := faults |}; ticks := [] |} in
  let '(r2, s2) := registry_pull demo_sha256 (λ _, "") (λ _, "") demo_image "/i/oci" true
    {| net := take 4 demo_answers ++ drop 5 demo_answers; files_of := files_of s; ticks := [] |} in
  r = Err (RegIo "ENOSPC") ∧ r2 = Ok "sha256:c3" ∧ files (files_of s2) !! blob_at "/i/oci" "a1" = Some [].
Proof. vm_compute. auto. Qed.

(** A digest is used as a path: a file of the host is accepted as a layer. *)
Example layer_path_unchecked :
  join (join "/i/oci" "blobs/sha256") (digest_to_hash "sha256:/etc/shadow") = "/etc/shadow" ∧
  with_tmp_extension "/etc/shadow" = "/etc/shadow.tmp".
Proof. vm_compute. auto. Qed.
