(* ===== verification/ImageService.v ===== *)
(** * The image service (nova-api/src/image_server.rs)

    The handlers that pull, list, remove and inspect images: the registry
    client fills a layout directory, the puller of nova-runtime converts it,
    and the image cache remembers it. *)

From stdpp Require Import pretty.
From S2P Require Import Prelude Pool Wasm Sandbox Store Oci Initrd Extract Caches Pull Registry.
#[local] Open Scope Z_scope.

(** ** gRPC statuses and the texts of the errors *)

Inductive Status : Type :=
| InvalidArgument (m : string)
| NotFoundStatus (m : string)
| AlreadyExists (m : string)
| PermissionDenied (m : string)
| FailedPrecondition (m : string)
| Internal (m : string).

Definition runtime_error_text (e : RuntimeError) : string :=
  match e with
  | SandboxNotFound i => "sandbox not found: " +:+ i
  | SandboxExists i => "sandbox already exists: " +:+ i
  | InvalidState i from to => "invalid state transition for '" +:+ i +:+ "': " +:+ from +:+ " -> " +:+ to
  | Image s => "image error: " +:+ s
  | Network s => "network error: " +:+ s
  | Io s => "I/O error: " +:+ s
  | Config s => "config error: " +:+ s
  | WasmFailed s => "wasm error: " +:+ s
  | Cache s => "cache error: " +:+ s
  | Snapshot s => "snapshot error: " +:+ s
  | PoolFailed s => "pool error: " +:+ s
  end.

Definition registry_error_text (e : RegistryError) : string :=
  match e with
  | Http s => "HTTP error: " +:+ s
  | Auth s => "authentication failed: " +:+ s
  | ManifestNotFound s => "manifest not found for " +:+ s
  | NoPlatformMatch => "no linux/amd64 platform in manifest list"
  | DigestMismatch ex ac => "digest mismatch: expected " +:+ ex +:+ ", got " +:+ ac
  | RegIo s => "I/O error: " +:+ s
  | InvalidReference s => "invalid image reference: " +:+ s
  | Json s => "JSON error: " +:+ s
  end.

(** ** The messages (sandbox.proto) *)

Record PullImageResponse : Type := { resp_rootfs : string; resp_digest : string }.
Record ImageInfoMsg : Type := {
  msg_ref : string; msg_digest : string; msg_size : Z; msg_pulled_at : string;
  msg_format : string; msg_rootfs : string }.

Definition info_msg (i : ImageInfo) : ImageInfoMsg := {|
  msg_ref := info_ref i; msg_digest := info_digest i; msg_size := info_size i; msg_pulled_at := "";
  msg_format := format_text (info_format i); msg_rootfs := info_rootfs i |}.

(** The connections, the puller with the host's files, and the image cache. *)
Record ImageDaemonService (N : Type) : Type := {
  registry_net : N; image_puller : PullState; image_cache : ImageCache }.
Arguments registry_net {N} _. Arguments image_puller {N} _. Arguments image_cache {N} _.

Section Service.
Context {N : Type} `{HttpHost N} `{RegistryJson} `{OciJson} `{Tar}.
Context `{Serde BlobStoreIndex} `{Serde RootfsCacheIndex} `{Serde (gmap string ImageInfo)}.
Context (sha256_hex : list byte → string) (status_text status_error : Z → string)
  (alphanumeric : list byte → bool) (report : Fs → hpath → dir) (show_errno : Z → string) (now : Z).
Context (image_dir : string).
Local Abbreviation run := (stm (ImageDaemonService N) Status).

(** The registry client and the puller run on their parts of the state. *)
Definition on_registry {A} (m : stm (Client N) RegistryError A) (f : RegistryError → Status) : run A := λ s,
  let '(r, c) := m {| net := registry_net s; files_of := disk (image_puller s); ticks := [] |} in
  (map_err f r, {| registry_net := net c; image_puller := set_disk (image_puller s) (files_of c);
                   image_cache := image_cache s |}).
Definition on_puller {A} (m : stm PullState RuntimeError A) (f : RuntimeError → Status) : run A := λ s,
  let '(r, p) := m (image_puller s) in
  (map_err f r, {| registry_net := registry_net s; image_puller := p; image_cache := image_cache s |}).

Definition cache_info (i : ImageInfo) : run unit := modify (λ s,
  let '(c, d) := image_insert i (image_cache s, disk (image_puller s)) in
  {| registry_net := registry_net s; image_puller := set_disk (image_puller s) d; image_cache := c |}).

Definition response_of (i : ImageInfo) : PullImageResponse :=
  {| resp_rootfs := info_rootfs i; resp_digest := info_digest i |}.

(** The image under the name and the digest it was asked for by. *)
Definition renamed (i : ImageInfo) (iref digest : string) : ImageInfo := {|
  info_ref := iref; info_digest := digest; info_rootfs := info_rootfs i; info_format := info_format i;
  info_size := info_size i; info_config := info_config i |}.

Definition cached_image (s : ImageDaemonService N) (iref : string) : option ImageInfo :=
  i ← index (image_cache s) !! iref;
  if exists_file (disk (image_puller s)) (info_rootfs i) then Some i else None.

Definition layout_dir_of (iref : string) : string :=
  join image_dir ("oci-" +:+ sanitize_image_ref alphanumeric iref).

Definition pull_fresh (iref : string) : run PullImageResponse :=
  image ← lift (map_err (λ e, InvalidArgument (registry_error_text e)) (parse iref));
  let oci_dir := layout_dir_of iref in
  digest ← on_registry (registry_pull sha256_hex status_text status_error image oci_dir false)
    (λ e, Internal ("registry pull failed: " +:+ registry_error_text e));
  info ← on_puller (pull_oci_layout sha256_hex report show_errno now oci_dir)
    (λ e, Internal ("image conversion failed: " +:+ runtime_error_text e));
  let info := renamed info iref digest in
  cache_info info ;;
  mret (response_of info).

Definition pull_image (iref : string) : run PullImageResponse := λ s,
  if String.eqb iref "" then (Err (InvalidArgument "image_ref is required"), s) else
  match cached_image s iref with
  | Some i => (Ok (response_of i), s)
  | None => pull_fresh iref s
  end.

(** The values of the index, in an order of its own. *)
Definition list_images : run (list ImageInfoMsg) :=
  gets (λ s, info_msg <$> (map_to_list (index (image_cache s))).*2).

Definition remove_image (iref : string) : run unit := λ s,
  let '(r, (c, d)) := image_remove iref (image_cache s, disk (image_puller s)) in
  (map_err (λ e, NotFoundStatus (runtime_error_text e)) r,
   {| registry_net := registry_net s; image_puller := set_disk (image_puller s) d; image_cache := c |}).

Definition inspect_image (iref : string) : run ImageInfoMsg := λ s,
  match index (image_cache s) !! iref with
  | Some i => (Ok (info_msg i), s)
  | None => (Err (NotFoundStatus ("image not found: " +:+ iref)), s)
  end.
End Service.

Section PullImage.
Context {N : Type} `{HttpHost N} `{LayoutJsonOk} `{Tar}.
Context `{Serde BlobStoreIndex} `{Serde RootfsCacheIndex} `{Serde (gmap string ImageInfo)}.
Context (sha256_hex : list byte → string) (status_text status_error : Z → string)
  (alphanumeric : list byte → bool) (report : Fs → hpath → dir) (show_errno : Z → string) (now : Z).
Context (image_dir : string).
Context (sha256_is_hex : ∀ b, is_hex (sha256_hex b) = true).
Local Abbreviation do_pull := (pull_image sha256_hex status_text status_error alphanumeric report show_errno now image_dir).
Implicit Types s : ImageDaemonService N.

Lemma on_registry_ok {A} (m : stm (Client N) RegistryError A) f s a s' :
  on_registry m f s = (Ok a, s') →
  ∃ c, m {| net := registry_net s; files_of := disk (image_puller s); ticks := [] |} = (Ok a, c) ∧
    s' = {| registry_net := net c; image_puller := set_disk (image_puller s) (files_of c); image_cache := image_cache s |}.
Proof. unfold on_registry. destruct (m _) as [[]]; intros; simplify_eq/=; eauto. Qed.

Lemma on_puller_ok {A} (m : stm PullState RuntimeError A) f s a s' :
  on_puller m f s = (Ok a, s') →
  ∃ p, m (image_puller s) = (Ok a, p) ∧
    s' = {| registry_net := registry_net s; image_puller := p; image_cache := image_cache s |}.
Proof. unfold on_puller. destruct (m _) as [[]]; intros; simplify_eq/=; eauto. Qed.

(** The archive an image names: the one the rootfs cache had for the layout,
    or the cpio archive of the tree its layers extract to. *)
Definition archive_of (p : PullState) (dir : string) (layers : list OciDescriptor) (data : list byte) : Prop :=
  (∃ c k e, rootfs_cache (puller p) = Some c ∧ entries c !! k = Some e ∧
     files (disk p) !! join (cache_dir c) (rootfs_filename e) = Some data) ∨
  (∃ out t0 t d0 d1, extract_layers dir out layers (t0, d0) = (Ok tt, (t, d1)) ∧
     files d0 = files (disk p) ∧ dir_to_cpio (report t out) = Ok data).

End PullImage.

(** ** Witness *)

#[local] Existing Instance demo_registry_json.
#[local] Existing Instance demo_oci_json.
#[local] Existing Instance demo_layout_ok.
#[local] Existing Instance demo_http.
#[local] Existing Instance demo_tar.
#[local] Instance demo_blob_serde : Serde BlobStoreIndex := {| to_json := λ _, []; from_json := λ _, inr ∅ |}.
#[local] Instance demo_cache_serde : Serde RootfsCacheIndex := {| to_json := λ _, []; from_json := λ _, inr ∅ |}.
#[local] Instance demo_image_serde : Serde (gmap string ImageInfo) := {| to_json := λ _, []; from_json := λ _, inr ∅ |}.

Definition demo_service : ImageDaemonService (list HttpResponse) := {|
  registry_net := demo_answers;
  image_puller := {| puller := puller_new "/i" Initramfs; disk := {| files := ∅; faults := [] |};
                     tree := {[ ["i"] := HDir ]} |};
  image_cache := {| ic_dir := "/i"; index := ∅ |} |}.
Definition demo_pull_image :=
  pull_image demo_sha256 (λ _, "") (λ _, "") (λ _, true) demo_report pretty 0 "/i" "nginx".
Definition demo_response : PullImageResponse := {| resp_rootfs := "/i/c3.cpio"; resp_digest := "sha256:c3" |}.

