(* ===== verification/GuestImage.v ===== *)
(** * The guest's image (nova-api: config.rs; build_vm_config,
    inject_init_into_cpio and inject_guest_ebpf of server.rs)

    What the daemon gives a VM besides the image itself: the configuration
    text that nova-vmm parses, and the files it appends to the image's cpio
    archive, the init script, the sandbox's command, the entropy seeder and
    the event agent.  The TOML parser and the JSON writer are parameters. *)

From stdpp Require Import pretty.
From S2P Require Import Prelude Pool Wasm Sandbox Store Oci Initrd Extract Caches Eye Probes Kvm Builder Registry.
#[local] Open Scope Z_scope.

(** ** The daemon's configuration (config.rs) *)

Definition default_socket : string := "/run/nova/nova.sock".
Definition default_image_dir : string := "/var/lib/nova/images".
Definition default_events_log : string := "/var/run/nova/events.jsonl".
Definition default_ebpf_dir : string := "/opt/nova/ebpf".
Definition default_agent_path : string := "/opt/nova/bin/nova-eye-agent".
Definition default_api_port : Z := 9800.
Definition default_event_port : Z := 9876.

Record GuestSensorConfig : Type := { gs_enabled : bool; agent_path : string; event_port : Z }.
Record SensorConfig : Type := {
  events_log : string; ebpf_dir : string; guest : GuestSensorConfig; sensor_probes : list ProbeSpec }.
Record DaemonSettings : Type := {
  ds_socket : string; ds_image_dir : string; ds_kernel : option string; ds_tap_device : option string;
  ds_api_port : Z }.

Definition GuestSensorConfig_default : GuestSensorConfig :=
  {| gs_enabled := false; agent_path := default_agent_path; event_port := default_event_port |}.
Definition SensorConfig_default : SensorConfig :=
  {| events_log := default_events_log; ebpf_dir := default_ebpf_dir; guest := GuestSensorConfig_default;
     sensor_probes := [] |}.
Definition DaemonSettings_default : DaemonSettings :=
  {| ds_socket := default_socket; ds_image_dir := default_image_dir; ds_kernel := None; ds_tap_device := None;
     ds_api_port := default_api_port |}.

(** ** The configuration of a VM *)

Definition effective_cmdline (initrd_path : option string) (cmdline : string) : string :=
  if bool_decide (is_Some initrd_path) && negb (str_contains cmdline "rdinit=")
  then cmdline +:+ " rdinit=/init" else cmdline.

Definition quoted_line (key value : string) : string := key +:+ " = " +:+ quoted value +:+ newline.

Definition build_vm_config (kernel_path : string) (initrd_path : option string) (memory_mib vcpus : Z)
    (cmdline : string) (tap_device : option string) : string :=
  "vcpus = " +:+ pretty vcpus +:+ newline +:+
  "memory_mib = " +:+ pretty memory_mib +:+ newline +:+
  newline +:+
  "[kernel]" +:+ newline +:+
  quoted_line "path" kernel_path +:+
  quoted_line "cmdline" (effective_cmdline initrd_path cmdline) +:+
  quoted_line "boot_method" "elf" +:+
  from_option (quoted_line "initrd") "" initrd_path +:+
  from_option (λ tap, newline +:+ "[network]" +:+ newline +:+ quoted_line "tap" tap +:+
                      quoted_line "mac" "AA:BB:CC:DD:EE:01") "" tap_device.

(** [/init]: the lines of the script, each ended by a newline; a backquote
    stands for a double quote, which a literal cannot hold (the script has no
    backquote). *)
Fixpoint unquote (s : string) : string :=
  match s with
  | EmptyString => ""
  | String c s => String (if Ascii.eqb c (Ascii.ascii_of_nat 96) then Ascii.ascii_of_nat 34 else c) (unquote s)
  end.
Definition lines (ls : list string) : string := foldr (λ l s, unquote l +:+ newline +:+ s) "" ls.

Definition init_script : string := lines
  ["#!/bin/sh";
   "export PATH=/usr/local/sbin:/usr/local/bin:/usr/sbin:/usr/bin:/sbin:/bin";
   "mkdir -p /proc /sys /dev /tmp /var/run 2>/dev/null";
   "mount -t proc none /proc 2>/dev/null";
   "mount -t sysfs none /sys 2>/dev/null";
   "mount -t devtmpfs none /dev 2>/dev/null";
   "mount -t tmpfs none /tmp 2>/dev/null";
   "mount -t tmpfs none /var/run 2>/dev/null";
   "";
   "echo 'NovaVM: init started'";
   "";
   "# Seed entropy for the CRNG (kernel 4.14 needs RNDADDENTROPY ioctl).";
   "if [ -x /sbin/seed-entropy ]; then";
   "    /sbin/seed-entropy";
   "    echo `NovaVM: entropy seeded`";
   "fi";
   "";
   "# Configure networking if eth0 exists";
   "if [ -d /sys/class/net/eth0 ]; then";
   "    ip link set eth0 up";
   "    ip addr add 172.16.0.2/30 dev eth0";
   "    ip route add default via 172.16.0.1";
   "    echo 'NovaVM: network configured (172.16.0.2)'";
   "fi";
   "";
   "# Mount filesystems needed for eBPF";
   "mount -t debugfs none /sys/kernel/debug 2>/dev/null";
   "mount -t tracefs none /sys/kernel/tracing 2>/dev/null";
   "mkdir -p /sys/fs/bpf 2>/dev/null";
   "mount -t bpf none /sys/fs/bpf 2>/dev/null";
   "";
   "# Test UDP connectivity to host";
   "echo 'NovaVM: testing UDP to host'";
   "echo 'NOVA-INIT-UDP-TEST' | busybox nc -u -w1 172.16.0.1 9876 2>/dev/null &";
   "sleep 1";
   "";
   "# Start nova-eye eBPF telemetry agent (if injected)";
   "if [ -x /sbin/nova-eye-agent ]; then";
   "    /sbin/nova-eye-agent > /tmp/nova-eye-agent.log 2>&1 &";
   "    sleep 2";
   "    echo 'NovaVM: nova-eye-agent started'";
   "    cat /tmp/nova-eye-agent.log 2>/dev/null";
   "";
   "    # Test UDP again after agent starts";
   "    echo 'NOVA-AGENT-UDP-TEST' | busybox nc -u -w1 172.16.0.1 9876 2>/dev/null &";
   "fi";
   "";
   "echo 'NovaVM: container ready'";
   "";
   "# Run image-specific entry script if injected, otherwise auto-detect.";
   "if [ -x /entry.sh ]; then";
   "    echo 'NovaVM: running /entry.sh'";
   "    /entry.sh";
   "else";
   "    echo 'NovaVM: no /entry.sh, auto-detect mode'";
   "    if [ -x /usr/sbin/nginx ]; then";
   "        mkdir -p /var/log/nginx /var/cache/nginx 2>/dev/null";
   "        printf 'worker_processes 1;\nerror_log /tmp/nginx-error.log info;\npid /tmp/nginx.pid;\nevents { worker_connections 64; }\nhttp {\n  access_log off;\n  server {\n    listen 80;\n    location / {\n      return 200 `NovaVM nginx OK\\n`;\n      add_header Content-Type text/plain;\n    }\n  }\n}\n' > /tmp/nginx.conf";
   "        /usr/sbin/nginx -c /tmp/nginx.conf 2>&1";
   "        echo `NovaVM: nginx started (exit=$?)`";
   "    fi";
   "fi";
   "";
   "echo 'NovaVM: entry completed'";
   "";
   "# Serial exec listener - reads commands from serial console and executes them.";
   "# Uses markers so the host can extract command output.";
   "exec 0</dev/ttyS0";
   "exec 1>/dev/ttyS0";
   "exec 2>/dev/ttyS0";
   "while true; do";
   "    read -r cmd || { sleep 1; continue; }";
   "    [ -z `$cmd` ] && continue";
   "    echo `===NOVA_EXEC_BEGIN===`";
   "    eval `$cmd` 2>&1";
   "    echo `===NOVA_EXEC_END===$?`";
   "done"].

(** ** Files appended to the image's archive *)

(** [Path::join], on a directory that may be empty or end in a slash. *)
Definition push_path (dir name : string) : string :=
  if String.prefix "/" name then name else
  match reverse (String.list_ascii_of_string dir) with
  | [] => name
  | c :: _ => if Ascii.eqb c slash then dir +:+ name else dir +:+ "/" +:+ name
  end.

(** Opening an existing file to append to it, and [write_all]. *)
Definition append_existing (p : string) (data : list byte) : stm Disk string unit :=
  with_file p (λ _, sys (λ d, (tt, files d)) (λ _ d, files d)) ;;
  fs_append p data.

Definition seed_entropy_paths (env : string → option string) (kernel_path : option string) : list string :=
  option_list (env "NOVA_SEED_ENTROPY") ++
  option_list (kp ← kernel_path; dir ← parent kp; Some (push_path dir "seed-entropy")) ++
  option_list (k ← env "NOVA_KERNEL"; dir ← parent k; Some (push_path dir "seed-entropy")) ++
  ["/usr/lib/nova/seed-entropy"].

(** The first candidate that is there and can be read. *)
Fixpoint first_readable (paths : list string) : stm Disk string (option (list byte)) := λ d,
  match paths with
  | [] => (Ok None, d)
  | p :: paths =>
      if exists_file d p then
        match fs_read p d with
        | (Ok data, d) => (Ok (Some data), d)
        | (_, d) => first_readable paths d
        end
      else first_readable paths d
  end.

Definition inject_opt (path : string) (mode : Z) (cpio : list byte) (data : option (list byte)) : list byte :=
  from_option (λ b, inject_file cpio (string_bytes path) b mode) cpio data.

Definition inject_init_into_cpio (env : string → option string) (cpio_path : string)
    (entry_script : option (list byte)) (kernel_path : option string) : stm Disk string unit :=
  let extra := inject_file [] (string_bytes "init") (string_bytes init_script) 0x81ED in
  let extra := inject_opt "entry.sh" 0x81ED extra entry_script in
  seed ← first_readable (seed_entropy_paths env kernel_path);
  append_existing cpio_path (inject_opt "sbin/seed-entropy" 0x81ED extra seed).

(** The enabled probes' bytecode that can be read. *)
Fixpoint inject_probes (ebpf_dir : string) (cpio : list byte) (ps : list ProbeSpec)
    : stm Disk string (list byte) := λ d,
  match ps with
  | [] => (Ok cpio, d)
  | p :: ps =>
      match (if enabled p then bytecode p else None) with
      | None => inject_probes ebpf_dir cpio ps d
      | Some name =>
          let '(r, d) := fs_read (ebpf_dir +:+ "/" +:+ name) d in
          inject_probes ebpf_dir
            match r with
            | Ok b => inject_file cpio (string_bytes ("opt/nova/ebpf/" +:+ name)) b 0x81A4
            | _ => cpio
            end ps d
      end
  end.

Definition guest_dirs : list string := ["etc/nova"; "opt/nova"; "opt/nova/ebpf"].

Definition inject_guest_ebpf (to_json : list ProbeSpec → list byte) (cpio_path : string)
    (guest_config : GuestSensorConfig) (sensor_config : SensorConfig) : stm Disk string unit := λ d,
  let extra := foldl (λ c dir, inject_file c (string_bytes dir) [] 0x41ED) [] guest_dirs in
  if negb (exists_file d (agent_path guest_config)) then (Ok tt, d) else
  (agent ← fs_read (agent_path guest_config);
   let extra := inject_file extra (string_bytes "sbin/nova-eye-agent") agent 0x81ED in
   extra ← inject_probes (ebpf_dir sensor_config) extra (sensor_probes sensor_config);
   append_existing cpio_path
     (inject_file extra (string_bytes "etc/nova/probes.json") (to_json (sensor_probes sensor_config)) 0x81A4)) d.

(** ** What the guest finds

    The kernel unpacks the archives one after the other, so that of several
    entries of one name the last counts. *)

Definition unpacked (es : list cpio_entry) (name : string) : option cpio_entry :=
  last (filter (λ e, ce_name e = string_bytes name) es).

Definition file_entry (name : string) (mode : Z) (data : list byte) : cpio_entry :=
  {| ce_name := string_bytes name; ce_mode := mode; ce_data := data |}.

Definition injected (l : list cpio_entry) : list byte :=
  foldl (λ c e, inject_file c (ce_name e) (ce_data e) (ce_mode e)) [] l.

Lemma unpacked_app es es' name :
  unpacked (es ++ es') name = match unpacked es' name with Some e => Some e | None => unpacked es name end.
Proof. unfold unpacked. by rewrite filter_app, last_app. Qed.

Lemma string_bytes_inj a b : string_bytes a = string_bytes b → a = b.
Proof. intros E. by rewrite <- (bytes_string_bytes a), E, bytes_string_bytes. Qed.

Lemma unpacked_cons e es name :
  unpacked (e :: es) name =
    match unpacked es name with Some e => Some e | None => if decide (ce_name e = string_bytes name) then Some e else None end.
Proof.
  rewrite (unpacked_app [e] es). destruct (unpacked es name); [done|].
  unfold unpacked. rewrite filter_cons. by case_decide.
Qed.

Lemma unpacked_none es name : (∀ e, e ∈ es → ce_name e ≠ string_bytes name) → unpacked es name = None.
Proof.
  intros Hn. unfold unpacked. induction es as [|e es IH]; [done|]. rewrite filter_cons_False; [|apply Hn; by left].
  apply IH. intros e' He'. apply Hn. by right.
Qed.

Lemma injected_snoc l e : injected (l ++ [e]) = inject_file (injected l) (ce_name e) (ce_data e) (ce_mode e).
Proof. unfold injected. by rewrite foldl_app. Qed.

Lemma read_injected l : Forall cpio_entry_ok l → read_cpio (injected l) = Some l.
Proof.
  induction l as [|e l IH] using rev_ind; [done|]. intros [Hl [[He Hn] _]%Forall_cons]%Forall_app.
  rewrite injected_snoc. destruct e as [n m b].
  by rewrite (inject_file_appends _ l) by auto.
Qed.

Definition no_nul (s : string) : Prop := x00 ∉ string_bytes s.
Definition fits_archive (data : list byte) : Prop := zlen data < 2 ^ 32.
#[export] Instance fits_archive_dec data : Decision (fits_archive data) := decide (zlen data < 2 ^ 32).

Lemma file_entry_ok name mode data :
  no_nul name → zlen (string_bytes name) + 1 < 2 ^ 32 → string_bytes name ≠ TRAILER → fits 32 mode →
  fits_archive data → cpio_entry_ok (file_entry name mode data).
Proof. intros. split; [by constructor|done]. Qed.

(** The names the daemon injects itself are well formed. *)
Definition plain_name (name : string) : Prop :=
  no_nul name ∧ zlen (string_bytes name) + 1 < 2 ^ 32 ∧ string_bytes name ≠ TRAILER.
#[export] Instance plain_name_dec name : Decision (plain_name name) := _.

Lemma plain_entry_ok name mode data :
  plain_name name → fits 32 mode → fits_archive data → cpio_entry_ok (file_entry name mode data).
Proof. intros (?&?&?). by apply file_entry_ok. Qed.

(** *** The steps on a disk without faults *)

Definition calm (f : gmap string (list byte)) : Disk := {| files := f; faults := [] |}.

Lemma calm_read p f b : f !! p = Some b → fs_read p (calm f) = (Ok b, calm f).
Proof. intros Hp. unfold fs_read, with_file. cbn [files calm]. by rewrite Hp. Qed.
Lemma calm_read_none p f : f !! p = None → fs_read p (calm f) = (Err no_such_file, calm f).
Proof. intros Hp. unfold fs_read, with_file. cbn [files calm]. by rewrite Hp. Qed.
Lemma calm_append p f b data :
  f !! p = Some b → append_existing p data (calm f) = (Ok tt, calm (<[p := b ++ data]> f)).
Proof.
  intros Hp. unfold append_existing, with_file, mbind, stm_bind. cbn [files calm]. rewrite Hp.
  unfold sys, fs_append. cbn. by rewrite Hp.
Qed.

Fixpoint first_present (f : gmap string (list byte)) (paths : list string) : option (list byte) :=
  match paths with
  | [] => None
  | p :: paths => match f !! p with Some b => Some b | None => first_present f paths end
  end.

Lemma calm_first_readable f paths : first_readable paths (calm f) = (Ok (first_present f paths), calm f).
Proof.
  induction paths as [|p paths IH]; [done|]. cbn [first_readable first_present]. unfold exists_file. cbn [files calm].
  destruct (f !! p) as [b|] eqn:E.
  - rewrite bool_decide_eq_true_2 by (by eexists). rewrite (calm_read p f b) by done. done.
  - rewrite bool_decide_eq_false_2 by (by intros []). exact IH.
Qed.

(** The entries each step adds. *)
Definition opt_entry (name : string) (mode : Z) (data : option (list byte)) : list cpio_entry :=
  option_list (file_entry name mode <$> data).
Definition init_entries (entry_script seed : option (list byte)) : list cpio_entry :=
  [file_entry "init" 0x81ED (string_bytes init_script)] ++ opt_entry "entry.sh" 0x81ED entry_script ++
  opt_entry "sbin/seed-entropy" 0x81ED seed.

Definition guest_probe (f : gmap string (list byte)) (dir : string) (p : ProbeSpec) : option cpio_entry :=
  name ← (if enabled p then bytecode p else None);
  b ← f !! (dir +:+ "/" +:+ name);
  Some (file_entry ("opt/nova/ebpf/" +:+ name) 0x81A4 b).
Definition ebpf_entries (f : gmap string (list byte)) (dir : string) (agent json : list byte) (ps : list ProbeSpec)
    : list cpio_entry :=
  ((λ n, file_entry n 0x41ED []) <$> guest_dirs) ++ [file_entry "sbin/nova-eye-agent" 0x81ED agent] ++
  omap (guest_probe f dir) ps ++ [file_entry "etc/nova/probes.json" 0x81A4 json].

Lemma inject_opt_injected name mode l data :
  inject_opt name mode (injected l) data = injected (l ++ opt_entry name mode data).
Proof. destruct data; cbn; [by rewrite injected_snoc|by rewrite app_nil_r]. Qed.

Lemma calm_inject_init env path script kp f b :
  f !! path = Some b →
  inject_init_into_cpio env path script kp (calm f) =
    (Ok tt, calm (<[path := b ++ injected (init_entries script (first_present f (seed_entropy_paths env kp)))]> f)).
Proof.
  intros Hp. unfold inject_init_into_cpio, mbind, stm_bind. rewrite calm_first_readable.
  change (inject_file [] _ (string_bytes init_script) _) with
    (injected [file_entry "init" 0x81ED (string_bytes init_script)]).
  rewrite !inject_opt_injected, <- (assoc_L (++)). by apply calm_append.
Qed.

Lemma calm_inject_probes dir l ps f :
  inject_probes dir (injected l) ps (calm f) = (Ok (injected (l ++ omap (guest_probe f dir) ps)), calm f).
Proof.
  revert l. induction ps as [|p ps IH]; intros l; [cbn; by rewrite app_nil_r|]. cbn [inject_probes omap list_omap].
  unfold guest_probe. destruct (if enabled p then bytecode p else None) as [name|]; cbn [mbind option_bind]; [|apply IH].
  destruct (f !! _) as [b|] eqn:E; cbn [mbind option_bind].
  - rewrite (calm_read _ f b) by done. rewrite cons_middle, (assoc_L (++)), <- IH, injected_snoc. done.
  - rewrite (calm_read_none _ f) by done. apply IH.
Qed.

Lemma calm_inject_ebpf to_json path gc sc f b agent :
  f !! path = Some b → f !! agent_path gc = Some agent →
  inject_guest_ebpf to_json path gc sc (calm f) =
    (Ok tt, calm (<[path := b ++ injected (ebpf_entries f (ebpf_dir sc) agent (to_json (sensor_probes sc)) (sensor_probes sc))]> f)).
Proof.
  intros Hp Ha. unfold inject_guest_ebpf, exists_file. cbn [files calm].
  rewrite bool_decide_eq_true_2 by (by eexists). cbn [negb]. unfold mbind, stm_bind.
  rewrite (calm_read _ f agent) by done.
  change (foldl _ [] guest_dirs) with (injected ((λ n, file_entry n 0x41ED []) <$> guest_dirs)).
  change (inject_file (injected ?l) (string_bytes "sbin/nova-eye-agent") agent 0x81ED) with
    (inject_file (injected l) (ce_name (file_entry "sbin/nova-eye-agent" 0x81ED agent))
       (ce_data (file_entry "sbin/nova-eye-agent" 0x81ED agent)) (ce_mode (file_entry "sbin/nova-eye-agent" 0x81ED agent))).
  rewrite <- injected_snoc, calm_inject_probes.
  change (inject_file (injected ?l) (string_bytes "etc/nova/probes.json") ?j 0x81A4) with
    (inject_file (injected l) (ce_name (file_entry "etc/nova/probes.json" 0x81A4 j))
       (ce_data (file_entry "etc/nova/probes.json" 0x81A4 j)) (ce_mode (file_entry "etc/nova/probes.json" 0x81A4 j))).
  rewrite <- injected_snoc, (calm_append _ f b) by done. unfold ebpf_entries. by rewrite <- !(assoc_L (++)).
Qed.

(** *** The archive as a whole *)

Lemma unpacked_unique es name e :
  (∀ e', e' ∈ es → ce_name e' = string_bytes name → e' = e) → e ∈ es → ce_name e = string_bytes name →
  unpacked es name = Some e.
Proof.
  intros Hu. unfold unpacked. revert Hu. induction es as [|x es IH] using rev_ind; [by intros _ []%elem_of_nil|].
  intros Hu Hin Hn. rewrite filter_app, last_app. rewrite filter_cons. case_decide as Hx.
  - cbn. f_equal. apply Hu; [set_solver|done].
  - cbn. apply elem_of_app in Hin as [Hin|Hin]; [|by apply list_elem_of_singleton in Hin as ->].
    apply IH; [|done|done]. intros e' He'. apply Hu. set_solver.
Qed.

(** Names below the directory of the bytecode, and the other injected ones. *)
Definition ebpf_name (n : string) : string := "opt/nova/ebpf/" +:+ n.
Definition own_names : list string :=
  ["init"; "entry.sh"; "sbin/seed-entropy"; "etc/nova"; "opt/nova"; "opt/nova/ebpf"; "sbin/nova-eye-agent";
   "etc/nova/probes.json"].

Lemma own_names_plain : Forall plain_name own_names.
Proof. apply (bool_decide_unpack _). by vm_compute. Qed.
Lemma own_plain name : name ∈ own_names → plain_name name.
Proof. intros Hn. pose proof own_names_plain as Hp. rewrite Forall_forall in Hp. by apply Hp. Qed.
Ltac own := apply own_plain; apply (bool_decide_unpack _); by vm_compute.

Lemma init_script_fits : fits_archive (string_bytes init_script).
Proof. by vm_compute. Qed.
Lemma nil_fits : fits_archive [].
Proof. by vm_compute. Qed.

Section Found.
Context (f : gmap string (list byte)) (sc : SensorConfig) (agent json : list byte).

Lemma guest_probe_inv p e :
  guest_probe f (ebpf_dir sc) p = Some e →
  ∃ n b, enabled p = true ∧ bytecode p = Some n ∧ f !! (ebpf_dir sc +:+ "/" +:+ n) = Some b ∧
    e = file_entry (ebpf_name n) 0x81A4 b.
Proof.
  unfold guest_probe. destruct (enabled p); [|done]. destruct (bytecode p) as [n|]; [|done]. cbn.
  destruct (f !! _) as [b|] eqn:E; [|done]. cbn. intros [= <-]. by exists n, b.
Qed.

(** The files one finds among the added entries. *)
Lemma unpacked_probes name :
  (∀ n, name ≠ ebpf_name n) → unpacked (omap (guest_probe f (ebpf_dir sc)) (sensor_probes sc)) name = None.
Proof.
  intros Hn. apply unpacked_none. intros e (p & Hp & (n & b & _ & _ & _ & ->)%guest_probe_inv)%list_elem_of_omap.
  intros E%string_bytes_inj. by apply (Hn n).
Qed.

Lemma unpacked_opt name mode data nm :
  unpacked (opt_entry name mode data) nm = if decide (name = nm) then file_entry name mode <$> data else None.
Proof.
  destruct data as [b|]; cbn; [|by case_decide]. rewrite unpacked_cons. cbn [unpacked]. 
  change (unpacked [] nm) with (@None cpio_entry). cbv iota. cbn [ce_name file_entry].
  destruct (decide (name = nm)) as [->|Hne]; [by rewrite decide_True|].
  rewrite decide_False; [done|]. by intros E%string_bytes_inj.
Qed.

Lemma unpacked_single name mode b nm :
  unpacked [file_entry name mode b] nm = if decide (name = nm) then Some (file_entry name mode b) else None.
Proof. apply (unpacked_opt name mode (Some b)). Qed.

Lemma unpacked_ebpf nm :
  unpacked (ebpf_entries f (ebpf_dir sc) agent json (sensor_probes sc)) nm =
  if decide (nm = "etc/nova/probes.json") then Some (file_entry nm 0x81A4 json) else
  match unpacked (omap (guest_probe f (ebpf_dir sc)) (sensor_probes sc)) nm with
  | Some e => Some e
  | None =>
      if decide (nm = "sbin/nova-eye-agent") then Some (file_entry nm 0x81ED agent) else
      if decide (nm ∈ guest_dirs) then Some (file_entry nm 0x41ED []) else None
  end.
Proof.
  unfold ebpf_entries. rewrite !unpacked_app, unpacked_single.
  destruct (decide (nm = "etc/nova/probes.json")) as [->|H1]; [done|]. rewrite decide_False by done.
  destruct (unpacked (omap _ _) nm); [done|]. rewrite unpacked_single.
  destruct (decide (nm = "sbin/nova-eye-agent")) as [->|H2]; [done|]. rewrite decide_False by done.
  change ((λ n, file_entry n 0x41ED []) <$> guest_dirs) with
    ([file_entry "etc/nova" 0x41ED []] ++ [file_entry "opt/nova" 0x41ED []] ++ [file_entry "opt/nova/ebpf" 0x41ED []]).
  rewrite !unpacked_app, !unpacked_single. unfold guest_dirs.
  destruct (decide (nm ∈ _)) as [Hin|Hout].
  - rewrite !elem_of_cons in Hin. destruct Hin as [->|[->|[->|Hn]]]; [done..|by apply elem_of_nil in Hn].
  - rewrite !decide_False; [done|set_solver..].
Qed.

Lemma unpacked_probe p n b :
  p ∈ sensor_probes sc → enabled p = true → bytecode p = Some n →
  f !! (ebpf_dir sc +:+ "/" +:+ n) = Some b →
  unpacked (ebpf_entries f (ebpf_dir sc) agent json (sensor_probes sc)) (ebpf_name n) =
    Some (file_entry (ebpf_name n) 0x81A4 b).
Proof.
  intros Hp He Hb Hf. rewrite unpacked_ebpf. rewrite decide_False by done.
  rewrite (unpacked_unique _ _ (file_entry (ebpf_name n) 0x81A4 b)); [done| |  |done].
  - intros e (q & Hq & (n' & b' & _ & _ & Hf' & ->)%guest_probe_inv)%list_elem_of_omap E.
    apply string_bytes_inj in E. apply (inj (String.append "opt/nova/ebpf/")) in E as ->.
    by rewrite Hf in Hf'; simplify_eq.
  - apply list_elem_of_omap. exists p. split; [done|]. unfold guest_probe. rewrite He, Hb. cbn. by rewrite Hf.
Qed.

Lemma unpacked_init script seed nm :
  unpacked (init_entries script seed) nm =
  if decide (nm = "init") then Some (file_entry nm 0x81ED (string_bytes init_script)) else
  if decide (nm = "entry.sh") then file_entry nm 0x81ED <$> script else
  if decide (nm = "sbin/seed-entropy") then file_entry nm 0x81ED <$> seed else None.
Proof.
  unfold init_entries. rewrite !unpacked_app, unpacked_single, !unpacked_opt.
  destruct (decide (nm = "init")) as [->|H1]; [done|].
  destruct (decide (nm = "entry.sh")) as [->|H2].
  { rewrite (decide_False (P:="sbin/seed-entropy" = _)) by done. rewrite decide_True by done.
    by destruct script. }
  destruct (decide (nm = "sbin/seed-entropy")) as [->|H3].
  { rewrite decide_True by done. by destruct seed. }
  by rewrite !decide_False.
Qed.
End Found.

Section Archive.
Context (f : gmap string (list byte)) (sc : SensorConfig) (agent json : list byte)
  (script seed : option (list byte)).
Context (agent_fits : fits_archive agent) (json_fits : fits_archive json)
  (script_fits : ∀ b, script = Some b → fits_archive b) (seed_fits : ∀ b, seed = Some b → fits_archive b).
Context (probes_ok : ∀ p n b, p ∈ sensor_probes sc → bytecode p = Some n →
  f !! (ebpf_dir sc +:+ "/" +:+ n) = Some b → plain_name (ebpf_name n) ∧ fits_archive b).

Lemma opt_entry_ok name mode data :
  plain_name name → fits 32 mode → (∀ b, data = Some b → fits_archive b) →
  Forall cpio_entry_ok (opt_entry name mode data).
Proof. intros Hn Hm Hd. destruct data as [b|]; cbn; constructor; [|done]. apply plain_entry_ok; auto. Qed.

Lemma init_entries_ok : Forall cpio_entry_ok (init_entries script seed).
Proof.
  unfold init_entries. repeat apply Forall_app_2; [apply Forall_singleton| |].
  - apply plain_entry_ok; [own|done|apply init_script_fits].
  - apply opt_entry_ok; [own|done|done].
  - apply opt_entry_ok; [own|done|done].
Qed.

Lemma ebpf_entries_ok : Forall cpio_entry_ok (ebpf_entries f (ebpf_dir sc) agent json (sensor_probes sc)).
Proof.
  unfold ebpf_entries. repeat apply Forall_app_2.
  - repeat (apply Forall_cons; split; [apply plain_entry_ok; [own|done|apply nil_fits]|]). constructor.
  - apply Forall_singleton. apply plain_entry_ok; [own|done|done].
  - apply Forall_forall. intros e (p & Hp & (n & b & _ & Hb & Hf & ->)%guest_probe_inv)%list_elem_of_omap.
    destruct (probes_ok p n b) as [Hn Hfit]; try done. apply plain_entry_ok; done.
  - apply Forall_singleton. apply plain_entry_ok; [own|done|done].
Qed.

End Archive.


Definition demo_probe : ProbeSpec := {|
  hook_type := "kprobe"; target := "vfs_open"; bytecode := Some "file.o"; binary := None; enabled := true |}.
Definition demo_sensors : SensorConfig := {|
  events_log := "/e"; ebpf_dir := "/bpf";
  guest := {| gs_enabled := true; agent_path := "/agent"; event_port := 9876 |}; sensor_probes := [demo_probe] |}.
Definition demo_base : list byte := inject_file [] (string_bytes "entry.sh") [x00] 0x81ED.
Definition demo_host : gmap string (list byte) :=
  list_to_map [("/i/a.cpio", demo_base); ("/agent", [x00; x00]); ("/bpf/file.o", [x00])].


(** The seeder is injected without an entry for its directory: in an image
    that has no [/sbin] the kernel cannot create it. *)
Example seeder_without_directory :
  unpacked (init_entries None (Some [x00])) "sbin" = None ∧
  unpacked (init_entries None (Some [x00])) "sbin/seed-entropy" = Some (file_entry "sbin/seed-entropy" 0x81ED [x00]).
Proof. vm_compute. auto. Qed.

(** ** The configuration text is the configuration

    TOML documents of the shape the daemon writes: a root table, then named
    ones, of integers and basic strings. *)

Inductive toml_value : Type := TInt (z : Z) | TStr (s : string).
Record toml_table : Type := { table_name : option string; table_keys : list (string * toml_value) }.

Definition render_value (v : toml_value) : string := match v with TInt z => pretty z | TStr s => quoted s end.
Definition render_key (kv : string * toml_value) : string := kv.1 +:+ " = " +:+ render_value kv.2.
Definition table_lines (t : toml_table) : list string :=
  match table_name t with Some n => [""; "[" +:+ n +:+ "]"] | None => [] end ++ (render_key <$> table_keys t).
Definition unlines (ls : list string) : string := foldr (λ l s, l +:+ newline +:+ s) "" ls.
Definition render (doc : list toml_table) : string := unlines (doc ≫= table_lines).

(** What a document says of a VM, to a reader that knows these keys. *)
Definition get_table (n : option string) (doc : list toml_table) : option toml_table :=
  List.find (λ t, bool_decide (table_name t = n)) doc.
Definition get_key (k : string) (t : toml_table) : option toml_value :=
  snd <$> List.find (λ kv, String.eqb kv.1 k) (table_keys t).
Definition get_int (k : string) (t : toml_table) : option Z :=
  v ← get_key k t; match v with TInt z => Some z | _ => None end.
Definition get_str (k : string) (t : toml_table) : option string :=
  v ← get_key k t; match v with TStr s => Some s | _ => None end.

Definition vm_toml_of (doc : list toml_table) : option VmToml :=
  root ← get_table None doc;
  kernel ← get_table (Some "kernel") doc;
  path ← get_str "path" kernel;
  Some {| vt_vcpus := get_int "vcpus" root; vt_memory_mib := get_int "memory_mib" root;
          vt_kernel := {| kt_path := path; kt_cmdline := get_str "cmdline" kernel;
                          kt_initrd := get_str "initrd" kernel; kt_boot_method := get_str "boot_method" kernel |};
          vt_block := None;
          vt_network := (λ t, {| nt_tap := get_str "tap" t; nt_mac := get_str "mac" t |})
            <$> get_table (Some "network") doc;
          vt_console := None; vt_vsock := None |}.

(** Strings a basic string holds without escapes, bare keys, and documents of
    which each table and key occurs once and has the type it is read at. *)
Definition basic_char (b : Z) : bool := (32 <=? b) && negb (b =? 34) && negb (b =? 92) && negb (b =? 127).
Definition basic (s : string) : Prop := all_bytes basic_char s = true.
Definition root_keys : list string := ["vcpus"; "memory_mib"].
Definition kernel_keys : list string := ["path"; "cmdline"; "initrd"; "boot_method"].
Definition network_keys : list string := ["tap"; "mac"].

Definition key_ok (keys : list string) (int : bool) (kv : string * toml_value) : Prop :=
  kv.1 ∈ keys ∧ match kv.2 with TInt z => int = true ∧ fits 32 z | TStr s => int = false ∧ basic s end.
Definition table_ok (n : option string) (t : toml_table) : Prop :=
  table_name t = n ∧ NoDup (table_keys t).*1 ∧
  Forall (key_ok match n with None => root_keys | Some n => if (n =? "kernel")%string then kernel_keys else network_keys end
            (bool_decide (n = None))) (table_keys t).
Definition doc_ok (doc : list toml_table) : Prop :=
  ∃ root kernel nets, doc = root :: kernel :: nets ∧ table_ok None root ∧ table_ok (Some "kernel") kernel ∧
    (nets = [] ∨ ∃ net, nets = [net] ∧ table_ok (Some "network") net).

(** The toml crate reads such documents as TOML says. *)
Class TomlLaw (parse : string → string + VmToml) : Prop :=
  toml_read : ∀ doc t, doc_ok doc → vm_toml_of doc = Some t → parse (render doc) = inr t.

Definition vm_doc (kernel_path : string) (initrd_path : option string) (memory_mib vcpus : Z)
    (cmdline : string) (tap_device : option string) : list toml_table :=
  [{| table_name := None; table_keys := [("vcpus", TInt vcpus); ("memory_mib", TInt memory_mib)] |};
   {| table_name := Some "kernel"; table_keys :=
        [("path", TStr kernel_path); ("cmdline", TStr (effective_cmdline initrd_path cmdline));
         ("boot_method", TStr "elf")] ++ option_list ((λ i, ("initrd", TStr i)) <$> initrd_path) |}] ++
  option_list ((λ tap, {| table_name := Some "network";
                          table_keys := [("tap", TStr tap); ("mac", TStr "AA:BB:CC:DD:EE:01")] |}) <$> tap_device).

Lemma build_vm_config_renders kernel_path initrd_path memory_mib vcpus cmdline tap_device :
  build_vm_config kernel_path initrd_path memory_mib vcpus cmdline tap_device =
  render (vm_doc kernel_path initrd_path memory_mib vcpus cmdline tap_device).
Proof.
  unfold build_vm_config, quoted_line, render, vm_doc.
  destruct initrd_path as [i|], tap_device as [tap|];
    cbn -[String.append pretty effective_cmdline quote newline];
    unfold render_key, render_value, quoted; cbn [fst snd]; rewrite ?append_assoc; reflexivity.
Qed.

Lemma basic_app a b : basic a → basic b → basic (a +:+ b).
Proof. unfold basic. rewrite all_bytes_app. by intros -> ->. Qed.

Lemma vm_doc_ok kernel_path initrd_path memory_mib vcpus cmdline tap_device :
  basic kernel_path → (∀ i, initrd_path = Some i → basic i) → fits 32 memory_mib → fits 32 vcpus →
  basic cmdline → (∀ tap, tap_device = Some tap → basic tap) →
  doc_ok (vm_doc kernel_path initrd_path memory_mib vcpus cmdline tap_device).
Proof.
  intros Hk Hi Hm Hv Hc Ht.
  assert (He : basic (effective_cmdline initrd_path cmdline)).
  { unfold effective_cmdline. destruct (_ && _); [|done]. by apply basic_app. }
  assert (Hin : ∀ k keys int v, k ∈ keys → match v with TInt z => int = true ∧ fits 32 z | TStr s => int = false ∧ basic s end →
    key_ok keys int (k, v)) by (by intros).
  unfold vm_doc. eexists _, _, (option_list _). split; [reflexivity|]. split; [|split].
  - split; [done|]. split; [apply (bool_decide_unpack _); reflexivity|].
    repeat apply Forall_cons_2; [apply Hin; [set_solver|done]..|apply Forall_nil_2].
  - split; [done|]. split; [destruct initrd_path; apply (bool_decide_unpack _); reflexivity|].
    apply Forall_app_2; [repeat apply Forall_cons_2; [apply Hin; [set_solver|done]..|apply Forall_nil_2]|].
    destruct initrd_path as [i|]; [|apply Forall_nil_2]. apply Forall_cons_2; [|apply Forall_nil_2].
    apply Hin; [set_solver|]. split; [done|by apply Hi].
  - destruct tap_device as [tap|]; [right|by left]. eexists. split; [reflexivity|].
    split; [done|]. split; [apply (bool_decide_unpack _); reflexivity|].
    repeat apply Forall_cons_2; [apply Hin; [set_solver|]..|apply Forall_nil_2]; (split; [done|]); [by apply Ht|done].
Qed.

(** [VmConfig::from_toml]. *)
Definition vmm_from_toml (parse : string → string + VmToml) (text : string) : outcome string VmConfig :=
  VmConfig_of_toml <$> of_sum (parse text).

(** The text the daemon writes for a VM is the configuration it means,
    when the paths, the command line and the device name have no characters
    that TOML escapes: the kernel is booted as an ELF image with these vCPUs
    and this memory, the initrd and the network are those given, and a guest
    with an initrd is told to run [/init] unless its command line names one. *)
Theorem vm_config_parses parse `{!TomlLaw parse} kernel_path initrd_path memory_mib vcpus cmdline tap_device :
  basic kernel_path → (∀ i, initrd_path = Some i → basic i) → fits 32 memory_mib → fits 32 vcpus →
  basic cmdline → (∀ tap, tap_device = Some tap → basic tap) →
  ∃ cl, vmm_from_toml parse (build_vm_config kernel_path initrd_path memory_mib vcpus cmdline tap_device) =
    Ok {| cfg_vcpus := vcpus; cfg_memory_mib := memory_mib;
          cfg_kernel := {| kc_path := kernel_path; kc_cmdline := cl; kc_initrd := initrd_path; kc_boot_method := "elf" |};
          cfg_block := [];
          cfg_network := (λ tap, {| nc_tap := tap; nc_mac := Some "AA:BB:CC:DD:EE:01" |}) <$> tap_device;
          cfg_console := ConsoleConfig_default; cfg_vsock := None |} ∧
    String.prefix cmdline cl = true ∧ (is_Some initrd_path → str_contains cl "rdinit=" = true).
Proof.
  intros Hk Hi Hm Hv Hc Ht. exists (effective_cmdline initrd_path cmdline). split.
  - unfold vmm_from_toml. rewrite build_vm_config_renders. erewrite toml_read; [|by apply vm_doc_ok|reflexivity].
    by destruct initrd_path, tap_device.
  - unfold effective_cmdline.
    assert (Hp : ∀ a b, String.prefix a (a +:+ b) = true).
    { induction a as [|c a IH]; intros b; [by destruct b|]. rewrite sapp_cons. cbn. by destruct (Ascii.ascii_dec c c). }
    assert (Hr : ∀ a, String.prefix a a = true).
    { induction a as [|c a IH]; [done|]. cbn. by destruct (Ascii.ascii_dec c c). }
    destruct (bool_decide (is_Some initrd_path)) eqn:E; cbn [andb].
    + destruct (str_contains cmdline "rdinit=") eqn:E2; cbn [negb].
      * split; [|done]. apply Hr.
      * split; [apply Hp|]. intros _. clear. induction cmdline as [|c s IH]; [done|].
        rewrite sapp_cons. cbn [str_contains]. by rewrite IH, orb_true_r.
    + apply bool_decide_eq_false_1 in E. split; [|done]. apply Hr.
Qed.

(** *** A reader of such documents *)

Definition decimal (s : string) : Z := (digits 10 0 s).1.
Definition dquote_char : Ascii.ascii := Ascii.ascii_of_nat 34.
Definition newline_char : Ascii.ascii := Ascii.ascii_of_nat 10.

Definition read_value (v : string) : option toml_value :=
  match strip_prefix quote v with
  | Some r => '(s, _) ← split_first quote r; Some (TStr s)
  | None => Some (TInt (decimal v))
  end.

Fixpoint read_lines (cur : toml_table) (ls : list string) : option (list toml_table) :=
  match ls with
  | [] => Some [cur]
  | l :: ls =>
      if String.eqb l "" then read_lines cur ls else
      match strip_prefix "[" l with
      | Some r =>
          '(n, _) ← split_first "]" r;
          tables ← read_lines {| table_name := Some n; table_keys := [] |} ls;
          Some (cur :: tables)
      | None =>
          '(k, v) ← split_first " = " l;
          v ← read_value v;
          read_lines {| table_name := table_name cur; table_keys := table_keys cur ++ [(k, v)] |} ls
      end
  end.

Definition read_doc (text : string) : string + VmToml :=
  match read_lines {| table_name := None; table_keys := [] |} (split_on newline_char text) ≫= vm_toml_of with
  | Some t => inr t
  | None => inl "not a VM configuration"
  end.

Lemma digits_char (x : N) acc s : (x < 10)%N →
  digits 10 acc (String (pretty_N_char x) s) = digits 10 (acc * 10 + Z.of_N x) s ∧
  Ascii.eqb (pretty_N_char x) newline_char = false ∧ Ascii.eqb (pretty_N_char x) dquote_char = false.
Proof.
  intros Hx. assert (Hc : x ∈ [0; 1; 2; 3; 4; 5; 6; 7; 8; 9]%N) by (rewrite !elem_of_cons; lia).
  repeat (apply elem_of_cons in Hc as [->|Hc]; [done|]). by apply elem_of_nil in Hc.
Qed.

Lemma digits_go (x : N) s :
  digits 10 0 (pretty_N_go x s) = digits 10 (Z.of_N x) s ∧
  (free newline_char s = true → free newline_char (pretty_N_go x s) = true).
Proof.
  revert s. induction (N.lt_wf_0 x) as [x _ IH]. intros s. destruct (decide (0 < x)%N) as [Hx|Hx].
  - rewrite pretty_N_go_step by done. destruct (IH (x `div` 10)%N) with (s := String (pretty_N_char (x `mod` 10)) s) as [-> Hf];
      [by apply N.div_lt|]. destruct (digits_char (x `mod` 10) (Z.of_N (x `div` 10)) s) as (-> & Hn & _);
      [by apply N.mod_lt|]. split.
    + f_equal. rewrite (N.div_mod x 10) at 3 by done. lia.
    + intros Hs. apply Hf. cbn. by rewrite Hn.
  - assert (x = 0)%N as -> by lia. by rewrite pretty_N_go_0.
Qed.

Lemma go_head (x : N) s : (0 < x)%N → ∃ c s', pretty_N_go x s = String c s' ∧ Ascii.eqb c dquote_char = false.
Proof.
  revert s. induction (N.lt_wf_0 x) as [x _ IH]. intros s Hx. rewrite pretty_N_go_step by done.
  destruct (N.eq_0_gt_0_cases (x `div` 10)) as [->|Hd]; [|apply IH; [by apply N.div_lt|done]].
  - rewrite pretty_N_go_0. eexists _, _. split; [done|].
    by apply (digits_char (x `mod` 10) 0 ""), N.mod_lt.
Qed.

Lemma pretty_int z : 0 ≤ z → decimal (pretty z) = z ∧ free newline_char (pretty z) = true ∧ read_value (pretty z) = Some (TInt z).
Proof.
  intros Hz. assert (Hd : decimal (pretty z) = z ∧ free newline_char (pretty z) = true ∧ strip_prefix quote (pretty z) = None).
  2: { destruct Hd as (Hd & Hf & Hs). split_and!; [done..|]. unfold read_value. by rewrite Hs, Hd. }
  destruct z as [|p|p]; [done| |lia]. change (pretty (Z.pos p)) with (pretty (N.pos p)).
  unfold pretty, pretty_N. rewrite decide_False by done. destruct (digits_go (N.pos p) "") as [Hd Hf].
  unfold decimal. rewrite Hd. split_and!; [done|by apply Hf|].
  destruct (go_head (N.pos p) "") as (c & s' & -> & Hc); [lia|]. unfold quote. cbn [strip_prefix].
  rewrite Ascii.eqb_sym. unfold dquote_char in Hc. by rewrite Hc.
Qed.

Lemma all_bytes_free P c s :
  P (b2z (Ascii.byte_of_ascii c)) = false → all_bytes P s = true → free c s = true.
Proof.
  intros Hc. induction s as [|x s IH]; [done|]. rewrite all_bytes_cons. intros [Hx Hs]%andb_prop. cbn [free].
  rewrite IH, andb_true_r by done. destruct (Ascii.eqb_spec x c) as [->|]; [|done]. by rewrite Hc in Hx.
Qed.

Lemma split_on_unlines ls :
  Forall (λ l, free newline_char l = true) ls → split_on newline_char (unlines ls) = ls ++ [""].
Proof.
  induction 1 as [|l ls Hl _ IH]; [done|]. cbn [unlines foldr]. fold (unlines ls).
  change (newline +:+ unlines ls) with (String newline_char (unlines ls)).
  cbn [app]. rewrite <- IH. clear IH. induction l as [|c l IHl].
  - rewrite sapp_nil. cbn [split_on]. by rewrite decide_True.
  - cbn [free] in Hl. apply andb_prop in Hl as [Hc Hl]. rewrite sapp_cons. cbn [split_on]. rewrite IHl by done.
    rewrite decide_False; [done|]. intros ->. by rewrite Ascii.eqb_refl in Hc.
Qed.

Definition value_ok (v : toml_value) : Prop := match v with TInt z => 0 ≤ z | TStr s => basic s end.

Lemma read_rendered v : value_ok v →
  read_value (render_value v) = Some v ∧ free newline_char (render_value v) = true.
Proof.
  destruct v as [z|s]; cbn [value_ok render_value].
  - intros Hz. by destruct (pretty_int z Hz) as (_ & ? & ?).
  - intros Hs. unfold quoted. split.
    + unfold read_value. change (strip_prefix quote (quote +:+ s +:+ quote)) with (Some (s +:+ quote)). cbv iota beta.
      change quote with (String dquote_char ""). rewrite split_first_free; [done|].
      by apply (all_bytes_free basic_char).
    + rewrite !free_app. assert (free newline_char s = true) as -> by by apply (all_bytes_free basic_char). done.
Qed.

Definition all_keys : list string := root_keys ++ kernel_keys ++ network_keys.
Definition line_ok (kv : string * toml_value) : Prop := kv.1 ∈ all_keys ∧ value_ok kv.2.

Lemma key_line kv : line_ok kv →
  String.eqb (render_key kv) "" = false ∧ strip_prefix "[" (render_key kv) = None ∧
  split_first " = " (render_key kv) = Some (kv.1, render_value kv.2) ∧ free newline_char (render_key kv) = true.
Proof.
  destruct kv as [k v]. intros [Hk [_ Hv]%read_rendered]. unfold render_key. cbn [fst snd] in *.
  rewrite !free_app, Hv. unfold all_keys, root_keys, kernel_keys, network_keys in Hk. cbn [app] in Hk.
  repeat (apply elem_of_cons in Hk as [->|Hk]; [by repeat split|]). by apply elem_of_nil in Hk.
Qed.

Lemma read_keys cur ks ls : Forall line_ok ks →
  read_lines cur ((render_key <$> ks) ++ ls) =
  read_lines {| table_name := table_name cur; table_keys := table_keys cur ++ ks |} ls.
Proof.
  intros Hks. revert cur. induction Hks as [|[k v] ks Hk _ IH]; intros cur.
  - cbn [fmap list_fmap app]. rewrite app_nil_r. by destruct cur.
  - rewrite fmap_cons. cbn [app read_lines]. destruct (key_line _ Hk) as (H1 & H2 & H3 & _).
    rewrite H1, H2, H3. cbn [mbind option_bind fst snd]. destruct Hk as [_ Hv]. cbn [snd] in Hv.
    rewrite (proj1 (read_rendered v Hv)). cbn [mbind option_bind]. rewrite IH. cbn [table_name table_keys].
    by rewrite <- (assoc_L (++)).
Qed.

Lemma read_table cur n ks ls : Forall line_ok ks → n = "kernel" ∨ n = "network" →
  read_lines cur (table_lines {| table_name := Some n; table_keys := ks |} ++ ls) =
  cons cur <$> read_lines {| table_name := Some n; table_keys := ks |} ls.
Proof.
  intros Hks Hn. unfold table_lines. cbn [table_name table_keys]. rewrite <- (assoc_L (++)).
  assert (Hhd : read_lines cur (["" ; "[" +:+ n +:+ "]"] ++ (render_key <$> ks) ++ ls) =
    cons cur <$> read_lines {| table_name := Some n; table_keys := [] |} ((render_key <$> ks) ++ ls)).
  { destruct Hn as [->| ->]; cbn; by destruct (read_lines _ _). }
  rewrite Hhd, read_keys by done. done.
Qed.

Lemma table_lines_ok n t : table_ok n t → n ∈ [None; Some "kernel"; Some "network"] →
  Forall line_ok (table_keys t) ∧ Forall (λ l, free newline_char l = true) (table_lines t).
Proof.
  intros (Hn & _ & Hk) Hin.
  assert (Hl : Forall line_ok (table_keys t)).
  { eapply Forall_impl; [exact Hk|]. intros [k v] [Hkk Hv]. cbn [fst snd] in *. split.
    - cbn [fst]. unfold all_keys. destruct n as [n|]; [destruct (n =? "kernel")%string|]; set_solver.
    - destruct v; cbn in *; [unfold fits in Hv; lia|apply Hv]. }
  split; [done|]. unfold table_lines. apply Forall_app_2.
  - rewrite Hn. destruct n as [n|]; [|constructor]. constructor; [done|]. constructor; [|constructor].
    rewrite !elem_of_cons in Hin. destruct Hin as [|[[= ->]|[[= ->]|[]%elem_of_nil]]]; done.
  - apply Forall_fmap. eapply Forall_impl; [exact Hl|]. intros kv Hkv. cbn. by destruct (key_line kv Hkv) as (_&_&_&?).
Qed.

Lemma read_doc_law : TomlLaw read_doc.
Proof.
  intros doc t (root & kernel & nets & -> & Hroot & Hkernel & Hnets) Ht.
  destruct (table_lines_ok _ _ Hroot ltac:(set_solver)) as [R1 R2].
  destruct (table_lines_ok _ _ Hkernel ltac:(set_solver)) as [K1 K2].
  assert (Hlines : read_lines {| table_name := None; table_keys := [] |}
    (split_on newline_char (render (root :: kernel :: nets))) = Some (root :: kernel :: nets)); [|unfold read_doc; rewrite Hlines; cbn [mbind option_bind]; by rewrite Ht].
  destruct Hroot as [Hrn _], Hkernel as [Hkn _]. destruct root as [rn rk], kernel as [kn kk].
  cbn [table_name table_keys] in *. subst rn kn. unfold render.
  assert (Hone : ∀ ls, read_lines {| table_name := None; table_keys := [] |}
    (table_lines {| table_name := None; table_keys := rk |} ++ ls) = read_lines {| table_name := None; table_keys := rk |} ls).
  { intros ls. unfold table_lines. cbn [table_name table_keys app]. by rewrite read_keys. }
  destruct Hnets as [->|(net & -> & Hnet)].
  - rewrite split_on_unlines by (cbn [mbind list_bind]; rewrite app_nil_r; by apply Forall_app_2).
    cbn [mbind list_bind]. rewrite app_nil_r, <- (assoc_L (++)), Hone, read_table by (done || by left).
    reflexivity.
  - destruct (table_lines_ok _ _ Hnet ltac:(set_solver)) as [N1 N2]. destruct Hnet as [Hnn _].
    destruct net as [nn nk]. cbn [table_name table_keys] in *. subst nn.
    rewrite split_on_unlines by (cbn [mbind list_bind]; rewrite app_nil_r; apply Forall_app_2; [done|by apply Forall_app_2]).
    cbn [mbind list_bind]. rewrite app_nil_r, <- !(assoc_L (++)), Hone, read_table by (done || by left).
    rewrite read_table by (done || by right). reflexivity.
Qed.

Lemma vm_config_parses_witness :
  ∃ cl, vmm_from_toml read_doc (build_vm_config "/boot/vmlinux" (Some "/i/a.cpio") 512 2 "console=ttyS0" (Some "nova-tap0")) =
    Ok {| cfg_vcpus := 2; cfg_memory_mib := 512;
          cfg_kernel := {| kc_path := "/boot/vmlinux"; kc_cmdline := cl; kc_initrd := Some "/i/a.cpio"; kc_boot_method := "elf" |};
          cfg_block := []; cfg_network := Some {| nc_tap := "nova-tap0"; nc_mac := Some "AA:BB:CC:DD:EE:01" |};
          cfg_console := ConsoleConfig_default; cfg_vsock := None |} ∧ str_contains cl "rdinit=" = true.
Proof.
  destruct (vm_config_parses read_doc (TomlLaw0:=read_doc_law) "/boot/vmlinux" (Some "/i/a.cpio") 512 2 "console=ttyS0" (Some "nova-tap0"))
    as (cl & Hp & _ & Hr); [done|by intros i [= <-]|done|done|done|by intros tap [= <-]|].
  exists cl. split; [exact Hp|]. apply Hr. by eexists.
Defined.

(** A double quote in a command line ends the string early: what follows is
    read as TOML, here another kernel's initrd. *)
Definition quoting_cmdline : string :=
  "quiet" +:+ quote +:+ newline +:+ "initrd = " +:+ quote +:+ "/other.cpio".
Example cmdline_is_not_escaped :
  match read_doc (build_vm_config "/k" None 256 1 quoting_cmdline None) with
  | inr t => kt_initrd (vt_kernel t) = Some "/other.cpio" ∧ kt_cmdline (vt_kernel t) = Some "quiet"
  | inl _ => False
  end.
Proof. vm_compute. auto. Qed.
