(* ===== verification/Config.v ===== *)
(** * Configuration files (nova-api/src/config.rs)

    What serde's derived deserialisers make of the daemon's TOML document:
    keys that are absent take the defaults of their attributes, unknown keys
    are skipped, and a wrong type, a number out of range or a missing key
    without a default refuses the whole file.  Parsing the text is the toml
    crate's. *)

From stdpp Require Import strings.
From S2P Require Import Prelude Pool Wasm Sandbox Policy Store Oci Initrd Extract Caches Agent Eye Probes Kvm Builder Registry GuestImage.
#[local] Open Scope Z_scope.

(** ** TOML documents *)

Inductive toml : Type :=
| TvString (s : string)
| TvInteger (z : Z)
| TvBool (b : bool)
| TvArray (l : list toml)
| TvTable (t : list (string * toml))
| TvOther.
Definition toml_doc : Type := list (string * toml).

Fixpoint get (k : string) (t : toml_doc) : option toml :=
  match t with
  | [] => None
  | (k', v) :: t => if String.eqb k k' then Some v else get k t
  end.

(** ** Deserialisers *)

Class Deserialize (A : Type) : Type := deserialize : toml → option A.

#[export] Instance de_string : Deserialize string := λ v, match v with TvString s => Some s | _ => None end.
#[export] Instance de_bool : Deserialize bool := λ v, match v with TvBool b => Some b | _ => None end.
#[export] Instance de_list `{Deserialize A} : Deserialize (list A) := λ v,
  match v with TvArray l => mapM deserialize l | _ => None end.
(** [u16] and [u32]. *)
Definition de_uint (w : Z) : Deserialize Z := λ v,
  match v with TvInteger z => if (0 <=? z) && (z <? 2 ^ w) then Some z else None | _ => None end.
Definition de_struct {A} (f : toml_doc → option A) : Deserialize A := λ v,
  match v with TvTable t => f t | _ => None end.

(** A field without a default, of type [Option], and with one. *)
Definition required `{Deserialize A} (k : string) (t : toml_doc) : option A := get k t ≫= deserialize.
Definition optional `{Deserialize A} (k : string) (t : toml_doc) : option (option A) :=
  match get k t with Some v => Some <$> deserialize v | None => Some None end.
Definition or_default `{Deserialize A} (k : string) (d : A) (t : toml_doc) : option A :=
  match get k t with Some v => deserialize v | None => Some d end.

(** ** The daemon's configuration *)

#[export] Instance ProbeSpec_de : Deserialize ProbeSpec := de_struct (λ t,
  hook_type ← required "hook_type" t;
  target ← required "target" t;
  bytecode ← optional "bytecode" t;
  binary ← optional "binary" t;
  enabled ← or_default "enabled" true t;
  Some {| hook_type := hook_type; target := target; bytecode := bytecode; binary := binary; enabled := enabled |}).

#[export] Instance EnforcementAction_de : Deserialize EnforcementAction := λ v,
  match v with
  | TvString s =>
      if String.eqb s "Allow" then Some Allow else if String.eqb s "Deny" then Some Deny else
      if String.eqb s "Alert" then Some Alert else if String.eqb s "Kill" then Some Kill else None
  | _ => None
  end.

#[export] Instance EnforcementRule_de : Deserialize EnforcementRule := de_struct (λ t,
  name ← required "name" t;
  event_type ← required "event_type" t;
  action ← required "action" t;
  enabled ← required "enabled" t;
  Some {| rule_name := name; Policy.event_type := event_type; Policy.action := action; Policy.enabled := enabled |}).

#[export] Instance GuestSensorConfig_de : Deserialize GuestSensorConfig := de_struct (λ t,
  enabled ← or_default "enabled" false t;
  agent_path ← or_default "agent_path" default_agent_path t;
  event_port ← or_default (H:=de_uint 16) "event_port" default_event_port t;
  Some {| gs_enabled := enabled; agent_path := agent_path; event_port := event_port |}).

#[export] Instance SensorConfig_de : Deserialize SensorConfig := de_struct (λ t,
  events_log ← or_default "events_log" default_events_log t;
  ebpf_dir ← or_default "ebpf_dir" default_ebpf_dir t;
  guest ← or_default "guest" GuestSensorConfig_default t;
  probes ← or_default "probes" [] t;
  Some {| events_log := events_log; ebpf_dir := ebpf_dir; guest := guest; sensor_probes := probes |}).

Definition default_max_vcpus : Z := 8.
Definition default_max_memory : Z := 8192.
Definition default_max_sandboxes : Z := 100.
Definition default_bundle_dir : string := "/var/lib/nova/policy/bundles".
Definition default_ruleset : string := "default".

#[export] Instance PolicyConfig_de : Deserialize PolicyConfig := de_struct (λ t,
  admission ← or_default "admission_enabled" true t;
  enforcement ← or_default "enforcement_enabled" false t;
  max_vcpus ← or_default (H:=de_uint 32) "max_vcpus" default_max_vcpus t;
  max_memory ← or_default (H:=de_uint 32) "max_memory_mib" default_max_memory t;
  max_sandboxes ← or_default (H:=de_uint 32) "max_sandboxes" default_max_sandboxes t;
  images ← or_default "allowed_images" [] t;
  dir ← or_default "bundle_dir" default_bundle_dir t;
  enforcement_rules ← or_default "enforcement_rules" default_ruleset t;
  rules ← or_default "rules" [] t;
  Some {| cfg_admission_enabled := admission; cfg_enforcement_enabled := enforcement; cfg_max_vcpus := max_vcpus;
          cfg_max_memory_mib := max_memory; cfg_max_sandboxes := max_sandboxes; cfg_allowed_images := images;
          cfg_bundle_dir := dir; cfg_enforcement_rules := enforcement_rules; cfg_rules := rules |}).

#[export] Instance DaemonSettings_de : Deserialize DaemonSettings := de_struct (λ t,
  socket ← or_default "socket" default_socket t;
  image_dir ← or_default "image_dir" default_image_dir t;
  kernel ← optional "kernel" t;
  tap_device ← optional "tap_device" t;
  api_port ← or_default (H:=de_uint 16) "api_port" default_api_port t;
  Some {| ds_socket := socket; ds_image_dir := image_dir; ds_kernel := kernel; ds_tap_device := tap_device;
          ds_api_port := api_port |}).

Record DaemonConfig : Type := {
  dc_daemon : DaemonSettings; dc_sensor : SensorConfig; dc_policy : PolicyConfig }.

#[export] Instance DaemonConfig_de : Deserialize DaemonConfig := de_struct (λ t,
  daemon ← or_default "daemon" DaemonSettings_default t;
  sensor ← or_default "sensor" SensorConfig_default t;
  policy ← or_default "policy" PolicyConfig_default t;
  Some {| dc_daemon := daemon; dc_sensor := sensor; dc_policy := policy |}).

Definition defaults : DaemonConfig := {|
  dc_daemon := DaemonSettings_default; dc_sensor := SensorConfig_default; dc_policy := PolicyConfig_default |}.

Definition kernel_path (c : DaemonConfig) : option string := ds_kernel (dc_daemon c).
Definition socket_path (c : DaemonConfig) : string := ds_socket (dc_daemon c).
Definition config_image_dir (c : DaemonConfig) : string := ds_image_dir (dc_daemon c).

Inductive ConfigError : Type :=
| ConfigIo (e : string)
| ConfigToml.

Section Files.
Context (parse : string → option toml_doc).

Definition from_toml (text : string) : outcome ConfigError DaemonConfig :=
  ok_or ConfigToml (parse text ≫= λ t, deserialize (TvTable t)).
Definition from_file (path : string) : stm Disk ConfigError DaemonConfig := λ d,
  let '(r, d) := fs_read path d in
  (b ← map_err ConfigIo r;
   text ← ok_or (ConfigIo "stream did not contain valid UTF-8") (from_utf8 b);
   from_toml text, d).
End Files.

(** ** Documents that mean the defaults *)

(** A table that is absent or empty. *)
Definition blank (k : string) (t : toml_doc) : Prop := get k t = None ∨ get k t = Some (TvTable []).

Lemma or_default_blank `{Deserialize A} k (d : A) t :
  blank k t → deserialize (TvTable []) = Some d → or_default k d t = Some d.
Proof. unfold or_default. by intros [-> | ->]. Qed.

(** A key that is given is what its table gets. *)
Lemma or_default_given `{Deserialize A} k (d : A) t v x :
  get k t = Some v → deserialize v = Some x → or_default k d t = Some x.
Proof. unfold or_default. by intros ->. Qed.

(** An absent section, and an empty one, have the values of [Default]. *)
Lemma config_defaults t :
  blank "daemon" t → blank "sensor" t ∨ (∃ st, get "sensor" t = Some (TvTable st) ∧ blank "guest" st ∧
    get "events_log" st = None ∧ get "ebpf_dir" st = None ∧ get "probes" st = None) →
  blank "policy" t → deserialize (TvTable t) = Some defaults.
Proof.
  intros Hd Hs Hp. unfold deserialize, DaemonConfig_de, de_struct.
  rewrite (or_default_blank "daemon") by done. cbn.
  assert (or_default "sensor" SensorConfig_default t = Some SensorConfig_default) as ->.
  { destruct Hs as [Hs|(st & Hs & Hg & Hl & He & Hb)]; [by apply or_default_blank|].
    eapply or_default_given; [exact Hs|]. unfold deserialize, SensorConfig_de, de_struct.
    cbn [or_default]. unfold or_default. rewrite Hl, He, Hb. by destruct Hg as [-> | ->]. }
  cbn. by rewrite (or_default_blank "policy").
Qed.

(** ** Every configuration can be written *)

(** A document with every key of a configuration. *)
Definition opt_key (k : string) (o : option string) : toml_doc := from_option (λ s, [(k, TvString s)]) [] o.
Definition probe_table (p : ProbeSpec) : toml := TvTable (
  [("hook_type", TvString (hook_type p)); ("target", TvString (target p))] ++ opt_key "bytecode" (bytecode p) ++
  opt_key "binary" (binary p) ++ [("enabled", TvBool (enabled p))]).
Definition action_name (a : EnforcementAction) : string :=
  match a with Allow => "Allow" | Deny => "Deny" | Alert => "Alert" | Kill => "Kill" end.
Definition rule_table (r : EnforcementRule) : toml := TvTable
  [("name", TvString (rule_name r)); ("event_type", TvString (Policy.event_type r));
   ("action", TvString (action_name (Policy.action r))); ("enabled", TvBool (Policy.enabled r))].
Definition guest_table (g : GuestSensorConfig) : toml := TvTable
  [("enabled", TvBool (gs_enabled g)); ("agent_path", TvString (agent_path g)); ("event_port", TvInteger (event_port g))].
Definition sensor_table (c : SensorConfig) : toml := TvTable
  [("events_log", TvString (events_log c)); ("ebpf_dir", TvString (ebpf_dir c)); ("guest", guest_table (guest c));
   ("probes", TvArray (probe_table <$> sensor_probes c))].
Definition policy_table (c : PolicyConfig) : toml := TvTable
  [("admission_enabled", TvBool (cfg_admission_enabled c)); ("enforcement_enabled", TvBool (cfg_enforcement_enabled c));
   ("max_vcpus", TvInteger (cfg_max_vcpus c)); ("max_memory_mib", TvInteger (cfg_max_memory_mib c));
   ("max_sandboxes", TvInteger (cfg_max_sandboxes c)); ("allowed_images", TvArray (TvString <$> cfg_allowed_images c));
   ("bundle_dir", TvString (cfg_bundle_dir c)); ("enforcement_rules", TvString (cfg_enforcement_rules c));
   ("rules", TvArray (rule_table <$> cfg_rules c))].
Definition daemon_table (c : DaemonSettings) : toml := TvTable (
  [("socket", TvString (ds_socket c)); ("image_dir", TvString (ds_image_dir c))] ++ opt_key "kernel" (ds_kernel c) ++
  opt_key "tap_device" (ds_tap_device c) ++ [("api_port", TvInteger (ds_api_port c))]).
Definition config_doc (c : DaemonConfig) : toml_doc :=
  [("daemon", daemon_table (dc_daemon c)); ("sensor", sensor_table (dc_sensor c)); ("policy", policy_table (dc_policy c))].

Definition in_uint (w z : Z) : Prop := 0 ≤ z < 2 ^ w.
Record config_in_range (c : DaemonConfig) : Prop := {
  port_range : in_uint 16 (ds_api_port (dc_daemon c));
  event_port_range : in_uint 16 (event_port (guest (dc_sensor c)));
  vcpus_range : in_uint 32 (cfg_max_vcpus (dc_policy c));
  memory_range : in_uint 32 (cfg_max_memory_mib (dc_policy c));
  sandboxes_range : in_uint 32 (cfg_max_sandboxes (dc_policy c));
}.

Lemma de_uint_in w z : in_uint w z → @deserialize Z (de_uint w) (TvInteger z) = Some z.
Proof.
  intros [H1 H2]. unfold deserialize, de_uint. by rewrite (proj2 (Z.leb_le _ _) H1), (proj2 (Z.ltb_lt _ _) H2).
Qed.

Lemma de_list_fmap `{Deserialize A} (f : A → toml) (l : list A) :
  (∀ x, deserialize (f x) = Some x) → deserialize (TvArray (f <$> l)) = Some l.
Proof. intros Hf. apply mapM_Some. induction l; constructor; auto. Qed.

Lemma probe_read p : deserialize (probe_table p) = Some p.
Proof. by destruct p as [h t [b|] [n|] e]. Qed.
Lemma rule_read r : deserialize (rule_table r) = Some r.
Proof. by destruct r as [n t [] e]. Qed.

(** One level of a document: its fields are looked up, their readings left. *)
#[local] Arguments deserialize : simpl never.
Ltac read_fields :=
  unfold deserialize at 1; cbn [de_struct];
  unfold required, optional, or_default; cbn [get app opt_key from_option String.eqb Ascii.eqb Bool.eqb].

Lemma guest_read g : in_uint 16 (event_port g) → deserialize (guest_table g) = Some g.
Proof. intros H. unfold guest_table, GuestSensorConfig_de. read_fields. rewrite de_uint_in by done. by destruct g. Qed.
Lemma sensor_read c : in_uint 16 (event_port (guest c)) → deserialize (sensor_table c) = Some c.
Proof.
  intros H. unfold sensor_table, SensorConfig_de. read_fields.
  rewrite guest_read, de_list_fmap by (done || apply probe_read). by destruct c.
Qed.
Lemma policy_read c : in_uint 32 (cfg_max_vcpus c) → in_uint 32 (cfg_max_memory_mib c) → in_uint 32 (cfg_max_sandboxes c) →
  deserialize (policy_table c) = Some c.
Proof.
  intros H1 H2 H3. unfold policy_table, PolicyConfig_de. read_fields.
  rewrite !de_uint_in by done. rewrite !de_list_fmap by (done || apply rule_read). by destruct c.
Qed.
Lemma settings_read c : in_uint 16 (ds_api_port c) → deserialize (daemon_table c) = Some c.
Proof.
  intros H. destruct c as [s i [k|] [t|] p]; unfold daemon_table, DaemonSettings_de; cbn [ds_kernel ds_tap_device];
    read_fields; cbn [get app opt_key from_option String.eqb Ascii.eqb Bool.eqb]; by rewrite de_uint_in.
Qed.

(** Reading what was written: every configuration whose numbers fit their
    types is what its document is read as. *)
Theorem config_roundtrip c : config_in_range c → deserialize (TvTable (config_doc c)) = Some c.
Proof.
  intros [H1 H2 H3 H4 H5]. unfold config_doc, DaemonConfig_de. read_fields.
  rewrite settings_read, sensor_read, policy_read by done. by destruct c.
Qed.

(** ** Witnesses and examples *)

#[local] Arguments deserialize : simpl nomatch.
Definition demo_config : DaemonConfig := {|
  dc_daemon := {| ds_socket := "/run/n.sock"; ds_image_dir := "/i"; ds_kernel := Some "/k"; ds_tap_device := None;
                  ds_api_port := 80 |};
  dc_sensor := {| events_log := "/log"; ebpf_dir := "/e"; guest := {| gs_enabled := true; agent_path := "/a"; event_port := 65535 |};
    sensor_probes := [{| hook_type := "kprobe"; target := "vfs_open"; bytecode := Some "file"; binary := None; enabled := true |}] |};
  dc_policy := {| cfg_admission_enabled := true; cfg_enforcement_enabled := true; cfg_max_vcpus := 4; cfg_max_memory_mib := 512;
    cfg_max_sandboxes := 9; cfg_allowed_images := ["nginx"]; cfg_bundle_dir := "/b"; cfg_enforcement_rules := "none";
    cfg_rules := [{| rule_name := "r"; Policy.event_type := "net_connect"; Policy.action := Alert; Policy.enabled := true |}] |} |}.

Lemma config_roundtrip_witness :
  config_in_range demo_config ∧ deserialize (TvTable (config_doc demo_config)) = Some demo_config.
Proof.
  assert (H : config_in_range demo_config) by (split; unfold in_uint; cbn; lia).
  split; [exact H|]. exact (config_roundtrip demo_config H).
Defined.

(** The rule the documentation shows has neither a name nor [enabled], and its
    action is in lower case: any of these refuses the whole file. *)
Definition doc_with_rule (rule : toml_doc) : toml := TvTable [("policy", TvTable [("rules", TvArray [TvTable rule])])].
Example documented_rule_refused :
  (deserialize (doc_with_rule [("event_type", TvString "process_exec"); ("action", TvString "alert")]) : option DaemonConfig) = None ∧
  (deserialize (doc_with_rule [("name", TvString "r"); ("event_type", TvString "process_exec"); ("action", TvString "alert");
    ("enabled", TvBool true)]) : option DaemonConfig) = None ∧
  is_Some (deserialize (doc_with_rule [("name", TvString "r"); ("event_type", TvString "process_exec");
    ("action", TvString "Alert"); ("enabled", TvBool true)]) : option DaemonConfig).
Proof. split_and!; [reflexivity..|by eexists]. Qed.

(** A policy section that says nothing of admission has it on, and a
    configuration without a kernel is accepted. *)
Example admission_by_default :
  (λ c, (cfg_admission_enabled (dc_policy c), kernel_path c)) <$>
    (deserialize (TvTable [("policy", TvTable [("max_vcpus", TvInteger 4)])]) : option DaemonConfig) = Some (true, None).
Proof. reflexivity. Qed.

(** A port outside of its type refuses the file. *)
Example port_out_of_range :
  (deserialize (TvTable [("daemon", TvTable [("api_port", TvInteger 65536)])]) : option DaemonConfig) = None.
Proof. reflexivity. Qed.

(** An empty document, and an empty section for the guest's sensors. *)
Example minimal_documents :
  deserialize (TvTable []) = Some defaults ∧
  deserialize (TvTable [("sensor", TvTable [("guest", TvTable [])])]) = Some defaults.
Proof.
  split; apply config_defaults; try (by left); [by left; left|].
  right. eexists. split; [reflexivity|]. split_and!; [by right|reflexivity..].
Qed.
