(* ===== verification/Daemon.v ===== *)
(** * The runtime daemon (nova-api/src/server.rs: RuntimeDaemonService)

    The handlers that create, start, stop, destroy and inspect sandboxes, run
    commands in them and carry their consoles.  A VM thread shares with the
    daemon a shutdown flag and two byte queues, kept here in a store of
    threads; what the thread does in between is the environment's. *)

From stdpp Require Import pretty.
From S2P Require Import Prelude Pool Wasm Sandbox Policy Calendar Store Oci Initrd Extract Caches Pull Agent Eye Probes Kvm Builder Registry ImageService GuestImage.
#[local] Open Scope Z_scope.

(** ** Messages (runtime.proto) *)

Record ProtoConfig : Type := {
  pc_vcpus : Z; pc_memory_mib : Z; pc_kernel : string; pc_rootfs : string; pc_cmdline : string;
  pc_network : option Sandbox.NetworkConfig }.
Record CreateSandboxRequest : Type := {
  cr_sandbox_id : string; cr_image : string; cr_config : option ProtoConfig; cr_command : string }.
Record SandboxStatusResponse : Type := {
  st_sandbox_id : string; st_state : Z; st_pid : Z; st_created_at : option string }.
Record ExecInSandboxResponse : Type := { ex_exit_code : Z; ex_stdout : list byte; ex_stderr : list byte }.

Definition state_to_proto (s : SandboxState) : Z :=
  match s with Created => 1 | Running => 2 | Stopped => 3 | Error => 4 end.

(** ** State *)

Record L4PoolMeta : Type := {
  l4_image_name : string; l4_image_digest : string; l4_config_hash : string; l4_vm_config_toml : string;
  l4_memory_mib : Z; l4_vcpus : Z }.

(** What a VM thread is started with, and what it shares. *)
Record VmArgs : Type := {
  va_toml : string; va_sandbox : string; va_digest : string; va_command : string; va_image : string;
  va_snapshot_dir : string }.
Record VmThread : Type := {
  th_args : VmArgs; th_shutdown : bool; th_output : list byte; th_input : list byte }.

(** The daemon's settings. *)
Record DaemonEnv : Type := {
  de_kernel_path : option string;
  de_image_dir : string;
  de_tap_device : option string;
  de_sensors : SensorConfig;
  de_env : string → option string;
  de_dir_exists : string → bool;
}.

(** [RuntimeError::to_string] under the status each handler gives it. *)
Definition lifecycle_status (e : RuntimeError) : Status :=
  match e with
  | SandboxNotFound _ => NotFoundStatus (runtime_error_text e)
  | InvalidState _ _ _ => FailedPrecondition (runtime_error_text e)
  | _ => Internal (runtime_error_text e)
  end.
Definition exists_status (e : RuntimeError) : Status := AlreadyExists (runtime_error_text e).
Definition missing_status (e : RuntimeError) : Status := NotFoundStatus (runtime_error_text e).

Definition default_kernel : string := "/boot/vmlinux".
Definition vm_cmdline : string :=
  "console=ttyS0 reboot=k panic=1 random.trust_cpu=on tsc=reliable no_timer_check lpj=5000000 " +:+
  "preempt=none nosmp noapictimer clk_ignore_unused".
Definition default_rootfs : string := "/var/lib/nova/rootfs.ext4".
Definition fixtures_dir : string := "/mnt/c/Users/haris/Desktop/personal/sandbox-reseach/novavm/tests/fixtures".

(** [split(':').next()]: the text before the first colon. *)
Definition before_colon (s : string) : string := match split_first ":" s with Some (a, _) => a | None => s end.
Definition short_name (image : string) : string := after_last_slash "" (before_colon image).

(** The least memory for an initrd of [n] bytes, in [u32]. *)
Definition min_memory_for (n : Z) : Z := Z.max 256 (wrap32 (wrap32 (wrap32 (n / (1024 * 1024)) + 1) * 3)).

Definition ends_with (suffix s : string) : bool :=
  String.eqb (String.substring (String.length s - String.length suffix) (String.length suffix) s) suffix &&
  (String.length suffix <=? String.length s)%nat.

Section Daemon.
Context {N P SC : Type} `{WasmHost} `{HttpHost N} `{RegistryJson} `{OciJson} `{Tar}.
Context `{Serde BlobStoreIndex} `{Serde RootfsCacheIndex}.
Context (sha256_hex : list byte → string) (status_text status_error : Z → string)
  (alphanumeric : list byte → bool) (report : Fs → hpath → dir) (show_errno : Z → string)
  (read_file : string → string + list byte) (probes_json : list ProbeSpec → list byte).
Context (env : DaemonEnv).
(** The state of the service: [vm_handles] holds indexes of the store of
    threads; sources are the guest event sources handed to the pipeline. *)
Record RuntimeDaemonService : Type := {
  orchestrator : SandboxOrchestrator (P:=P) (SC:=SC);
  images : ImageDaemonService N;
  threads : list VmThread;
  vm_handles : gmap string nat;
  image_digests : gmap string string;
  sandbox_commands : gmap string string;
  image_names : gmap string string;
  vm_pool : option (PoolInner (P:=P) * L4PoolMeta);
  policy_state : PolicyState;
  sources : list string;
}.
Local Abbreviation Service := RuntimeDaemonService.
Local Abbreviation run := (stm Service Status).
Implicit Types s : Service.

(** *** Access to the parts *)

Definition with_orchestrator s o : Service :=
  {| orchestrator := o; images := images s; threads := threads s; vm_handles := vm_handles s;
     image_digests := image_digests s; sandbox_commands := sandbox_commands s; image_names := image_names s;
     vm_pool := vm_pool s; policy_state := policy_state s; sources := sources s |}.
Definition with_images s i : Service :=
  {| orchestrator := orchestrator s; images := i; threads := threads s; vm_handles := vm_handles s;
     image_digests := image_digests s; sandbox_commands := sandbox_commands s; image_names := image_names s;
     vm_pool := vm_pool s; policy_state := policy_state s; sources := sources s |}.
Definition with_threads s t (h : gmap string nat) : Service :=
  {| orchestrator := orchestrator s; images := images s; threads := t; vm_handles := h;
     image_digests := image_digests s; sandbox_commands := sandbox_commands s; image_names := image_names s;
     vm_pool := vm_pool s; policy_state := policy_state s; sources := sources s |}.
Definition with_metadata s (i : string) (digest command image : string) : Service :=
  {| orchestrator := orchestrator s; images := images s; threads := threads s; vm_handles := vm_handles s;
     image_digests := <[i := digest]> (image_digests s);
     sandbox_commands := <[i := command]> (sandbox_commands s);
     image_names := <[i := image]> (image_names s);
     vm_pool := vm_pool s; policy_state := policy_state s; sources := sources s |}.
Definition with_source s (name : string) : Service :=
  {| orchestrator := orchestrator s; images := images s; threads := threads s; vm_handles := vm_handles s;
     image_digests := image_digests s; sandbox_commands := sandbox_commands s; image_names := image_names s;
     vm_pool := vm_pool s; policy_state := policy_state s; sources := sources s ++ [name] |}.

(** An operation of the orchestrator, with the status of its errors. *)
Definition orch {A} (m : stm SandboxOrchestrator RuntimeError A) (f : RuntimeError → Status) : run A := λ s,
  let '(r, o) := m (orchestrator s) in (map_err f r, with_orchestrator s o).
Definition find_sandbox (i : string) : run Sandbox := λ s,
  (map_err missing_status (get i (orchestrator s)), s).

(** An operation whose failure is only logged. *)
Definition attempt {A} (m : run A) : run (option A) := λ s,
  match m s with
  | (Ok a, s) => (Ok (Some a), s)
  | (Err _, s) => (Ok None, s)
  | (Panic p, s) => (Panic p, s)
  end.

Definition on_images {A} (m : stm (ImageDaemonService N) Status A) : run A := λ s,
  let '(r, i) := m (images s) in (r, with_images s i).
Definition logged {E} (e : E) : Status := Internal "".
Definition host_files s : Disk := disk (image_puller (images s)).
Definition on_files {A} (m : stm Disk string A) : run A :=
  on_images (on_puller (λ p, let '(r, d) := m (disk p) in (map_err Io r, set_disk p d)) logged).


(** *** Creating a sandbox *)

Definition sandbox_id_of (req : CreateSandboxRequest) (nanos : Z) : string :=
  if String.eqb (cr_sandbox_id req) "" then "nova-" +:+ fmt_x (Z.land nanos 0xFFFFFFFF) else cr_sandbox_id req.

Definition kernel_of : string := default default_kernel (de_kernel_path env).

(** The fast path: the pool was warmed for this image and has a VM ready. *)
Definition l4_fast_path s (image : string) : option L4PoolMeta :=
  match vm_pool s with
  | Some (p, meta) =>
      if String.eqb (l4_image_name meta) image && (0 <? ready_count (stats p)) then Some meta else None
  | None => None
  end.

Definition l4_config (meta : L4PoolMeta) : SandboxConfig := {|
  Sandbox.vcpus := l4_vcpus meta; Sandbox.memory_mib := l4_memory_mib meta; kernel := kernel_of;
  rootfs := "L4_POOL"; cmdline := vm_cmdline; network := None; kind := Vm |}.

Definition entry_script (command : string) : option (list byte) :=
  if String.eqb command "" then None
  else Some (string_bytes ("#!/bin/sh" +:+ newline +:+ command +:+ newline)).

(** A converted image: what is remembered of it, and what is injected. *)
Definition image_ready (i : string) (req : CreateSandboxRequest) (digest rootfs : string) : run string :=
  modify (λ s, with_metadata s i digest (cr_command req) (cr_image req)) ;;
  attempt (on_files (inject_init_into_cpio (de_env env) rootfs (entry_script (cr_command req)) (de_kernel_path env))) ;;
  (if gs_enabled (guest (de_sensors env))
   then attempt (on_files (inject_guest_ebpf probes_json rootfs (guest (de_sensors env)) (de_sensors env)))
   else mret None) ;;
  mret rootfs.

Definition convert_layout (now : Z) (dir : string) : run ImageInfo :=
  on_images (on_puller (pull_oci_layout sha256_hex report show_errno now dir) logged).
Definition stub_pull (image : string) : run unit :=
  attempt (on_images (on_puller (Pull.pull sha256_hex image) logged)) ;; mret tt.

Definition local_image (now : Z) (i : string) (req : CreateSandboxRequest) (dir : string) : run (option string) :=
  info ← attempt (convert_layout now dir);
  match info with
  | Some info => p ← image_ready i req (info_digest info) (info_rootfs info); mret (Some p)
  | None => stub_pull (cr_image req) ;; mret None
  end.

Definition registry_image (now : Z) (i : string) (req : CreateSandboxRequest) : run (option string) :=
  match parse (cr_image req) with
  | Ok image =>
      let dir := join (de_image_dir env) ("oci-" +:+ sanitize_image_ref alphanumeric (cr_image req)) in
      digest ← attempt (on_images (on_registry
        (registry_pull sha256_hex status_text status_error image dir false) logged));
      match digest with
      | Some digest =>
          info ← attempt (convert_layout now dir);
          match info with
          | Some info => p ← image_ready i req digest (info_rootfs info); mret (Some p)
          | None => mret None
          end
      | None => stub_pull (cr_image req) ;; mret None
      end
  | _ => stub_pull (cr_image req) ;; mret None
  end.

Definition image_initrd (now : Z) (i : string) (req : CreateSandboxRequest) : run (option string) :=
  if String.eqb (cr_image req) "" then mret None else
  let oci_dir := join fixtures_dir (short_name (cr_image req) +:+ "-oci") in
  if de_dir_exists env oci_dir then local_image now i req oci_dir else registry_image now i req.

Definition min_memory (initrd : option string) : run Z :=
  match initrd with
  | None => mret 128
  | Some p => n ← attempt (on_files (fs_size p)); mret (min_memory_for (default 0 n))
  end.

Definition sandbox_config (req : CreateSandboxRequest) (initrd : option string) (min_mem : Z) : SandboxConfig :=
  match cr_config req with
  | Some c =>
      let requested := if 0 <? pc_memory_mib c then pc_memory_mib c else 512 in
      {| Sandbox.vcpus := if 0 <? pc_vcpus c then pc_vcpus c else 1;
         Sandbox.memory_mib := Z.max requested min_mem;
         kernel := if String.eqb (pc_kernel c) "" then kernel_of else pc_kernel c;
         rootfs := match initrd with
                   | Some p => p
                   | None => if String.eqb (pc_rootfs c) "" then default_rootfs else pc_rootfs c
                   end;
         cmdline := if String.eqb (pc_cmdline c) "" then vm_cmdline else pc_cmdline c;
         network := pc_network c; kind := Vm |}
  | None =>
      {| Sandbox.vcpus := 1; Sandbox.memory_mib := min_mem; kernel := kernel_of;
         rootfs := default default_rootfs initrd; cmdline := vm_cmdline; network := None; kind := Vm |}
  end.

(** The sizes admission looks at, of the request as it is. *)
Definition requested_size (req : CreateSandboxRequest) : option (Z * Z) :=
  (λ c, (pc_vcpus c, pc_memory_mib c)) <$> cr_config req.

Definition create_sandbox (nanos now : Z) (req : CreateSandboxRequest) : run string := λ s,
  let i := sandbox_id_of req nanos in
  match create_admission (policy_state s) i (cr_image req) (requested_size req) with
  | Some reason => (Err (PermissionDenied reason), s)
  | None =>
      match (if String.eqb (cr_image req) "" then None else l4_fast_path s (cr_image req)) with
      | Some meta =>
          (modify (λ s, with_metadata s i (l4_image_digest meta) (cr_command req) (cr_image req)) ;;
           orch (create i (l4_config meta) now) exists_status ;;
           mret i) s
      | None =>
          (initrd ← image_initrd now i req;
           min_mem ← min_memory initrd;
           orch (create i (sandbox_config req initrd min_mem) now) exists_status ;;
           mret i) s
      end
  end.

(** *** Starting, stopping, destroying *)

(** The initrd of a sandbox: a rootfs that is there and named [.cpio]. *)
Definition initrd_of s (c : SandboxConfig) : option string :=
  if exists_file (host_files s) (rootfs c) && ends_with ".cpio" (rootfs c) then Some (rootfs c) else None.

Definition tap_of : option string :=
  match de_tap_device env with Some t => Some t | None => de_env env "NOVA_TAP" end.

Definition vm_args s (i : string) (c : SandboxConfig) : VmArgs := {|
  va_toml := build_vm_config (kernel c) (initrd_of s c) (Sandbox.memory_mib c) (Sandbox.vcpus c) (cmdline c) tap_of;
  va_sandbox := i;
  va_digest := default "" (image_digests s !! i);
  va_command := default "" (sandbox_commands s !! i);
  va_image := default "" (image_names s !! i);
  va_snapshot_dir := join (de_image_dir env) "snapshots" |}.

(** [spawn_vm_thread] and the handle for it. *)
Definition spawn_vm (i : string) (c : SandboxConfig) : run unit := modify (λ s,
  let t := {| th_args := vm_args s i c; th_shutdown := false; th_output := []; th_input := [] |} in
  with_threads s (threads s ++ [t]) (<[i := length (threads s)]> (vm_handles s))).

(** A guest event source, if its port could be bound. *)
Definition register_source (bound : bool) (i : string) : run unit :=
  if gs_enabled (guest (de_sensors env)) && bound then modify (λ s, with_source s (guest_name i)) else mret tt.

Definition start_sandbox (self_pid : Z) (bound : bool) (i : string) : run unit :=
  sb ← find_sandbox i;
  has_kernel ← gets (λ s, bool_decide (is_Some (de_kernel_path env)) && exists_file (host_files s) (kernel (config sb)));
  orch (orch_start read_file self_pid i) lifecycle_status ;;
  if has_kernel : bool then spawn_vm i (config sb) ;; register_source bound i else mret tt.

Definition set_shutdown (t : VmThread) : VmThread :=
  {| th_args := th_args t; th_shutdown := true; th_output := th_output t; th_input := th_input t |}.

(** The flag is set and the thread waited for, five seconds at most, whatever
    comes of it. *)
Definition signal_vm (i : string) : run unit := modify (λ s,
  match vm_handles s !! i with
  | Some k => with_threads s (alter set_shutdown k (threads s)) (delete i (vm_handles s))
  | None => s
  end).

Definition stop_sandbox (i : string) : run unit :=
  signal_vm i ;; orch (orch_stop i) lifecycle_status.

Definition destroy_sandbox (i : string) : run unit := orch (destroy i) lifecycle_status.

(** *** Status *)

(** [as i32]. *)
Definition as_i32 (z : Z) : Z := let w := wrap32 z in if w <? 2 ^ 31 then w else w - 2 ^ 32.

Definition status_of (sb : Sandbox) : SandboxStatusResponse := {|
  st_sandbox_id := id sb; st_state := state_to_proto (state sb);
  st_pid := default 0 (as_i32 <$> Sandbox.pid sb); st_created_at := system_time_to_rfc3339 (Sandbox.created_at sb) |}.

Definition sandbox_status (i : string) : run SandboxStatusResponse :=
  sb ← find_sandbox i; mret (status_of sb).
Definition list_sandboxes : run (list SandboxStatusResponse) :=
  gets (λ s, status_of <$> orch_list (orchestrator s)).

(** *** Consoles *)

Definition not_running (i : string) : string := "sandbox '" +:+ i +:+ "' is not running".

(** The thread of a running sandbox. *)
Definition running_vm (suffix : Sandbox → string) (i : string) : run nat :=
  sb ← find_sandbox i;
  if bool_decide (state sb ≠ Running) then throw (FailedPrecondition (not_running i +:+ suffix sb)) else
  k ← gets (λ s, vm_handles s !! i);
  lift (ok_or (NotFoundStatus ("no VM handle for sandbox '" +:+ i +:+ "'")) k).

Definition push_input (data : list byte) (t : VmThread) : VmThread :=
  {| th_args := th_args t; th_shutdown := th_shutdown t; th_output := th_output t; th_input := th_input t ++ data |}.
Definition on_thread (f : VmThread → VmThread) (k : nat) : run unit :=
  modify (λ s, with_threads s (alter f k (threads s)) (vm_handles s)).
Definition output_of s (k : nat) : list byte := from_option th_output [] (threads s !! k).

Definition send_console_input (i : string) (data : list byte) : run Z :=
  k ← running_vm (λ _, "") i;
  on_thread (push_input data) k ;;
  mret (wrap32 (zlen data)).

(** [exec_in_sandbox] up to its wait: the thread, the length of the output so
    far, and the command on the guest's console. *)
Definition exec_begin (i : string) (command : list string) : run (nat * nat) :=
  k ← running_vm (λ sb, " (state: " +:+ state_text (state sb) +:+ ")") i;
  baseline ← gets (λ s, length (output_of s k));
  on_thread (push_input (string_bytes (String.concat " " command +:+ newline))) k ;;
  mret (k, baseline).

End Daemon.

(** ** Reading the answer of a command

    No error, only a panic. *)

Local Abbreviation infallible := (outcome Empty_set).

Definition begin_marker : string := "===NOVA_EXEC_BEGIN===".
Definition end_marker : string := "===NOVA_EXEC_END===".
Definition cr_char : Ascii.ascii := Ascii.ascii_of_nat 13.

(** [trim_matches] of a character. *)
Fixpoint drop_char (c : Ascii.ascii) (l : list Ascii.ascii) : list Ascii.ascii :=
  match l with [] => [] | x :: l' => if Ascii.eqb x c then drop_char c l' else l end.
Definition trim_matches (c : Ascii.ascii) (s : string) : string :=
  String.string_of_list_ascii
    (reverse (drop_char c (reverse (drop_char c (String.list_ascii_of_string s))))).

(** [parse::<i32>]. *)
Fixpoint all_digits (acc : Z) (s : string) : option Z :=
  match s with
  | EmptyString => Some acc
  | String c s => d ← hex_value c; if d <? 10 then all_digits (acc * 10 + d) s else None
  end.
Definition in_i32 (z : Z) : option Z := if (- 2 ^ 31 <=? z) && (z <? 2 ^ 31) then Some z else None.
Definition parse_i32 (s : string) : option Z :=
  match s with
  | EmptyString => None
  | String c rest =>
      if Ascii.eqb c (Ascii.ascii_of_nat 43) then
        if String.eqb rest "" then None else all_digits 0 rest ≫= in_i32
      else if Ascii.eqb c (Ascii.ascii_of_nat 45) then
        if String.eqb rest "" then None else n ← all_digits 0 rest; in_i32 (- n)
      else all_digits 0 s ≫= in_i32
  end.

(** What lies between the two markers; a slice that ends before it starts
    panics. *)
Definition exec_stdout (text before_end : string) : infallible (list byte) :=
  match split_first begin_marker text with
  | None => Ok []
  | Some (before, _) =>
      let start := (String.length before + String.length begin_marker)%nat in
      if (String.length before_end <? start)%nat then Panic PanicBounds else
      Ok (string_bytes (trim_matches cr_char (trim_matches newline_char
        (String.substring start (String.length before_end - start) text))))
  end.

(** The answer in a console text: [None] while it has no end marker. *)
Definition exec_answer (text : string) : infallible (option ExecInSandboxResponse) :=
  match split_first end_marker text with
  | None => Ok None
  | Some (before, after) =>
      out ← exec_stdout text before;
      Ok (Some {| ex_exit_code := default 0 (parse_i32 (trim after)); ex_stdout := out; ex_stderr := [] |})
  end.

(** The wait: at each poll the console output so far and, once the deadline is
    over, the output then. *)
Fixpoint exec_wait (baseline : nat) (polls : list (list byte * option (list byte)))
    : option (infallible ExecInSandboxResponse) :=
  match polls with
  | [] => None
  | (buf, late) :: polls =>
      match exec_answer (from_utf8_lossy (drop baseline buf)) with
      | Ok (Some r) => Some (Ok r)
      | Panic p => Some (Panic p)
      | _ =>
          match late with
          | Some buf => Some (Ok {| ex_exit_code := -1; ex_stdout := drop baseline buf; ex_stderr := [] |})
          | None => exec_wait baseline polls
          end
      end
  end.

(** ** Streaming a console

    Each round sleeps, asks whether the sandbox runs, and sends what is new;
    after the last round the rest is sent.  A round is the state of the sandbox
    and the output at its two reads. *)

Record StreamRound : Type := { sr_running : bool; sr_output : list byte; sr_final : list byte }.

Definition chunk (cursor : nat) (buf : list byte) : list (list byte) :=
  if (cursor <? length buf)%nat then [drop cursor buf] else [].

Fixpoint stream_console (cursor : nat) (rounds : list StreamRound) : list (list byte) :=
  match rounds with
  | [] => []
  | r :: rounds =>
      let cursor' := Nat.max cursor (length (sr_output r)) in
      chunk cursor (sr_output r) ++
      if sr_running r then stream_console cursor' rounds else chunk cursor' (sr_final r)
  end.

(** *** Markers *)

Lemma strip_prefix_app p w : strip_prefix p (p +:+ w) = Some w.
Proof. induction p as [|c p IH]; [done|]. rewrite sapp_cons. cbn. by rewrite Ascii.eqb_refl. Qed.

(** A pattern is found in the front part of a text that is long enough. *)
Lemma strip_prefix_front p x y r :
  strip_prefix p (x +:+ y) = Some r → (String.length p ≤ String.length x)%nat → is_Some (strip_prefix p x).
Proof.
  revert x. induction p as [|c p IH]; intros x; [by eexists|]. destruct x as [|d x]; [intros _ Hl; cbn in Hl; lia|].
  rewrite sapp_cons. cbn. destruct (Ascii.eqb c d); [|done]. intros Hs Hl. apply IH; [done|lia].
Qed.

(** A pattern that does not occur earlier is found where it stands; [q] is the
    pattern without its last character. *)
Lemma split_first_here p q c a w :
  p = q +:+ String c "" → contains_str p (a +:+ q) = false → split_first p (a +:+ p +:+ w) = Some (a, w).
Proof.
  intros Hpq. induction a as [|d a IH]; intros Hn.
  - rewrite sapp_nil. assert (Hs := strip_prefix_app p w). destruct (p +:+ w); cbn; by rewrite Hs.
  - rewrite !sapp_cons in *. unfold contains_str in Hn. cbn [split_first] in *.
    destruct (strip_prefix p (String d (a +:+ q))) eqn:E1; [by rewrite bool_decide_eq_true_2 in Hn by (by eexists)|].
    destruct (strip_prefix p (String d (a +:+ p +:+ w))) as [r|] eqn:E2.
    + exfalso. assert (Hx : String d (a +:+ p +:+ w) = String d (a +:+ q) +:+ (String c w)).
      { rewrite sapp_cons, sapp_assoc. f_equal. f_equal. by rewrite Hpq, sapp_assoc. }
      rewrite Hx in E2. apply strip_prefix_front in E2; [by rewrite E1 in E2; destruct E2|].
      rewrite Hpq. cbn [String.length]. rewrite !length_sapp. cbn. lia.
    + rewrite IH; [done|]. unfold contains_str. destruct (split_first p (a +:+ q)) as [[]|]; [|done].
      by rewrite bool_decide_eq_true_2 in Hn by (by eexists).
Qed.

Definition marker_front (m : string) : string := String.substring 0 (String.length m - 1) m.

Lemma find_marker m a w :
  m = begin_marker ∨ m = end_marker → contains_str m (a +:+ marker_front m) = false →
  split_first m (a +:+ m +:+ w) = Some (a, w).
Proof. intros [->| ->]; by apply (split_first_here _ _ (Ascii.ascii_of_nat 61)). Qed.

Lemma substring_app n a b c :
  n = String.length a → String.substring n (String.length b) (a +:+ b +:+ c) = b.
Proof.
  intros ->. induction a as [|x a IH]; [|by rewrite sapp_cons].
  rewrite sapp_nil. cbn [String.length]. induction b as [|y b IH]; [by destruct c|]. rewrite sapp_cons. cbn.
  f_equal. exact IH.
Qed.

(** *** The answer of a command *)

Lemma exec_answer_markers a c w :
  contains_str begin_marker (a +:+ marker_front begin_marker) = false →
  contains_str end_marker (a +:+ begin_marker +:+ c +:+ marker_front end_marker) = false →
  exec_answer (a +:+ begin_marker +:+ c +:+ end_marker +:+ w) =
    Ok (Some {| ex_exit_code := default 0 (parse_i32 (trim w));
                ex_stdout := string_bytes (trim_matches cr_char (trim_matches newline_char c)); ex_stderr := [] |}).
Proof.
  intros Hb He. unfold exec_answer.
  assert (Hte : split_first end_marker (a +:+ begin_marker +:+ c +:+ end_marker +:+ w) = Some (a +:+ begin_marker +:+ c, w)).
  { rewrite <- !sapp_assoc. rewrite (sapp_assoc _ end_marker w). rewrite find_marker; [by rewrite !sapp_assoc|by right|].
    by rewrite !sapp_assoc. }
  rewrite Hte. unfold exec_stdout. rewrite find_marker by auto. rewrite !length_sapp.
  destruct (Nat.ltb_spec (String.length a + (String.length begin_marker + String.length c))
    (String.length a + String.length begin_marker)) as [|_]; [lia|].
  cbn [mbind outcome_bind].
  replace (String.length a + (String.length begin_marker + String.length c) - (String.length a + String.length begin_marker))%nat
    with (String.length c) by lia.
  rewrite <- (sapp_assoc a), substring_app by (by rewrite length_sapp). done.
Qed.

(** ** What a client observes of a command and of a console *)

(** Exit codes of a shell, as its line ends them. *)
Lemma exit_code_parsed n nl : 0 ≤ n < 256 → nl ∈ [newline; String cr_char newline] →
  parse_i32 (trim (pretty n +:+ nl)) = Some n.
Proof.
  intros Hn Hnl.
  assert (Hall : forallb (λ n, forallb (λ nl, bool_decide (parse_i32 (trim (pretty n +:+ nl)) = Some n))
    [newline; String cr_char newline]) (seqZ 0 256) = true) by (vm_compute; reflexivity).
  rewrite forallb_forall in Hall. specialize (Hall n ltac:(apply list_elem_of_In, elem_of_seqZ; lia)).
  rewrite forallb_forall in Hall. specialize (Hall nl ltac:(by apply list_elem_of_In)).
  by apply bool_decide_eq_true_1 in Hall.
Qed.

Lemma exec_wait_quiet baseline polls1 polls2 :
  Forall (λ p, exec_answer (from_utf8_lossy (drop baseline p.1)) = Ok None ∧ p.2 = None) polls1 →
  exec_wait baseline (polls1 ++ polls2) = exec_wait baseline polls2.
Proof. induction 1 as [|[b l] polls1 [Ha Hl] _ IH]; [done|]. cbn in *. subst l. by rewrite Ha. Qed.

(** A command's answer: however long the console stays quiet within the
    deadline, at the first poll whose text holds the end marker, with the
    exit status and its line end behind it and the begin marker before it,
    the caller gets that status and what was printed in between, without the
    line ends around it; when the deadline comes first, it gets -1 and
    everything printed since the command was sent, and the wait ends. *)
Theorem exec_reports_answer baseline quiet rest :
  Forall (λ p, exec_answer (from_utf8_lossy (drop baseline p.1)) = Ok None ∧ p.2 = None) quiet →
  (∀ buf late a c n nl,
    contains_str begin_marker (a +:+ marker_front begin_marker) = false →
    contains_str end_marker (a +:+ begin_marker +:+ c +:+ marker_front end_marker) = false →
    0 ≤ n < 256 → nl ∈ [newline; String cr_char newline] →
    from_utf8_lossy (drop baseline buf) = a +:+ begin_marker +:+ c +:+ end_marker +:+ pretty n +:+ nl →
    exec_wait baseline (quiet ++ (buf, late) :: rest) =
      Some (Ok {| ex_exit_code := n;
                  ex_stdout := string_bytes (trim_matches cr_char (trim_matches newline_char c)); ex_stderr := [] |})) ∧
  (∀ buf late, exec_answer (from_utf8_lossy (drop baseline buf)) = Ok None →
    exec_wait baseline (quiet ++ (buf, Some late) :: rest) =
      Some (Ok {| ex_exit_code := -1; ex_stdout := drop baseline late; ex_stderr := [] |})).
Proof.
  intros Hq. split.
  - intros buf late a c n nl Hb He Hn Hnl Htext. rewrite exec_wait_quiet by done. cbn [exec_wait].
    rewrite Htext, exec_answer_markers by done. by rewrite exit_code_parsed.
  - intros buf late Ha. rewrite exec_wait_quiet by done. cbn [exec_wait]. by rewrite Ha.
Qed.

Definition demo_console : string :=
  "boot" +:+ begin_marker +:+ newline +:+ "hello" +:+ newline +:+ end_marker +:+ "3" +:+ newline.

Lemma exec_reports_answer_witness :
  exec_wait 4 [(string_bytes "boot", None); (string_bytes demo_console, None)] =
    Some (Ok {| ex_exit_code := 3; ex_stdout := string_bytes "hello"; ex_stderr := [] |}).
Proof.
  destruct (exec_reports_answer 4 [(string_bytes "boot", None)] []) as [Hans _].
  - constructor; [|constructor]. vm_compute. auto.
  - refine (eq_trans (Hans (string_bytes demo_console) None "" (newline +:+ "hello" +:+ newline) 3 newline _ _ _ _ _) _);
      [vm_compute; reflexivity|vm_compute; reflexivity|lia|by left|vm_compute; reflexivity|vm_compute; reflexivity].
Defined.

(** The marker and the status come in pieces: a poll between them reports
    success; a line that starts with the end marker before the begin marker
    makes the handler panic; and a terminal's carriage return keeps the first
    line end in the output. *)
Example exec_pieces :
  exec_wait 0 [(string_bytes (begin_marker +:+ end_marker), None)] =
    Some (Ok {| ex_exit_code := 0; ex_stdout := []; ex_stderr := [] |}) ∧
  exec_wait 0 [(string_bytes (end_marker +:+ "0" +:+ newline +:+ begin_marker), None)] = Some (Panic PanicBounds) ∧
  exec_wait 0 [(string_bytes (begin_marker +:+ String cr_char newline +:+ "hi" +:+ String cr_char newline +:+
                 end_marker +:+ "0" +:+ newline), None)] =
    Some (Ok {| ex_exit_code := 0; ex_stdout := string_bytes (newline +:+ "hi"); ex_stderr := [] |}).
Proof. vm_compute. auto. Qed.

(** *** Streams *)

Lemma chunk_concat cursor buf full :
  buf `prefix_of` full → (cursor ≤ length full)%nat →
  concat (chunk cursor buf) ++ drop (Nat.max cursor (length buf)) full = drop cursor full ∧
  (Nat.max cursor (length buf) ≤ length full)%nat ∧ Forall (λ c, c ≠ []) (chunk cursor buf).
Proof.
  intros [k ->] Hc. rewrite length_app in *. unfold chunk. destruct (Nat.ltb_spec cursor (length buf)).
  - rewrite Nat.max_r by lia. cbn. rewrite app_nil_r, drop_app_length, drop_app_le by lia. split_and!; [done|lia|].
    constructor; [|constructor]. intros E%(f_equal length). rewrite length_drop in E. cbn in E. lia.
  - rewrite Nat.max_l by lia. split_and!; [done|lia|constructor].
Qed.

(** A console stream delivers the console exactly once: as the output only
    grows, the chunks sent up to the end of the sandbox, none of them empty,
    put together are the whole output at the last read. *)
Theorem stream_console_exact rounds r :
  Forall (λ x, sr_running x = true) rounds → sr_running r = false →
  Forall (λ x, sr_output x `prefix_of` sr_final r) (rounds ++ [r]) →
  concat (stream_console 0 (rounds ++ [r])) = sr_final r ∧ Forall (λ c, c ≠ []) (stream_console 0 (rounds ++ [r])).
Proof.
  intros Hrun Hr Hp. set (full := sr_final r) in *.
  assert (Hg : ∀ cursor, (cursor ≤ length full)%nat →
    concat (stream_console cursor (rounds ++ [r])) = drop cursor full ∧
    Forall (λ c, c ≠ []) (stream_console cursor (rounds ++ [r]))).
  2: { destruct (Hg 0%nat) as [-> ?]; [lia|]. done. }
  induction Hrun as [|x rounds Hx Hrun IH]; intros cursor Hc;
    cbn [app] in Hp |- *; apply Forall_cons in Hp as [Hx' Hp]; cbn [stream_console];
    destruct (chunk_concat cursor _ full Hx' Hc) as (Hcat & Hle & Hne).
  - rewrite Hr, concat_app. destruct (chunk_concat (Nat.max cursor (length (sr_output r))) full full ltac:(done) Hle)
      as (Hcat2 & _ & Hne2). fold full. split; [|by apply Forall_app].
    rewrite <- Hcat. f_equal. rewrite <- Hcat2. rewrite (drop_ge full (Nat.max _ (length full))) by lia. by rewrite app_nil_r.
  - rewrite Hx, concat_app. destruct (IH Hp _ Hle) as [-> Hne2]. split; [done|by apply Forall_app].
Qed.

Lemma stream_console_exact_witness :
  let r b o f := {| sr_running := b; sr_output := string_bytes o; sr_final := string_bytes f |} in
  let rounds := [r true "" ""; r true "ab" ""; r true "ab" ""; r false "abc" "abcd"] in
  stream_console 0 rounds = string_bytes <$> ["ab"; "c"; "d"] ∧
  concat (stream_console 0 rounds) = string_bytes "abcd".
Proof.
  intros r rounds. split; [vm_compute; reflexivity|].
  destruct (stream_console_exact [r true "" ""; r true "ab" ""; r true "ab" ""] (r false "abc" "abcd")) as [Hs _].
  - by repeat constructor.
  - done.
  - repeat constructor; eexists; vm_compute; reflexivity.
  - exact Hs.
Defined.

(** ** VMs and sandboxes *)

Section Lifecycle.
Context {N P SC : Type} `{WasmHost} `{HttpHost N} `{RegistryJson} `{OciJson} `{Tar}.
Context `{Serde BlobStoreIndex} `{Serde RootfsCacheIndex}.
Context (sha256_hex : list byte → string) (status_text status_error : Z → string)
  (alphanumeric : list byte → bool) (report : Fs → hpath → dir) (show_errno : Z → string)
  (read_file : string → string + list byte) (probes_json : list ProbeSpec → list byte).
Context (env : DaemonEnv).
Local Abbreviation Service := (RuntimeDaemonService (N:=N) (P:=P) (SC:=SC)).
Local Abbreviation run := (stm Service Status).
Implicit Types s : Service.

Local Abbreviation do_create := (create_sandbox sha256_hex status_text status_error alphanumeric report show_errno probes_json env).
Local Abbreviation do_start := (start_sandbox read_file env).

(** What happens to the daemon: the requests that change it, and what a VM
    thread does to what it shares: it prints and it takes its input. *)
Inductive daemon_event : Type :=
| EvCreate (nanos now : Z) (req : CreateSandboxRequest)
| EvStart (self_pid : Z) (bound : bool) (i : string)
| EvStop (i : string)
| EvDestroy (i : string)
| EvInput (i : string) (data : list byte)
| EvExec (i : string) (command : list string)
| EvPrinted (k : nat) (data : list byte)
| EvTook (k : nat).

Definition printed (data : list byte) (t : VmThread) : VmThread :=
  {| th_args := th_args t; th_shutdown := th_shutdown t; th_output := th_output t ++ data; th_input := th_input t |}.
Definition took (t : VmThread) : VmThread :=
  {| th_args := th_args t; th_shutdown := th_shutdown t; th_output := th_output t; th_input := [] |}.

Definition daemon_step (e : daemon_event) s : Service :=
  match e with
  | EvCreate nanos now req => (do_create nanos now req s).2
  | EvStart p b i => (do_start p b i s).2
  | EvStop i => (stop_sandbox i s).2
  | EvDestroy i => (destroy_sandbox i s).2
  | EvInput i data => (send_console_input i data s).2
  | EvExec i c => (exec_begin i c s).2
  | EvPrinted k data => with_threads s (alter (printed data) k (threads s)) (vm_handles s)
  | EvTook k => with_threads s (alter took k (threads s)) (vm_handles s)
  end.

(** The part the invariant is about. *)
Definition core s : SandboxOrchestrator (P:=P) (SC:=SC) * list VmThread * gmap string nat :=
  (orchestrator s, threads s, vm_handles s).
Definition keeps_core {A} (m : run A) : Prop := ∀ s, core (m s).2 = core s.

Lemma keeps_core_bind {A B} (m : run A) (f : A → run B) : keeps_core m → (∀ a, keeps_core (f a)) → keeps_core (m ≫= f).
Proof.
  intros Hm Hf s. unfold mbind, stm_bind. specialize (Hm s). destruct (m s) as [[a| |] s1]; [|done..].
  by rewrite Hf.
Qed.
Lemma keeps_core_ret {A} (a : A) : keeps_core (mret a).
Proof. done. Qed.
Lemma keeps_images {A} (m : stm (ImageDaemonService N) Status A) : keeps_core (on_images m).
Proof. intros s. unfold on_images. by destruct (m (images s)). Qed.
Lemma keeps_attempt {A} (m : run A) : keeps_core m → keeps_core (attempt m).
Proof. intros Hm s. unfold attempt. specialize (Hm s). by destruct (m s) as [[]]. Qed.
Lemma keeps_metadata i d c n : keeps_core (modify (λ s, with_metadata s i d c n)).
Proof. done. Qed.

Ltac keeps := repeat first
  [ apply keeps_core_ret | apply keeps_images | apply keeps_metadata | apply keeps_attempt
  | apply keeps_core_bind; [|intros ?] | case_match | progress unfold on_files, stub_pull, convert_layout ].

Lemma keeps_image_initrd now i req :
  keeps_core (image_initrd (P:=P) (SC:=SC) sha256_hex status_text status_error alphanumeric report show_errno probes_json env now i req).
Proof. unfold image_initrd, local_image, registry_image, image_ready. keeps. Qed.
Lemma keeps_min_memory initrd : keeps_core (min_memory (P:=P) (SC:=SC) (N:=N) initrd).
Proof. unfold min_memory. keeps. Qed.

Lemma orch_core {A} (m : stm SandboxOrchestrator RuntimeError A) f s :
  core (orch m f s).2 = ((m (orchestrator s)).2, threads s, vm_handles s) ∧
  (orch m f s).1 = map_err f (m (orchestrator s)).1.
Proof. unfold orch. by destruct (m (orchestrator s)). Qed.

(** Steps whose failures are only logged. *)
Definition no_error {A} (m : run A) : Prop := ∀ s e, (m s).1 ≠ Err e.

Lemma no_error_bind {A B} (m : run A) (f : A → run B) : no_error m → (∀ a, no_error (f a)) → no_error (m ≫= f).
Proof.
  intros Hm Hf s e. unfold mbind, stm_bind. specialize (Hm s). destruct (m s) as [[a|x|] s1]; [apply Hf|by destruct (Hm x)|done].
Qed.
Lemma no_error_ret {A} (a : A) : no_error (mret a).
Proof. done. Qed.
Lemma no_error_modify f : no_error (modify f).
Proof. done. Qed.
Lemma no_error_attempt {A} (m : run A) : no_error (attempt m).
Proof. intros s e. unfold attempt. by destruct (m s) as [[]]. Qed.

Ltac no_errors := repeat first
  [ apply no_error_ret | apply no_error_modify | apply no_error_attempt | apply no_error_bind; [|intros ?]
  | case_match | progress unfold stub_pull ].

Lemma image_initrd_no_error now i req :
  no_error (image_initrd (P:=P) (SC:=SC) sha256_hex status_text status_error alphanumeric report show_errno probes_json env now i req).
Proof. unfold image_initrd, local_image, registry_image, image_ready. no_errors. Qed.
Lemma min_memory_no_error initrd : no_error (min_memory (P:=P) (SC:=SC) (N:=N) initrd).
Proof. unfold min_memory. no_errors. Qed.

Lemma bind_core {A B} (m : run A) (f : A → run B) s :
  keeps_core m → no_error m →
  (∃ a s1, core s1 = core s ∧ (m ≫= f) s = f a s1) ∨
  (core ((m ≫= f) s).2 = core s ∧ ∃ p, ((m ≫= f) s).1 = Panic p).
Proof.
  intros Hm He. unfold mbind, stm_bind. specialize (Hm s). specialize (He s).
  destruct (m s) as [[a|x|p] s1]; [left|by destruct (He x)|right]; eauto.
Qed.

(** A creation that gets as far as the orchestrator. *)
Definition created_with nanos now req s (c : SandboxConfig) : Prop :=
  kind c = Vm ∧
  core (do_create nanos now req s).2 = ((create (sandbox_id_of req nanos) c now (orchestrator s)).2, threads s, vm_handles s) ∧
  (do_create nanos now req s).1 =
    map_err exists_status ((λ _, sandbox_id_of req nanos) <$> (create (sandbox_id_of req nanos) c now (orchestrator s)).1).

Lemma orch_then i c now s :
  let r := (orch (create i c now) exists_status ;; mret i) s in
  core r.2 = ((create i c now (orchestrator s)).2, threads s, vm_handles s) ∧
  r.1 = map_err exists_status ((λ _, i) <$> (create i c now (orchestrator s)).1).
Proof.
  unfold mbind, stm_bind, orch, create. by destruct (sandboxes (orchestrator s) !! i).
Qed.

(** Creating is denied, panics on the way, or is an attempt on the
    orchestrator. *)
Lemma create_core nanos now req s :
  (core (do_create nanos now req s).2 = core s ∧
   ((∃ reason, create_admission (policy_state s) (sandbox_id_of req nanos) (cr_image req) (requested_size req) = Some reason ∧
      (do_create nanos now req s).1 = Err (PermissionDenied reason)) ∨
    ∃ p, (do_create nanos now req s).1 = Panic p)) ∨
  ∃ c, created_with nanos now req s c.
Proof.
  unfold created_with, create_sandbox. set (i := sandbox_id_of req nanos).
  destruct (create_admission _ _ _ _) as [reason|]; [left; eauto|].
  destruct (if (cr_image req =? "")%string then _ else _) as [meta|].
  - right. exists (l4_config env meta). split; [done|].
    exact (orch_then i (l4_config env meta) now (with_metadata s i (l4_image_digest meta) (cr_command req) (cr_image req))).
  - destruct (bind_core (image_initrd sha256_hex status_text status_error alphanumeric report show_errno probes_json env now i req)
      (λ initrd, min_mem ← min_memory initrd; orch (create i (sandbox_config env req initrd min_mem) now) exists_status ;; mret i) s)
      as [(initrd & s1 & E1 & ->)|[E1 Hp]]; [apply keeps_image_initrd|apply image_initrd_no_error| |left; eauto].
    destruct (bind_core (min_memory initrd)
      (λ min_mem, orch (create i (sandbox_config env req initrd min_mem) now) exists_status ;; mret i) s1)
      as [(mm & s2 & E2 & ->)|[E2 Hp]]; [apply keeps_min_memory|apply min_memory_no_error| |left; rewrite E2; eauto].
    right. exists (sandbox_config env req initrd mm). split; [unfold sandbox_config; by destruct (cr_config req)|].
    rewrite E1 in E2. unfold core in E2. injection E2 as <- <- <-. apply orch_then.
Qed.

(** The invariant: an unsignalled thread is the one its sandbox's handle leads
    to, and the sandbox runs; a handle leads to a thread of its sandbox, under
    [strict] an unsignalled one. *)
Definition live (t : VmThread) : bool := negb (th_shutdown t).

Record daemon_inv (strict : bool) s : Prop := {
  inv_orch : orch_ok (orchestrator s);
  inv_vm : map_Forall (λ _ sb, kind (config sb) = Vm) (sandboxes (orchestrator s));
  inv_handle : ∀ i k, vm_handles s !! i = Some k → ∃ t,
    threads s !! k = Some t ∧ va_sandbox (th_args t) = i ∧ (strict = true → live t = true);
  inv_live : ∀ k t, threads s !! k = Some t → live t = true →
    vm_handles s !! va_sandbox (th_args t) = Some k ∧
    ∃ sb, sandboxes (orchestrator s) !! va_sandbox (th_args t) = Some sb ∧ state sb = Running;
}.
Implicit Types strict : bool.

Lemma inv_core strict s s' : core s' = core s → daemon_inv strict s → daemon_inv strict s'.
Proof.
  unfold core. intros [= Ho Ht Hh] [I1 I2 I3 I4]. constructor; rewrite ?Ho; [done|done| |].
  - intros i k. rewrite Hh, Ht. apply I3.
  - intros k t. rewrite Hh, Ht. apply I4.
Qed.

(** Threads whose flag and arguments stay. *)
Lemma inv_alter strict f k s :
  (∀ t, th_shutdown (f t) = th_shutdown t ∧ th_args (f t) = th_args t) →
  daemon_inv strict s → daemon_inv strict (with_threads s (alter f k (threads s)) (vm_handles s)).
Proof.
  intros Hf [I1 I2 I3 I4]. constructor; cbn [with_threads orchestrator threads vm_handles]; [done|done| |].
  - intros i j Hj. destruct (I3 i j Hj) as (t & Ht & Ha & Hl).
    destruct (decide (k = j)) as [->|Hne].
    + exists (f t). rewrite list_lookup_alter_eq, Ht. unfold live in *. destruct (Hf t) as [-> ->]. done.
    + exists t. by rewrite list_lookup_alter_ne.
  - intros j t Hj Hl. destruct (decide (k = j)) as [->|Hne].
    + rewrite list_lookup_alter_eq in Hj. destruct (threads s !! j) as [t0|] eqn:E; [|done].
      injection Hj as <-. unfold live in Hl. destruct (Hf t0) as [Hs Ha]. rewrite Hs in Hl. rewrite Ha.
      by apply (I4 j t0).
    + rewrite list_lookup_alter_ne in Hj by done. by apply (I4 j t).
Qed.

(** A change of the orchestrator that leaves running sandboxes running, or
    those at least that have an unsignalled thread. *)
Lemma inv_orchestrator strict s s' o :
  core s' = (o, threads s, vm_handles s) → orch_ok o →
  map_Forall (λ _ sb, kind (config sb) = Vm) (sandboxes o) →
  (∀ i sb, sandboxes (orchestrator s) !! i = Some sb → state sb = Running →
    ∃ sb', sandboxes o !! i = Some sb' ∧ state sb' = Running) →
  daemon_inv strict s → daemon_inv strict s'.
Proof.
  unfold core. intros [= Ho Ht Hh] Hok Hvm Hrun [I1 I2 I3 I4].
  constructor; rewrite ?Ho; [done|done| |].
  - intros i k. rewrite Hh, Ht. apply I3.
  - intros k t. rewrite Hh, Ht. intros Hk Hl. destruct (I4 k t Hk Hl) as (? & sb & Hsb & Hr). split; [done|]. by eapply Hrun.
Qed.

(** *** Every event keeps the invariant *)

Lemma on_sandbox_others {A} i (f : stm Sandbox RuntimeError A) (o : SandboxOrchestrator (P:=P) (SC:=SC)) j :
  j ≠ i → sandboxes (on_sandbox i f o).2 !! j = sandboxes o !! j.
Proof.
  intros Hne. unfold on_sandbox. destruct (sandboxes o !! i); [|done]. destruct (f s). cbn.
  by rewrite lookup_insert_ne.
Qed.

Lemma inv_create strict nanos now req s : daemon_inv strict s → daemon_inv strict (do_create nanos now req s).2.
Proof.
  intros I. destruct (create_core nanos now req s) as [[E _]|(c & Hc & E & _)]; [by apply (inv_core strict s)|].
  set (i := sandbox_id_of req nanos) in *. pose proof I as [I1 I2 _ _].
  eapply (inv_orchestrator strict s); [exact E|apply (serve_ok read_file (RCreate i c now)); done|..|exact I];
    unfold create; destruct (sandboxes (orchestrator s) !! i) eqn:Ei; try done; cbn.
  - by apply map_Forall_insert_2.
  - eauto.
  - intros j sb Hj Hr. exists sb. rewrite lookup_insert_ne; [done|]. intros ->. congruence.
Qed.

(** What starting does to the orchestrator and to the threads. *)
Lemma start_cases strict self_pid bound i s :
  daemon_inv strict s →
  ((∀ u, (do_start self_pid bound i s).1 ≠ Ok u) ∧
   core (do_start self_pid bound i s).2 = core s) ∨
  ∃ sb, sandboxes (orchestrator s) !! i = Some sb ∧ state sb = Created ∧
    (do_start self_pid bound i s).1 = Ok tt ∧
    let o := (orch_start read_file self_pid i (orchestrator s)).2 in
    let sb' := with_state sb Running (Some (wrap32 (self_pid + 1000))) in
    sandboxes o = <[i := sb']> (sandboxes (orchestrator s)) ∧
    core (do_start self_pid bound i s).2 =
      if bool_decide (is_Some (de_kernel_path env)) && exists_file (host_files s) (kernel (config sb)) then
        (o, threads s ++ [{| th_args := vm_args env s i (config sb); th_shutdown := false; th_output := []; th_input := [] |}],
         <[i := length (threads s)]> (vm_handles s))
      else (o, threads s, vm_handles s).
Proof.
  intros [_ Hvm _ _]. unfold start_sandbox, mbind, stm_bind, find_sandbox, get, orch, orch_start, on_sandbox, gets.
  destruct (sandboxes (orchestrator s) !! i) as [sb|] eqn:Ei; cbn; [|by left].
  rewrite (Hvm i sb Ei). unfold start. case_bool_decide as Hst; cbn.
  - left. split; [done|]. unfold core. cbn. rewrite insert_id by done. by destruct (orchestrator s).
  - right. exists sb. split_and!; [done|done|..].
    + destruct (bool_decide _ && _); cbn; [|done]. unfold register_source. by destruct (gs_enabled _ && bound).
    + done.
    + destruct (bool_decide _ && _); cbn; [|done]. unfold register_source. by destruct (gs_enabled _ && bound).
Qed.

Lemma inv_start strict self_pid bound i s : daemon_inv strict s → daemon_inv strict (do_start self_pid bound i s).2.
Proof.
  intros I. destruct (start_cases strict self_pid bound i s I) as [[_ E]|(sb & Hsb & Hst & _ & Ho & E)];
    [by apply (inv_core strict s)|].
  pose proof I as [I1 I2 I3 I4].
  pose proof (serve_ok read_file (RStart i self_pid) _ I1) as Hok. cbn in Hok.
  set (o := (orch_start read_file self_pid i (orchestrator s)).2) in *.
  assert (Hvm : map_Forall (λ _ sb, kind (config sb) = Vm) (sandboxes o)).
  { rewrite Ho. apply map_Forall_insert_2; [|done]. exact (I2 i sb Hsb). }
  assert (Hrun : ∀ j sbj, sandboxes (orchestrator s) !! j = Some sbj → state sbj = Running →
    ∃ sb', sandboxes o !! j = Some sb' ∧ state sb' = Running).
  { intros j sbj Hj Hr. destruct (decide (i = j)) as [->|Hne]; rewrite Ho.
    - rewrite lookup_insert_eq. by eexists.
    - exists sbj. by rewrite lookup_insert_ne. }
  destruct (bool_decide _ && _); [|by apply (inv_orchestrator strict s _ o)].
  unfold core in E. injection E as Eo Et Eh. constructor; rewrite ?Eo; [done|done| |].
  - intros j k. rewrite Eh, Et. destruct (decide (i = j)) as [<-|Hne].
    + rewrite lookup_insert_eq. intros [= <-]. eexists. rewrite lookup_app_r by done.
      by rewrite Nat.sub_diag.
    + rewrite lookup_insert_ne by done. intros Hk. destruct (I3 j k Hk) as (t & Ht & ?).
      exists t. split; [|done]. by apply lookup_app_l_Some.
  - intros k t. rewrite Eh, Et. intros [Hk|[Hlen Hk]]%lookup_app_Some Hl.
    + destruct (I4 k t Hk Hl) as (Hh & sbj & Hsbj & Hr).
      rewrite lookup_insert_ne; [by split; [|eapply Hrun]|]. intros ->. congruence.
    + apply list_lookup_singleton_Some in Hk as [Hk <-]. cbn. rewrite lookup_insert_eq. split; [f_equal; lia|].
      rewrite Ho, lookup_insert_eq. by eexists.
Qed.

Lemma stop_core i s :
  core (stop_sandbox i s).2 =
    ((orch_stop i (orchestrator s)).2,
     match vm_handles s !! i with Some k => alter set_shutdown k (threads s) | None => threads s end,
     delete i (vm_handles s)) ∧
  (stop_sandbox i s).1 = map_err lifecycle_status (orch_stop i (orchestrator s)).1.
Proof.
  unfold stop_sandbox. change ((signal_vm i ;; ?m) s) with (m (signal_vm i s).2).
  destruct (orch_core (orch_stop i) lifecycle_status (signal_vm i s).2) as [-> ->].
  unfold signal_vm, modify. cbn. destruct (vm_handles s !! i) eqn:E; [done|]. cbn. by rewrite delete_id.
Qed.

(** The flag of a sandbox's thread is set, and its sandbox may have changed
    or gone; other handles stay. *)
Lemma inv_signal strict i s s' o t h :
  core s' = (o, t, h) → orch_ok o → map_Forall (λ _ sb, kind (config sb) = Vm) (sandboxes o) →
  t = match vm_handles s !! i with Some k => alter set_shutdown k (threads s) | None => threads s end →
  h = delete i (vm_handles s) ∨ (strict = false ∧ h = vm_handles s) →
  (∀ j, j ≠ i → sandboxes o !! j = sandboxes (orchestrator s) !! j) →
  daemon_inv strict s → daemon_inv strict s'.
Proof.
  unfold core. intros [= <- <- <-] Hok Hvm Et Eh Hoth [I1 I2 I3 I4].
  assert (Hold : ∀ k x, threads s' !! k = Some x → ∃ x0, threads s !! k = Some x0 ∧ th_args x0 = th_args x ∧
    (live x = true → live x0 = true ∧ va_sandbox (th_args x) ≠ i)).
  { intros k x. rewrite Et. destruct (vm_handles s !! i) as [k0|] eqn:E0.
    - destruct (decide (k0 = k)) as [->|Hne].
      + rewrite list_lookup_alter_eq. destruct (threads s !! k) as [x0|]; [|done]. intros [= <-]. by exists x0.
      + rewrite list_lookup_alter_ne by done. intros Hk. exists x. split_and!; [done|done|]. intros Hl. split; [done|].
        intros Ha. destruct (I4 k x Hk Hl) as [Hh _]. congruence.
    - intros Hk. exists x. split_and!; [done|done|]. intros Hl. split; [done|]. intros Ha.
      destruct (I4 k x Hk Hl) as [Hh _]. congruence. }
  assert (Hnew : ∀ k x, threads s !! k = Some x → ∃ x', threads s' !! k = Some x' ∧ th_args x' = th_args x ∧
    (va_sandbox (th_args x) ≠ i → x' = x)).
  { intros k x Hk. rewrite Et. destruct (vm_handles s !! i) as [k0|] eqn:E0; [|by exists x].
    destruct (decide (k0 = k)) as [->|Hne]; [|exists x; by rewrite list_lookup_alter_ne].
    exists (set_shutdown x). rewrite list_lookup_alter_eq, Hk. split_and!; [done|done|].
    intros Ha. destruct (I3 i k E0) as (x1 & Hx1 & Ha1 & _). congruence. }
  constructor; [done|done| |].
  - intros j k Hj. assert (vm_handles s !! j = Some k ∧ (strict = true → j ≠ i)) as [Hk Hne].
    { destruct Eh as [Eh|[-> Eh]]; rewrite Eh in Hj; [|by split].
      apply lookup_delete_Some in Hj as [? ?]. split; [done|congruence]. }
    destruct (I3 j k Hk) as (x & Hx & Ha & Hl). destruct (Hnew k x Hx) as (x' & Hx' & Ha' & Hsame).
    exists x'. split; [done|]. split; [congruence|]. intros Hst. rewrite Hsame; [by apply Hl|]. rewrite Ha. by apply Hne.
  - intros k x Hx Hl. destruct (Hold k x Hx) as (x0 & Hx0 & Ha & Hlive). destruct (Hlive Hl) as [Hl0 Hne].
    destruct (I4 k x0 Hx0 Hl0) as (Hh & sb & Hsb & Hr). rewrite Ha in *. rewrite Hoth by done. split; [|by exists sb].
    destruct Eh as [-> |[_ ->]]; [by rewrite lookup_delete_ne|done].
Qed.

Lemma stop_vms i (o : SandboxOrchestrator (P:=P) (SC:=SC)) :
  map_Forall (λ _ sb, kind (config sb) = Vm) (sandboxes o) →
  map_Forall (λ _ sb, kind (config sb) = Vm) (sandboxes (orch_stop i o).2).
Proof.
  intros Hvm. unfold orch_stop, on_sandbox. destruct (sandboxes o !! i) as [sb|] eqn:Ei; [|done].
  assert (Hk : kind (config (stop sb).2) = Vm) by (unfold stop; destruct (bool_decide _); exact (Hvm i sb Ei)).
  destruct (stop sb). by apply map_Forall_insert_2.
Qed.

Lemma inv_stop strict i s : daemon_inv strict s → daemon_inv strict (stop_sandbox i s).2.
Proof.
  intros I. destruct (stop_core i s) as [E _]. eapply (inv_signal strict i s); [exact E|..|exact I]; destruct I as [I1 I2 _ _].
  - exact (serve_ok read_file (RStop i) _ I1).
  - by apply stop_vms.
  - done.
  - by left.
  - intros j Hne. unfold orch_stop. by apply on_sandbox_others.
Qed.

Lemma inv_destroy strict i s : daemon_inv strict s → daemon_inv strict (destroy_sandbox i s).2.
Proof.
  intros I. pose proof I as [I1 I2 _ _]. destruct (orch_core (destroy i) lifecycle_status s) as [E _].
  apply (inv_orchestrator strict s _ (destroy i (orchestrator s)).2);
    [exact E|exact (serve_ok read_file (RDestroy i) _ I1)|..|exact I];
    unfold destroy; destruct (sandboxes (orchestrator s) !! i) as [sb|] eqn:Ei; try (by eauto);
    case_bool_decide; cbn; try (by eauto).
  - by apply map_Forall_delete.
  - intros j sbj Hj Hr. exists sbj. rewrite lookup_delete_ne; [done|]. intros ->. congruence.
Qed.

(** The console handlers change one thread, by a function that keeps its flag
    and its arguments, or nothing. *)
Lemma running_vm_state suffix i s : (running_vm suffix i s).2 = s.
Proof.
  unfold running_vm, mbind, stm_bind, find_sandbox. destruct (get i (orchestrator s)); cbn; [|done..].
  case_bool_decide; [done|]. cbn. by destruct (vm_handles s !! i).
Qed.

Lemma inv_pushed strict {A} suffix i data s (m : nat → run A) :
  (∀ k, (m k s).2 = with_threads s (alter (push_input data) k (threads s)) (vm_handles s)) →
  daemon_inv strict s → daemon_inv strict ((k ← running_vm suffix i; m k) s).2.
Proof.
  intros Hm I. unfold mbind, stm_bind. pose proof (running_vm_state suffix i s) as E.
  destruct (running_vm suffix i s) as [[k| |] s1]; cbn in E; subst s1; [|done..]. rewrite Hm. by apply inv_alter.
Qed.

Lemma daemon_step_inv strict e s : daemon_inv strict s → daemon_inv strict (daemon_step e s).
Proof.
  intros I. destruct e; cbn [daemon_step].
  - by apply inv_create.
  - by apply inv_start.
  - by apply inv_stop.
  - by apply inv_destroy.
  - by apply (inv_pushed strict _ i data).
  - by apply (inv_pushed strict _ i (string_bytes (String.concat " " command +:+ newline))).
  - by apply inv_alter.
  - by apply inv_alter.
Qed.

(** *** The daemon against the lifecycle *)

(** What a client learns of a sandbox's lifecycle from an answer: nothing when
    the policy denied the request or the handler panicked. *)
Definition lifecycle_reply {A} (r : outcome Status A) : option Sandbox.reply :=
  match r with
  | Ok _ => Some Done
  | Err (NotFoundStatus _) => Some NotFound
  | Err (AlreadyExists _) => Some Exists
  | Err (FailedPrecondition _) => Some Refused
  | Err (PermissionDenied _) | Panic _ => None
  | Err _ => Some Failed
  end.

(** The table looks at nothing of a configuration but that it is a VM's. *)
Definition any_vm : SandboxConfig := {|
  Sandbox.vcpus := 1; Sandbox.memory_mib := 128; kernel := ""; rootfs := ""; cmdline := ""; network := None; kind := Vm |}.
Definition request_of (e : daemon_event) : option Sandbox.request :=
  match e with
  | EvCreate nanos now req => Some (RCreate (sandbox_id_of req nanos) any_vm now)
  | EvStart p _ i => Some (RStart i p)
  | EvStop i => Some (RStop i)
  | EvDestroy i => Some (RDestroy i)
  | _ => None
  end.
Lemma spec_any_vm i c now v : kind c = Vm →
  spec_step read_file (RCreate i any_vm now) v = spec_step read_file (RCreate i c now) v.
Proof. intros Hc. cbn. by rewrite Hc. Qed.

Definition answer (e : daemon_event) s : option Sandbox.reply :=
  match e with
  | EvCreate nanos now req => lifecycle_reply (do_create nanos now req s).1
  | EvStart p b i => lifecycle_reply (do_start p b i s).1
  | EvStop i => lifecycle_reply (stop_sandbox i s).1
  | EvDestroy i => lifecycle_reply (destroy_sandbox i s).1
  | _ => None
  end.

Definition daemon_run (es : list daemon_event) s : Service := foldl (λ s e, daemon_step e s) s es.

(** The answered requests of a history, with their answers. *)
Fixpoint answered (es : list daemon_event) s : list (Sandbox.request * Sandbox.reply) :=
  match es with
  | [] => []
  | e :: es =>
      match request_of e, answer e s with Some r, Some a => [(r, a)] | _, _ => [] end ++
      answered es (daemon_step e s)
  end.

Lemma status_reply r :
  (∀ p, r ≠ Panic p) → (∀ i, r ≠ Err (SandboxExists i)) →
  lifecycle_reply (map_err lifecycle_status r) = Some (reply_of r).
Proof. destruct r as [|[]|p]; intros Hp He; try done; [by destruct (He _ eq_refl)|by destruct (Hp p)]. Qed.

(** The answers of the orchestrator's operations but its creations. *)
Lemma serve_quiet r (o : SandboxOrchestrator (P:=P) (SC:=SC)) :
  (∀ i c now, r ≠ RCreate i c now) →
  (∀ p, (Sandbox.serve read_file r o).1 ≠ Panic p) ∧ (∀ i, (Sandbox.serve read_file r o).1 ≠ Err (SandboxExists i)).
Proof.
  intros Hc. destruct r as [i c now|i p|i|i]; [by destruct (Hc i c now)|..]; cbn;
    unfold orch_start, orch_stop, destroy, on_sandbox; destruct (sandboxes o !! i) as [sb|]; try done.
  - destruct (kind (config sb)) as [|path entry]; unfold start, start_wasm; case_bool_decide; try done.
    by destruct (run_wasm_sandbox_result read_file path entry) as [[[out vs] ->]|[er ->]].
  - unfold stop. by case_bool_decide.
  - by case_bool_decide.
Qed.

Lemma orch_answered r s s' (x : outcome Status unit) :
  (∀ i c now, r ≠ RCreate i c now) →
  orchestrator s' = (Sandbox.serve read_file r (orchestrator s)).2 →
  x = map_err lifecycle_status (Sandbox.serve read_file r (orchestrator s)).1 →
  ∃ a, lifecycle_reply x = Some a ∧ spec_step read_file r (view (orchestrator s)) = (a, view (orchestrator s')).
Proof.
  intros Hr -> ->. destruct (serve_quiet r (orchestrator s) Hr) as [Hp He].
  rewrite status_reply by done. eexists. split; [done|]. by rewrite <- serve_step.
Qed.

Lemma core_orchestrator s o t h : core s = (o, t, h) → orchestrator s = o.
Proof. by intros [= ->]. Qed.

Lemma start_answered p b i s :
  (do_start p b i s).1 = map_err lifecycle_status (orch_start read_file p i (orchestrator s)).1 ∧
  orchestrator (do_start p b i s).2 = (orch_start read_file p i (orchestrator s)).2.
Proof.
  unfold start_sandbox, mbind, stm_bind, find_sandbox, get, orch, gets.
  destruct (sandboxes (orchestrator s) !! i) as [sb|] eqn:Ei; cbn.
  2: { unfold orch_start, on_sandbox. by rewrite Ei. }
  destruct (orch_start read_file p i (orchestrator s)) as [[[]| |] o]; cbn; [|done..].
  destruct (bool_decide _ && _); cbn; [|done]. unfold register_source. by destruct (gs_enabled _ && b).
Qed.

Lemma event_answered e s r :
  daemon_inv true s → request_of e = Some r →
  match answer e s with
  | Some a => spec_step read_file r (view (orchestrator s)) = (a, view (orchestrator (daemon_step e s)))
  | None => view (orchestrator (daemon_step e s)) = view (orchestrator s) ∧
      ∃ nanos now req, e = EvCreate nanos now req ∧
        ((∃ reason, create_admission (policy_state s) (sandbox_id_of req nanos) (cr_image req) (requested_size req) = Some reason) ∨
         ∃ p, (do_create nanos now req s).1 = Panic p)
  end.
Proof.
  intros I. destruct e as [nanos now req|p b i|i|i| | | |]; cbn [request_of]; try done; intros [= <-]; cbn [answer daemon_step].
  - destruct (create_core nanos now req s) as [[E [(re & Ha & ->)|[p Hp]]]|(c & Hc & E & Hr)].
    + cbn. rewrite (core_orchestrator _ _ _ _ E). eauto 10.
    + rewrite Hp. cbn. rewrite (core_orchestrator _ _ _ _ E). eauto 10.
    + rewrite Hr, (core_orchestrator _ _ _ _ E). rewrite (spec_any_vm _ c) by done. rewrite <- serve_step. cbn [Sandbox.serve].
      unfold create. by destruct (sandboxes (orchestrator s) !! _).
  - destruct (start_answered p b i s) as [Hx Ho]. by destruct (orch_answered (RStart i p) s _ _ ltac:(done) Ho Hx) as (a & -> & ?).
  - destruct (stop_core i s) as [E Hx]. apply core_orchestrator in E.
    by destruct (orch_answered (RStop i) s _ _ ltac:(done) E Hx) as (a & -> & ?).
  - destruct (orch_core (destroy i) lifecycle_status s) as [E Hx].
    change (orch (destroy i) lifecycle_status s) with (destroy_sandbox i s) in *. apply core_orchestrator in E.
    by destruct (orch_answered (RDestroy i) s _ _ ltac:(done) E Hx) as (a & -> & ?).
Qed.

(** Other events change no sandbox. *)
Lemma event_unanswered e s : request_of e = None → orchestrator (daemon_step e s) = orchestrator s.
Proof.
  destruct e; try done; intros _; cbn [daemon_step].
  - unfold send_console_input, mbind, stm_bind. pose proof (running_vm_state (λ _, "") i s) as E.
    by destruct (running_vm (λ _, "") i s) as [[k| |] s1]; cbn in E; subst s1.
  - unfold exec_begin, mbind, stm_bind.
    pose proof (running_vm_state (λ sb, " (state: " +:+ state_text (state sb) +:+ ")") i s) as E.
    by destruct (running_vm (λ sb, " (state: " +:+ state_text (state sb) +:+ ")") i s) as [[k| |] s1]; cbn in E; subst s1.
Qed.

(** A daemon with no sandbox yet. *)
Definition idle s : Prop := sandboxes (orchestrator s) = ∅ ∧ threads s = [] ∧ vm_handles s = ∅.
Lemma idle_inv strict s : idle s → daemon_inv strict s.
Proof. intros (Ho & Ht & Hh). constructor; rewrite ?Ho, ?Ht, ?Hh; try done. unfold orch_ok. by rewrite Ho. Qed.
Lemma daemon_run_inv strict es s : daemon_inv strict s → daemon_inv strict (daemon_run es s).
Proof. revert s. induction es as [|e es IH]; intros s I; [done|]. by apply (IH (daemon_step e s)), daemon_step_inv. Qed.

Lemma answered_spec es s : daemon_inv true s →
  spec_all read_file (answered es s).*1 (view (orchestrator s)) =
    ((answered es s).*2, view (orchestrator (daemon_run es s))).
Proof.
  revert s. induction es as [|e es IH]; intros s I; [done|]. cbn [answered daemon_run foldl].
  specialize (IH _ (daemon_step_inv true e s I)). fold (daemon_run es (daemon_step e s)) in *.
  pose proof (event_answered e s) as Hans. destruct (request_of e) as [r|] eqn:Er; cbn.
  - specialize (Hans r I eq_refl). destruct (answer e s) as [a|]; cbn.
    + rewrite Hans. by rewrite IH.
    + destruct Hans as [<- _]. done.
  - rewrite <- (event_unanswered e s Er) at 1. done.
Qed.

(** Each VM belongs to a running sandbox: however requests and the work of
    the VM threads follow one another, a thread that was not told to stop is
    the one the daemon holds for its sandbox, which is running; so a sandbox
    never has two, and every handle leads to such a thread; a sandbox that was
    stopped, or is destroyed, leaves none behind. *)
Theorem daemon_threads es s0 :
  idle s0 →
  let s := daemon_run es s0 in
  (∀ k t, threads s !! k = Some t → live t = true →
    ∃ sb, sandboxes (orchestrator s) !! va_sandbox (th_args t) = Some sb ∧ state sb = Running ∧
          vm_handles s !! va_sandbox (th_args t) = Some k) ∧
  (∀ i k, vm_handles s !! i = Some k → ∃ t, threads s !! k = Some t ∧ live t = true ∧ va_sandbox (th_args t) = i) ∧
  (∀ i k t, threads (stop_sandbox i s).2 !! k = Some t → va_sandbox (th_args t) = i → th_shutdown t = true) ∧
  (∀ i k t, (destroy_sandbox i s).1 = Ok tt → threads s !! k = Some t → va_sandbox (th_args t) = i → th_shutdown t = true).
Proof.
  intros Hidle s. pose proof (daemon_run_inv true es s0 (idle_inv true s0 Hidle)) as I. fold s in I.
  assert (Hlive : ∀ t : VmThread, live t = false → th_shutdown t = true) by (intros t; unfold live; by destruct (th_shutdown t)).
  split_and!.
  - intros k t Ht Hl. destruct (inv_live _ _ I k t Ht Hl) as (Hh & sb & Hsb & Hr). eauto.
  - intros i k Hk. destruct (inv_handle _ _ I i k Hk) as (t & Ht & Ha & Hl). eauto.
  - intros i k t Ht Ha. apply Hlive. destruct (live t) eqn:El; [|done]. exfalso.
    destruct (inv_live _ _ (inv_stop true i s I) k t Ht El) as [Hh _]. destruct (stop_core i s) as [E _].
    unfold core in E. injection E as _ _ Eh. rewrite Eh, Ha, lookup_delete_eq in Hh. done.
  - intros i k t Hd Ht Ha. apply Hlive. destruct (live t) eqn:El; [|done]. exfalso.
    destruct (inv_live _ _ I k t Ht El) as (_ & sb & Hsb & Hr).
    destruct (orch_core (destroy i) lifecycle_status s) as [_ Hx]. unfold destroy_sandbox in Hd. rewrite Hd in Hx.
    rewrite Ha in Hsb. unfold destroy in Hx. rewrite Hsb in Hx. by case_bool_decide.
Qed.

(** C25. The daemon implements the lifecycle table: over any history of
    requests and of what the VM threads do, the answered create, start, stop
    and destroy requests got the table's answers, as gRPC statuses, and the
    sandboxes are the table's; a start, stop or destroy is always answered,
    and a create unless the policy denied it or its handler panicked, which
    leave the sandboxes as they were: no trouble with an image makes it fail. *)
Theorem daemon_refines_lifecycle es s0 :
  idle s0 →
  let s := daemon_run es s0 in
  spec_all read_file (answered es s0).*1 ∅ = ((answered es s0).*2, view (orchestrator s)) ∧
  (∀ e r, request_of e = Some r → answer e s = None →
    view (orchestrator (daemon_step e s)) = view (orchestrator s) ∧
    ∃ nanos now req, e = EvCreate nanos now req ∧
      ((∃ reason, create_admission (policy_state s) (sandbox_id_of req nanos) (cr_image req) (requested_size req) = Some reason) ∨
       ∃ p, (do_create nanos now req s).1 = Panic p)).
Proof.
  intros Hidle s. pose proof (daemon_run_inv true es s0 (idle_inv true s0 Hidle)) as I. fold s in I. split.
  - rewrite <- answered_spec by by apply idle_inv. unfold view. destruct Hidle as [-> _]. by rewrite fmap_empty.
  - intros e r Hr Ha. pose proof (event_answered e s r I Hr) as Hans. by rewrite Ha in Hans.
Qed.

(** The handler of [start] gives the orchestrator's lock back before it takes
    the handles': a [stop] served in between finds no handle, and the VM that
    is then started belongs to a stopped sandbox, which [stop] refuses. *)
Lemma start_stop_race p i sb (o : SandboxOrchestrator (P:=P) (SC:=SC)) s :
  sandboxes o !! i = Some sb → kind (config sb) = Vm → state sb = Created →
  orchestrator s = (orch_start read_file p i o).2 → vm_handles s !! i = None →
  let s1 := (stop_sandbox i s).2 in
  let s2 := (spawn_vm env i (config sb) s1).2 in
  (stop_sandbox i s).1 = Ok tt ∧
  state <$> (sandboxes (orchestrator s2) !! i) = Some Stopped ∧
  live <$> last (threads s2) = Some true ∧ is_Some (vm_handles s2 !! i).
Proof.
  intros Hsb Hk Hst Ho Hh. destruct (stop_core i s) as [E Hx].
  assert (Hi : sandboxes (orchestrator s) !! i = Some (with_state sb Running (Some (wrap32 (p + 1000))))).
  { rewrite Ho. unfold orch_start, on_sandbox. rewrite Hsb, Hk. unfold start. rewrite Hst.
    rewrite bool_decide_eq_false_2 by (by intros ?). cbn. by rewrite lookup_insert_eq. }
  cbv zeta. rewrite Hx. unfold core in E. injection E as E _ _.
  unfold spawn_vm, modify. cbn [fst snd with_threads orchestrator threads vm_handles].
  rewrite E. unfold orch_stop, on_sandbox. rewrite Hi. unfold stop. cbn.
  rewrite (bool_decide_eq_false_2 (Running ≠ Running)) by (intros Hn; by apply Hn). cbn.
  rewrite !lookup_insert_eq, last_snoc. split_and!; [done..|by eexists].
Qed.
End Lifecycle.

(** ** Witnesses and examples *)

#[local] Existing Instance Wasm.demo_host.
#[local] Existing Instance demo_registry_json.
#[local] Existing Instance demo_oci_json.
#[local] Existing Instance demo_http.
#[local] Existing Instance demo_tar.
#[local] Instance demo_blob_serde : Serde BlobStoreIndex := {| to_json := λ _, []; from_json := λ _, inr ∅ |}.
#[local] Instance demo_cache_serde : Serde RootfsCacheIndex := {| to_json := λ _, []; from_json := λ _, inr ∅ |}.

Definition demo_daemon_env : DaemonEnv := {|
  de_kernel_path := Some "/k"; de_image_dir := "/i"; de_tap_device := None; de_sensors := SensorConfig_default;
  de_env := λ _, None; de_dir_exists := λ _, false |}.
Definition demo_policy_state : PolicyState := {|
  ps_engine := PolicyEngine_new; ps_bundles := {| bundle_dir := ""; bundles := ∅ |};
  ps_checker := AdmissionChecker_new; ps_enforcement := EnforcementEngine_new;
  admission_enabled := true; enforcement_enabled := false |}.
Definition demo_daemon : RuntimeDaemonService (N:=list HttpResponse) (P:=unit) (SC:=unit) := {|
  orchestrator := SandboxOrchestrator_new;
  images := {| registry_net := demo_answers;
    image_puller := {| puller := puller_new "/i" Initramfs; disk := {| files := {["/k" := [x00]]}; faults := [] |};
                       tree := {[ ["i"] := HDir ]} |};
    image_cache := {| ic_dir := "/i"; index := ∅ |} |};
  threads := []; vm_handles := ∅; image_digests := ∅; sandbox_commands := ∅; image_names := ∅; vm_pool := None;
  policy_state := demo_policy_state; sources := [] |}.
Definition demo_create (i image command : string) : CreateSandboxRequest :=
  {| cr_sandbox_id := i; cr_image := image; cr_config := None; cr_command := command |}.

Section Demo.
Local Abbreviation step := (daemon_run demo_sha256 (λ _, "") (λ _, "") (λ _, true) demo_report pretty
  (λ _, inl "none") (λ _, []) demo_daemon_env).
Local Abbreviation demo_answered := (answered demo_sha256 (λ _, "") (λ _, "") (λ _, true) demo_report pretty
  (λ _, inl "none") (λ _, []) demo_daemon_env).

Definition demo_events : list daemon_event :=
  [EvCreate 0 0 (demo_create "a" "" ""); EvCreate 0 1 (demo_create "b" "" ""); EvStart 40 true "a"; EvStart 40 true "b";
   EvPrinted 0 [x00]; EvStart 40 true "a"; EvExec "b" ["ls"]; EvStop "a"; EvDestroy "b"; EvCreate 0 2 (demo_create "b" "" "");
   EvTook 1; EvDestroy "a"; EvStop "a"].

Lemma daemon_threads_witness :
  (λ t, (va_sandbox (th_args t), th_shutdown t)) <$> threads (step demo_events demo_daemon) = [("a", true); ("b", false)] ∧
  ∃ sb, sandboxes (orchestrator (step demo_events demo_daemon)) !! "b" = Some sb ∧ state sb = Running.
Proof.
  split; [vm_compute; reflexivity|].
  destruct (daemon_threads demo_sha256 (λ _, "") (λ _, "") (λ _, true) demo_report pretty (λ _, inl "none") (λ _, [])
    demo_daemon_env demo_events demo_daemon) as [Hlive _]; [by vm_compute|].
  destruct (threads (step demo_events demo_daemon) !! 1%nat) as [t|] eqn:E; [|vm_compute in E; discriminate].
  assert (Hl : live t = true ∧ va_sandbox (th_args t) = "b").
  { clear Hlive. vm_compute in E. injection E as <-. split; reflexivity. }
  destruct Hl as [Hl Ha]. destruct (Hlive 1%nat t E Hl) as (sb & Hsb & Hr & _). rewrite Ha in Hsb. exists sb. split; assumption.
Defined.

Lemma daemon_refines_lifecycle_witness :
  (demo_answered demo_events demo_daemon).*2 =
    [Done; Done; Done; Done; Refused; Done; Refused; Exists; Done; NotFound] ∧
  spec_all (λ _, inl "none") (demo_answered demo_events demo_daemon).*1 ∅ =
    ([Done; Done; Done; Done; Refused; Done; Refused; Exists; Done; NotFound],
     view (orchestrator (step demo_events demo_daemon))).
Proof.
  assert (E : (demo_answered demo_events demo_daemon).*2 =
    [Done; Done; Done; Done; Refused; Done; Refused; Exists; Done; NotFound]) by (vm_compute; reflexivity).
  split; [exact E|]. rewrite <- E. clear E.
  destruct (daemon_refines_lifecycle demo_sha256 (λ _, "") (λ _, "") (λ _, true) demo_report pretty (λ _, inl "none") (λ _, [])
    demo_daemon_env demo_events demo_daemon) as [Hs _]; [by vm_compute|]. exact Hs.
Defined.

(** A create that is refused because the sandbox exists has already replaced
    the digest, the command and the image the sandbox is started with; the
    configuration stays. *)
Definition second_create : RuntimeDaemonService :=
  step [EvCreate 0 0 (demo_create "a" "" ""); EvCreate 0 1 (demo_create "a" "nginx" "reboot")] demo_daemon.
Example refused_create_overwrites :
  (demo_answered [EvCreate 0 0 (demo_create "a" "" ""); EvCreate 0 1 (demo_create "a" "nginx" "reboot")] demo_daemon).*2 =
    [Done; Exists] ∧
  sandbox_commands second_create !! "a" = Some "reboot" ∧ image_digests second_create !! "a" = Some "sha256:c3" ∧
  (rootfs ∘ config) <$> sandboxes (orchestrator second_create) !! "a" = Some default_rootfs.
Proof. vm_compute. auto. Qed.

(** What is remembered of a sandbox outlives it: one created again under its
    id, without an image, is started with the old digest and command. *)
Definition recreated : RuntimeDaemonService :=
  step [EvCreate 0 0 (demo_create "a" "nginx" "reboot"); EvDestroy "a"; EvCreate 0 1 (demo_create "a" "" "");
        EvStart 40 true "a"] demo_daemon.
Example metadata_outlives_sandbox :
  (λ t, (va_digest (th_args t), va_command (th_args t), va_image (th_args t))) <$> threads recreated =
    [("sha256:c3", "reboot", "nginx")].
Proof. vm_compute. reflexivity. Qed.
End Demo.
