(* ===== verification/VmThread.v ===== *)
(** * The VM thread (nova-api/src/server.rs: spawn_vm_thread, cold_boot_vm)

    What a started sandbox's thread does: it takes a VM from the warm pool, or
    restores one from the snapshot cached for the image, command and
    configuration, or boots one, which with an image it does up to the line
    that says the container is ready, saves, and then goes on with; and it
    runs the VM with the sandbox's console.  The VM builder, the snapshots,
    the snapshot cache, the pool and the run loops are those of their files,
    over one kernel [K]. *)

From stdpp Require Import pretty.
From S2P Require Import Prelude GuestMem Virtqueue Mmio Devices Net DeviceMgr Serial VcpuLoop Pool Sandbox Store Caches Kvm Network Builder Snapshot Registry GuestImage Daemon.
#[local] Open Scope Z_scope.

(** What is hashed, in the order of the [hash] calls. *)
Inductive hashed : Type := HashU32 (z : Z) | HashU64 (z : Z) | HashStr (s : string).

(** [format!("{:016x}")]. *)
Definition hex16 (z : Z) : string :=
  let s := fmt_x z in String.concat "" (replicate (16 - String.length s) "0") +:+ s.

(** [replace] of a character by an underscore. *)
Fixpoint replace_char (c : Ascii.ascii) (s : string) : string :=
  match s with
  | EmptyString => EmptyString
  | String x s => String (if Ascii.eqb x c then Ascii.ascii_of_nat 95 else x) (replace_char c s)
  end.
Definition colon_char : Ascii.ascii := Ascii.ascii_of_nat 58.
Definition slash_char : Ascii.ascii := Ascii.ascii_of_nat 47.

(** What the environment does to one thread: the exits and input of its two
    loops, what the guest's own stores leave in its memory up to the
    checkpoint, and the time of the snapshot. *)
Record ThreadEnv : Type := {
  te_boot : list loop_env;
  te_guest : GuestMemoryMmap → GuestMemoryMmap;
  te_now : Z;
  te_run : list loop_env;
}.

Definition ready_marker : string := "NovaVM: container ready".
Definition marker_bytes : list Z := b2z <$> string_bytes ready_marker.
Definition boot_timeout : Z := 120 * 10 ^ 9.
Definition run_timeout : Z := 3600 * 10 ^ 9.
Definition max_output : Z := 256 * 1024.

(** The warm pool: its state, its configuration, the snapshot directory and
    the TAP its factory restores with, and what it was made for. *)
Record L4Pool : Type := {
  lp_config : PoolConfig;
  lp_inner : PoolInner (P:=BuiltVm);
  lp_factory : string * option string;
  lp_meta : L4PoolMeta;
}.

Section Thread.
Context {K : Type} `{KvmHost K} `{FileHost K} `{SnapHost K} `{CmdHost K} `{TapHost K} `{HostIo K} `{Block.Padding}.
Context `{Serde SnapshotCacheIndex}.
(** The TOML and JSON readers and writers, [DefaultHasher] and
    [Path::exists]. *)
Context (parse : string → string + VmToml) (to_json : VmSnapshot → list byte) (from_json : list byte → option VmSnapshot).
Context (finish : list hashed → Z) (dir_exists : K → string → bool).

(** The state a thread works on: the kernel, and what threads share. *)
Record ThreadWorld : Type := {
  tw_host : K;
  tw_cache : SnapshotCache;
  tw_disk : Disk;
  tw_pool : option L4Pool;
}.
Local Abbreviation run := (stm ThreadWorld VmError).
Implicit Types (w : ThreadWorld) (a : VmArgs) (e : ThreadEnv).

Definition with_host w k : ThreadWorld :=
  {| tw_host := k; tw_cache := tw_cache w; tw_disk := tw_disk w; tw_pool := tw_pool w |}.
Definition with_pool w p : ThreadWorld :=
  {| tw_host := tw_host w; tw_cache := tw_cache w; tw_disk := tw_disk w; tw_pool := p |}.

(** An operation on the kernel whose failure is only logged. *)
Definition on_host {A} (m : stm K VmError A) : run (option A) := λ w,
  match m (tw_host w) with
  | (Ok x, k) => (Ok (Some x), with_host w k)
  | (Err _, k) => (Ok None, with_host w k)
  | (Panic p, k) => (Panic p, with_host w k)
  end.
(** One on the snapshot cache. *)
Definition on_cache {A} (m : stm (SnapshotCache * Disk) RuntimeError A) : run unit := λ w,
  let '(r, (c, d)) := m (tw_cache w, tw_disk w) in
  (match r with Panic p => Panic p | _ => Ok tt end,
   {| tw_host := tw_host w; tw_cache := c; tw_disk := d; tw_pool := tw_pool w |}).

(** *** The key of a VM *)

Definition vm_config (toml : string) : option VmConfig :=
  match vmm_from_toml parse toml with Ok c => Some c | _ => None end.
Definition tap_name_of (toml : string) : option string :=
  c ← vm_config toml; nc_tap <$> cfg_network c.

Definition has_snapshot_support a : bool := negb (String.eqb (va_digest a) "").
Definition config_items (toml : string) : list hashed :=
  match vm_config toml with
  | Some c => [HashU32 (cfg_vcpus c); HashU64 (cfg_memory_mib c); HashStr (kc_cmdline (cfg_kernel c))]
  | None => [HashStr toml]
  end.
Definition config_hash_of a : string := hex16 (finish (config_items (va_toml a) ++ [HashStr (va_command a)])).
Definition cache_key a : string := make_key (va_digest a) (config_hash_of a).
Definition snap_dir_of a : string :=
  join (va_snapshot_dir a) (replace_char slash_char (replace_char colon_char (cache_key a))).

(** *** Parts of the thread *)

(** [acquire] and [take_payload]. *)
Definition acquire_warm : run (option BuiltVm) := λ w,
  match tw_pool w with
  | None => (Ok None, w)
  | Some p =>
      let '(vm, inner) := acquire (lp_inner p) in
      (Ok (v ← vm; (take_payload v).1),
       with_pool w (Some {| lp_config := lp_config p; lp_inner := inner; lp_factory := lp_factory p; lp_meta := lp_meta p |}))
  end.

Definition host_tap_open (k : K) (name : string) : option Z * K :=
  match Tap_open (string_bytes name) k with
  | (Ok t, k) => (Some (tap_raw_fd t), (set_nonblocking t k).2)
  | (_, k) => (None, k)
  end.
Definition host_tap_close (k : K) (fd : Z) : K := Tap_drop {| tap_raw_fd := fd; tap_ifname := [] |} k.

(** The TAP and the host network of a VM that was not built here. *)
Definition attach_network (tap : option string) (vm : BuiltVm) : stm K VmError BuiltVm := λ k,
  match tap with
  | None => (Ok vm, k)
  | Some name =>
      let '(_, (bus, k)) := open_tap_for_net (M:=GuestMemoryMmap) host_tap_open host_tap_close (bv_mmio_bus vm) name k in
      let n := default_for_tap name in
      let '(r, k) := setup n k in
      (Ok {| bv_kvm := bv_kvm vm; bv_vm_fd := bv_vm_fd vm; bv_vcpus := bv_vcpus vm;
             bv_guest_memory := bv_guest_memory vm; bv_mmio_bus := bus;
             bv_network_setup := Some match r with Ok n => n | _ => n end |}, k)
  end.

Definition cold_boot_vm (toml : string) : run (option BuiltVm) :=
  match vm_config toml with
  | Some c => on_host (build_vm c)
  | None => mret None
  end.

Definition l4_pool_config (dir : string) (vcpus memory_mib : Z) (cmdline : string) : PoolConfig := {|
  target_pool_size := 2; max_pool_size := 4; warm_strategy := SnapshotRestore dir;
  max_idle_time := 300 * 10 ^ 9; replenish_interval := 5 * 10 ^ 9;
  vm_template := {| Pool.vcpus := vcpus; Pool.memory_mib := memory_mib; Pool.kernel_path := "";
                    Pool.initrd_path := None; Pool.cmdline := cmdline |} |}.

(** The pool is made by the first thread that has a snapshot. *)
Definition init_pool a (dir : string) (vcpus memory_mib : Z) (cmdline : string) : run unit := modify (λ w,
  match tw_pool w with
  | Some _ => w
  | None =>
      let cfg := l4_pool_config dir vcpus memory_mib cmdline in
      with_pool w (Some {|
        lp_config := cfg; lp_inner := inner_new cfg; lp_factory := (dir, tap_name_of (va_toml a));
        lp_meta := {| l4_image_name := va_image a; l4_image_digest := va_digest a;
                      l4_config_hash := config_hash_of a; l4_vm_config_toml := va_toml a;
                      l4_memory_mib := memory_mib; l4_vcpus := vcpus |} |})
  end).

(** The pool's factory, which the replenisher calls. *)
Definition l4_factory (p : L4Pool) : stm K VmError (option BuiltVm) := λ k,
  match restore_snapshot from_json (lp_factory p).1 (lp_factory p).2 k with
  | (Ok vm, k) => (Ok (Some vm), k)
  | (Err _, k) => (Ok None, k)
  | (Panic p, k) => (Panic p, k)
  end.

(** *** Getting a VM *)

(** The VM to run, and whether it is the pool's; a thread without one ends,
    and one whose boot never comes to a stop stays in it. *)
Inductive got_vm : Type :=
| GotVm (vm : BuiltVm) (pooled : bool)
| NoVm
| InBoot.

Definition booted (vm : option BuiltVm) : got_vm :=
  match vm with Some vm => GotVm vm false | None => NoVm end.

Definition set_devices (vm : BuiltVm) (bus : MmioBus AnyDevice) (mem : GuestMemoryMmap) : BuiltVm :=
  {| bv_kvm := bv_kvm vm; bv_vm_fd := bv_vm_fd vm; bv_vcpus := bv_vcpus vm; bv_guest_memory := mem;
     bv_mmio_bus := bus; bv_network_setup := bv_network_setup vm |}.

(** The snapshot was cached: restore it, or forget it and boot. *)
Definition restored_vm a (entry : SnapshotEntry) : run got_vm :=
  let tap := tap_name_of (va_toml a) in
  vm ← on_host (vm ← restore_snapshot from_json (snapshot_dir entry) tap; attach_network tap vm);
  match vm with
  | Some vm =>
      let '(vcpus, mem, cmdline) :=
        match vm_config (va_toml a) with
        | Some c => (cfg_vcpus c, wrap32 (cfg_memory_mib c), kc_cmdline (cfg_kernel c))
        | None => (1, 256, "")
        end in
      init_pool a (snapshot_dir entry) vcpus mem cmdline ;;
      mret (GotVm vm false)
  | None =>
      on_cache (snapshot_invalidate (cache_key a)) ;;
      vm ← cold_boot_vm (va_toml a); mret (booted vm)
  end.

Definition entry_of a (now : Z) : SnapshotEntry := {|
  snap_key := cache_key a; snapshot_dir := snap_dir_of a; config_hash := config_hash_of a;
  snap_image_digest := va_digest a; snap_created_at := now; valid := true |}.

Definition save_checkpoint a (now : Z) (c : VmConfig) (vm : BuiltVm) : run unit :=
  let mem := wrap32 (cfg_memory_mib c) in
  let cmdline := kc_cmdline (cfg_kernel c) in
  files ← on_host (save_snapshot to_json vm (snap_dir_of a)
    {| sc_vcpus := cfg_vcpus c; sc_memory_mib := mem; sc_kernel_cmdline := cmdline |});
  match files with
  | Some _ =>
      on_cache (snapshot_insert (entry_of a now)) ;;
      init_pool a (snap_dir_of a) (cfg_vcpus c) mem cmdline
  | None => mret tt
  end.

(** Running up to the marker: with the VM as it is then, whether the loop
    stopped (for whatever reason) or failed. *)
Definition boot_to_marker e (vm : BuiltVm) : run (option (BuiltVm * bool)) := λ w,
  match bv_vcpus vm with
  | [] => (Panic PanicBounds, w)
  | _ =>
      let at_ s := set_devices vm (cs_bus s) (te_guest e (cs_mem s)) in
      match run_vcpu_until_match boot_timeout marker_bytes (bv_mmio_bus vm) (bv_guest_memory vm) (tw_host w) (te_boot e) with
      | Ok (Next s _) => (Ok None, with_host w (cs_host s))
      | Ok (VcpuLoop.Stopped s _) => (Ok (Some (at_ s, true)), with_host w (cs_host s))
      | Ok (RunFailed s _) => (Ok (Some (at_ s, false)), with_host w (cs_host s))
      | Err _ => (Err Hangs, w)
      | Panic p => (Panic p, w)
      end
  end.

Definition boot_and_save a e : run got_vm :=
  match vm_config (va_toml a) with
  | None => mret NoVm
  | Some c =>
      vm ← on_host (build_vm c);
      match vm with
      | None => mret NoVm
      | Some vm =>
          r ← boot_to_marker e vm;
          match r with
          | None => mret InBoot
          | Some (vm, stopped) =>
              (if stopped : bool then save_checkpoint a (te_now e) c vm else mret tt) ;;
              mret (GotVm vm false)
          end
      end
  end.

Definition get_vm a e : run got_vm :=
  warm ← acquire_warm;
  match warm with
  | Some vm =>
      vm' ← on_host (attach_network (tap_name_of (va_toml a)) vm);
      mret (GotVm (default vm vm') true)
  | None =>
      hit ← gets (λ w, if has_snapshot_support a then snapshot_get (dir_exists (tw_host w)) (tw_cache w) (cache_key a) else None);
      match hit with
      | Some entry => restored_vm a entry
      | None => if has_snapshot_support a then boot_and_save a e else
          vm ← cold_boot_vm (va_toml a); mret (booted vm)
      end
  end.

(** *** Running it *)

(** The thread's console at the end of [te_run], and how its loop ended: the
    output of a pool's VM is appended to it once more. *)
Definition run_vm e (vm : BuiltVm) (pooled : bool) (k : K)
    : infallible (list Z * step_result (CaptureState AnyDevice GuestMemoryMmap K)) :=
  match bv_vcpus vm with
  | [] => Panic PanicBounds
  | _ =>
      r ← run_vcpu_resume_capture_interactive run_timeout max_output true (bv_mmio_bus vm) (bv_guest_memory vm) k (te_run e);
      Ok (match r with
          | Next s _ | RunFailed s _ => cs_console s
          | VcpuLoop.Stopped s _ => cs_console s ++ if pooled then cs_output s else []
          end, r)
  end.

Definition vm_thread a e : run (option (list Z * step_result (CaptureState AnyDevice GuestMemoryMmap K))) :=
  got ← get_vm a e;
  match got with
  | GotVm vm pooled =>
      k ← gets tw_host;
      r ← lift (map_err (λ _, Hangs) (run_vm e vm pooled k));
      mret (Some r)
  | _ => mret None
  end.

(** ** The console *)


(** ** Which VM *)

Lemma vm_host_ok {A} (m : stm K VmError A) w o w' :
  on_host m w = (Ok o, w') →
  ∃ k, w' = with_host w k ∧
    match o with Some x => m (tw_host w) = (Ok x, k) | None => ∃ x, m (tw_host w) = (Err x, k) end.
Proof. unfold on_host. destruct (m (tw_host w)) as [[x|x|p] k]; intros [= <- <-]; eauto. Qed.

(** A pool's VM goes to whichever thread asks first: its image, command and
    configuration play no role, but for the name of the TAP. *)
Lemma pool_serves_any a a' e e' w vm :
  (acquire_warm w).1 = Ok (Some vm) → tap_name_of (va_toml a) = tap_name_of (va_toml a') →
  get_vm a e w = get_vm a' e' w.
Proof.
  intros Hw Ht. unfold get_vm, mbind, stm_bind. destruct (acquire_warm w) as [r w1]. cbn in Hw. subst r. by rewrite Ht.
Qed.

(** The run up to the marker counts as done however its loop stopped, a
    timeout included. *)
Lemma boot_unchecked e vm w s why :
  bv_vcpus vm ≠ [] →
  run_vcpu_until_match boot_timeout marker_bytes (bv_mmio_bus vm) (bv_guest_memory vm) (tw_host w) (te_boot e) =
    Ok (VcpuLoop.Stopped s why) →
  (boot_to_marker e vm w).1 = Ok (Some (set_devices vm (cs_bus s) (te_guest e (cs_mem s)), true)).
Proof. intros Hv Hr. unfold boot_to_marker. destruct (bv_vcpus vm); [done|]. by rewrite Hr. Qed.

Lemma attach_network_memory tap vm k vm' k' :
  attach_network tap vm k = (Ok vm', k') → bv_guest_memory vm' = bv_guest_memory vm.
Proof.
  unfold attach_network. destruct tap as [name|]; [|by intros [= <- _]].
  destruct (open_tap_for_net _ _ _ _ _) as [? [bus k1]]. destruct (setup _ k1) as [r k2]. by intros [= <- _].
Qed.

(** Threads that may share a snapshot. *)
Definition same_vm a a' : Prop :=
  va_digest a = va_digest a' ∧ va_command a = va_command a' ∧ config_items (va_toml a) = config_items (va_toml a').
Lemma same_vm_key a a' : same_vm a a' → cache_key a = cache_key a'.
Proof. intros (Hd & Hc & Hi). unfold cache_key, config_hash_of. by rewrite Hd, Hc, Hi. Qed.

End Thread.

(** *** Keys *)

Lemma hex_go_length fuel z acc : (String.length (hex_go fuel z acc) ≤ fuel + String.length acc)%nat.
Proof.
  revert z acc. induction fuel as [|fuel IH]; intros z acc; cbn [hex_go]; [lia|].
  destruct (_ =? 0); cbn; [lia|]. etransitivity; [apply IH|]. cbn. lia.
Qed.

Lemma zeros_length n : String.length (String.concat "" (replicate n "0")) = n.
Proof.
  induction n as [|n IH]; [done|]. destruct n as [|n]; [done|]. cbn [replicate] in *.
  change (String.length ("0" +:+ String.concat "" ("0" :: replicate n "0")) = S (S n)). by rewrite length_sapp, IH.
Qed.

Lemma hex16_length z : String.length (hex16 z) = 16%nat.
Proof.
  unfold hex16. rewrite length_sapp, zeros_length.
  pose proof (hex_go_length 16 z EmptyString) as Hl. unfold fmt_x. cbn [String.length] in Hl. lia.
Qed.

Lemma sapp_inj_length (x y x' y' : string) :
  String.length y = String.length y' → x +:+ y = x' +:+ y' → x = x' ∧ y = y'.
Proof.
  intros Hl E. assert (Hx : String.length x = String.length x').
  { apply (f_equal String.length) in E. rewrite !length_sapp in E. lia. }
  revert x' Hx E. induction x as [|c x IH]; intros [|c' x'] Hx; cbn in Hx; try lia; [by rewrite !sapp_nil|].
  rewrite !sapp_cons. intros [= -> E]. apply IH in E as [-> ->]; [done|lia].
Qed.

(** Keys of different images are different. *)
Lemma make_key_inj d h d' h' :
  String.length h = 16%nat → String.length h' = 16%nat → make_key d h = make_key d' h' → d = d' ∧ h = h'.
Proof.
  intros Hh Hh' E. unfold make_key in E. apply sapp_inj_length in E as [-> E]; [|rewrite !length_sapp; lia].
  rewrite !sapp_cons, !sapp_nil in E. by injection E as ->.
Qed.

(** ** Starting again from the checkpoint *)

(** What a restore from saved files has in memory. *)
Lemma restored_memory {K} `{SnapLaws K} `{HostIo K} `{Block.Padding} to_json from_json (mem : GuestMemoryMmap) dir tap
    snap (s s' : K * list kvm_call) vm' :
  mem_wf mem → StronglySorted base_le (regions mem) → zlen (dump_bytes mem (extents (regions mem))) < 2 ^ 63 →
  from_json (to_json snap) = Some snap → memory_regions snap = extents (regions mem) →
  files s.1 (dir, "vm_state.json"%string) = Some (to_json snap) →
  files s.1 (dir, "vm_memory.bin"%string) = Some (dump_bytes mem (extents (regions mem))) →
  restore_snapshot from_json dir tap s = (Ok vm', s') →
  let mem' := bv_guest_memory vm' in
  mem_wf mem' ∧ (∀ a n, mem_mapped mem' a n ↔ mem_mapped mem a n) ∧
  (∀ a, mem_mapped mem a 1 → mem_byte mem' a = mem_byte mem a).
Proof.
  intros Hwf Hsort Hbig Hjson Hregs Hstate Hmem (snap' & d & fd & s1 & s2 & css & Hd & Hj & Hfd & Hf & Em & _)%restore_steps.
  assert (snap' = snap) as ->.
  { rewrite Hstate in Hd. injection Hd as <-. rewrite Hjson in Hj. by injection Hj. }
  rewrite Hregs in Em.
  assert (HF : Forall2 (same_region mem) (extents (regions mem)) (regions (bv_guest_memory vm'))).
  { apply (map_snapshot_ok mem fd (dir, "vm_memory.bin"%string) s1 (bv_guest_memory vm') s2); try done.
    change (files s1.1 (dir, "vm_memory.bin"%string) = Some (dump_bytes mem (extents (regions mem)))). by rewrite Hf. }
  pose proof (same_memory mem _ Hwf HF) as Hsame. cbv zeta.
  assert (Hmm : bv_guest_memory vm' = {| regions := regions (bv_guest_memory vm') |}) by by destruct (bv_guest_memory vm').
  by rewrite <- Hmm in Hsame.
Qed.

Section Restart.
Context {K : Type} `{SnapLaws K} `{FileHost K} `{HostIo K} `{Block.Padding}.
Local Abbreviation LK := (K * list kvm_call)%type.
Context `{!CmdHost LK} `{!TapHost LK} `{Serde SnapshotCacheIndex}.
Context (parse : string → string + VmToml) (to_json : VmSnapshot → list byte) (from_json : list byte → option VmSnapshot).
Context (finish : list hashed → Z) (dir_exists : LK → string → bool).
Local Abbreviation World := (ThreadWorld (K:=LK)).
Local Abbreviation key := (cache_key parse finish).
Local Abbreviation dir_of := (snap_dir_of parse finish).
Local Abbreviation do_get := (get_vm (K:=LK) parse to_json from_json finish dir_exists).
Implicit Types (w : World) (a : VmArgs).

(** What a snapshot directory holds of a VM with this memory. *)
Definition checkpoint_of (dir : string) (mem : GuestMemoryMmap) w : Prop :=
  ∃ snap, memory_regions snap = extents (regions mem) ∧ from_json (to_json snap) = Some snap ∧
    files (tw_host w).1 (dir, "vm_state.json"%string) = Some (to_json snap) ∧
    files (tw_host w).1 (dir, "vm_memory.bin"%string) = Some (dump_bytes mem (extents (regions mem))).

(** It is cached for the VMs of the kind of [a]. *)
Definition cached a (mem : GuestMemoryMmap) w : Prop :=
  ∃ entry, snapshot_get (dir_exists (tw_host w)) (tw_cache w) (key a) = Some entry ∧
    snapshot_dir entry = dir_of a ∧ checkpoint_of (dir_of a) mem w.

(** [serde_json] reads what it wrote of a saved VM. *)
Definition json_reads_back : Prop := ∀ vm cfg s, vm_saved (K:=LK) vm cfg s → from_json (to_json s) = Some s.

(** The cache has an entry of [a] after [get_vm] only if it had, or the VM was
    saved as it is now. *)
Lemma on_cache_host {A} (m : stm (SnapshotCache * Disk) RuntimeError A) w o w' :
  on_cache m w = (o, w') → tw_host w' = tw_host w ∧ tw_pool w' = tw_pool w ∧
    (tw_cache w', tw_disk w') = (m (tw_cache w, tw_disk w)).2.
Proof. unfold on_cache. destruct (m (tw_cache w, tw_disk w)) as [r [c d]]. by intros [= <- <-]. Qed.

Lemma init_pool_keeps a dir vcpus mem cmdline w o w' :
  init_pool (K:=LK) parse finish a dir vcpus mem cmdline w = (o, w') → tw_host w' = tw_host w ∧ tw_cache w' = tw_cache w.
Proof. unfold init_pool, modify. intros [= <- <-]. by destruct (tw_pool w). Qed.

Lemma save_checkpoint_cached a now c vm w o w' :
  json_reads_back → mem_wf (bv_guest_memory vm) →
  save_checkpoint (K:=LK) parse to_json finish a now c vm w = (Ok o, w') →
  tw_cache w' = tw_cache w ∨
  (snaps (tw_cache w') !! key a = Some (entry_of parse finish a now) ∧
   checkpoint_of (dir_of a) (bv_guest_memory vm) w').
Proof.
  intros Hjson Hwf (fs & w1 & (k & -> & Hs)%vm_host_ok & E)%stm_bind_ok. destruct fs as [f|]; [|by left; injection E as _ <-].
  apply stm_bind_ok in E as (? & w2 & (Hh & _ & Hc)%on_cache_host & (Hh' & Hc')%init_pool_keeps). right.
  apply save_ok in Hs as (snap & Hsv & -> & Hst & Hm); [|done]. cbn in Hst, Hm, Hh, Hc. split.
  - rewrite Hc'. unfold snapshot_insert, snapshot_flush, io in Hc. cbn in Hc.
    destruct (save_index _ _ _ (tw_disk w)) as [r d'] in Hc. cbn in Hc. injection Hc as -> _. cbn.
    apply (lookup_insert_eq (M:=gmap string)).
  - exists snap. rewrite Hh', Hh. split; [exact (vms_regions _ _ _ Hsv)|]. split; [exact (Hjson _ _ _ Hsv)|].
    split; [exact Hst|]. rewrite <- (vms_regions _ _ _ Hsv). exact Hm.
Qed.


Definition no_entry (c : SnapshotCache) (k : string) : Prop := ∀ x, snaps c !! k = Some x → valid x = false.
Lemma no_entry_get d c k : no_entry c k → snapshot_get d c k = None.
Proof.
  unfold no_entry, snapshot_get. intros Hn. destruct (snaps c !! k) as [x|] eqn:E; [|done]. cbn. by rewrite (Hn x eq_refl).
Qed.

Lemma acquire_warm_keeps w o w' :
  acquire_warm w = (o, w') → tw_host w' = tw_host w ∧ tw_cache w' = tw_cache w ∧ tw_disk w' = tw_disk w.
Proof. unfold acquire_warm. destruct (tw_pool w) as [p|]; [destruct (acquire _)|]; by intros [= <- <-]. Qed.

Lemma cold_boot_keeps toml w o w' :
  cold_boot_vm (K:=LK) parse toml w = (Ok o, w') → tw_cache w' = tw_cache w.
Proof. unfold cold_boot_vm. destruct (vm_config parse toml); [|by intros [= _ <-]]. by intros (k & -> & _)%vm_host_ok. Qed.

Lemma boot_to_marker_keeps e vm w o w' : boot_to_marker (K:=LK) e vm w = (Ok o, w') → tw_cache w' = tw_cache w.
Proof.
  unfold boot_to_marker. destruct (bv_vcpus vm); [done|].
  destruct (run_vcpu_until_match _ _ _ _ _ _) as [[]| |]; by intros [= _ <-].
Qed.

(** Without a warm VM the pool is out of the way. *)
Lemma get_vm_cold a e w o w' :
  do_get a e w = (Ok o, w') →
  (∃ vm warm, o = GotVm vm true ∧ (acquire_warm w).1 = Ok (Some warm)) ∨
  ∃ w1, tw_host w1 = tw_host w ∧ tw_cache w1 = tw_cache w ∧
    match (if has_snapshot_support a then snapshot_get (dir_exists (tw_host w)) (tw_cache w) (key a) else None) with
    | Some entry => restored_vm parse from_json finish a entry w1 = (Ok o, w')
    | None => if has_snapshot_support a then boot_and_save parse to_json finish a e w1 = (Ok o, w')
              else (vm ← cold_boot_vm parse (va_toml a); mret (booted vm)) w1 = (Ok o, w')
    end.
Proof.
  intros (warm & w1 & Ew & E)%stm_bind_ok. pose proof (acquire_warm_keeps _ _ _ Ew) as (Hh & Hc & _).
  destruct warm as [vm|].
  - apply stm_bind_ok in E as (vm' & w2 & _ & [= <- _]). left. rewrite Ew. eauto.
  - right. exists w1. split; [done|]. split; [done|]. unfold mbind, stm_bind, gets in E. rewrite Hh, Hc in E.
    destruct (if has_snapshot_support a then _ else None) as [entry|]; [exact E|]. by destruct (has_snapshot_support a).
Qed.

(** The first start: the entry it leaves is of the VM it got. *)
Lemma first_start a e w vm w' entry d :
  json_reads_back → no_entry (tw_cache w) (key a) → do_get a e w = (Ok (GotVm vm false), w') → mem_wf (bv_guest_memory vm) →
  snapshot_get d (tw_cache w') (key a) = Some entry →
  has_snapshot_support a = true ∧ snapshot_dir entry = dir_of a ∧ checkpoint_of (dir_of a) (bv_guest_memory vm) w'.
Proof.
  intros Hjson Hn E Hwf Hget.
  assert (Hno : tw_cache w' = tw_cache w → False).
  { intros Hc. rewrite Hc, no_entry_get in Hget; done. }
  apply get_vm_cold in E as [(vm' & ? & [= _] & _)|(w1 & Hh & Hc & E)]. rewrite no_entry_get in E by done.
  destruct (has_snapshot_support a) eqn:Hs.
  2: { apply stm_bind_ok in E as (o & w2 & Hb%cold_boot_keeps & [= _ <-]). destruct Hno. by rewrite Hb. }
  split; [done|]. unfold boot_and_save in E. destruct (vm_config parse (va_toml a)) as [c|]; [|done].
  apply stm_bind_ok in E as (b & w2 & (k & -> & _)%vm_host_ok & E). destruct b as [b|]; [|done].
  apply stm_bind_ok in E as (r & w3 & Hb%boot_to_marker_keeps & E). destruct r as [[vm1 stopped]|]; [|done].
  apply stm_bind_ok in E as (u & w4 & Es & [= -> <-]). destruct stopped.
  - apply save_checkpoint_cached in Es as [Hk|[He Hck]]; [|..|done|done]; [destruct Hno; by rewrite Hk, Hb|].
    split; [|done]. unfold snapshot_get in Hget. rewrite He in Hget. cbn in Hget. destruct (d _); [|done].
    by injection Hget as <-.
  - injection Es as _ <-. destruct Hno. by rewrite Hb.
Qed.

(** A later start with the key. *)
Lemma later_start a e w o w' entry :
  has_snapshot_support a = true → (acquire_warm w).1 = Ok None →
  snapshot_get (dir_exists (tw_host w)) (tw_cache w) (key a) = Some entry → do_get a e w = (Ok o, w') →
  (∃ vm vm' s', o = GotVm vm' false ∧ restore_snapshot from_json (snapshot_dir entry) (tap_name_of parse (va_toml a)) (tw_host w) = (Ok vm, s') ∧
     bv_guest_memory vm' = bv_guest_memory vm ∧ tw_cache w' = tw_cache w) ∨
  no_entry (tw_cache w') (key a).
Proof.
  intros Hs Hw Hget E. apply get_vm_cold in E as [(vm & warm & _ & Hw')|(w1 & Hh & Hc & E)]; [congruence|].
  rewrite Hs, Hget in E. apply stm_bind_ok in E as (r & w2 & (k & -> & Hr)%vm_host_ok & E). destruct r as [vm|].
  - left. apply stm_bind_ok in Hr as (vm0 & s0 & Hr & Ha%attach_network_memory). rewrite Hh in Hr.
    destruct (vm_config parse (va_toml a)); apply stm_bind_ok in E as (u & w3 & [_ Hi]%init_pool_keeps & [= <- <-]);
      exists vm0, vm, s0; by rewrite Hi.
  - right. apply stm_bind_ok in E as (u & w3 & (_ & _ & Hi)%on_cache_host & E).
    apply stm_bind_ok in E as (b & w4 & Hb%cold_boot_keeps & [= _ <-]). rewrite Hb.
    cbn [with_host tw_cache tw_disk] in Hi. rewrite Hc in Hi. unfold snapshot_get in Hget. unfold snapshot_invalidate in Hi.
    destruct (snaps (tw_cache w) !! key a) as [x|] eqn:Ex; [|done]. unfold snapshot_flush, io in Hi. cbn in Hi.
    destruct (save_index _ _ _ _) as [q d'] in Hi. cbn in Hi. injection Hi as -> _.
    intros y Hy. assert (Hx : Some (set_invalid x) = Some y); [|by injection Hx as <-].
    rewrite <- Hy. symmetry. apply (lookup_insert_eq (M:=gmap string)).
Qed.

End Restart.

(** ** Witnesses *)

#[local] Instance demo_disk_files : FileHost demo_disk := { read_path _ k := (inl 2, k); mmap_anon k _ _ := (inl 12, k) }.
#[local] Instance demo_disk_cmds : CmdHost (demo_disk * list kvm_call) := { run_program _ _ k := (inr (true, []), k) }.
#[local] Instance demo_disk_taps : TapHost (demo_disk * list kvm_call) := {
  sys_open_tun k := (inr 9, k); sys_tunsetiff _ r k := (inr r, k); sys_getfl _ k := (inr 2, k);
  sys_setfl _ _ k := (inr tt, k); sys_close_tap _ k := k }.
#[local] Instance demo_snap_serde : Serde SnapshotCacheIndex := {| Store.to_json := λ _, []; Store.from_json := λ _, inr ∅ |}.

Definition demo_args (kernel : string) (tap : option string) : VmArgs := {|
  va_toml := build_vm_config kernel (Some "/i/a.cpio") 64 1 "console=ttyS0" tap; va_sandbox := "a";
  va_digest := "sha256:c3"; va_command := "ls"; va_image := "nginx"; va_snapshot_dir := "/i/snapshots" |}.
Definition demo_finish (l : list hashed) : Z :=
  foldl (λ n h, n + match h with HashU32 z | HashU64 z => z | HashStr s => Z.of_nat (String.length s) end) 0 l.
Definition demo_quiet : ThreadEnv := {| te_boot := []; te_guest := λ m, m; te_now := 0; te_run := [] |}.
Definition demo_world : ThreadWorld (K:=demo_disk * list kvm_call) := {|
  tw_host := ({| dk_kvm := {| next_fd := 6 |}; dk_files := ∅; dk_fds := ∅ |}, []);
  tw_cache := {| snap_base := "/i"; snaps := ∅ |}; tw_disk := {| Store.files := ∅; faults := [] |}; tw_pool := None |}.
Definition demo_boot_config : VmConfig := default (Builder.demo_config "/k" 64) (vm_config read_doc (va_toml (demo_args "/k" None))).
Definition demo_checkpoint : ThreadWorld :=
  (save_checkpoint read_doc (λ _, string_bytes "{}") demo_finish (demo_args "/k" None) 0 demo_boot_config demo_saved_vm demo_world).2.
Local Abbreviation demo_restart := (get_vm read_doc (λ _, string_bytes "{}") (λ _, Some demo_snapshot) demo_finish (λ _ _, true)
  (demo_args "/other/kernel" (Some "tap1")) demo_quiet demo_checkpoint).


Definition demo_run_env : ThreadEnv :=
  let out b := {| env_stop := false; env_input := []; env_exit := inr (IoOut 0x3F8 1 b); env_stop_late := false; env_elapsed := 0 |} in
  {| te_boot := []; te_guest := λ m, m; te_now := 0;
     te_run := [out 104; out 105; {| env_stop := true; env_input := []; env_exit := inr VcpuLoop.Hlt; env_stop_late := false; env_elapsed := 0 |}] |}.

Local Abbreviation demo_ran := (run_vm demo_run_env demo_saved_vm true (tw_host demo_world)).
