(* ===== verification/Rest.v ===== *)
(** * The REST gateway (nova-api/src/rest.rs)

    The JSON handlers next to the gRPC service: they work on the same
    orchestrator and the same VM handles, and reach a guest's shell through
    its console. *)

From stdpp Require Import pretty.
From S2P Require Import Prelude Pool Wasm Sandbox Policy Calendar Store Oci Initrd Extract Caches Pull Agent Eye Probes Kvm Builder Registry ImageService GuestImage Daemon.
#[local] Open Scope Z_scope.

(** ** Base64 *)

Definition CHARS : list Ascii.ascii :=
  String.list_ascii_of_string "ABCDEFGHIJKLMNOPQRSTUVWXYZabcdefghijklmnopqrstuvwxyz0123456789+/".
Definition symbol (n : Z) : Ascii.ascii := nth (Z.to_nat (Z.land n 63)) CHARS Ascii.zero.
Definition pad : Ascii.ascii := Ascii.ascii_of_nat 61.

(** A chunk of one to three bytes. *)
Definition encode_chunk (chunk : list byte) : list Ascii.ascii :=
  let b0 := from_option b2z 0 (chunk !! 0%nat) in
  let b1 := if (1 <? length chunk)%nat then from_option b2z 0 (chunk !! 1%nat) else 0 in
  let b2 := if (2 <? length chunk)%nat then from_option b2z 0 (chunk !! 2%nat) else 0 in
  let n := Z.lor (Z.lor (Z.shiftl b0 16) (Z.shiftl b1 8)) b2 in
  [symbol (Z.shiftr n 18); symbol (Z.shiftr n 12);
   if (1 <? length chunk)%nat then symbol (Z.shiftr n 6) else pad;
   if (2 <? length chunk)%nat then symbol n else pad].

(** [data.chunks(3)]. *)
Fixpoint chunks3 (data : list byte) : list (list byte) :=
  match data with
  | b0 :: b1 :: b2 :: rest => [b0; b1; b2] :: chunks3 rest
  | [] => []
  | _ => [data]
  end.

Definition encode (data : list byte) : string := String.string_of_list_ascii (concat (encode_chunk <$> chunks3 data)).

(** A reference decoder (RFC 4648): groups of four symbols, the last of which
    may end in one or two pads. *)
Definition value_of (c : Ascii.ascii) : option Z := p ← list_find (λ x, x = c) CHARS; Some (Z.of_nat p.1).
Definition decode_group (a b c d : Ascii.ascii) : option (list byte) :=
  x ← value_of a; y ← value_of b;
  if bool_decide (c = pad) then
    if bool_decide (d = pad) then Some [z2b (x * 4 + y / 16)] else None
  else
    z ← value_of c;
    if bool_decide (d = pad) then Some [z2b (x * 4 + y / 16); z2b (y * 16 + z / 4)] else
    w ← value_of d;
    Some [z2b (x * 4 + y / 16); z2b (y * 16 + z / 4); z2b (z * 64 + w)].
Fixpoint decode_chars (l : list Ascii.ascii) : option (list byte) :=
  match l with
  | [] => Some []
  | a :: b :: c :: d :: rest =>
      g ← decode_group a b c d;
      if bool_decide (d = pad ∧ rest ≠ []) then None else
      r ← decode_chars rest;
      Some (g ++ r)
  | _ => None
  end.
Definition decode (s : string) : option (list byte) := decode_chars (String.list_ascii_of_string s).

(** What a shell takes as a plain word: no blank, quote, operator, expansion
    or pattern. *)
Definition word_char (c : Ascii.ascii) : bool := bool_decide (c ∈ CHARS) || bool_decide (c = pad).

(** ** Messages *)

Record CreateSandboxReq : Type := { rq_sandbox_id : string; rq_image : string; rq_vcpus : Z; rq_memory : Z }.
Definition default_image : string := "python:3.11-slim".
Definition default_vcpus : Z := 1.
Definition default_memory : Z := 256.
(** What serde makes of a request with fields left out. *)
Definition create_req (i image : option string) (vcpus memory : option Z) : CreateSandboxReq := {|
  rq_sandbox_id := default "" i; rq_image := default default_image image;
  rq_vcpus := default default_vcpus vcpus; rq_memory := default default_memory memory |}.

Record SandboxInfo : Type := { si_sandbox_id : string; si_state : string; si_pid : Z; si_created_at : string }.
Record ExecResult : Type := { er_stdout : string; er_stderr : string; er_exit_code : Z }.

(** The JSON of an answer. *)
Inductive json : Type :=
| JText (s : string)
| JError (error : string)
| JSandbox (sandbox_id : string)
| JInfo (i : SandboxInfo)
| JInfos (l : list SandboxInfo)
| JAction (sandbox_id action : string)
| JExec (r : ExecResult)
| JRun (text : string) (r : ExecResult)
| JOk
| JContent (content : string).
Record Response : Type := { code : Z; body : json }.
Definition respond {M : Type → Type} `{MRet M} (code : Z) (body : json) : M Response := mret {| code := code; body := body |}.

(** [tonic::Status::message]. *)
Definition message (e : Status) : string :=
  match e with
  | InvalidArgument m | NotFoundStatus m | AlreadyExists m | PermissionDenied m | FailedPrecondition m | Internal m => m
  end.

(** ** Routes *)

Inductive route : Type :=
| RouteCreate
| RouteList
| RouteGet (i : string)
| RouteDestroy (i : string)
| RouteStop (i : string)
| RouteExec (i : string)
| RouteCode (i : string)
| RouteWrite (i : string)
| RouteRead (i : string)
| RouteHealth.

(** [router]: a path is matched segment by segment, and [{id}] takes one that
    is not empty; nothing else is served. *)
Definition router (method path : string) : option route :=
  let by_ m := bool_decide (method = m) in
  match split_on (Ascii.ascii_of_nat 47) path with
  | "" :: segments =>
      match segments with
      | ["health"] => if by_ "GET" then Some RouteHealth else None
      | ["api"; "v1"; "sandboxes"] => if by_ "POST" then Some RouteCreate else if by_ "GET" then Some RouteList else None
      | "api" :: "v1" :: "sandboxes" :: i :: rest =>
          if bool_decide (i = "") then None else
          match rest with
          | [] => if by_ "GET" then Some (RouteGet i) else if by_ "DELETE" then Some (RouteDestroy i) else None
          | ["stop"] => if by_ "POST" then Some (RouteStop i) else None
          | ["exec"] => if by_ "POST" then Some (RouteExec i) else None
          | ["code"] => if by_ "POST" then Some (RouteCode i) else None
          | ["files"; "write"] => if by_ "POST" then Some (RouteWrite i) else None
          | ["files"; "read"] => if by_ "POST" then Some (RouteRead i) else None
          | _ => None
          end
      | _ => None
      end
  | _ => None
  end.

(** ** The answer of a command *)

Local Abbreviation infallible := (outcome Empty_set).

(** What lies between the markers; a slice that ends before it starts panics. *)
Definition marked_text (text before_end : string) : infallible string :=
  match split_first begin_marker text with
  | None => Ok ""
  | Some (before, _) =>
      let start := (String.length before + String.length begin_marker)%nat in
      if (String.length before_end <? start)%nat then Panic PanicBounds else
      Ok (trim_matches cr_char (trim_matches newline_char
        (String.substring start (String.length before_end - start) text)))
  end.
Definition marked_answer (text : string) : infallible (option ExecResult) :=
  match split_first end_marker text with
  | None => Ok None
  | Some (before, after) =>
      out ← marked_text text before;
      Ok (Some {| er_stdout := out; er_stderr := ""; er_exit_code := default 0 (parse_i32 (trim after)) |})
  end.

(** What is printed since the command was sent. *)
Definition new_text (baseline : nat) (buf : list byte) : string :=
  if (baseline <? length buf)%nat then from_utf8_lossy (drop baseline buf) else "".

(** [replace] of a carriage return and line end by a line end, [replace] of a
    carriage return by nothing, [trim_end_matches] of line ends. *)
Fixpoint crlf_to_lf (l : list Ascii.ascii) : list Ascii.ascii :=
  match l with
  | c :: ((d :: rest) as l') =>
      if Ascii.eqb c cr_char && Ascii.eqb d newline_char then d :: crlf_to_lf rest else c :: crlf_to_lf l'
  | _ => l
  end.
Definition shown_text (stdout : string) : string :=
  let l := filter (λ c, c ≠ cr_char) (crlf_to_lf (String.list_ascii_of_string stdout)) in
  String.string_of_list_ascii (reverse (drop_char newline_char (reverse l))).

(** *** Encoding is faithful and safe *)

Lemma value_of_symbol n : value_of (symbol n) = Some (n mod 64).
Proof.
  unfold symbol. change 63 with (Z.ones 6); rewrite Z.land_ones by lia.
  assert (Hall : forallb (λ n, bool_decide (value_of (nth (Z.to_nat n) CHARS Ascii.zero) = Some n)) (seqZ 0 64) = true)
    by (vm_compute; reflexivity).
  rewrite forallb_forall in Hall. specialize (Hall (n mod 64)).
  assert (Hin : In (n mod 64) (seqZ 0 64)) by (apply list_elem_of_In, elem_of_seqZ; pose proof (Z.mod_pos_bound n 64); lia).
  specialize (Hall Hin). by apply bool_decide_eq_true_1 in Hall.
Qed.

Lemma symbol_word n : symbol n ≠ pad ∧ word_char (symbol n) = true.
Proof.
  unfold symbol. change 63 with (Z.ones 6); rewrite Z.land_ones by lia.
  assert (Hall : forallb (λ n, negb (bool_decide (nth (Z.to_nat n) CHARS Ascii.zero = pad)) &&
    word_char (nth (Z.to_nat n) CHARS Ascii.zero)) (seqZ 0 64) = true) by (vm_compute; reflexivity).
  rewrite forallb_forall in Hall. specialize (Hall (n mod 64)).
  assert (Hin : In (n mod 64) (seqZ 0 64)) by (apply list_elem_of_In, elem_of_seqZ; pose proof (Z.mod_pos_bound n 64); lia).
  specialize (Hall Hin). apply andb_true_iff in Hall as [Hp Hw]. split; [|done].
  intros E. by rewrite bool_decide_eq_true_2 in Hp.
Qed.

Lemma chunk_number b0 b1 b2 :
  Z.lor (Z.lor (Z.shiftl (b2z b0) 16) (Z.shiftl (b2z b1) 8)) (b2z b2) = b2z b0 * 65536 + b2z b1 * 256 + b2z b2.
Proof.
  pose proof (b2z_fits b1) as H1. pose proof (b2z_fits b2) as H2. unfold fits in *.
  assert (E : Z.lor (Z.shiftl (b2z b0) 16) (Z.shiftl (b2z b1) 8) = Z.shiftl (b2z b0 * 256 + b2z b1) 8).
  { rewrite !Z.shiftl_mul_pow2 by lia. rewrite Z.lor_comm.
    replace (b2z b0 * 2 ^ 16) with (Z.shiftl (b2z b0) 16) by (rewrite Z.shiftl_mul_pow2; lia).
    rewrite lor_disjoint.
    - rewrite Z.shiftl_mul_pow2 by lia. lia.
    - apply land_shiftl_low; [lia|]. unfold fits. lia. }
  rewrite E, Z.lor_comm, lor_disjoint.
  - rewrite Z.shiftl_mul_pow2 by lia. lia.
  - apply land_shiftl_low; [lia|]. unfold fits. lia.
Qed.

(** What the reference decoder makes of a chunk. *)
Lemma z2b_eq z b : z mod 256 = b2z b → z2b z = b.
Proof. intros E. rewrite <- (z2b_b2z b), <- E. rewrite <- (z2b_b2z (z2b z)), b2z_z2b. done. Qed.

Lemma decode_chunk chunk : (0 < length chunk ≤ 3)%nat →
  ∃ a b c d, encode_chunk chunk = [a; b; c; d] ∧ decode_group a b c d = Some chunk ∧
    (d = pad ↔ length chunk ≠ 3)%nat ∧ forallb word_char [a; b; c; d] = true.
Proof.
  intros Hl. unfold encode_chunk. eexists _, _, _, _. split; [done|]. unfold decode_group. rewrite !value_of_symbol.
  destruct chunk as [|b0 [|b1 [|b2 [|]]]]; cbn in Hl; try lia; cbn [length Nat.ltb Nat.leb lookup list_lookup from_option mbind option_bind].
  all: rewrite ?(bool_decide_eq_false_2 (symbol _ = pad)) by apply symbol_word; rewrite ?(bool_decide_eq_true_2 (pad = pad)) by done;
    rewrite ?value_of_symbol; cbn [mbind option_bind].
  all: repeat match goal with |- context [Z.lor (Z.lor (Z.shiftl (b2z ?x) 16) ?y) ?z] =>
    let n := fresh "n" in let Hn := fresh "Hn" in
    remember (Z.lor (Z.lor (Z.shiftl (b2z x) 16) y) z) as n eqn:Hn end.
  1: change 0 with (b2z x00) in Hn. 2: change (Z.lor _ 0) with (Z.lor (Z.lor (Z.shiftl (b2z b0) 16) (Z.shiftl (b2z b1) 8)) (b2z x00)) in Hn.
  all: rewrite chunk_number in Hn; change (b2z x00) with 0 in Hn; rewrite ?Z.shiftr_div_pow2 by lia.
  all: pose proof (b2z_fits b0); try pose proof (b2z_fits b1); try pose proof (b2z_fits b2); unfold fits in *.
  all: split; [f_equal; repeat f_equal; apply z2b_eq; Z.to_euclidean_division_equations; lia|].
  all: split; [|cbn [forallb]; rewrite !(λ n, proj2 (symbol_word n)); reflexivity].
  1-2: split; [done|done]. split; [intros E; by destruct (symbol_word n) as [[] _]|done].
Qed.

Lemma chunks3_ind (Q : list byte → Prop) :
  (∀ data, (length data < 3)%nat → Q data) →
  (∀ b0 b1 b2 rest, Q rest → Q (b0 :: b1 :: b2 :: rest)) → ∀ data, Q data.
Proof.
  intros Hs Hc. refine (fix go data := _). destruct data as [|b0 [|b1 [|b2 rest]]]; [apply Hs; cbn; lia..|].
  apply Hc, go.
Qed.

Lemma encode_chars data :
  decode_chars (concat (encode_chunk <$> chunks3 data)) = Some data ∧
  forallb word_char (concat (encode_chunk <$> chunks3 data)) = true ∧
  length (concat (encode_chunk <$> chunks3 data)) = (4 * ((length data + 2) / 3))%nat.
Proof.
  induction data as [data Hl|b0 b1 b2 rest (IHd & IHw & IHl)] using chunks3_ind.
  - destruct data as [|b0 data]; [done|].
    assert (E : chunks3 (b0 :: data) = [b0 :: data]) by (destruct data as [|? [|? [|]]]; cbn in *; [done..|lia|lia]).
    rewrite E. destruct (decode_chunk (b0 :: data)) as (a & b & c & d & Ec & Ed & Ep & Ew); [cbn in *; lia|].
    cbn [fmap list_fmap concat]. rewrite app_nil_r, Ec. split_and!; [|done|].
    + cbn [decode_chars]. rewrite Ed. cbn. rewrite bool_decide_eq_false_2 by (by intros [_ []]). cbn. by rewrite app_nil_r.
    + destruct data as [|? [|? ?]]; cbn in *; [done..|lia].
  - cbn [chunks3 fmap list_fmap concat]. destruct (decode_chunk [b0; b1; b2]) as (a & b & c & d & Ec & Ed & Ep & Ew); [cbn; lia|].
    rewrite Ec. split_and!.
    + cbn [app decode_chars]. rewrite Ed. cbn [mbind option_bind].
      rewrite bool_decide_eq_false_2 by (intros [Hd _]; by apply Ep in Hd).
      change (concat (list_fmap _ _ encode_chunk (chunks3 rest))) with (concat (encode_chunk <$> chunks3 rest)). by rewrite IHd.
    + rewrite forallb_app, Ew. exact IHw.
    + rewrite length_app, IHl. cbn [length].
      replace (S (S (S (length rest))) + 2)%nat with (length rest + 2 + 1 * 3)%nat by lia. rewrite Nat.div_add by lia. lia.
Qed.

Lemma decode_encode data : decode (encode data) = Some data.
Proof. unfold decode, encode. rewrite String.list_ascii_of_string_of_list_ascii. apply encode_chars. Qed.

(** ** Handlers *)

(** A request that is not answered yet. *)
Inductive Waiting : Type := StillWaiting.

Section Rest.
Context {N P SC : Type} `{WasmHost} `{HttpHost N} `{RegistryJson} `{OciJson} `{Tar}.
Context `{Serde BlobStoreIndex} `{Serde RootfsCacheIndex}.
Context (sha256_hex : list byte → string) (status_text status_error : Z → string)
  (alphanumeric : list byte → bool) (report : Fs → hpath → dir) (show_errno : Z → string)
  (read_host : string → string + list byte) (probes_json : list ProbeSpec → list byte).
Context (env : DaemonEnv).
Local Abbreviation Service := (RuntimeDaemonService (N:=N) (P:=P) (SC:=SC)).
Local Abbreviation run := (stm Service Waiting).
Implicit Types s : Service.
Local Abbreviation grpc_create := (Daemon.create_sandbox sha256_hex status_text status_error alphanumeric report show_errno probes_json env).
Local Abbreviation grpc_start := (Daemon.start_sandbox read_host env).
Local Abbreviation grpc_step := (daemon_step sha256_hex status_text status_error alphanumeric report show_errno read_host probes_json env).

(** A call whose outcome is the caller's to look at, and one whose outcome
    nobody looks at. *)
Definition call {A} (m : stm Service Status A) : run (Status + A) := λ s,
  match m s with
  | (Ok a, s) => (Ok (inr a), s)
  | (Err e, s) => (Ok (inl e), s)
  | (Panic p, s) => (Panic p, s)
  end.
Definition ignored (m : stm SandboxOrchestrator RuntimeError unit) : run unit :=
  _ ← call (orch m lifecycle_status); mret tt.
Definition shutdown_thread (k : nat) : run unit :=
  modify (λ s, with_threads s (alter set_shutdown k (threads s)) (vm_handles s)).

(** *** Creating *)

Definition rest_id (req : CreateSandboxReq) (nanos : Z) : string :=
  if String.eqb (rq_sandbox_id req) "" then "nova-" +:+ fmt_x (Z.land nanos 0xFFFFFFFF) else rq_sandbox_id req.
Definition grpc_request (req : CreateSandboxReq) (nanos : Z) : CreateSandboxRequest := {|
  cr_sandbox_id := rest_id req nanos; cr_image := rq_image req;
  cr_config := Some {| pc_vcpus := rq_vcpus req; pc_memory_mib := rq_memory req; pc_kernel := ""; pc_rootfs := "";
                       pc_cmdline := ""; pc_network := None |};
  cr_command := "" |}.

(** The daemon is its own gRPC client; [connect] is the error of reaching it. *)
Definition create_sandbox (connect : option string) (nanos nanos' now self_pid : Z) (bound : bool)
    (req : CreateSandboxReq) : run Response :=
  let i := rest_id req nanos in
  match connect with
  | Some e => respond 500 (JError ("gRPC connect failed: " +:+ e))
  | None =>
      created ← call (grpc_create nanos' now (grpc_request req nanos));
      match created with
      | inl e => respond 500 (JError ("CreateSandbox: " +:+ message e))
      | inr _ =>
          started ← call (grpc_start self_pid bound i);
          match started with
          | inl e => respond 500 (JError ("StartSandbox: " +:+ message e))
          | inr _ => respond 201 (JSandbox i)
          end
      end
  end.

(** *** Looking *)

Definition info_of (sb : Sandbox) : SandboxInfo :=
  {| si_sandbox_id := id sb; si_state := state_text (state sb); si_pid := 0; si_created_at := "" |}.
Definition list_sandboxes : run Response :=
  l ← gets (λ s, info_of <$> orch_list (orchestrator s)); respond 200 (JInfos l).
Definition get_sandbox (i : string) : run Response :=
  found ← gets (λ s, get i (orchestrator s));
  match found with
  | Ok sb => respond 200 (JInfo (info_of sb))
  | Err e => respond 404 (JError (runtime_error_text e))
  | Panic p => lift (Panic p)
  end.
Definition health : run Response := respond 200 (JText "ok").

(** *** Stopping and destroying *)

Definition stop_sandbox (i : string) : run Response :=
  handle ← gets (λ s, vm_handles s !! i);
  match handle with
  | Some k =>
      shutdown_thread k ;;
      ignored (orch_stop i) ;;
      respond 200 (JAction i "stopped")
  | None => respond 404 (JError ("sandbox '" +:+ i +:+ "' not found"))
  end.

Definition destroy_sandbox (i : string) : run Response :=
  handle ← gets (λ s, vm_handles s !! i);
  from_option shutdown_thread (mret tt) handle ;;
  ignored (orch_stop i) ;;
  ignored (destroy i) ;;
  modify (λ s, with_threads s (threads s) (delete i (vm_handles s))) ;;
  respond 200 (JAction i "destroyed").

(** *** Commands *)

(** A command on the console of a thread, after a look at the length of its
    output so far. *)
Definition send_command (k : nat) (command : string) : run nat :=
  baseline ← gets (λ s, length (output_of s k));
  modify (λ s, with_threads s (alter (push_input (string_bytes (command +:+ newline))) k (threads s)) (vm_handles s)) ;;
  mret baseline.

(** What may happen to the daemon: gRPC requests and the VM threads' work, and
    the steps of REST requests. *)
Inductive api_event : Type :=
| Grpc (e : daemon_event)
| RestStop (i : string)
| RestDestroy (i : string)
| RestCommand (k : nat) (command : string).
Definition api_step (e : api_event) s : Service :=
  match e with
  | Grpc e => grpc_step e s
  | RestStop i => (stop_sandbox i s).2
  | RestDestroy i => (destroy_sandbox i s).2
  | RestCommand k c => (send_command k c s).2
  end.
Definition api_run (es : list api_event) s : Service := foldl (λ s e, api_step e s) s es.

(** One round of the wait: what happens during the 100 ms of sleep, and
    whether the 30 seconds are over. *)
Record Poll : Type := { happens : list api_event; late : bool }.

(** [timeout] is the answer when the time is over. *)
Fixpoint wait_answer (timeout : ExecResult) (k baseline : nat) (polls : list Poll) : run ExecResult :=
  match polls with
  | [] => throw StillWaiting
  | p :: polls => λ s,
      let s := api_run (happens p) s in
      match marked_answer (new_text baseline (output_of s k)) with
      | Ok (Some r) => (Ok r, s)
      | Panic p => (Panic p, s)
      | _ => if late p then (Ok timeout, s) else wait_answer timeout k baseline polls s
      end
  end.

Definition exec_in_sandbox (i command : string) (polls : list Poll) : run Response :=
  found ← gets (λ s, get i (orchestrator s));
  match found with
  | Err e => respond 404 (JError (runtime_error_text e))
  | Panic p => lift (Panic p)
  | Ok sb =>
      if bool_decide (state sb ≠ Running) then respond 409 (JError (not_running i)) else
      handle ← gets (λ s, vm_handles s !! i);
      match handle with
      | None => respond 404 (JError ("no VM handle for sandbox '" +:+ i +:+ "'"))
      | Some k =>
          baseline ← send_command k command;
          r ← wait_answer {| er_stdout := ""; er_stderr := ""; er_exit_code := -1 |} k baseline polls;
          respond 200 (JExec r)
      end
  end.

Definition exec_inner (i command : string) (polls : list Poll) : run ExecResult :=
  handle ← gets (λ s, vm_handles s !! i);
  match handle with
  | None => mret {| er_stdout := ""; er_stderr := "no VM handle for sandbox '" +:+ i +:+ "'"; er_exit_code := 1 |}
  | Some k =>
      baseline ← send_command k command;
      wait_answer {| er_stdout := ""; er_stderr := "command timed out"; er_exit_code := -1 |} k baseline polls
  end.

Definition quote_char : string := String (Ascii.ascii_of_nat 34) "".
Definition python_command : string :=
  "python3 -c " +:+ quote_char +:+ "exec(open('/tmp/_novavm_code.py').read())" +:+ quote_char.
Definition write_command (content path : string) : string :=
  "echo " +:+ encode (string_bytes content) +:+ " | base64 -d > " +:+ path.

Definition run_code (i source : string) (polls1 polls2 : list Poll) : run Response :=
  written ← exec_inner i (write_command source "/tmp/_novavm_code.py") polls1;
  if negb (er_exit_code written =? 0) then respond 500 (JRun "" written) else
  r ← exec_inner i python_command polls2;
  respond 200 (JRun (shown_text (er_stdout r)) r).

Definition write_file (i path content : string) (polls : list Poll) : run Response :=
  r ← exec_inner i (write_command content path) polls;
  if er_exit_code r =? 0 then respond 200 JOk else respond 500 (JError (er_stderr r)).

Definition read_file (i path : string) (polls : list Poll) : run Response :=
  r ← exec_inner i ("cat " +:+ path) polls;
  respond 200 (JContent (er_stdout r)).

(** *** What a step leaves *)

Lemma ignored_run (m : stm SandboxOrchestrator RuntimeError unit) s :
  (∀ p, (m (orchestrator s)).1 ≠ Panic p) → ignored m s = (Ok tt, with_orchestrator s (m (orchestrator s)).2).
Proof.
  intros Hp. unfold ignored, call, orch, mbind, stm_bind. specialize (Hp).
  destruct (m (orchestrator s)) as [[[]|e|p] o]; [done..|by destruct (Hp p)].
Qed.
Lemma stop_quiet i (o : SandboxOrchestrator (P:=P) (SC:=SC)) p : (orch_stop i o).1 ≠ Panic p.
Proof. apply (serve_quiet read_host (RStop i) o ltac:(done)). Qed.
Lemma destroy_quiet i (o : SandboxOrchestrator (P:=P) (SC:=SC)) p : (destroy i o).1 ≠ Panic p.
Proof. apply (serve_quiet read_host (RDestroy i) o ltac:(done)). Qed.

Definition signalled (i : string) s : list VmThread :=
  match vm_handles s !! i with Some k => alter set_shutdown k (threads s) | None => threads s end.

Lemma rest_stop_run i s :
  stop_sandbox i s =
    if bool_decide (is_Some (vm_handles s !! i)) then
      (Ok {| code := 200; body := JAction i "stopped" |},
       with_orchestrator (with_threads s (signalled i s) (vm_handles s)) (orch_stop i (orchestrator s)).2)
    else (Ok {| code := 404; body := JError ("sandbox '" +:+ i +:+ "' not found") |}, s).
Proof.
  unfold stop_sandbox, signalled. unfold mbind at 1, stm_bind at 1. cbn. destruct (vm_handles s !! i) as [k|] eqn:E; [|done].
  rewrite bool_decide_eq_true_2 by (by eexists). unfold mbind at 1, stm_bind at 1. cbn. unfold mbind, stm_bind.
  by rewrite ignored_run by (intros; apply stop_quiet).
Qed.

Lemma rest_destroy_run i s :
  destroy_sandbox i s =
    (Ok {| code := 200; body := JAction i "destroyed" |},
     with_threads (with_orchestrator s (destroy i (orch_stop i (orchestrator s)).2).2) (signalled i s) (delete i (vm_handles s))).
Proof.
  unfold destroy_sandbox, signalled. unfold mbind at 1, stm_bind at 1. cbn [gets].
  set (s1 := match vm_handles s !! i with Some k => with_threads s (alter set_shutdown k (threads s)) (vm_handles s) | None => s end).
  assert (E1 : ∀ A (m : run A), (from_option shutdown_thread (mret tt) (vm_handles s !! i) ;; m) s = m s1).
  { intros A m. unfold s1. by destruct (vm_handles s !! i). }
  rewrite E1. unfold mbind, stm_bind. rewrite ignored_run by (intros; apply stop_quiet).
  rewrite ignored_run by (intros; apply destroy_quiet). cbn. unfold s1. by destruct (vm_handles s !! i).
Qed.

Lemma inv_rest_stop i s : daemon_inv false s → daemon_inv false (stop_sandbox i s).2.
Proof.
  intros I. rewrite rest_stop_run. case_bool_decide; [|done]. pose proof I as [I1 I2 _ _].
  eapply (inv_signal false i s); [done|..|exact I].
  - exact (serve_ok read_host (RStop i) _ I1).
  - by apply stop_vms.
  - done.
  - by right.
  - intros j Hne. by apply on_sandbox_others.
Qed.

(** A sandbox is stopped first, so destroying it always removes it. *)
Lemma stopped_destroyed i (o : SandboxOrchestrator (P:=P) (SC:=SC)) :
  sandboxes (destroy i (orch_stop i o).2).2 = delete i (sandboxes o).
Proof.
  unfold orch_stop, on_sandbox. destruct (sandboxes o !! i) as [sb|] eqn:Ei; cbn.
  - destruct (stop sb) as [r sb'] eqn:Es. unfold destroy. cbn. rewrite lookup_insert_eq.
    assert (state sb' ≠ Running) as Hr.
    { unfold stop in Es. case_bool_decide as Hs; injection Es as _ <-; [done|]. cbn. done. }
    rewrite bool_decide_eq_false_2 by done. cbn. by rewrite delete_insert_eq.
  - unfold destroy. rewrite Ei. cbn. by rewrite delete_id.
Qed.

Lemma inv_rest_destroy i s : daemon_inv false s → daemon_inv false (destroy_sandbox i s).2.
Proof.
  intros I. rewrite rest_destroy_run. pose proof I as [I1 I2 _ _].
  eapply (inv_signal false i s _ (destroy i (orch_stop i (orchestrator s)).2).2); [done|..|exact I].
  - exact (serve_ok read_host (RDestroy i) _ (serve_ok read_host (RStop i) _ I1)).
  - rewrite stopped_destroyed. by apply map_Forall_delete.
  - done.
  - by left.
  - intros j Hne. rewrite stopped_destroyed. by rewrite lookup_delete_ne.
Qed.

Lemma api_step_inv e s : daemon_inv false s → daemon_inv false (api_step e s).
Proof.
  intros I. destruct e; cbn [api_step].
  - by apply daemon_step_inv.
  - by apply inv_rest_stop.
  - by apply inv_rest_destroy.
  - unfold send_command, mbind, stm_bind. cbn. by apply inv_alter.
Qed.
Lemma api_run_inv es s : daemon_inv false s → daemon_inv false (api_run es s).
Proof. revert s. induction es as [|e es IH]; intros s I; [done|]. by apply (IH (api_step e s)), api_step_inv. Qed.

(** *** Sandboxes and their VMs *)

Lemma no_vm_left strict i s : daemon_inv strict s →
  (∀ sb, sandboxes (orchestrator s) !! i = Some sb → state sb ≠ Running) →
  ∀ k t, threads s !! k = Some t → va_sandbox (th_args t) = i → th_shutdown t = true.
Proof.
  intros I Hi k t Ht Ha. destruct (th_shutdown t) eqn:El; [done|]. exfalso.
  destruct (inv_live _ _ I k t Ht) as (_ & sb & Hsb & Hr); [by unfold live; rewrite El|]. rewrite Ha in Hsb. by eapply Hi.
Qed.

Lemma stopped_state i (o : SandboxOrchestrator (P:=P) (SC:=SC)) sb :
  sandboxes (orch_stop i o).2 !! i = Some sb → state sb ≠ Running.
Proof.
  unfold orch_stop, on_sandbox. destruct (sandboxes o !! i) as [sb0|] eqn:Ei; [|cbn; by rewrite Ei].
  unfold stop. case_bool_decide as Hs; cbn; rewrite lookup_insert_eq; by intros [= <-].
Qed.

(** C29. Over both interfaces: however gRPC requests, REST requests and the work
    of the VM threads follow one another, a thread that was not told to stop
    is the one the daemon holds for its sandbox, which is running.  A REST
    destroy succeeds and removes the sandbox, its handle and nothing else,
    and a REST stop of a sandbox that has a VM makes it a stopped one, where
    it was running; both, a gRPC stop and a gRPC destroy that succeeds leave
    no thread of the sandbox that was not told to stop. *)
Theorem rest_leaves_no_vm es s0 :
  idle s0 →
  let s := api_run es s0 in
  (∀ k t, threads s !! k = Some t → live t = true →
    ∃ sb, sandboxes (orchestrator s) !! va_sandbox (th_args t) = Some sb ∧ state sb = Running ∧
          vm_handles s !! va_sandbox (th_args t) = Some k) ∧
  (∀ i, let s' := (destroy_sandbox i s).2 in
    (destroy_sandbox i s).1 = Ok {| code := 200; body := JAction i "destroyed" |} ∧
    sandboxes (orchestrator s') = delete i (sandboxes (orchestrator s)) ∧
    vm_handles s' = delete i (vm_handles s) ∧
    ∀ k t, threads s' !! k = Some t → va_sandbox (th_args t) = i → th_shutdown t = true) ∧
  (∀ i, is_Some (vm_handles s !! i) → let s' := (stop_sandbox i s).2 in
    (stop_sandbox i s).1 = Ok {| code := 200; body := JAction i "stopped" |} ∧
    (∀ sb, sandboxes (orchestrator s) !! i = Some sb → state sb = Running →
      state <$> sandboxes (orchestrator s') !! i = Some Stopped) ∧
    ∀ k t, threads s' !! k = Some t → va_sandbox (th_args t) = i → th_shutdown t = true) ∧
  (∀ i k t, threads (Daemon.stop_sandbox i s).2 !! k = Some t → va_sandbox (th_args t) = i → th_shutdown t = true) ∧
  (∀ i k t, (Daemon.destroy_sandbox i s).1 = Ok tt → threads s !! k = Some t → va_sandbox (th_args t) = i → th_shutdown t = true).
Proof.
  intros Hidle s. pose proof (api_run_inv es s0 (idle_inv false s0 Hidle)) as I. fold s in I. split_and!.
  - intros k t Ht Hl. destruct (inv_live _ _ I k t Ht Hl) as (Hh & sb & Hsb & Hr). eauto.
  - intros i s'. pose proof (inv_rest_destroy i s I) as I'. fold s' in I'. unfold s' in *. clear s'.
    rewrite rest_destroy_run in *. cbn in *. rewrite stopped_destroyed in *. split_and!; [done..|].
    apply (no_vm_left false i _ I'). cbn. rewrite stopped_destroyed, lookup_delete_eq. done.
  - intros i Hi s'. pose proof (inv_rest_stop i s I) as I'. fold s' in I'. unfold s' in *. clear s'.
    rewrite rest_stop_run, bool_decide_eq_true_2 in * by done. cbn [fst snd] in *. split_and!; [done| |].
    + intros sb Hsb Hr. cbn. unfold orch_stop, on_sandbox. rewrite Hsb. unfold stop.
      rewrite bool_decide_eq_false_2 by (rewrite Hr; by intros []). cbn. by rewrite lookup_insert_eq.
    + apply (no_vm_left false i _ I'). intros sb. apply stopped_state.
  - intros i. apply (no_vm_left false i _ (inv_stop read_host false i s I)). intros sb.
    rewrite (core_orchestrator _ _ _ _ (proj1 (stop_core i s))). apply stopped_state.
  - intros i k t Hd Ht. apply (no_vm_left false i s I) with (k := k); [|done]. intros sb Hsb Hr.
    destruct (orch_core (destroy i) lifecycle_status s) as [_ Hx]. unfold Daemon.destroy_sandbox in Hd. rewrite Hd in Hx.
    unfold destroy in Hx. rewrite Hsb in Hx. by case_bool_decide.
Qed.

Lemma rest_id_grpc req nanos nanos' : sandbox_id_of (grpc_request req nanos) nanos' = rest_id req nanos.
Proof.
  unfold sandbox_id_of. cbn [cr_sandbox_id grpc_request]. destruct (String.eqb (rest_id req nanos) "") eqn:E; [exfalso|done].
  unfold rest_id in E. destruct (String.eqb (rq_sandbox_id req) "") eqn:E'; [by cbn in E|congruence].
Qed.

Lemma call_bind {A B} (m : stm Service Status A) (f : Status + A → run B) s :
  (call m ≫= f) s =
    match m s with
    | (Ok a, s1) => f (inr a) s1
    | (Err e, s1) => f (inl e) s1
    | (Panic q, s1) => (Panic q, s1)
    end.
Proof. unfold mbind, stm_bind, call. by destruct (m s) as [[]]. Qed.

(** Starting a sandbox that is created. *)
Lemma start_created strict p bound i s sb :
  daemon_inv strict s → sandboxes (orchestrator s) !! i = Some sb → state sb = Created →
  let s' := (grpc_start p bound i s).2 in
  (grpc_start p bound i s).1 = Ok tt ∧
  sandboxes (orchestrator s') = <[i := with_state sb Running (Some (wrap32 (p + 1000)))]> (sandboxes (orchestrator s)) ∧
  if bool_decide (is_Some (de_kernel_path env)) && exists_file (host_files s) (kernel (config sb)) then
    threads s' = threads s ++ [{| th_args := vm_args env s i (config sb); th_shutdown := false; th_output := []; th_input := [] |}] ∧
    vm_handles s' = <[i := length (threads s)]> (vm_handles s)
  else threads s' = threads s ∧ vm_handles s' = vm_handles s.
Proof.
  intros I Hsb Hst. destruct (start_cases read_host env strict p bound i s I) as [[Hno _]|(sb' & Hsb' & _ & Hok & Ho & E)].
  - exfalso. destruct (start_answered read_host env p bound i s) as [Hx _]. apply (Hno tt). rewrite Hx.
    unfold orch_start, on_sandbox. rewrite Hsb. rewrite (inv_vm _ _ I i sb Hsb). unfold start. rewrite Hst.
    rewrite bool_decide_eq_false_2 by (intros Hn; by apply Hn). done.
  - rewrite Hsb in Hsb'. injection Hsb' as <-. cbv zeta. split; [done|].
    destruct (bool_decide _ && _); unfold core in E; injection E as -> -> ->; done.
Qed.


(** *** Commands over both interfaces *)

(** What each poll reads of the console, and reads again when the time is
    over. *)
Fixpoint observed (k : nat) (polls : list Poll) s : list (list byte * option (list byte)) :=
  match polls with
  | [] => []
  | p :: polls =>
      let s := api_run (happens p) s in
      (output_of s k, if late p then Some (output_of s k) else None) :: observed k polls s
  end.

(** The REST answer for a gRPC answer: the same but when the time was over. *)
Definition timed_out (baseline : nat) (seen : list (list byte * option (list byte))) (x : ExecInSandboxResponse) : Prop :=
  ex_exit_code x = -1 ∧ ∃ buf, (buf, Some buf) ∈ seen ∧ exec_answer (from_utf8_lossy (drop baseline buf)) = Ok None ∧
    ex_stdout x = drop baseline buf.
Definition same_answer (x : ExecInSandboxResponse) (r : ExecResult) : Prop :=
  er_exit_code r = ex_exit_code x ∧ string_bytes (er_stdout r) = ex_stdout x ∧ er_stderr r = "" ∧ ex_stderr x = [].

Lemma answers_agree text :
  match marked_answer text, exec_answer text with
  | Ok None, Ok None => True
  | Ok (Some r), Ok (Some x) => same_answer x r
  | Panic p, Panic q => p = q
  | _, _ => False
  end.
Proof.
  unfold marked_answer, exec_answer. destruct (split_first end_marker text) as [[before after]|]; [|done].
  unfold marked_text, exec_stdout. destruct (split_first begin_marker text) as [[b a]|]; cbn [mbind outcome_bind]; [|by split_and!].
  destruct (_ <? _)%nat; cbn [mbind outcome_bind]; by try split_and!.
Qed.

Lemma new_text_lossy baseline buf : new_text baseline buf = from_utf8_lossy (drop baseline buf).
Proof. unfold new_text. destruct (Nat.ltb_spec baseline (length buf)); [done|]. by rewrite drop_ge by lia. Qed.

Lemma waits_agree timeout k baseline polls s :
  match exec_wait baseline (observed k polls s), (wait_answer timeout k baseline polls s).1 with
  | Some (Ok x), Ok r => same_answer x r ∨ r = timeout ∧ timed_out baseline (observed k polls s) x
  | Some (Panic p), Panic q => p = q
  | None, Err StillWaiting => True
  | _, _ => False
  end.
Proof.
  revert s. induction polls as [|p polls IH]; intros s; [done|]. cbn [observed exec_wait wait_answer].
  set (s1 := api_run (happens p) s). rewrite new_text_lossy.
  pose proof (answers_agree (from_utf8_lossy (drop baseline (output_of s1 k)))) as Ha.
  destruct (exec_answer _) as [[x|]|[]|q] eqn:Ex, (marked_answer _) as [[r|]|[]|q']; try done; [by left|].
  destruct (late p); cbn [fst].
  - right. split; [done|]. split; [done|]. exists (output_of s1 k). split; [by left|done].
  - specialize (IH s1). destruct (exec_wait baseline (observed k polls s1)) as [[x|[]|q]|], (wait_answer _ _ _ _ _) as [[r|[]|q'] s2];
      cbn [fst] in *; try done. destruct IH as [IH|(-> & Hc & buf & Hin & Hrest)]; [by left|right].
    split; [done|]. split; [done|]. exists buf. split; [by right|done].
Qed.

Definition typed (k : nat) (command : string) s : Service :=
  with_threads s (alter (push_input (string_bytes (command +:+ newline))) k (threads s)) (vm_handles s).

Lemma exec_begin_run i command s :
  exec_begin i [command] s =
    match sandboxes (orchestrator s) !! i with
    | None => (Err (NotFoundStatus (runtime_error_text (SandboxNotFound i))), s)
    | Some sb =>
        if bool_decide (state sb ≠ Running) then
          (Err (FailedPrecondition (not_running i +:+ (" (state: " +:+ state_text (state sb) +:+ ")"))), s) else
        match vm_handles s !! i with
        | None => (Err (NotFoundStatus ("no VM handle for sandbox '" +:+ i +:+ "'")), s)
        | Some k => (Ok (k, length (output_of s k)), typed k command s)
        end
    end.
Proof.
  unfold exec_begin, running_vm, find_sandbox, get, mbind, stm_bind.
  destruct (sandboxes (orchestrator s) !! i) as [sb|]; [|done]. cbn [map_err]. case_bool_decide; [done|].
  cbn [gets]. by destruct (vm_handles s !! i).
Qed.

Lemma rest_exec_run i command polls s :
  exec_in_sandbox i command polls s =
    match sandboxes (orchestrator s) !! i with
    | None => (Ok {| code := 404; body := JError (runtime_error_text (SandboxNotFound i)) |}, s)
    | Some sb =>
        if bool_decide (state sb ≠ Running) then (Ok {| code := 409; body := JError (not_running i) |}, s) else
        match vm_handles s !! i with
        | None => (Ok {| code := 404; body := JError ("no VM handle for sandbox '" +:+ i +:+ "'") |}, s)
        | Some k =>
            (r ← wait_answer {| er_stdout := ""; er_stderr := ""; er_exit_code := -1 |} k (length (output_of s k)) polls;
             respond 200 (JExec r)) (typed k command s)
        end
    end.
Proof.
  unfold exec_in_sandbox, get. unfold mbind at 1, stm_bind at 1. cbn [gets].
  destruct (sandboxes (orchestrator s) !! i) as [sb|]; [|done]. case_bool_decide; [done|].
  unfold mbind at 1, stm_bind at 1. cbn [gets]. by destruct (vm_handles s !! i).
Qed.

Lemma wait_ends timeout k baseline polls s :
  (wait_answer timeout k baseline polls s).1 = Err StillWaiting → Forall (λ p, late p = false) polls.
Proof.
  revert s. induction polls as [|p polls IH]; intros s; [done|]. cbn [wait_answer].
  destruct (marked_answer _) as [[r|]|[]|q]; try done; destruct (late p) eqn:El; try done; intros Hw; constructor; eauto.
Qed.

(** One command, two interfaces: in every state REST refuses a command
    exactly when gRPC does, with the status of the same meaning and its
    message, and changes nothing; otherwise both put the same line on the
    same console and, whatever happens between the polls, one waits while the
    other does, and the answers are the same but at the deadline, where gRPC
    adds what was printed so far; once the time is over, both are answered. *)
Theorem rest_exec_agrees i command polls s :
  match exec_begin i [command] s with
  | (Err e, s1) =>
      s1 = s ∧ exec_in_sandbox i command polls s =
        (Ok (match e with
             | FailedPrecondition _ => {| code := 409; body := JError (not_running i) |}
             | _ => {| code := 404; body := JError (message e) |}
             end), s) ∧
      ∃ rest, match e with FailedPrecondition m => m = not_running i +:+ rest | NotFoundStatus _ => True | _ => False end
  | (Panic p, _) => False
  | (Ok (k, baseline), s1) =>
      let seen := observed k polls s1 in
      match exec_wait baseline seen, (exec_in_sandbox i command polls s).1 with
      | Some (Ok x), Ok r => code r = 200 ∧ ∃ a, body r = JExec a ∧
          (same_answer x a ∨ er_exit_code a = -1 ∧ er_stdout a = "" ∧ timed_out baseline seen x)
      | Some (Panic p), Panic q => p = q
      | None, Err StillWaiting => Forall (λ p, late p = false) polls
      | _, _ => False
      end
  end.
Proof.
  rewrite exec_begin_run, rest_exec_run.
  destruct (sandboxes (orchestrator s) !! i) as [sb|] eqn:Ei; [|split_and!; [done|done|by exists ""]].
  case_bool_decide; [split_and!; [done|done|by eexists]|].
  destruct (vm_handles s !! i) as [k|]; [|split_and!; [done|done|by exists ""]]. cbv zeta.
  set (timeout := {| er_stdout := ""; er_stderr := ""; er_exit_code := -1 |}).
  pose proof (waits_agree timeout k (length (output_of s k)) polls (typed k command s)) as Hw.
  pose proof (wait_ends timeout k (length (output_of s k)) polls (typed k command s)) as He.
  unfold mbind, stm_bind. destruct (exec_wait _ _) as [[x|[]|q]|], (wait_answer _ _ _ _ _) as [[r|[]|q'] s2]; cbn in *; try done.
  - split; [done|]. exists r. split; [done|]. destruct Hw as [Hw|[-> Hw]]; [by left|by right].
  - by apply He.
Qed.

(** *** Files and code *)

Lemma exec_inner_run i command polls s :
  exec_inner i command polls s =
    match vm_handles s !! i with
    | None => (Ok {| er_stdout := ""; er_stderr := "no VM handle for sandbox '" +:+ i +:+ "'"; er_exit_code := 1 |}, s)
    | Some k =>
        wait_answer {| er_stdout := ""; er_stderr := "command timed out"; er_exit_code := -1 |} k (length (output_of s k)) polls
          (typed k command s)
    end.
Proof. unfold exec_inner, mbind, stm_bind. cbn [gets]. by destruct (vm_handles s !! i). Qed.

Lemma typed_line k command s t : threads s !! k = Some t →
  threads (typed k command s) !! k = Some (push_input (string_bytes (command +:+ newline)) t).
Proof. intros Ht. unfold typed, with_threads. cbn. by rewrite list_lookup_alter_eq, Ht. Qed.

(** Writing a file: the guest's shell is sent one line, whose operand is a
    plain word to it and decodes to the bytes of the content, and whose
    redirection is the path as it was given; the request succeeds exactly
    when the command's exit status is 0.  Code is written the same way to
    its own file, is run only when that succeeded, and without a VM nothing
    is sent and the request fails. *)
Theorem rest_write_file i path content polls polls2 s :
  (∃ word, write_command content path = "echo " +:+ word +:+ " | base64 -d > " +:+ path ∧
     decode word = Some (string_bytes content) ∧ forallb word_char (String.list_ascii_of_string word) = true) ∧
  (∀ k t, vm_handles s !! i = Some k → threads s !! k = Some t →
     let s1 := typed k (write_command content path) s in
     let w := wait_answer {| er_stdout := ""; er_stderr := "command timed out"; er_exit_code := -1 |} k
                (length (th_output t)) polls s1 in
     threads s1 !! k = Some (push_input (string_bytes (write_command content path +:+ newline)) t) ∧
     write_file i path content polls s =
       match w with
       | (Ok r, s2) =>
           if er_exit_code r =? 0 then (Ok {| code := 200; body := JOk |}, s2)
           else (Ok {| code := 500; body := JError (er_stderr r) |}, s2)
       | (Err e, s2) => (Err e, s2)
       | (Panic p, s2) => (Panic p, s2)
       end ∧
     (path = "/tmp/_novavm_code.py" →
      run_code i content polls polls2 s =
       match w with
       | (Ok r, s2) =>
           if er_exit_code r =? 0 then
             (r ← exec_inner i python_command polls2; respond 200 (JRun (shown_text (er_stdout r)) r)) s2
           else (Ok {| code := 500; body := JRun "" r |}, s2)
       | (Err e, s2) => (Err e, s2)
       | (Panic p, s2) => (Panic p, s2)
       end)) ∧
  (vm_handles s !! i = None →
   (write_file i path content polls s).2 = s ∧ (run_code i content polls polls2 s).2 = s ∧
   code <$> (write_file i path content polls s).1 = Ok 500 ∧ code <$> (run_code i content polls polls2 s).1 = Ok 500).
Proof.
  split_and!.
  - exists (encode (string_bytes content)). split_and!; [done|apply decode_encode|].
    unfold encode. rewrite String.list_ascii_of_string_of_list_ascii. apply encode_chars.
  - intros k t Hk Ht s1 w. assert (Hw : w = exec_inner i (write_command content path) polls s).
    { rewrite exec_inner_run, Hk. unfold w, output_of. by rewrite Ht. }
    split_and!; [by apply typed_line|..].
    + rewrite Hw. unfold write_file, mbind, stm_bind. destruct (exec_inner _ _ _ _) as [[r|e|p] s2]; [|done..].
      by destruct (_ =? 0).
    + intros ->. rewrite Hw. unfold run_code. unfold mbind at 1, stm_bind at 1. destruct (exec_inner _ _ _ _) as [[r|e|p] s2]; [|done..].
      by destruct (_ =? 0).
  - intros Hn. assert (He : ∀ c ps, exec_inner i c ps s =
      (Ok {| er_stdout := ""; er_stderr := "no VM handle for sandbox '" +:+ i +:+ "'"; er_exit_code := 1 |}, s)).
    { intros c ps. by rewrite exec_inner_run, Hn. }
    unfold write_file, run_code, mbind, stm_bind. rewrite !He. done.
Qed.
End Rest.

(** Base64: the reference decoder gives the bytes back, the text is as long
    as four symbols for every started group of three bytes, and a shell takes
    it as one plain word. *)
Theorem base64_roundtrip data :
  decode (encode data) = Some data ∧
  String.length (encode data) = (4 * ((length data + 2) / 3))%nat ∧
  forallb word_char (String.list_ascii_of_string (encode data)) = true.
Proof.
  split_and!; [apply decode_encode| |unfold encode; rewrite String.list_ascii_of_string_of_list_ascii; apply encode_chars].
  destruct (encode_chars data) as (_ & _ & <-). unfold encode.
  rewrite <- (String.list_ascii_of_string_of_list_ascii (concat _)) at 2. generalize (String.string_of_list_ascii (concat (encode_chunk <$> chunks3 data))).
  intros x. induction x; cbn; congruence.
Qed.

(** ** Witnesses and examples *)

#[local] Existing Instance Wasm.demo_host.
#[local] Existing Instance demo_registry_json.
#[local] Existing Instance demo_oci_json.
#[local] Existing Instance demo_http.
#[local] Existing Instance demo_tar.
#[local] Existing Instance Daemon.demo_blob_serde.
#[local] Existing Instance Daemon.demo_cache_serde.

Example base64_vectors :
  encode <$> [string_bytes ""; string_bytes "f"; string_bytes "fo"; string_bytes "foo"; string_bytes "foob";
              string_bytes "fooba"; string_bytes "foobar"] =
  [""; "Zg=="; "Zm8="; "Zm9v"; "Zm9vYg=="; "Zm9vYmE="; "Zm9vYmFy"].
Proof. vm_compute. reflexivity. Qed.

Section Demo.
Local Abbreviation api := (api_run demo_sha256 (λ _, "") (λ _, "") (λ _, true) demo_report pretty
  (λ _, inl "none") (λ _, []) demo_daemon_env).
Local Abbreviation post := (create_sandbox demo_sha256 (λ _, "") (λ _, "") (λ _, true) demo_report pretty
  (λ _, inl "none") (λ _, []) demo_daemon_env).
Local Abbreviation exec := (exec_in_sandbox demo_sha256 (λ _, "") (λ _, "") (λ _, true) demo_report pretty
  (λ _, inl "none") (λ _, []) demo_daemon_env).
Local Abbreviation inner := (exec_inner demo_sha256 (λ _, "") (λ _, "") (λ _, true) demo_report pretty
  (λ _, inl "none") (λ _, []) demo_daemon_env).
Local Abbreviation put := (write_file demo_sha256 (λ _, "") (λ _, "") (λ _, true) demo_report pretty
  (λ _, inl "none") (λ _, []) demo_daemon_env).

Definition rest_events : list api_event :=
  [Grpc (EvCreate 0 0 (demo_create "a" "" "")); Grpc (EvStart 40 true "a")].
Local Abbreviation running := (api rest_events demo_daemon).

Lemma rest_leaves_no_vm_witness :
  vm_handles running !! "a" = Some 0%nat ∧
  (state <$> sandboxes (orchestrator (stop_sandbox "a" running).2) !! "a") = Some Stopped ∧
  sandboxes (orchestrator (destroy_sandbox "a" running).2) = delete "a" (sandboxes (orchestrator running)).
Proof.
  destruct (rest_leaves_no_vm demo_sha256 (λ _, "") (λ _, "") (λ _, true) demo_report pretty (λ _, inl "none") (λ _, [])
    demo_daemon_env rest_events demo_daemon) as (_ & Hd & Hs & _); [by vm_compute|].
  split; [vm_compute; reflexivity|]. split; [|exact (proj1 (proj2 (Hd "a")))]. clear Hd.
  assert (Hh : is_Some (vm_handles running !! "a")) by (vm_compute; eauto).
  destruct (sandboxes (orchestrator running) !! "a") as [sb|] eqn:E; [|vm_compute in E; discriminate].
  refine (proj1 (proj2 (Hs "a" Hh)) sb E _). clear Hs Hh. vm_compute in E. injection E as <-. reflexivity.
Defined.

Definition rest_request (i : string) : CreateSandboxReq := create_req (Some i) (Some "") None None.


Definition polled (text : string) : Poll := {| happens := [Grpc (EvPrinted 0 (string_bytes text))]; late := false |}.
Definition over : Poll := {| happens := []; late := true |}.

Lemma rest_write_file_witness :
  let polls := [polled "$ "; polled (begin_marker +:+ newline +:+ end_marker +:+ "0" +:+ newline)] in
  (put "a" "/tmp/x" "hi" polls running).1 = Ok {| code := 200; body := JOk |} ∧
  (put "b" "/tmp/x" "hi" polls running).2 = running.
Proof.
  intros polls. split; [vm_compute; reflexivity|].
  refine (proj1 (proj2 (proj2 (rest_write_file demo_sha256 (λ _, "") (λ _, "") (λ _, true) demo_report pretty (λ _, inl "none")
    (λ _, []) demo_daemon_env "b" "/tmp/x" "hi" polls [] running)) _)). vm_compute. reflexivity.
Defined.

(** A sandbox that runs without a VM, since the daemon has no kernel, cannot be
    stopped over REST, and is there all the same. *)
Definition without_kernel : DaemonEnv := {|
  de_kernel_path := None; de_image_dir := "/i"; de_tap_device := None; de_sensors := SensorConfig_default;
  de_env := λ _, None; de_dir_exists := λ _, false |}.
Example rest_stop_needs_vm :
  let s := (create_sandbox demo_sha256 (λ _, "") (λ _, "") (λ _, true) demo_report pretty
    (λ _, inl "none") (λ _, []) without_kernel None 1 2 3 40 true (rest_request "a") demo_daemon).2 in
  (stop_sandbox "a" s).1 = Ok {| code := 404; body := JError "sandbox 'a' not found" |} ∧
  (get_sandbox "a" s).1 =
    Ok {| code := 200; body := JInfo {| si_sandbox_id := "a"; si_state := "running"; si_pid := 0; si_created_at := "" |} |}.
Proof. vm_compute. auto. Qed.

(** A REST stop keeps the handle: a command is refused then, but code and
    files still go to the console of the stopped VM, until the time is over. *)
Example rest_stop_keeps_handle :
  let s := (stop_sandbox "a" running).2 in
  is_Some (vm_handles s !! "a") ∧
  (exec "a" "ls" [over] s).1 = Ok {| code := 409; body := JError "sandbox 'a' is not running" |} ∧
  (put "a" "/tmp/x" "hi" [over] s).1 = Ok {| code := 500; body := JError "command timed out" |} ∧
  (λ t, (th_shutdown t, th_input t)) <$> (threads (put "a" "/tmp/x" "hi" [over] s).2 !! 0%nat) =
    Some (true, string_bytes ("echo aGk= | base64 -d > /tmp/x" +:+ newline)).
Proof. vm_compute. split_and!; [by eexists|done..]. Qed.

(** The path is text for the shell, and reading a file that is not there
    succeeds. *)
Example rest_path_is_shell_text :
  write_command "" "/tmp/x; reboot" = "echo  | base64 -d > /tmp/x; reboot" ∧
  (read_file demo_sha256 (λ _, "") (λ _, "") (λ _, true) demo_report pretty (λ _, inl "none") (λ _, []) demo_daemon_env
    "b" "/etc/passwd" [] running).1 = Ok {| code := 200; body := JContent "" |}.
Proof. vm_compute. auto. Qed.

(** Destroying what was never there succeeds. *)
Example rest_destroy_unknown :
  (destroy_sandbox "b" running).1 = Ok {| code := 200; body := JAction "b" "destroyed" |}.
Proof. vm_compute. reflexivity. Qed.
End Demo.
