(* ===== verification/Sensors.v ===== *)
(** * The sensor service (nova-api/src/sensor_server.rs)

    The table of programs clients load and unload, the status they are shown,
    and the streams that carry the events of the sensor loop to them. *)

From S2P Require Import Prelude Policy Wasm Eye.
#[local] Open Scope Z_scope.

(** ** State *)

Record ProgramInfo : Type := {
  pi_name : string; pi_attached : bool; pi_attach_type : string; pi_attach_target : string; pi_event_count : Z }.
Record SensorState : Type := { programs : list ProgramInfo; total_events : Z; dropped_events : Z }.
Definition SensorState_new : SensorState := {| programs := []; total_events := 0; dropped_events := 0 |}.
Definition with_programs (s : SensorState) (l : list ProgramInfo) : SensorState :=
  {| programs := l; total_events := total_events s; dropped_events := dropped_events s |}.

(** ** Messages (sensor.proto) *)

Record LoadProgramRequest : Type := {
  lp_name : string; lp_bytecode : list byte; lp_attach_type : string; lp_attach_target : string }.
(** [LoadProgramResponse] and [UnloadProgramResponse]. *)
Record ProgramResponse : Type := { pr_success : bool; pr_error_message : string }.
Record SensorStatus : Type := {
  ss_loaded_programs : Z; ss_total_events : Z; ss_dropped_events : Z; ss_programs : list ProgramInfo }.
Record StreamEventsRequest : Type := { sr_event_types : list Z; sr_sandbox_id : string }.

(** ** Programs *)

Definition load_program (req : LoadProgramRequest) (s : SensorState) : ProgramResponse * SensorState :=
  if existsb (λ p, String.eqb (pi_name p) (lp_name req)) (programs s) then
    ({| pr_success := false; pr_error_message := "program '" +:+ lp_name req +:+ "' already loaded" |}, s)
  else
    ({| pr_success := true; pr_error_message := "" |},
     with_programs s (programs s ++
       [{| pi_name := lp_name req; pi_attached := true; pi_attach_type := lp_attach_type req;
           pi_attach_target := lp_attach_target req; pi_event_count := 0 |}])).

Definition unload_program (name : string) (s : SensorState) : ProgramResponse * SensorState :=
  let kept := filter (λ p, pi_name p ≠ name) (programs s) in
  if (length kept =? length (programs s))%nat then
    ({| pr_success := false; pr_error_message := "program '" +:+ name +:+ "' not found" |}, with_programs s kept)
  else ({| pr_success := true; pr_error_message := "" |}, with_programs s kept).

Definition get_status (s : SensorState) : SensorStatus := {|
  ss_loaded_programs := wrap32 (zlen (programs s)); ss_total_events := total_events s;
  ss_dropped_events := dropped_events s; ss_programs := programs s |}.

(** ** Streams *)

(** What a receiver of the broadcast channel is given. *)
Inductive received : Type :=
| Event (e : SensorEvent)
| Lagged (n : Z)
| Closed.

Definition passes (req : StreamEventsRequest) (e : SensorEvent) : bool :=
  (bool_decide (sr_event_types req = []) || bool_decide (se_type e ∈ sr_event_types req)) &&
  (String.eqb (sr_sandbox_id req) "" || String.eqb (se_sandbox e) (sr_sandbox_id req)).

(** The forwarder: [connected] says of the n-th event that is sent whether the
    client is still there. *)
Fixpoint stream_events (req : StreamEventsRequest) (connected : nat → bool) (n : nat) (l : list received)
    : list SensorEvent :=
  match l with
  | [] => []
  | Event e :: l =>
      if negb (passes req e) then stream_events req connected n l else
      if connected n then e :: stream_events req connected (S n) l else []
  | Lagged _ :: l => stream_events req connected n l
  | Closed :: _ => []
  end.

(** ** The table is a map from names *)

Inductive program_request : Type :=
| Load (req : LoadProgramRequest)
| Unload (name : string).
Definition serve (r : program_request) (s : SensorState) : ProgramResponse * SensorState :=
  match r with Load req => load_program req s | Unload name => unload_program name s end.

(** What the service promises: the attach point of each loaded program. *)
Local Abbreviation table := (gmap string (string * string)).
Definition spec_serve (r : program_request) (t : table) : bool * table :=
  match r with
  | Load req =>
      match t !! lp_name req with
      | Some _ => (false, t)
      | None => (true, <[lp_name req := (lp_attach_type req, lp_attach_target req)]> t)
      end
  | Unload name => (bool_decide (is_Some (t !! name)), delete name t)
  end.

Definition entry (p : ProgramInfo) : string * (string * string) := (pi_name p, (pi_attach_type p, pi_attach_target p)).
Definition view (s : SensorState) : table := list_to_map (entry <$> programs s).

Definition wf (s : SensorState) : Prop :=
  NoDup (pi_name <$> programs s) ∧ Forall (λ p, pi_attached p = true ∧ pi_event_count p = 0) (programs s).

Lemma loaded_iff name (l : list ProgramInfo) :
  existsb (λ p, String.eqb (pi_name p) name) l = bool_decide (name ∈ pi_name <$> l).
Proof.
  induction l as [|p l IH]; [done|]. cbn [existsb fmap list_fmap]. rewrite IH.
  destruct (String.eqb_spec (pi_name p) name) as [->|Hne]; cbn.
  - symmetry. apply bool_decide_eq_true_2. by left.
  - apply bool_decide_ext. split; [by right|]. intros [|]%elem_of_cons; [congruence|done].
Qed.

Lemma entry_names (l : list ProgramInfo) : (entry <$> l).*1 = pi_name <$> l.
Proof. by rewrite <- list_fmap_compose. Qed.

Lemma view_none s name : view s !! name = None ↔ name ∉ pi_name <$> programs s.
Proof. unfold view. rewrite <- entry_names. split; [apply not_elem_of_list_to_map_2|apply not_elem_of_list_to_map_1]. Qed.

Lemma filter_out name (l : list ProgramInfo) : NoDup (pi_name <$> l) →
  let kept := filter (λ p, pi_name p ≠ name) l in
  NoDup (pi_name <$> kept) ∧ name ∉ pi_name <$> kept ∧
  (list_to_map (entry <$> kept) : table) = delete name (list_to_map (entry <$> l)) ∧
  (length kept = length l ↔ name ∉ pi_name <$> l).
Proof.
  induction l as [|p l IH]; cbn zeta.
  { intros _. split_and!; [apply NoDup_nil_2|apply not_elem_of_nil|symmetry; apply delete_empty|]. split; [by intros _ ?%not_elem_of_nil|done]. }
  intros [Hp Hl]%NoDup_cons. destruct (IH Hl) as (Hn & Hnot & Hm & Hlen). cbn zeta in *.
  pose proof (length_filter (λ p, pi_name p ≠ name) l) as Hle.
  destruct (decide (pi_name p ≠ name)) as [Hne|He].
  - rewrite filter_cons_True by done. cbn [fmap list_fmap]. split_and!.
    + apply NoDup_cons. split; [|done]. intros (q & Hq & [_ Hin]%list_elem_of_filter)%list_elem_of_fmap.
      apply Hp. apply list_elem_of_fmap. by exists q.
    + intros [|]%elem_of_cons; [congruence|done].
    + unfold entry at 1 3. rewrite !list_to_map_cons. fold entry. rewrite delete_insert_ne by congruence. by rewrite Hm.
    + cbn [length]. split; [|intros Hnin].
      * intros E [|Hin]%elem_of_cons; [congruence|]. apply Hlen in Hin; [done|lia].
      * f_equal. apply Hlen. intros Hin. apply Hnin. by right.
  - apply dec_stable in He. rewrite filter_cons_False by (by intros ?). split_and!; [done|done| |].
    + rewrite Hm. cbn [fmap list_fmap]. unfold entry at 2. rewrite list_to_map_cons, He. symmetry. apply delete_insert_eq.
    + cbn [length fmap list_fmap]. split; [intros E; lia|]. intros Hn'. destruct Hn'. rewrite He. by left.
Qed.

Lemma serve_spec r s : wf s →
  wf (serve r s).2 ∧ spec_serve r (view s) = (pr_success (serve r s).1, view (serve r s).2) ∧
  total_events (serve r s).2 = total_events s.
Proof.
  intros [Hn Ha]. destruct r as [req|name]; cbn [serve spec_serve].
  - unfold load_program. rewrite loaded_iff. case_bool_decide as Hin; cbn [fst snd pr_success].
    + destruct (view s !! lp_name req) eqn:E; [done|]. by apply view_none in E.
    + rewrite (proj2 (view_none s _) Hin). split_and!; [|f_equal|done].
      * unfold wf, with_programs. cbn. rewrite fmap_app. split; [|by apply Forall_app_2; [|apply Forall_singleton]].
        apply NoDup_app. split_and!; [done| |by apply NoDup_singleton]. cbn. intros x Hx ->%list_elem_of_singleton. done.
      * unfold view, with_programs. cbn [programs]. rewrite fmap_app. symmetry. apply (list_to_map_snoc (entry <$> programs s)).
        by rewrite entry_names.
  - destruct (filter_out name (programs s) Hn) as (Hn' & Hnot & Hm & Hlen). unfold unload_program. cbv zeta in *.
    set (kept := filter (λ p, pi_name p ≠ name) (programs s)) in *.
    assert (Hw : wf (with_programs s kept)).
    { split; [done|]. cbn. apply Forall_forall. intros p [_ Hp]%list_elem_of_filter. by eapply Forall_forall in Ha. }
    assert (Hb : bool_decide (is_Some (view s !! name)) = negb (length kept =? length (programs s))%nat).
    { destruct (Nat.eqb_spec (length kept) (length (programs s))) as [E|E]; cbn.
      - apply bool_decide_eq_false_2. rewrite (proj2 (view_none s name)); [by intros []|]. by apply Hlen.
      - apply bool_decide_eq_true_2. destruct (view s !! name) eqn:Ev; [by eexists|]. apply view_none, Hlen in Ev. done. }
    destruct (_ =? _)%nat; cbn [fst snd pr_success negb] in *; (split_and!; [done| |done]); rewrite Hb;
      f_equal; unfold view at 2; cbn; by rewrite Hm.
Qed.

Fixpoint serve_all (rs : list program_request) (s : SensorState) : list bool * SensorState :=
  match rs with
  | [] => ([], s)
  | r :: rs => let '(x, s) := serve r s in let '(xs, s) := serve_all rs s in (pr_success x :: xs, s)
  end.
Fixpoint spec_serve_all (rs : list program_request) (t : table) : list bool * table :=
  match rs with
  | [] => ([], t)
  | r :: rs => let '(x, t) := spec_serve r t in let '(xs, t) := spec_serve_all rs t in (x :: xs, t)
  end.

Lemma program_runs rs s : wf s →
  wf (serve_all rs s).2 ∧ spec_serve_all rs (view s) = ((serve_all rs s).1, view (serve_all rs s).2) ∧
  total_events (serve_all rs s).2 = total_events s.
Proof.
  revert s. induction rs as [|r rs IH]; intros s Hw; [done|]. cbn [serve_all spec_serve_all].
  destruct (serve_spec r s Hw) as (Hw' & Hs & Ht). rewrite Hs. destruct (serve r s) as [x s1]. cbn [fst snd] in *.
  destruct (IH s1 Hw') as (Hw2 & Hs2 & Ht2). rewrite Hs2. destruct (serve_all rs s1) as [xs s2]. cbn [fst snd] in *.
  split_and!; [done|done|congruence].
Qed.

(** The program table is a map: over any sequence of loads and unloads, a
    load succeeds exactly when no program of that name is loaded and an
    unload exactly when one is, the programs are those loaded and not
    unloaded since, with their attach points, each once; the status names
    each of them, as attached and without events, counts them and leaves the
    event counters alone. *)
Theorem programs_refine_table rs :
  let s := (serve_all rs SensorState_new).2 in
  spec_serve_all rs ∅ = ((serve_all rs SensorState_new).1, view s) ∧
  NoDup (pi_name <$> ss_programs (get_status s)) ∧
  (∀ name at_, view s !! name = Some at_ ↔
    {| pi_name := name; pi_attached := true; pi_attach_type := at_.1; pi_attach_target := at_.2; pi_event_count := 0 |}
      ∈ ss_programs (get_status s)) ∧
  ss_loaded_programs (get_status s) = wrap32 (Z.of_nat (size (view s))) ∧
  ss_total_events (get_status s) = 0.
Proof.
  intros s. assert (Hw0 : wf SensorState_new) by (split; constructor).
  destruct (program_runs rs SensorState_new Hw0) as ([Hn Ha] & Hs & Ht). fold s in Hn, Ha, Hs, Ht.
  assert (Hn' : NoDup (entry <$> programs s).*1) by by rewrite entry_names.
  split_and!; [done|done| |..].
  - intros name [ty tg]. unfold view. rewrite <- elem_of_list_to_map by done. rewrite list_elem_of_fmap. cbn. split.
    + intros (p & [= -> -> ->] & Hp). eapply Forall_forall in Ha as [H1 H2]; [|exact Hp]. destruct p; cbn in *. by subst.
    + intros Hp. exists {| pi_name := name; pi_attached := true; pi_attach_type := ty; pi_attach_target := tg; pi_event_count := 0 |}. by split.
  - cbn. unfold view. rewrite map_size_list_to_map by done. by rewrite length_fmap.
  - done.
Qed.

(** ** Streams deliver what passes the filter *)

(** The events of a receiver, up to the end of the channel. *)
Fixpoint events_of (l : list received) : list SensorEvent :=
  match l with
  | [] | Closed :: _ => []
  | Event e :: l => e :: events_of l
  | Lagged _ :: l => events_of l
  end.

(** A client's stream is, in order, the events its receiver was given that
    are of a type it asked for, or of any if it named none, and of the
    sandbox it named, if it did: all of them while it is connected, those
    before the first it was not there for otherwise. *)
Theorem stream_is_filter req connected l :
  let wanted := filter (λ e,
    (sr_event_types req = [] ∨ se_type e ∈ sr_event_types req) ∧
    (sr_sandbox_id req = "" ∨ se_sandbox e = sr_sandbox_id req)) (events_of l) in
  ∃ k, stream_events req connected 0 l = take k wanted ∧
    (∀ j, (j < k)%nat → connected j = true) ∧ ((k < length wanted)%nat → connected k = false).
Proof.
  cbv zeta. set (W := λ e, (_ ∨ _) ∧ (_ ∨ _)).
  assert (Hp : ∀ e, passes req e = true ↔ W e).
  { intros e. unfold passes, W. rewrite andb_true_iff, !orb_true_iff, !bool_decide_eq_true, !String.eqb_eq. done. }
  assert (Hgen : ∀ n, ∃ k, stream_events req connected n l = take k (filter W (events_of l)) ∧
    (∀ j, (j < k)%nat → connected (n + j)%nat = true) ∧ ((k < length (filter W (events_of l)))%nat → connected (n + k)%nat = false)).
  { induction l as [|[e|m|] l IH]; intros n; cbn [stream_events events_of].
    - exists 0%nat. split_and!; [done|lia|cbn; lia].
    - destruct (passes req e) eqn:E; cbn [negb].
      + rewrite filter_cons_True by by apply Hp. destruct (connected n) eqn:Ec.
        * destruct (IH (S n)) as (k & Hk & Hc & Hd). exists (S k). cbn [take length]. rewrite Hk. split_and!; [done| |].
          -- intros [|j] Hj; [by rewrite Nat.add_0_r|]. replace (n + S j)%nat with (S n + j)%nat by lia. apply Hc. lia.
          -- intros Hl. replace (n + S k)%nat with (S n + k)%nat by lia. apply Hd. lia.
        * exists 0%nat. split_and!; [done|lia|]. intros _. by rewrite Nat.add_0_r.
      + rewrite filter_cons_False by (rewrite <- Hp; congruence). apply IH.
    - apply IH.
    - exists 0%nat. split_and!; [done|lia|cbn; lia]. }
  exact (Hgen 0%nat).
Qed.

(** A load without any bytecode makes an attached program. *)
Example loaded_without_bytecode :
  (λ p, (pi_name p, pi_attached p)) <$> ss_programs (get_status (load_program {| lp_name := "p"; lp_bytecode := [];
    lp_attach_type := "kprobe"; lp_attach_target := "x" |} SensorState_new).2) = [("p", true)].
Proof. done. Qed.
