(* ===== verification/Startup.v ===== *)
(** * Starting the daemon (nova-api: server.rs RuntimeDaemon,
    bin/nova-daemon.rs; `nova serve` of novactl)

    From the configuration a daemon opens its caches, makes its services and
    listens on its socket.  What the caches find on the disk is what earlier
    runs left there; sandboxes and VMs are not remembered. *)

From stdpp Require Import strings.
From S2P Require Import Prelude Pool Wasm Sandbox Policy Calendar Store Oci Initrd Extract Caches Pull Agent Eye Probes Kvm Builder Registry ImageService GuestImage Config Daemon Sensors.
#[local] Open Scope Z_scope.

(** [fs::create_dir_all], and whether it went well. *)
Definition try_dir : stm Disk string (string + unit) := λ d,
  match fs_create_dirs d with
  | (Err e, d) => (Ok (inl e), d)
  | (_, d) => (Ok (inr tt), d)
  end.

(** [?] of an [io::Error] as a [RuntimeError], and [expect]. *)
Definition as_io {A} (m : stm Disk string A) : stm Disk RuntimeError A := λ d,
  let '(r, d) := m d in (map_err Io r, d).
Definition expect {S E F A} (m : stm S E A) : stm S F A := λ s,
  match m s with
  | (Ok a, s) => (Ok a, s)
  | (Err _, s) => (Panic PanicUnwrap, s)
  | (Panic p, s) => (Panic p, s)
  end.

Section Startup.
Context {N P SC : Type} `{WasmHost} `{HttpHost N} `{RegistryJson} `{OciJson} `{Tar}.
Context `{Serde BlobStoreIndex} `{Serde RootfsCacheIndex} `{Serde SnapshotCacheIndex} `{Serde (gmap string ImageInfo)}.
Local Abbreviation Service := (RuntimeDaemonService (N:=N) (P:=P) (SC:=SC)).

(** ** State *)

(** The daemon; [service] holds what its gRPC services share, with the host's
    files, and [rd_source_rx] whether the sources' receiver is still there. *)
Record RuntimeDaemon : Type := {
  service : Service;
  rd_snapshots : SnapshotCache;
  rd_sensors : SensorState;
  rd_socket_path : string;
  rd_kernel_path : option string;
  rd_image_dir : string;
  rd_sensor_config : SensorConfig;
  rd_guest_config : GuestSensorConfig;
  rd_tap_device : option string;
  rd_api_port : Z;
  rd_source_rx : bool;
}.

(** What [build] opens: the blob store, the rootfs cache, the snapshot cache
    and the image cache. *)
Definition blob_dir (image_dir : string) : string := join image_dir "blobs".
Definition rootfs_dir (image_dir : string) : string := join image_dir "rootfs".
Definition snapshot_dir_of (image_dir : string) : string := join image_dir "snapshots".

Definition open_caches (linked : bool) (image_dir : string)
    : stm Disk string (ImagePuller * SnapshotCache * ImageCache) :=
  blob_store ← expect (as_io fs_create_dirs ≫= λ _, Store.open (blob_dir image_dir));
  rootfs_cache ← expect (as_io fs_create_dirs ≫= λ _, rootfs_open linked (rootfs_dir image_dir));
  expect fs_create_dirs ;;
  snapshots ← expect (as_io fs_create_dirs ≫= λ _, snapshot_open (snapshot_dir_of image_dir));
  image_cache ← expect (as_io fs_create_dirs ≫= λ _, image_cache_new image_dir);
  mret (Pull.with_caches image_dir Initramfs blob_store rootfs_cache, snapshots, image_cache).

(** [build]: [net] and [tree] are the network and the directory tree the
    services work on. *)
Definition service_of (net : N) (tree : Fs) (policy : PolicyState) (p : ImagePuller) (ic : ImageCache) (d : Disk) : Service := {|
  orchestrator := SandboxOrchestrator_new;
  images := {| registry_net := net; image_puller := {| puller := p; disk := d; Pull.tree := tree |}; image_cache := ic |};
  threads := []; vm_handles := ∅; image_digests := ∅; sandbox_commands := ∅; image_names := ∅; vm_pool := None;
  policy_state := policy; sources := [] |}.

Definition build (linked : bool) (net : N) (tree : Fs) (socket_path image_dir : string) (kernel_path : option string)
    (sensor_config : SensorConfig) (guest_config : GuestSensorConfig) (tap_device : option string)
    (policy : PolicyState) (api_port : Z) : stm Disk string RuntimeDaemon := λ d,
  match open_caches linked image_dir d with
  | (Ok (p, sc, ic), d) =>
      (Ok {| service := service_of net tree policy p ic d; rd_snapshots := sc; rd_sensors := SensorState_new;
             rd_socket_path := socket_path; rd_kernel_path := kernel_path; rd_image_dir := image_dir;
             rd_sensor_config := sensor_config; rd_guest_config := guest_config; rd_tap_device := tap_device;
             rd_api_port := api_port; rd_source_rx := true |}, d)
  | (Err e, d) => (Err e, d)
  | (Panic r, d) => (Panic r, d)
  end.

Definition with_config (linked : bool) (net : N) (tree : Fs) (c : DaemonConfig) : stm Disk string RuntimeDaemon :=
  created ← try_dir;
  policy ← lift (from_config created (dc_policy c));
  build linked net tree (socket_path c) (config_image_dir c) (kernel_path c) (dc_sensor c) (guest (dc_sensor c))
    (ds_tap_device (dc_daemon c)) policy (ds_api_port (dc_daemon c)).

(** [new], with the variable NOVA_KERNEL. *)
Definition RuntimeDaemon_new (linked : bool) (net : N) (tree : Fs) (nova_kernel : option string) (socket image_dir : string)
    : stm Disk string RuntimeDaemon :=
  created ← try_dir;
  policy ← lift (from_config created PolicyConfig_default);
  build linked net tree socket image_dir nova_kernel SensorConfig_default GuestSensorConfig_default None policy 9800.

(** The settings its handlers work with. *)
Definition service_env (env : string → option string) (dir_exists : string → bool) (r : RuntimeDaemon) : DaemonEnv := {|
  de_kernel_path := rd_kernel_path r; de_image_dir := rd_image_dir r; de_tap_device := rd_tap_device r;
  de_sensors := rd_sensor_config r; de_env := env; de_dir_exists := dir_exists |}.

(** ** Listening *)

Definition set_host_files (r : RuntimeDaemon) (d : Disk) : RuntimeDaemon := {|
  service := with_images (service r)
    {| registry_net := registry_net (images (service r)); image_puller := set_disk (image_puller (images (service r))) d;
       image_cache := image_cache (images (service r)) |};
  rd_snapshots := rd_snapshots r; rd_sensors := rd_sensors r; rd_socket_path := rd_socket_path r;
  rd_kernel_path := rd_kernel_path r; rd_image_dir := rd_image_dir r; rd_sensor_config := rd_sensor_config r;
  rd_guest_config := rd_guest_config r; rd_tap_device := rd_tap_device r; rd_api_port := rd_api_port r;
  rd_source_rx := rd_source_rx r |}.
Definition on_host {A} (m : stm Disk string A) : stm RuntimeDaemon string A := λ r,
  let '(x, d) := m (host_files (service r)) in (x, set_host_files r d).

(** [UnixListener::bind]: a name that is taken is refused. *)
Definition address_in_use : string := "Address already in use (os error 98)".
Definition bind_socket (path : string) : stm Disk string unit := λ d,
  if exists_file d path then (Err address_in_use, d)
  else sys (λ d, (tt, <[path := []]> (files d))) (λ _ d, files d) d.

Definition take_source_rx : stm RuntimeDaemon string unit := λ r,
  if rd_source_rx r then
    (Ok tt, {| service := service r; rd_snapshots := rd_snapshots r; rd_sensors := rd_sensors r;
               rd_socket_path := rd_socket_path r; rd_kernel_path := rd_kernel_path r; rd_image_dir := rd_image_dir r;
               rd_sensor_config := rd_sensor_config r; rd_guest_config := rd_guest_config r;
               rd_tap_device := rd_tap_device r; rd_api_port := rd_api_port r; rd_source_rx := false |})
  else (Panic PanicUnwrap, r).

(** [serve] up to the point where requests are answered: the address the REST
    interface is asked to listen on, if it is. *)
Definition serve : stm RuntimeDaemon string (option (string * Z)) :=
  path ← gets rd_socket_path;
  (match parent path with Some _ => on_host fs_create_dirs | None => mret tt end) ;;
  on_host (ignore (fs_remove_file path)) ;;
  on_host (bind_socket path) ;;
  take_source_rx ;;
  port ← gets rd_api_port;
  mret (if 0 <? port then Some ("0.0.0.0", port) else None).

(** ** nova-daemon *)

Fixpoint parse_config_arg (args : list string) : option string :=
  match args with
  | [] => None
  | a :: args => if String.eqb a "--config" then head args else parse_config_arg args
  end.

Inductive start_error : Type :=
| ConfigFailed (e : ConfigError)
| ServeFailed (e : string).

Context (parse : string → option toml_doc).
Definition default_config : string := "/etc/nova/nova.toml".
Definition load_config (path : string) : stm Disk ConfigError DaemonConfig := λ d,
  if exists_file d path then from_file parse path d else (Ok defaults, d).
Definition daemon_config (args : list string) : stm Disk ConfigError DaemonConfig :=
  load_config (default default_config (parse_config_arg args)).

Definition start (linked : bool) (net : N) (tree : Fs) (config : stm Disk ConfigError DaemonConfig) (d : Disk)
    : outcome start_error (option (string * Z) * RuntimeDaemon) :=
  match config d with
  | (Ok c, d) =>
      match with_config linked net tree c d with
      | (Ok r, _) =>
          match serve r with
          | (Ok a, r) => Ok (a, r)
          | (Err e, _) => Err (ServeFailed e)
          | (Panic p, _) => Panic p
          end
      | (Err e, _) => Err (ServeFailed e)
      | (Panic p, _) => Panic p
      end
  | (Err e, _) => Err (ConfigFailed e)
  | (Panic p, _) => Panic p
  end.
Definition nova_daemon (linked : bool) (net : N) (tree : Fs) (args : list string) (d : Disk)
    : outcome start_error (option (string * Z) * RuntimeDaemon) :=
  start linked net tree (daemon_config args) d.
End Startup.

(** ** What a start finds *)

Section Lemmas.
Context {N P SC : Type} `{WasmHost} `{HttpHost N} `{RegistryJson} `{OciJson} `{Tar}.
Context `{Serde BlobStoreIndex} `{Serde RootfsCacheIndex} `{Serde SnapshotCacheIndex} `{Serde (gmap string ImageInfo)}.
Local Abbreviation Daemon := (RuntimeDaemon (N:=N) (P:=P) (SC:=SC)).

(** An index on the disk: empty where there is none, [None] for a file that
    is not one. *)
Definition saved_index {I} `{Empty I} `{Serde I} (f : gmap string (list byte)) (path : string) : option I :=
  match f !! path with
  | None => Some ∅
  | Some b => match from_json b with inr i => Some i | inl _ => None end
  end.

Definition clone_test (image_dir : string) : string := join (rootfs_dir image_dir) ".clone_test_src".
Definition after_test (image_dir : string) (f : gmap string (list byte)) : gmap string (list byte) :=
  delete (clone_test image_dir) f.

Lemma join_ne p q r : String.prefix "/" q = false → String.prefix "/" r = false → q ≠ r → join p q ≠ join p r.
Proof. intros Hq Hr Hne. unfold join. rewrite Hq, Hr. intros E. simplify_eq. Qed.

Lemma load_saved {I} `{Serde I} dir name f :
  load_json dir name {| files := f; faults := [] |} =
    (Ok (from_option (λ b, Some (from_json b)) None (f !! join dir name)) : outcome string (option (string + I)),
     {| files := f; faults := [] |}).
Proof.
  unfold load_json, exists_file. cbn [files]. destruct (f !! join dir name) as [b|] eqn:E; cbn; [|done].
  unfold fs_read, with_file. cbn [files]. rewrite E. cbn. done.
Qed.

(** A disk none of whose calls fails. *)
Local Abbreviation calm f := {| files := f; faults := [] |}.

(** A step of [open_caches]: the directory is made, then the cache is opened. *)
Lemma expect_made {A} (m : stm Disk RuntimeError A) f :
  expect (F:=string) (as_io fs_create_dirs ≫= λ _, m) (calm f) = expect m (calm f).
Proof. done. Qed.
Lemma bind_step {S E A B} (m : stm S E A) (g : A → stm S E B) s r s1 :
  m s = (r, s1) → (m ≫= g) s = match r with Ok a => g a s1 | Err e => (Err e, s1) | Panic p => (Panic p, s1) end.
Proof. unfold mbind, stm_bind. by intros ->. Qed.

Lemma open_calm dir f :
  expect (F:=string) (Store.open dir) (calm f) =
    (match saved_index f (join dir "index.json") with
     | Some i => Ok {| base_dir := dir; blobs := i |} | None => Panic PanicUnwrap end, calm f).
Proof.
  unfold expect, Store.open. rewrite (load_saved dir "index.json" f). unfold saved_index.
  destruct (f !! _) as [b|]; cbn; [|done]. by destruct (from_json b).
Qed.

Lemma snapshot_open_calm dir f :
  expect (F:=string) (snapshot_open dir) (calm f) =
    (match saved_index f (join dir snapshot_index) with
     | Some i => Ok {| snap_base := dir; snaps := i |} | None => Panic PanicUnwrap end, calm f).
Proof.
  unfold expect, snapshot_open. rewrite (load_saved dir snapshot_index f). unfold saved_index.
  destruct (f !! _) as [b|]; cbn; [|done]. by destruct (from_json b).
Qed.

(** The image cache drops an index it cannot read. *)
Lemma image_cache_calm dir f :
  expect (F:=string) (image_cache_new dir) (calm f) =
    (Ok {| ic_dir := dir; index := default ∅ (saved_index f (join dir image_index)) |}, calm f).
Proof.
  unfold expect, image_cache_new. rewrite (load_saved dir image_index f). unfold saved_index.
  destruct (f !! _) as [b|]; cbn; [|done]. by destruct (from_json b).
Qed.

#[local] Arguments detect_clone_strategy : simpl never.
#[local] Arguments rootfs_dir : simpl never.
#[local] Arguments blob_dir : simpl never.
#[local] Arguments snapshot_dir_of : simpl never.
#[local] Arguments after_test : simpl never.
#[local] Arguments join : simpl never.
Lemma rootfs_open_calm linked image_dir f :
  expect (F:=string) (rootfs_open linked (rootfs_dir image_dir)) (calm f) =
    (match saved_index f (join (rootfs_dir image_dir) rootfs_index) with
     | Some i => Ok {| cache_dir := rootfs_dir image_dir; entries := i; clone_strategy := if linked then Hardlink else Copy |}
     | None => Panic PanicUnwrap
     end,
     calm (if saved_index (I:=RootfsCacheIndex) f (join (rootfs_dir image_dir) rootfs_index) is Some _ then after_test image_dir f else f)).
Proof.
  assert (T : detect_clone_strategy linked (rootfs_dir image_dir) (calm f) =
    (Ok (if linked then Hardlink else Copy), calm (after_test image_dir f))).
  { unfold detect_clone_strategy, fs_write, fs_create, fs_write_all, mbind, stm_bind, sys, set_files. cbn [files faults head tail].
    unfold fs_remove_file, with_file, sys, set_files. cbn [files faults head tail]. rewrite insert_insert_eq, lookup_insert_eq. cbn.
    by rewrite delete_insert_eq. }
  unfold expect, rootfs_open. rewrite (load_saved (rootfs_dir image_dir) rootfs_index f). unfold saved_index.
  destruct (f !! _) as [b|]; cbn; [destruct (from_json b); cbn; [done|]|]; by rewrite T.
Qed.

(** A start of a daemon, step by step: the caches that are opened, the daemon
    that is made, and the one that listens. *)
Lemma open_caches_calm linked dir f :
  open_caches linked dir (calm f) =
    match saved_index f (join (blob_dir dir) "index.json"), saved_index f (join (rootfs_dir dir) rootfs_index),
          saved_index f (join (snapshot_dir_of dir) snapshot_index) with
    | Some b, Some r, Some s =>
        (Ok (Pull.with_caches dir Initramfs {| base_dir := blob_dir dir; blobs := b |}
               {| cache_dir := rootfs_dir dir; entries := r; clone_strategy := if linked then Hardlink else Copy |},
             {| snap_base := snapshot_dir_of dir; snaps := s |},
             {| ic_dir := dir; index := default ∅ (saved_index f (join dir image_index)) |}),
         calm (after_test dir f))
    | None, _, _ | _, None, _ => (Panic PanicUnwrap, calm f)
    | _, _, None => (Panic PanicUnwrap, calm (after_test dir f))
    end.
Proof.
  assert (E : ∀ I `{Empty I} `{Serde I} p, p ≠ clone_test dir →
    saved_index (I:=I) (after_test dir f) p = saved_index f p).
  { intros I ? ? p Hp. unfold saved_index, after_test. by rewrite lookup_delete_ne. }
  assert (Hs : join (snapshot_dir_of dir) snapshot_index ≠ clone_test dir).
  { unfold snapshot_dir_of, clone_test, rootfs_dir, join. cbn. rewrite ?append_assoc. intros E'. by simplify_eq. }
  assert (Hi : join dir image_index ≠ clone_test dir).
  { unfold clone_test, rootfs_dir, join. cbn. rewrite ?append_assoc. intros E'. by simplify_eq. }
  unfold open_caches. erewrite bind_step by (rewrite expect_made; apply open_calm).
  destruct (saved_index f (join (blob_dir dir) _)) as [b|]; [|done]. cbv beta iota.
  erewrite bind_step by (rewrite expect_made; apply rootfs_open_calm).
  destruct (saved_index f (join (rootfs_dir dir) _)) as [r|]; [|done]. cbv beta iota.
  rewrite (bind_step (expect fs_create_dirs) _ (calm (after_test dir f)) (Ok tt) (calm (after_test dir f))) by reflexivity. cbv beta iota.
  erewrite bind_step by (rewrite expect_made; apply snapshot_open_calm). rewrite E by done.
  destruct (saved_index f (join (snapshot_dir_of dir) _)) as [sn|]; [|done]. cbv beta iota.
  erewrite bind_step by (rewrite expect_made; apply image_cache_calm). by rewrite E.
Qed.

(** The daemon that listens. *)
Definition rest_address (c : DaemonConfig) : option (string * Z) :=
  if 0 <? ds_api_port (dc_daemon c) then Some ("0.0.0.0", ds_api_port (dc_daemon c)) else None.
Definition listening (linked : bool) (net : N) (tree : Fs) (c : DaemonConfig) (policy : PolicyState)
    (b : BlobStoreIndex) (r : RootfsCacheIndex) (s : SnapshotCacheIndex) (f : gmap string (list byte)) : Daemon :=
  let dir := config_image_dir c in {|
  service := service_of net tree policy
    (Pull.with_caches dir Initramfs {| base_dir := blob_dir dir; blobs := b |}
       {| cache_dir := rootfs_dir dir; entries := r; clone_strategy := if linked then Hardlink else Copy |})
    {| ic_dir := dir; index := default ∅ (saved_index f (join dir image_index)) |}
    (calm (<[socket_path c := []]> (after_test dir f)));
  rd_snapshots := {| snap_base := snapshot_dir_of dir; snaps := s |};
  rd_sensors := SensorState_new; rd_socket_path := socket_path c; rd_kernel_path := kernel_path c; rd_image_dir := dir;
  rd_sensor_config := dc_sensor c; rd_guest_config := guest (dc_sensor c); rd_tap_device := ds_tap_device (dc_daemon c);
  rd_api_port := ds_api_port (dc_daemon c); rd_source_rx := false |}.

Lemma bind_socket_fresh path f :
  (ignore (fs_remove_file path) ;; bind_socket path) (calm f) = (Ok tt, calm (<[path := []]> f)).
Proof.
  unfold mbind, stm_bind, ignore. cbn. unfold fs_remove_file, with_file. cbn [files].
  destruct (f !! path) as [b|] eqn:E; cbn; unfold bind_socket, exists_file; cbn.
  - rewrite lookup_delete_eq. cbn. by rewrite insert_delete_eq.
  - by rewrite E.
Qed.

#[local] Arguments ignore : simpl never.
#[local] Arguments bind_socket : simpl never.
#[local] Arguments fs_remove_file : simpl never.
Lemma serve_calm (rd : Daemon) f : host_files (service rd) = calm f → rd_source_rx rd = true →
  serve rd =
    (Ok (if 0 <? rd_api_port rd then Some ("0.0.0.0", rd_api_port rd) else None),
     (take_source_rx (set_host_files rd (calm (<[rd_socket_path rd := []]> f)))).2).
Proof.
  destruct rd as [[o [n [p d t] ic] th vh id cm nm vp ps so] sc se path k dir scf gc tap port rx]. cbn. intros -> ->.
  pose proof (bind_socket_fresh path f) as Hb. unfold mbind, stm_bind in Hb.
  destruct (ignore (fs_remove_file path) (calm f)) as [[[]| |] d1] eqn:E1; [|done..].
  unfold serve, mbind, stm_bind, gets. cbn.
  destruct (parent path); cbn; unfold on_host; cbn; try change (set_files (calm f) f) with (calm f); rewrite E1; cbn;
    by rewrite Hb.
Qed.

Context (parse : string → option toml_doc).

(** What a start does where no call of the disk fails. *)
Lemma start_calm linked net tree config c f0 f policy :
  config (calm f0) = (Ok c, calm f) → from_config (inr tt) (dc_policy c) = Ok policy →
  let dir := config_image_dir c in
  start (P:=P) (SC:=SC) linked net tree config (calm f0) =
    match saved_index f (join (blob_dir dir) "index.json"), saved_index f (join (rootfs_dir dir) rootfs_index),
          saved_index f (join (snapshot_dir_of dir) snapshot_index) with
    | Some b, Some r, Some s => Ok (rest_address c, listening linked net tree c policy b r s f)
    | _, _, _ => Panic PanicUnwrap
    end.
Proof.
  intros Hc Hp dir. unfold start. rewrite Hc. unfold with_config.
  rewrite (bind_step try_dir _ (calm f) (Ok (inr tt)) (calm f)) by reflexivity. cbv beta iota.
  rewrite (bind_step _ _ (calm f) (Ok policy) (calm f)) by (unfold lift; by rewrite Hp). cbv beta iota.
  unfold build. rewrite open_caches_calm. fold dir.
  destruct (saved_index f (join (blob_dir dir) _)) as [b|]; [|done].
  destruct (saved_index f (join (rootfs_dir dir) _)) as [r|]; [|done].
  destruct (saved_index f (join (snapshot_dir_of dir) _)) as [s|]; [|done].
  rewrite (serve_calm _ (after_test dir f)) by done. reflexivity.
Qed.

Lemma cached_image_ext (i j : ImageDaemonService N) iref :
  index (image_cache i) = index (image_cache j) →
  (∀ info, index (image_cache j) !! iref = Some info →
     files (disk (image_puller i)) !! info_rootfs info = files (disk (image_puller j)) !! info_rootfs info) →
  cached_image i iref = cached_image j iref.
Proof.
  intros Hi Hf. unfold cached_image. rewrite Hi. destruct (index (image_cache j) !! iref) as [info|]; [|done].
  cbn. unfold exists_file. by rewrite Hf.
Qed.

Context (sha256_hex : list byte → string) (status_text status_error : Z → string)
  (alphanumeric : list byte → bool) (report : Fs → hpath → dir) (show_errno : Z → string)
  (read_file : string → string + list byte) (probes_json : list ProbeSpec → list byte)
  (env : string → option string) (dir_exists : string → bool).
Local Abbreviation run_from := (λ (rd : Daemon) es, daemon_run sha256_hex status_text status_error alphanumeric report
  show_errno read_file probes_json (service_env env dir_exists rd) es (service rd)).
Local Abbreviation answered_from := (λ (rd : Daemon) es, answered sha256_hex status_text status_error alphanumeric report
  show_errno read_file probes_json (service_env env dir_exists rd) es (service rd)).

(** C34. Starting again, on a disk whose calls do not fail: a start ends with a
    daemon that listens unless one of the three indexes it insists on is not
    readable, when it panics.  The daemon has no sandbox, whatever ran before,
    and from there serves the lifecycle table; its policy is the configured
    one, REST listens on every interface if a port is configured, and of the
    disk only the socket and the test file of the rootfs cache changed.  Every
    image the previous daemon would have served from its cache, with its index
    saved, is served by this one. *)
Theorem restart_keeps_images linked net tree config c f0 f :
  SerdeOk (gmap string ImageInfo) → config (calm f0) = (Ok c, calm f) →
  let dir := config_image_dir c in
  let started := start (P:=P) (SC:=SC) linked net tree config (calm f0) in
  (started ≠ Panic PanicUnwrap ↔
     is_Some (saved_index (I:=BlobStoreIndex) f (join (blob_dir dir) "index.json")) ∧
     is_Some (saved_index (I:=RootfsCacheIndex) f (join (rootfs_dir dir) rootfs_index)) ∧
     is_Some (saved_index (I:=SnapshotCacheIndex) f (join (snapshot_dir_of dir) snapshot_index))) ∧
  (started ≠ Panic PanicUnwrap → is_ok started = true) ∧
  ∀ addr rd, started = Ok (addr, rd) →
    addr = rest_address c ∧ idle (service rd) ∧
    from_config (inr tt) (dc_policy c) = Ok (policy_state (service rd)) ∧
    files (host_files (service rd)) = <[socket_path c := []]> (after_test dir f) ∧
    (∀ es, spec_all read_file (answered_from rd es).*1 ∅ =
       ((answered_from rd es).*2, Sandbox.view (orchestrator (run_from rd es)))) ∧
    (∀ (old : ImageDaemonService N) iref, files (disk (image_puller old)) = f →
       f !! join dir image_index = Some (to_json (index (image_cache old))) →
       (∀ info, index (image_cache old) !! iref = Some info → info_rootfs info ∉ [clone_test dir; socket_path c]) →
       cached_image (images (service rd)) iref = cached_image old iref).
Proof.
  intros Hser Hc dir started.
  assert (Hp : ∃ policy, from_config (inr tt) (dc_policy c) = Ok policy) by (eexists; reflexivity).
  destruct Hp as [policy Hp].
  pose proof (start_calm linked net tree config c f0 f policy Hc Hp) as Hs. cbv zeta in Hs. fold dir in Hs. fold started in Hs.
  destruct (saved_index f (join (blob_dir dir) _)) as [b|];
    [|rewrite Hs; split_and!; [split; [done|by intros ([? [=]] & _)]|done|by intros ?? [=]]].
  destruct (saved_index f (join (rootfs_dir dir) _)) as [r|];
    [|rewrite Hs; split_and!; [split; [done|by intros (_ & [? [=]] & _)]|done|by intros ?? [=]]].
  destruct (saved_index f (join (snapshot_dir_of dir) _)) as [s|];
    [|rewrite Hs; split_and!; [split; [done|by intros (_ & _ & [? [=]])]|done|by intros ?? [=]]].
  rewrite Hs. split_and!; [split; [intros _; split_and!; by eexists|done]|done|].
  intros addr rd [= <- <-]. split_and!; try done.
  - intros es.
    rewrite <- (answered_spec sha256_hex status_text status_error alphanumeric report show_errno read_file probes_json)
      by by apply idle_inv. cbn. unfold Sandbox.view. cbn. by rewrite fmap_empty.
  - intros old iref Hf Hi Hout. apply cached_image_ext.
    + cbn. unfold saved_index. fold dir. rewrite Hi. by rewrite from_to.
    + intros info Hinfo. specialize (Hout info Hinfo). rewrite Hf. cbn.
      rewrite !not_elem_of_cons in Hout. destruct Hout as (H1' & H2' & _).
      rewrite lookup_insert_ne by done. unfold after_test. by rewrite lookup_delete_ne.
Qed.
End Lemmas.

(** ** Listening twice *)

Section Twice.
Context {N P SC : Type} `{WasmHost} `{HttpHost N} `{RegistryJson} `{OciJson} `{Tar}.
Context `{Serde BlobStoreIndex} `{Serde RootfsCacheIndex} `{Serde SnapshotCacheIndex} `{Serde (gmap string ImageInfo)}.
Local Abbreviation Daemon := (RuntimeDaemon (N:=N) (P:=P) (SC:=SC)).

(** A daemon listens once: [serve] takes the receiver of the event sources, and
    panics where it is gone. *)
Lemma serve_once (r r' : Daemon) a : serve r = (Ok a, r') → ∀ b, (serve r').1 ≠ Ok b.
Proof.
  assert (K : ∀ {A} (m : stm Disk string A) (r : Daemon), rd_source_rx (on_host m r).2 = rd_source_rx r).
  { intros A m r0. unfold on_host. by destruct (m _). }
  assert (T : ∀ (r : Daemon) b r', serve r = (Ok b, r') → rd_source_rx r = true ∧ rd_source_rx r' = false).
  { intros r0 b r0' Hs. unfold serve in Hs.
    apply stm_bind_ok in Hs as (path & s1 & [= <- <-] & Hs). apply stm_bind_ok in Hs as ([] & s2 & H2' & Hs).
    apply stm_bind_ok in Hs as ([] & s3 & H3' & Hs). apply stm_bind_ok in Hs as ([] & s4 & H4' & Hs).
    apply stm_bind_ok in Hs as ([] & s5 & H5' & Hs). injection Hs as _ <-.
    assert (rd_source_rx s2 = rd_source_rx r0).
    { destruct (parent (rd_socket_path r0)); [|by injection H2' as ->].
      pose proof (K _ fs_create_dirs r0) as X. by rewrite H2' in X. }
    assert (rd_source_rx s3 = rd_source_rx s2) 
      by (pose proof (K _ (ignore (fs_remove_file (rd_socket_path r0))) s2) as X; by rewrite H3' in X).
    assert (rd_source_rx s4 = rd_source_rx s3) 
      by (pose proof (K _ (bind_socket (rd_socket_path r0)) s3) as X; by rewrite H4' in X).
    unfold take_source_rx in H5'. destruct (rd_source_rx s4) eqn:E; [|done]. injection H5' as <-. cbn. split; [congruence|done]. }
  intros Hs b Hb. destruct (serve r') as [x r''] eqn:E. cbn in Hb. subst.
  destruct (T _ _ _ Hs) as [_ Hf]. destruct (T _ _ _ E) as [Ht _]. congruence.
Qed.

(** Whatever holds the socket's name, also one a running daemon listens on, is
    removed: the new daemon takes its place. *)
Lemma serve_takes_over (r : Daemon) f b : host_files (service r) = {| files := f; faults := [] |} → rd_source_rx r = true →
  f !! rd_socket_path r = Some b → is_ok (serve r).1 = true.
Proof. intros Hf Hr _. by rewrite (serve_calm r f). Qed.
End Twice.

(** ** Witnesses and examples *)

#[local] Existing Instance Wasm.demo_host.
#[local] Existing Instance demo_registry_json.
#[local] Existing Instance demo_oci_json.
#[local] Existing Instance demo_http.
#[local] Existing Instance demo_tar.

#[local] Instance OciContainerConfig_eq_dec : EqDecision OciContainerConfig.
Proof. solve_decision. Defined.
#[local] Instance OciContainerConfig_countable : Countable OciContainerConfig.
Proof.
  refine (inj_countable' (λ c, (cmd c, entrypoint c, Oci.env c, working_dir c))
    (λ '(a, b, c, d), {| cmd := a; entrypoint := b; Oci.env := c; working_dir := d |}) _). by intros [].
Defined.
#[local] Instance OciRootfs_eq_dec : EqDecision OciRootfs.
Proof. solve_decision. Defined.
#[local] Instance OciRootfs_countable : Countable OciRootfs.
Proof.
  refine (inj_countable' (λ c, (rootfs_type c, diff_ids c)) (λ '(a, b), {| rootfs_type := a; diff_ids := b |}) _). by intros [].
Defined.
#[local] Instance OciConfig_eq_dec : EqDecision OciConfig.
Proof. solve_decision. Defined.
#[local] Instance OciConfig_countable : Countable OciConfig.
Proof.
  refine (inj_countable' (λ c, (oc_architecture c, oc_os c, oc_config c, oc_rootfs c))
    (λ '(a, b, c, d), {| oc_architecture := a; oc_os := b; oc_config := c; oc_rootfs := d |}) _). by intros [].
Defined.
#[local] Instance ImageFormat_eq_dec : EqDecision ImageFormat.
Proof. solve_decision. Defined.
#[local] Instance ImageFormat_countable : Countable ImageFormat.
Proof.
  refine (inj_countable (λ f, match f with Raw => 0 | Qcow2 => 1 | Initramfs => 2 end)
    (λ z, Some (if decide (z = 0) then Raw else if decide (z = 1) then Qcow2 else Initramfs)) _). by intros [].
Defined.
#[local] Instance ImageInfo_eq_dec : EqDecision ImageInfo.
Proof. solve_decision. Defined.
#[local] Instance ImageInfo_countable : Countable ImageInfo.
Proof.
  refine (inj_countable' (λ i, (info_ref i, info_digest i, info_rootfs i, info_format i, info_size i, info_config i))
    (λ '(a, b, c, d, e, f), {| info_ref := a; info_digest := b; info_rootfs := c; info_format := d; info_size := e;
                               info_config := f |}) _). by intros [].
Defined.

#[local] Instance demo_blob_serde : Serde BlobStoreIndex := {| to_json := λ _, []; from_json := λ _, inr ∅ |}.
#[local] Instance demo_rootfs_serde : Serde RootfsCacheIndex := {| to_json := λ _, []; from_json := λ _, inl "bad" |}.
#[local] Instance demo_snapshot_serde : Serde SnapshotCacheIndex := {| to_json := λ _, []; from_json := λ _, inr ∅ |}.
#[local] Instance demo_image_serde : Serde (gmap string ImageInfo) := {|
  to_json := λ i, pos_bits (encode i);
  from_json := λ b, match decode (bits_pos b) with Some i => inr i | None => inl "bad" end |}.
Lemma demo_image_serde_ok : SerdeOk (gmap string ImageInfo).
Proof. intros i. simpl. by rewrite bits_pos_bits, decode_encode. Qed.

(** A disk an earlier daemon left: a configuration, a pulled image with its
    index, the socket of the daemon that is gone. *)
Definition demo_info : ImageInfo := {|
  info_ref := "nginx"; info_digest := "sha256:c3"; info_rootfs := "/i/r.cpio"; info_format := Initramfs; info_size := 1;
  info_config := None |}.
Definition demo_left : gmap string (list byte) :=
  {["/c" := string_bytes "a"; "/i/r.cpio" := [x00]; "/run/n.sock" := [];
    "/i/image_cache_index.json" := to_json ({["nginx" := demo_info]} : gmap string ImageInfo)]}.
Definition demo_old : ImageDaemonService (list HttpResponse) := {|
  registry_net := []; image_puller := {| puller := puller_new "/i" Initramfs; disk := {| files := demo_left; faults := [] |};
                                         Pull.tree := ∅ |};
  image_cache := {| ic_dir := "/i"; index := {["nginx" := demo_info]} |} |}.
Definition demo_parse (s : string) : option toml_doc := if String.eqb s "a" then Some (config_doc demo_config) else None.
Definition demo_args : list string := ["nova-daemon"; "--config"; "/c"].
Definition demo_started :=
  nova_daemon (N:=list HttpResponse) (P:=unit) (SC:=unit) demo_parse true [] ∅ demo_args {| files := demo_left; faults := [] |}.

Lemma restart_keeps_images_witness :
  ∃ addr rd, demo_started = Ok (addr, rd) ∧ addr = Some ("0.0.0.0", 80) ∧ idle (service rd) ∧
    cached_image demo_old "nginx" = Some demo_info ∧ cached_image (images (service rd)) "nginx" = Some demo_info.
Proof.
  assert (Hc : daemon_config demo_parse demo_args {| files := demo_left; faults := [] |} =
    (Ok demo_config, {| files := demo_left; faults := [] |})) by (vm_compute; reflexivity).
  destruct (restart_keeps_images (N:=list HttpResponse) (P:=unit) (SC:=unit) (λ _, "") (λ _, "") (λ _, "") (λ _, true)
    demo_report (λ _, "") (λ _, inl "none") (λ _, []) (λ _, None) (λ _, false) true [] ∅ (daemon_config demo_parse demo_args)
    demo_config demo_left demo_left demo_image_serde_ok Hc) as (Hiff & Hok & Hrd).
  fold demo_started in Hiff, Hok, Hrd.
  assert (Hne : demo_started ≠ Panic PanicUnwrap).
  { apply Hiff. split_and!; (eexists; vm_compute; reflexivity). }
  specialize (Hok Hne). unfold demo_started, nova_daemon in *.
  destruct (start _ _ _ _ _) as [[addr rd]| |]; [|discriminate Hok..].
  destruct (Hrd addr rd eq_refl) as (Ha & Hi & _ & _ & _ & Hold). exists addr, rd.
  assert (Hc0 : cached_image demo_old "nginx" = Some demo_info) by (vm_compute; reflexivity).
  split_and!; [reflexivity|exact Ha|exact Hi|exact Hc0|].
  rewrite (Hold demo_old "nginx"); [exact Hc0|reflexivity|reflexivity|].
  intros info Hinfo. vm_compute in Hinfo. injection Hinfo as <-. clear.
  apply (bool_decide_unpack (_ ∉ _)). vm_compute. exact I.
Defined.

(** A rootfs index that is damaged keeps the daemon from starting; a damaged
    image index only loses the images. *)
Definition demo_start (f : gmap string (list byte)) :=
  start (N:=list HttpResponse) (P:=unit) (SC:=unit) true [] ∅ (λ d, (Ok demo_config, d)) {| files := f; faults := [] |}.
Example damaged_index :
  demo_start {["/i/rootfs/rootfs_index.json" := [x00]]} = Panic PanicUnwrap ∧
  (λ r, index (image_cache (images (service r.2)))) <$>
    demo_start {["/i/image_cache_index.json" := z2b <$> [3]]} = Ok ∅.
Proof. split; vm_compute; reflexivity. Qed.

(** An option that ends the command line, and one that names no file. *)
Example config_arguments :
  parse_config_arg ["nova-daemon"; "--config"] = None ∧
  (daemon_config demo_parse ["nova-daemon"; "--config"; "/none"] {| files := demo_left; faults := [] |}).1 = Ok defaults ∧
  (daemon_config demo_parse demo_args {| files := {["/c" := string_bytes "b"]}; faults := [] |}).1 = Err ConfigToml ∧
  (daemon_config demo_parse demo_args {| files := {["/c" := z2b <$> [0xFF]]}; faults := [] |}).1 =
    Err (ConfigIo "stream did not contain valid UTF-8").
Proof. split_and!; vm_compute; reflexivity. Qed.
