(* ===== verification/Desktop.v ===== *)
(** * The desktop client (desktop/src/main.rs)

    The commands that drive a daemon over its REST interface: a small HTTP
    client, the requests of each command, and the tables that are printed.
    The commands that run programs inside WSL are in Wsl.v. *)

From stdpp Require Import pretty.
From S2P Require Import Prelude Builder Store Registry Agent Eye GuestImage Daemon Rest.
#[local] Open Scope Z_scope.

(** ** Strings *)

Definition crlf : string := String cr_char newline.
Definition before_char (c : Ascii.ascii) (s : string) : string :=
  match split_on c s with a :: _ => a | [] => "" end.

(** A byte index between two characters, and slices, which panic elsewhere. *)
Definition continues (c : Ascii.ascii) : bool :=
  (0x80 <=? Z.of_nat (Ascii.nat_of_ascii c)) && (Z.of_nat (Ascii.nat_of_ascii c) <=? 0xBF).
Definition is_char_boundary (n : nat) (s : string) : bool :=
  (n =? String.length s)%nat || match String.get n s with Some c => negb (continues c) | None => false end.
Definition slice {E} (a b : nat) (s : string) : outcome E string :=
  if (a <=? b)%nat && (b <=? String.length s)%nat && is_char_boundary a s && is_char_boundary b s
  then Ok (String.substring a (b - a) s) else Panic PanicBounds.

(** [usize::from_str_radix(s, 16)] and [parse::<u16>]. *)
Fixpoint hex_digits (acc : Z) (s : string) : option Z :=
  match s with
  | EmptyString => Some acc
  | String c s => d ← hex_value c; hex_digits (acc * 16 + d) s
  end.
Definition in_unsigned (w z : Z) : option Z := if z <? 2 ^ w then Some z else None.
Definition without_plus (s : string) : string :=
  match s with
  | String c (String _ _ as r) => if Ascii.eqb c (Ascii.ascii_of_nat 43) then r else s
  | _ => s
  end.
Definition parse_unsigned (digits : Z → string → option Z) (w : Z) (s : string) : option Z :=
  if String.eqb s "" then None else digits 0 (without_plus s) ≫= in_unsigned w.
Definition parse_usize16 : string → option Z := parse_unsigned hex_digits 64.
Definition parse_u16 : string → option Z := parse_unsigned all_digits 16.

(** [split_whitespace().nth(n)]. *)
Fixpoint take_word (fuel : nat) (l : list Z) : list Z * list Z :=
  match fuel, l with
  | S fuel, b :: l' =>
      match first_prefix white_space l with
      | Some _ => ([], l)
      | None => let '(w, r) := take_word fuel l' in (b :: w, r)
      end
  | _, _ => ([], l)
  end.
Fixpoint nth_word (n : nat) (l : list Z) : option (list Z) :=
  let l := drop_white (length l) white_space l in
  let '(w, r) := take_word (length l) l in
  match w, n with
  | [], _ => None
  | _, O => Some w
  | _, S n => nth_word n r
  end.
Definition second_word (s : string) : option string :=
  (λ w, bytes_string (z2b <$> w)) <$> nth_word 1 (b2z <$> string_bytes s).

(** [lines().next()], or nothing. *)
Definition first_line (s : string) : string :=
  let l := before_char newline_char s in
  match strip_prefix (String cr_char "") (String.string_of_list_ascii (reverse (String.list_ascii_of_string l))) with
  | Some r => if contains_str newline s then String.string_of_list_ascii (reverse (String.list_ascii_of_string r)) else l
  | None => l
  end.

(** ** The HTTP client *)

(** [trim_start_matches] of line ends; the length is enough fuel. *)
Fixpoint drop_crlf (fuel : nat) (s : string) : string :=
  match fuel, strip_prefix crlf s with
  | S fuel, Some r => drop_crlf fuel r
  | _, _ => s
  end.

(** Sizes are added in [usize]. *)
Fixpoint decode_chunks {E} (fuel : nat) (remaining : string) : option (outcome E string) :=
  match fuel with
  | O => None
  | S fuel =>
      let r := drop_crlf (String.length remaining) remaining in
      if String.eqb r "" then Some (Ok "") else
      let size_str := match split_first crlf r with Some (a, _) => a | None => r end in
      let size := default 0 (parse_usize16 (trim size_str)) in
      if size =? 0 then Some (Ok "") else
      let data_start := (String.length size_str + 2)%nat in
      let data_end := wrap64 (Z.of_nat data_start + size) in
      if data_end <=? Z.of_nat (String.length r) then
        match slice data_start (Z.to_nat data_end) r, slice (Z.to_nat data_end) (String.length r) r with
        | Ok data, Ok rest =>
            more ← decode_chunks fuel rest;
            Some (match more with Ok m => Ok (data +:+ m) | e => e end)
        | Panic p, _ | _, Panic p => Some (Panic p)
        | Err e, _ | _, Err e => Some (Err e)
        end
      else Some (slice data_start (String.length r) r)
  end.
Definition decode_chunked {E} (raw : string) : outcome E string :=
  default (Panic PanicBounds) (decode_chunks (S (String.length raw)) raw).

(** What is made of the bytes of a response: the status and the body. *)
Definition parse_response {E} (response : string) : outcome E (Z * string) :=
  let status := default 0 (second_word (first_line response) ≫= parse_u16) in
  match split_first (crlf +:+ crlf) response with
  | Some (_, raw) =>
      body ← (if contains_str "Transfer-Encoding: chunked" response then decode_chunked raw else Ok raw);
      Ok (status, body)
  | None => Ok (status, "")
  end.

(** What the client uses of its system: one connection at a time, and its
    output. *)
Class DesktopHost (W : Type) := {
  tcp_connect : string → stm W string unit;
  tcp_write : string → stm W string unit;
  tcp_read_to_end : stm W string (list byte);
  tcp_read : nat → stm W string (list byte);
  print_out : string → W → W;
  print_err : string → W → W;
}.
(** serde_json: values, and the texts of the request bodies. *)
Class JsonText (V : Type) := {
  json_null : V;
  parse_json : string → string + V;
  json_get : string → V → V;
  json_has : string → V → bool;
  json_str : V → option string;
  json_array : V → option (list V);
  json_pretty : V → string;
  exec_result : V → string + ExecResult;
  create_text : string → string → Z → Z → option string → string;
  exec_text : string → string;
  pull_text : string → string;
}.

Section Client.
Context {W V : Type} `{DesktopHost W} `{JsonText V}.
Local Abbreviation run := (stm W string).

Definition DEFAULT_HOST : string := "127.0.0.1:9800".
Definition parse_host (api : string) : string :=
  before_char slash (default api (strip_prefix "http://" api)).

Definition failing {A} (f : string → string) (m : run A) : run A := λ w, let '(r, w) := m w in (map_err f r, w).
Definition println (s : string) : run unit := modify (print_out (s +:+ newline)).

Definition http_text (host method path : string) (body : option string) : string :=
  let hostname := before_char colon host in
  match body with
  | Some b =>
      method +:+ " " +:+ path +:+ " HTTP/1.1" +:+ crlf +:+ "Host: " +:+ hostname +:+ crlf +:+
      "Content-Type: application/json" +:+ crlf +:+ "Content-Length: " +:+ pretty (String.length b) +:+ crlf +:+
      "Connection: close" +:+ crlf +:+ crlf +:+ b
  | None =>
      method +:+ " " +:+ path +:+ " HTTP/1.1" +:+ crlf +:+ "Host: " +:+ hostname +:+ crlf +:+
      "Connection: close" +:+ crlf +:+ crlf
  end.

Definition http_request (host method path : string) (body : option string) : run (Z * string) :=
  failing (λ e, "connection failed (" +:+ host +:+ "): " +:+ e) (tcp_connect host) ;;
  failing (λ e, "write failed: " +:+ e) (tcp_write (http_text host method path body)) ;;
  buf ← failing (λ e, "read failed: " +:+ e) tcp_read_to_end;
  lift (parse_response (from_utf8_lossy buf)).

(** [api_post_json], [api_post_empty] and [api_delete]; [api_get] quotes the
    start of a body that is no JSON. *)
Definition api_call (method : string) (quote : string → outcome string string) (api path : string) (body : option string)
    : run V :=
  '(status, resp) ← http_request (parse_host api) method path body;
  if 400 <=? status then throw (method +:+ " " +:+ path +:+ " -> " +:+ pretty status +:+ " " +:+ trim resp)
  else if String.eqb (trim resp) "" then mret json_null
  else match parse_json resp with
       | inr v => mret v
       | inl e => q ← lift (quote resp); throw ("JSON parse error: " +:+ e +:+ q)
       end.
Definition api_get (api path : string) : run V :=
  api_call "GET" (λ body, start ← slice 0 (Nat.min (String.length body) 200) body; Ok (" (body: " +:+ start +:+ ")")) api path None.
Definition api_post_json (api path body : string) : run V := api_call "POST" (λ _, Ok "") api path (Some body).
Definition api_post_empty (api path : string) : run V := api_call "POST" (λ _, Ok "") api path None.
Definition api_delete (api path : string) : run V := api_call "DELETE" (λ _, Ok "") api path None.

Definition health_text : string :=
  "GET /health HTTP/1.1" +:+ crlf +:+ "Host: localhost" +:+ crlf +:+ "Connection: close" +:+ crlf +:+ crlf.
(** Every failure means no. *)
Definition or_no (m : run bool) : run bool := λ w,
  match m w with (Err _, w) => (Ok false, w) | r => r end.
Definition daemon_healthy (api : string) : run bool :=
  or_no (tcp_connect (parse_host api) ;;
    tcp_write health_text ;;
    buf ← tcp_read 512;
    mret (match buf with
          | [] => false
          | _ => let resp := from_utf8_lossy buf in contains_str "200" resp || contains_str "ok" resp
          end)).

(** *** Output *)

Definition char_count (s : string) : nat := length (filter (λ c, continues c = false) (String.list_ascii_of_string s)).
Definition spaces (n : nat) : string := String.concat "" (replicate n " ").
(** [{:width$}] counts characters. *)
Definition padded (s : string) (width : nat) : string := s +:+ spaces (width - char_count s).

(** Widths are the byte lengths of the longest cells. *)
Definition widths (headers : list string) (rows : list (list string)) : list nat :=
  foldl (λ ws row, imap (λ i w, match row !! i with Some cell => Nat.max w (String.length cell) | None => w end) ws)
    (String.length <$> headers) rows.
Definition table_row (ws : list nat) (row : list string) : string :=
  String.concat "  " (imap (λ i cell, padded cell (default (String.length cell) (ws !! i))) row).
Definition print_table (headers : list string) (rows : list (list string)) : run unit :=
  match rows with
  | [] => println "(none)"
  | _ =>
      let ws := widths headers rows in
      println (table_row ws headers) ;;
      println (String.concat "  " ((λ w, String.concat "" (replicate w "-")) <$> ws)) ;;
      for_each (λ row, println (table_row ws row)) rows
  end.

Definition short_id {E} (i : string) : outcome E string := if (12 <? String.length i)%nat then slice 0 12 i else Ok i.
Definition rand_id (nanos : Z) : string := "sb-" +:+ fmt_x (Z.land nanos 0xFFFFFFFF).

(** *** Commands *)

Definition sandboxes_path : string := "/api/v1/sandboxes".
Definition sandbox_path (i : string) : string := sandboxes_path +:+ "/" +:+ i.

Definition cmd_run (nanos : Z) (api image : string) (name : option string) (vcpus memory : Z) (cmd : option string) : run unit :=
  healthy ← daemon_healthy api;
  if negb healthy then throw "Daemon is not running. Start it with: nova start" else
  let i := default (rand_id nanos) name in
  println ("[*] Creating sandbox '" +:+ i +:+ "' with " +:+ image +:+ "...") ;;
  _ ← api_post_json api sandboxes_path (create_text i image vcpus memory cmd);
  println ("[+] Sandbox '" +:+ i +:+ "' running").

Definition field_text (key : string) (v : V) : string := default "-" (json_str (json_get key v)).
Definition array_of (v : V) : run (list V) := lift (ok_or "expected array" (json_array v)).

Definition cmd_ps (api : string) : run unit :=
  v ← api_get api sandboxes_path;
  arr ← array_of v;
  print_table ["ID"; "IMAGE"; "STATE"; "CREATED"]
    ((λ s, [field_text "sandbox_id" s; field_text "image" s; field_text "state" s; field_text "created_at" s]) <$> arr).

(** The exit status of the client, if the command's is not zero. *)
Definition cmd_exec (api sandbox : string) (command : list string) : run (option Z) :=
  v ← api_post_json api (sandbox_path sandbox +:+ "/exec") (exec_text (String.concat " " command));
  r ← lift (map_err (λ e, "parse error: " +:+ e) (of_sum (exec_result v)));
  modify (λ w, if String.eqb (er_stdout r) "" then w else
    let w := print_out (er_stdout r) w in
    if ends_with newline (er_stdout r) then w else print_out newline w) ;;
  modify (λ w, if String.eqb (er_stderr r) "" then w else print_err (er_stderr r) w) ;;
  mret (if er_exit_code r =? 0 then None else Some (er_exit_code r)).

Definition cmd_stop_sandbox (api sandbox : string) : run unit :=
  _ ← api_post_empty api (sandbox_path sandbox +:+ "/stop");
  println ("[+] Sandbox '" +:+ sandbox +:+ "' stopped").
Definition cmd_rm (api sandbox : string) : run unit :=
  _ ← api_delete api (sandbox_path sandbox);
  println ("[+] Sandbox '" +:+ sandbox +:+ "' removed").

Definition pull_path : string := "/api/v1/images/pull".
Definition images_path : string := "/api/v1/images".
Definition cmd_pull (api image : string) : run unit :=
  println ("[*] Pulling " +:+ image +:+ "...") ;;
  v ← api_post_json api pull_path (pull_text image);
  d ← lift (short_id (default "unknown" (json_str (json_get "digest" v))));
  println ("[+] Pulled " +:+ image +:+ " (" +:+ d +:+ ")").
Definition image_row (v : V) : outcome string (list string) :=
  d ← short_id (field_text "digest" v); Ok [field_text "name" v; d; field_text "size" v].
Fixpoint collect {A B} (f : A → outcome string B) (l : list A) : outcome string (list B) :=
  match l with [] => Ok [] | a :: l => b ← f a; bs ← collect f l; Ok (b :: bs) end.
Definition cmd_images (api : string) : run unit :=
  v ← api_get api images_path;
  arr ← array_of v;
  rows ← lift (collect image_row arr);
  print_table ["IMAGE"; "DIGEST"; "SIZE"] rows.
Definition logs_path (sandbox : string) : string := sandbox_path sandbox +:+ "/logs".
Definition cmd_logs (api sandbox : string) : run unit :=
  v ← api_get api (logs_path sandbox);
  match json_str (json_get "logs" v) with
  | Some logs => modify (print_out logs)
  | None => println (json_pretty v)
  end.

(** A failure of the first request leads to the second. *)
Definition tried {A} (m : run A) : run (option A) := λ w,
  match m w with (Ok a, w) => (Ok (Some a), w) | (Err _, w) => (Ok None, w) | (Panic p, w) => (Panic p, w) end.
Definition cmd_inspect (api target : string) : run unit :=
  first ← tried (api_get api (sandbox_path target));
  match first with
  | Some v =>
      if json_has "sandbox_id" v then println (json_pretty v) else
      second ← tried (api_get api (images_path +:+ "/" +:+ target));
      match second with
      | Some v => println (json_pretty v)
      | None => throw ("'" +:+ target +:+ "' not found as sandbox or image")
      end
  | None =>
      second ← tried (api_get api (images_path +:+ "/" +:+ target));
      match second with
      | Some v => println (json_pretty v)
      | None => throw ("'" +:+ target +:+ "' not found as sandbox or image")
      end
  end.
End Client.

(** *** Sizes, as a server writes them *)

Lemma hex_value_char d : 0 ≤ d < 16 → hex_value (hex_char d) = Some d.
Proof.
  intros Hd. assert (Hall : forallb (λ d, bool_decide (hex_value (hex_char d) = Some d)) (seqZ 0 16) = true) by reflexivity.
  rewrite forallb_forall in Hall. specialize (Hall d). rewrite bool_decide_eq_true in Hall. apply Hall.
  apply list_elem_of_In, elem_of_seqZ. lia.
Qed.

Lemma hex_go_value fuel z acc : (0 < fuel)%nat → 0 ≤ z < 16 ^ Z.of_nat fuel →
  hex_digits 0 (hex_go fuel z acc) = hex_digits z acc.
Proof.
  revert z acc. induction fuel as [|fuel IH]; intros z acc Hf Hz; [lia|]. cbn [hex_go].
  pose proof (Z.mod_pos_bound z 16). destruct (Z.eqb_spec (z / 16) 0) as [E|E].
  - cbn [hex_digits]. rewrite hex_value_char by lia. cbn [mbind option_bind]. f_equal. Z.to_euclidean_division_equations. lia.
  - assert (Hb : 0 ≤ z / 16 < 16 ^ Z.of_nat fuel).
    { rewrite Nat2Z.inj_succ, Z.pow_succ_r in Hz by lia. split; [apply Z.div_pos; lia|]. apply Z.div_lt_upper_bound; lia. }
    destruct fuel as [|fuel]; [cbn in Hb; lia|]. rewrite IH by (done || lia). cbn [hex_digits].
    rewrite hex_value_char by lia. cbn [mbind option_bind]. f_equal. Z.to_euclidean_division_equations. lia.
Qed.

Definition hex_ascii (b : Z) : bool := ((48 <=? b) && (b <=? 57)) || ((97 <=? b) && (b <=? 102)).
Lemma hex_go_ascii fuel z acc : 0 ≤ z → all_bytes hex_ascii acc = true → all_bytes hex_ascii (hex_go fuel z acc) = true.
Proof.
  revert z acc. induction fuel as [|fuel IH]; intros z acc Hz Ha; [done|]. cbn [hex_go].
  assert (Hc : all_bytes hex_ascii (String (hex_char (z mod 16)) acc) = true).
  { rewrite all_bytes_cons, Ha, andb_true_r. pose proof (Z.mod_pos_bound z 16).
    assert (Hall : forallb (λ d, hex_ascii (b2z (Ascii.byte_of_ascii (hex_char d)))) (seqZ 0 16) = true) by reflexivity.
    rewrite forallb_forall in Hall. apply Hall, list_elem_of_In, elem_of_seqZ. lia. }
  destruct (_ =? 0); [done|]. apply IH; [apply Z.div_pos; lia|done].
Qed.

(** The bytes [P] holds of, inside those [Q] holds of. *)
Lemma all_bytes_mono (P Q : Z → bool) s : (∀ b, P b = true → Q b = true) → all_bytes P s = true → all_bytes Q s = true.
Proof. intros HPQ Hs. unfold all_bytes in *. rewrite forallb_forall in *. eauto. Qed.

Lemma fmt_x_parse n : 0 ≤ n < 2 ^ 64 →
  parse_usize16 (trim (fmt_x n)) = Some n ∧ all_bytes hex_ascii (fmt_x n) = true ∧
  ∃ d s, fmt_x n = String d s.
Proof.
  intros Hn. assert (Ha : all_bytes hex_ascii (fmt_x n) = true) by (apply hex_go_ascii; [lia|done]).
  assert (Hcons : ∃ d s, fmt_x n = String d s).
  { unfold fmt_x. assert (Hg : ∀ f z c acc, ∃ d s, hex_go f z (String c acc) = String d s).
    { induction f as [|f IH]; intros z c acc; cbn [hex_go]; [eauto|]. destruct (_ =? 0); [eauto|]. apply IH. }
    assert (Hg' : ∀ f z acc, ∃ d s, hex_go (S f) z acc = String d s).
    { intros f z acc. cbn [hex_go]. destruct (_ =? 0); [eauto|]. apply Hg. }
    apply (Hg' 15%nat). }
  split_and!; [|done|done]. rewrite trim_graphic.
  2: { eapply all_bytes_mono; [|exact Ha]. intros b. unfold hex_ascii, graphic. rewrite !orb_true_iff, !andb_true_iff. lia. }
  destruct Hcons as (d & s & E). unfold parse_usize16, parse_unsigned. rewrite E. cbn [String.eqb].
  assert (Hp : without_plus (String d s) = String d s).
  { unfold without_plus. destruct s as [|d' s]; [done|]. destruct (Ascii.eqb_spec d (Ascii.ascii_of_nat 43)) as [->|]; [|done].
    by rewrite E, all_bytes_cons in Ha. }
  rewrite Hp, <- E. unfold fmt_x. rewrite hex_go_value by (done || (cbn; lia)). cbn [hex_digits mbind option_bind].
  unfold in_unsigned. by rewrite (proj2 (Z.ltb_lt _ _)) by lia.
Qed.

(** *** Chunked bodies *)

Lemma split_crlf a w : all_bytes hex_ascii a = true → split_first crlf (a +:+ crlf +:+ w) = Some (a, w).
Proof.
  intros Ha. rewrite (split_first_here crlf (String cr_char "") newline_char); [done|done|].
  unfold contains_str. apply bool_decide_eq_false_2. intros [[x y] Hx].
  assert (Hf : split_first crlf (a +:+ String cr_char "") = None); [|congruence]. clear Hx.
  induction a as [|c a IH]; [done|]. rewrite all_bytes_cons in Ha. apply andb_true_iff in Ha as [Hc Ha]. rewrite sapp_cons.
  cbn [split_first]. rewrite (IH Ha). unfold crlf. cbn [strip_prefix].
  destruct (Ascii.eqb_spec cr_char c) as [<-|]; [done|]. done.
Qed.

Lemma drop_crlf_head d s fuel : d ≠ cr_char → drop_crlf fuel (String d s) = String d s.
Proof. intros Hd. destruct fuel; cbn; [done|]. destruct (Ascii.eqb_spec cr_char d); [congruence|done]. Qed.

Definition chunk_of (c : string) : string := fmt_x (Z.of_nat (String.length c)) +:+ crlf +:+ c +:+ crlf.
Definition chunked (cs : list string) : string := foldr (λ c s, chunk_of c +:+ s) ("0" +:+ crlf +:+ crlf) cs.
(** A chunk starts with a character. *)
Definition starts_char (c : string) : bool := match c with EmptyString => false | String a _ => negb (continues a) end.

Lemma boundary_app pre y : (y = "" ∨ starts_char y = true) → is_char_boundary (String.length pre) (pre +:+ y) = true.
Proof.
  intros Hy. unfold is_char_boundary. rewrite length_sapp. destruct Hy as [->|Hy].
  - cbn [String.length]. by rewrite Nat.add_0_r, Nat.eqb_refl.
  - destruct y as [|c y]; [done|]. apply orb_true_iff. right.
    assert (E : String.get (String.length pre) (pre +:+ String c y) = Some c) by (induction pre; [done|by rewrite sapp_cons]).
    by rewrite E.
Qed.

Lemma slice_app {E} pre x y : starts_char (x +:+ y) = true → (y = "" ∨ starts_char y = true) →
  slice (E:=E) (String.length pre) (String.length pre + String.length x) (pre +:+ x +:+ y) = Ok x.
Proof.
  intros Hx Hy. unfold slice. rewrite (proj2 (Nat.leb_le _ _)) by lia. rewrite (proj2 (Nat.leb_le _ _)) by (rewrite !length_sapp; lia).
  rewrite boundary_app by by right. rewrite <- sapp_assoc, <- length_sapp, boundary_app by done. cbn [andb].
  f_equal. rewrite sapp_assoc, length_sapp. replace (_ + _ - _)%nat with (String.length x) by lia. by apply substring_app.
Qed.
Lemma slice_rest {E} pre y : starts_char y = true → slice (E:=E) (String.length pre) (String.length (pre +:+ y)) (pre +:+ y) = Ok y.
Proof.
  intros Hy. pose proof (slice_app (E:=E) pre y "") as Hs. assert (Hn : y +:+ "" = y) by (clear; induction y; [done|rewrite sapp_cons; congruence]).
  rewrite Hn, <- length_sapp in Hs. apply Hs; [done|by left].
Qed.

Lemma drop_crlf_once d s fuel : d ≠ cr_char → drop_crlf (S fuel) (crlf +:+ String d s) = String d s.
Proof. intros Hd. cbn [drop_crlf]. rewrite strip_prefix_app. by apply drop_crlf_head. Qed.
Lemma hex_go_len fuel z acc : (String.length (hex_go fuel z acc) ≤ fuel + String.length acc)%nat.
Proof.
  revert z acc. induction fuel as [|fuel IH]; intros z acc; cbn [hex_go]; [lia|].
  destruct (_ =? 0); cbn; [lia|]. etransitivity; [apply IH|]. cbn. lia.
Qed.

(** One chunk, behind the line end of the one before. *)
Lemma decode_chunk_step {E} pre c t fuel :
  pre = "" ∨ pre = crlf → starts_char c = true → Z.of_nat (String.length c) < 2 ^ 62 →
  decode_chunks (E:=E) (S fuel) (pre +:+ chunk_of c +:+ t) =
    more ← decode_chunks fuel (crlf +:+ t); Some (match more with Ok m => Ok (c +:+ m) | e => e end).
Proof.
  intros Hpre Hc Hl. set (n := Z.of_nat (String.length c)) in *.
  destruct (fmt_x_parse n) as (Hparse & Hhex & d & ds & Ed); [unfold n in *; lia|].
  assert (Hd : d ≠ cr_char) by (intros ->; by rewrite Ed, all_bytes_cons in Hhex).
  set (body := chunk_of c +:+ t). cbn [decode_chunks].
  assert (Er : drop_crlf (String.length (pre +:+ body)) (pre +:+ body) = body).
  { unfold body, chunk_of. fold n. rewrite Ed. rewrite !sapp_assoc, sapp_cons.
    destruct Hpre as [->| ->]; [exact (drop_crlf_head d _ _ Hd)|].
    exact (drop_crlf_once d _ _ Hd). }
  rewrite Er. assert (Hne : String.eqb body "" = false) by (unfold body, chunk_of; fold n; by rewrite Ed).
  rewrite Hne. assert (Hsplit : split_first crlf body = Some (fmt_x n, c +:+ crlf +:+ t)).
  { unfold body, chunk_of. fold n. rewrite !sapp_assoc. by apply split_crlf. }
  rewrite Hsplit, Hparse. change (default 0 (Some n)) with n. destruct (Z.eqb_spec n 0) as [E0|_]; [by destruct c|].
  set (a := fmt_x n +:+ crlf). assert (Ha : (String.length (fmt_x n) + 2)%nat = String.length a) by (unfold a; rewrite length_sapp; done).
  assert (Eb : body = a +:+ c +:+ (crlf +:+ t)) by (unfold body, chunk_of, a; fold n; by rewrite !sapp_assoc).
  assert (Hlen : (String.length (fmt_x n) ≤ 16)%nat).
  { unfold fmt_x. etransitivity; [apply hex_go_len|]. cbn. lia. }
  rewrite Ha. assert (Hw : wrap64 (Z.of_nat (String.length a) + n) = Z.of_nat (String.length a + String.length c)).
  { rewrite <- Ha in *. unfold n. rewrite wrap_small; [lia|]. unfold fits, n in *. lia. }
  rewrite Hw, Nat2Z.id. rewrite (proj2 (Z.leb_le _ _)) by (rewrite Eb, !length_sapp; lia).
  rewrite Eb at 1. rewrite slice_app by (try right; by destruct c).
  rewrite Eb, <- sapp_assoc, <- length_sapp, slice_rest by done. done.
Qed.

Definition concat_str (cs : list string) : string := foldr String.append "" cs.

Lemma decode_all {E} pre cs t v fuel :
  pre = "" ∨ pre = crlf → Forall (λ c, starts_char c = true ∧ Z.of_nat (String.length c) < 2 ^ 62) cs →
  (∀ pre fuel, pre = "" ∨ pre = crlf → decode_chunks (E:=E) (S fuel) (pre +:+ t) = Some (Ok v)) →
  (length cs < fuel)%nat →
  decode_chunks (E:=E) fuel (pre +:+ foldr (λ c s, chunk_of c +:+ s) t cs) = Some (Ok (concat_str cs +:+ v)).
Proof.
  intros Hpre Hcs Ht. revert pre fuel Hpre. induction Hcs as [|c cs [Hc Hl] _ IH]; intros pre fuel Hpre Hf;
    (destruct fuel as [|fuel]; [cbn in Hf; lia|]).
  - by apply Ht.
  - cbn [foldr]. rewrite decode_chunk_step by done. rewrite IH; [|by right|cbn in Hf; lia]. cbn. by rewrite sapp_assoc.
Qed.

Lemma decode_end {E} pre fuel : pre = "" ∨ pre = crlf → decode_chunks (E:=E) (S fuel) (pre +:+ "0" +:+ crlf +:+ crlf) = Some (Ok "").
Proof. by intros [->| ->]. Qed.

(** The last chunk cut short. *)
Lemma decode_cut {E} n part pre fuel :
  0 < n < 2 ^ 62 → (part = "" ∨ starts_char part = true) → Z.of_nat (String.length part) < n →
  pre = "" ∨ pre = crlf → decode_chunks (E:=E) (S fuel) (pre +:+ fmt_x n +:+ crlf +:+ part) = Some (Ok part).
Proof.
  intros Hn Hp Hl Hpre. destruct (fmt_x_parse n) as (Hparse & Hhex & d & ds & Ed); [lia|].
  assert (Hd : d ≠ cr_char) by (intros ->; by rewrite Ed, all_bytes_cons in Hhex).
  set (body := fmt_x n +:+ crlf +:+ part). cbn [decode_chunks].
  assert (Er : drop_crlf (String.length (pre +:+ body)) (pre +:+ body) = body).
  { unfold body. rewrite Ed, !sapp_cons.
    destruct Hpre as [->| ->]; [exact (drop_crlf_head d _ _ Hd)|exact (drop_crlf_once d _ _ Hd)]. }
  rewrite Er. assert (Hne : String.eqb body "" = false) by (unfold body; by rewrite Ed).
  rewrite Hne. assert (Hsplit : split_first crlf body = Some (fmt_x n, part)) by by apply split_crlf.
  rewrite Hsplit, Hparse. change (default 0 (Some n)) with n.
  destruct (Z.eqb_spec n 0) as [|_]; [lia|].
  set (a := fmt_x n +:+ crlf). assert (Ha : (String.length (fmt_x n) + 2)%nat = String.length a) by (unfold a; rewrite length_sapp; done).
  assert (Eb : body = a +:+ part) by (unfold body, a; by rewrite !sapp_assoc).
  assert (Hlen : (String.length (fmt_x n) ≤ 16)%nat).
  { unfold fmt_x. etransitivity; [apply hex_go_len|]. cbn. lia. }
  rewrite Ha. rewrite wrap_small by (unfold fits; lia).
  rewrite (proj2 (Z.leb_gt _ _)) by (rewrite Eb, length_sapp; lia). f_equal. rewrite Eb.
  destruct Hp as [->|Hp]; [|by apply slice_rest].
  unfold slice. rewrite length_sapp. cbn [String.length]. rewrite Nat.add_0_r, Nat.leb_refl. cbn [andb].
  pose proof (boundary_app a "" ltac:(by left)) as Hb. rewrite Hb. cbn [andb]. rewrite Nat.sub_diag. clear. induction a; [done|cbn; done].
Qed.

Lemma strip_prefix_inv p s r : strip_prefix p s = Some r → s = p +:+ r.
Proof.
  revert s. induction p as [|c p IH]; intros s; [by intros [= ->]|]. destruct s as [|d s]; [done|]. cbn.
  destruct (Ascii.eqb_spec c d) as [->|]; [|done]. intros Hs. by rewrite sapp_cons, (IH s).
Qed.
Lemma substring_length a n s : (a + n ≤ String.length s)%nat → String.length (String.substring a n s) = n.
Proof.
  revert a n. induction s as [|c s IH]; intros [|a] [|n] Hl; cbn in *; try done; try lia.
  - f_equal. apply IH. lia.
  - apply IH. lia.
  - apply IH. lia.
Qed.

Lemma slice_inv {E} a b s x : slice (E:=E) a b s = Ok x → (a ≤ b)%nat ∧ (b ≤ String.length s)%nat ∧ String.length x = (b - a)%nat.
Proof.
  unfold slice. destruct (Nat.leb_spec a b); [|done]. destruct (Nat.leb_spec b (String.length s)); [|done]. cbn [andb].
  destruct (is_char_boundary a s && is_char_boundary b s); [|done]. intros [= <-].
  rewrite substring_length by lia. done.
Qed.

(** The loop ends: a round takes the size line at least. *)
Lemma decode_ends {E} fuel r : (String.length r < fuel)%nat → is_Some (decode_chunks (E:=E) fuel r).
Proof.
  revert r. induction fuel as [|fuel IH]; intros r Hr; [lia|]. cbn [decode_chunks].
  assert (Hd : ∀ f s, (String.length (drop_crlf f s) ≤ String.length s)%nat).
  { induction f as [|f IHf]; intros s; cbn [drop_crlf]; [by destruct (strip_prefix crlf s)|].
    destruct (strip_prefix crlf s) as [x|] eqn:Es; [|lia]. etransitivity; [apply IHf|]. apply strip_prefix_inv in Es as ->. rewrite length_sapp. lia. }
  specialize (Hd (String.length r) r). destruct (String.eqb _ ""); [by eexists|].
  destruct (_ =? 0); [by eexists|]. destruct (_ <=? _); [|by eexists].
  set (x := drop_crlf (String.length r) r) in *. set (de := Z.to_nat _).
  destruct (slice (E:=E) _ de x) as [data|e|p] eqn:E1; [|repeat case_match; by eexists..].
  destruct (slice (E:=E) de (String.length x) x) as [rest|e|p] eqn:E2; [|repeat case_match; by eexists..].
  destruct (IH rest) as [m Hm]; [|rewrite Hm; by eexists].
  apply slice_inv in E1 as (? & ? & _), E2 as (? & ? & ->). lia.
Qed.

(** *** Status lines *)

Lemma take_word_app fuel w r : forallb graphic w = true → (length w < fuel)%nat →
  take_word fuel (w ++ 32 :: r) = (w, 32 :: r).
Proof.
  revert fuel. induction w as [|b w IH]; intros fuel Hw Hf; (destruct fuel as [|fuel]; [cbn in Hf; lia|]); [done|].
  cbn [forallb] in Hw. apply andb_true_iff in Hw as [Hb Hw]. cbn [take_word app].
  rewrite first_prefix_graphic by done. rewrite IH by (done || (cbn in Hf; lia)). done.
Qed.

Lemma drop_white_word fuel b w : graphic b = true → drop_white fuel white_space (b :: w) = b :: w.
Proof. intros Hb. destruct fuel; [done|]. cbn [drop_white]. by rewrite first_prefix_graphic. Qed.

Lemma second_of a w1 b w2 r :
  forallb graphic (a :: w1) = true → forallb graphic (b :: w2) = true →
  nth_word 1 ((a :: w1) ++ 32 :: (b :: w2) ++ 32 :: r) = Some (b :: w2).
Proof.
  intros H1 H2. assert (Ha : graphic a = true) by (by apply andb_true_iff in H1 as [? _]).
  assert (Hb : graphic b = true) by (by apply andb_true_iff in H2 as [? _]).
  cbn [nth_word]. rewrite <- app_comm_cons, drop_white_word, app_comm_cons by done.
  rewrite take_word_app by (done || (rewrite length_app; cbn; lia)). 
  set (rest := (b :: w2) ++ 32 :: r). assert (Hd : ∀ n, drop_white (S n) white_space (32 :: rest) = rest).
  { intros n. cbn [drop_white]. change (first_prefix white_space (32 :: rest)) with (Some rest). by apply drop_white_word. }
  cbn [length]. rewrite Hd. unfold rest at 1 2. rewrite take_word_app by (done || (rewrite length_app; cbn; lia)). done.
Qed.

Lemma code_words code : 100 ≤ code < 1000 →
  parse_u16 (pretty code) = Some code ∧ all_bytes graphic (pretty code) = true ∧ pretty code ≠ "".
Proof.
  intros Hc. assert (Hall : forallb (λ n, bool_decide (parse_u16 (pretty n) = Some n ∧ all_bytes graphic (pretty n) = true ∧
    pretty n ≠ "")) (seqZ 100 900) = true) by (vm_compute; reflexivity).
  rewrite forallb_forall in Hall. specialize (Hall code). rewrite bool_decide_eq_true in Hall.
  apply Hall, list_elem_of_In, elem_of_seqZ. lia.
Qed.

Definition status_line (code : Z) (reason : string) : string := "HTTP/1.1 " +:+ pretty code +:+ " " +:+ reason.

Lemma status_line_word code reason : 100 ≤ code < 1000 → second_word (status_line code reason) = Some (pretty code).
Proof.
  intros Hc. destruct (code_words code Hc) as (_ & Hg & Hne). unfold second_word, status_line.
  change ("HTTP/1.1 " +:+ ?x) with ("HTTP/1.1" +:+ (" " +:+ x)).
  rewrite !string_bytes_app, !fmap_app. change (b2z <$> string_bytes " ") with [32]. cbn [app].
  unfold all_bytes in Hg. assert (Hg' : forallb graphic (b2z <$> string_bytes (pretty code)) = true).
  { rewrite <- Hg. clear. induction (string_bytes (pretty code)) as [|x l IH]; [done|]. cbn. by rewrite <- IH. }
  destruct (b2z <$> string_bytes (pretty code)) as [|b w] eqn:E.
  { apply fmap_nil_inv in E. destruct (pretty code); [done|]. done. }
  change (b2z <$> string_bytes "HTTP/1.1") with [72; 84; 84; 80; 47; 49; 46; 49].
  rewrite second_of by done. cbn [fmap option_fmap option_map]. f_equal. rewrite <- E, <- list_fmap_compose.
  rewrite <- (bytes_string_bytes (pretty code)) at 2. f_equal.
  rewrite <- (list_fmap_id (string_bytes (pretty code))) at 2. apply list_fmap_ext. intros _ x _. apply z2b_b2z.
Qed.

Lemma first_line_crlf l w : free newline_char l = true → first_line (l +:+ crlf +:+ w) = l.
Proof.
  intros Hl. unfold first_line, before_char.
  assert (Hs : ∃ ps, split_on newline_char (l +:+ crlf +:+ w) = (l +:+ String cr_char "") :: ps).
  { induction l as [|c l IH]; [by eexists|]. cbn [free] in Hl. apply andb_true_iff in Hl as [Hc Hl].
    destruct (IH Hl) as [ps Hps]. rewrite !sapp_cons. cbn [split_on]. rewrite Hps.
    destruct (decide (c = newline_char)) as [->|]; [done|]. by eexists. }
  destruct Hs as [ps ->].
  assert (Hc : contains_str newline (l +:+ crlf +:+ w) = true).
  { unfold newline. rewrite contains_free. apply negb_true_iff. rewrite !free_app. change (free newline_char crlf) with false.
    by rewrite andb_false_r. }
  assert (Happ : ∀ x y, String.list_ascii_of_string (x +:+ y) = String.list_ascii_of_string x ++ String.list_ascii_of_string y)
    by (intros x y; induction x as [|c x IH]; [done|rewrite sapp_cons; cbn; by rewrite IH]).
  rewrite Hc, Happ, reverse_app. cbn [String.list_ascii_of_string reverse rev_append app String.string_of_list_ascii strip_prefix].
  rewrite Ascii.eqb_refl, String.list_ascii_of_string_of_list_ascii, reverse_involutive.
  apply String.string_of_list_ascii_of_string.
Qed.

Lemma graphic_one_line s : all_bytes graphic s = true → free newline_char s = true.
Proof.
  induction s as [|x s IH]; [done|]. rewrite all_bytes_cons. intros [Hx Hs]%andb_true_iff. cbn [free].
  rewrite IH, andb_true_r by done. by destruct (Ascii.eqb_spec x newline_char) as [->|].
Qed.
Lemma chunks_length t cs : (length cs ≤ String.length (foldr (λ c s, chunk_of c +:+ s) t cs))%nat.
Proof.
  induction cs as [|c cs IH]; [apply Nat.le_0_l|]. cbn [foldr length]. rewrite length_sapp.
  assert (1 ≤ String.length (chunk_of c))%nat; [|lia]. unfold chunk_of. rewrite !length_sapp.
  change (String.length crlf) with 2%nat. lia.
Qed.


(** ** Commands and routes *)

Lemma split_on_free c a : free c a = true → split_on c a = [a].
Proof.
  induction a as [|x a IH]; [done|]. cbn [free]. intros [Hx Ha]%andb_true_iff. cbn [split_on]. rewrite (IH Ha).
  rewrite decide_False; [done|]. intros ->. by rewrite Ascii.eqb_refl in Hx.
Qed.
Lemma split_on_app c a w : free c a = true → split_on c (a +:+ String c w) = a :: split_on c w.
Proof.
  induction a as [|x a IH]; intros Ha.
  - change ("" +:+ String c w) with (String c w). cbn [split_on]. by rewrite decide_True.
  - cbn [free] in Ha. apply andb_true_iff in Ha as [Hx Ha]. rewrite sapp_cons. cbn [split_on]. rewrite (IH Ha).
    rewrite decide_False; [done|]. intros ->. by rewrite Ascii.eqb_refl in Hx.
Qed.

(** The segments of a sandbox's path. *)
Lemma sandbox_segments i rest : free slash i = true →
  split_on slash (sandbox_path i +:+ rest) =
    ["" ; "api"; "v1"; "sandboxes"] ++ match rest with
      | EmptyString => [i]
      | String c r => if decide (c = slash) then i :: split_on slash r else split_on slash (i +:+ rest)
      end.
Proof.
  intros Hi. unfold sandbox_path, sandboxes_path. rewrite !sapp_assoc.
  change (split_on slash ("/api/v1/sandboxes" +:+ "/" +:+ i +:+ rest)) with (["" ; "api"; "v1"; "sandboxes"] ++ split_on slash (i +:+ rest)).
  f_equal. destruct rest as [|c r].
  - assert (E : i +:+ "" = i) by (clear; induction i; [done|rewrite sapp_cons; congruence]). rewrite E. by apply split_on_free.
  - destruct (decide (c = slash)) as [->|]; [by apply split_on_app|done].
Qed.

Lemma router_sandbox method i : free slash i = true → i ≠ "" →
  router method (sandbox_path i) =
    if bool_decide (method = "GET") then Some (RouteGet i) else if bool_decide (method = "DELETE") then Some (RouteDestroy i) else None.
Proof.
  intros Hi Hne. pose proof (sandbox_segments i "" Hi) as Hs.
  assert (E : sandbox_path i +:+ "" = sandbox_path i) by (generalize (sandbox_path i) as x; induction x; [done|rewrite sapp_cons; congruence]).
  rewrite E in Hs. unfold router. change (Ascii.ascii_of_nat 47) with slash. rewrite Hs. cbn [app].
  rewrite bool_decide_eq_false_2 by done. done.
Qed.

(** The requests of the commands against the routes of the service: of a
    sandbox whose name is no path, running, listing, executing, stopping,
    removing and inspecting meet the handler they are for, with that name;
    no route serves the images a command pulls, lists or inspects, nor the
    logs of a sandbox, whatever the method. *)
Theorem desktop_routes i image method :
  free slash i = true → i ≠ "" →
  router "POST" sandboxes_path = Some RouteCreate ∧
  router "GET" sandboxes_path = Some RouteList ∧
  router "POST" (sandbox_path i +:+ "/exec") = Some (RouteExec i) ∧
  router "POST" (sandbox_path i +:+ "/stop") = Some (RouteStop i) ∧
  router "DELETE" (sandbox_path i) = Some (RouteDestroy i) ∧
  router "GET" (sandbox_path i) = Some (RouteGet i) ∧
  router "GET" "/health" = Some RouteHealth ∧
  router method pull_path = None ∧ router method images_path = None ∧
  router method (images_path +:+ "/" +:+ image) = None ∧
  router method (logs_path i) = None.
Proof.
  intros Hi Hne.
  assert (Hseg : ∀ m name, free slash name = true → router m (sandbox_path i +:+ String slash name) =
    match name with
    | "stop" => if bool_decide (m = "POST") then Some (RouteStop i) else None
    | "exec" => if bool_decide (m = "POST") then Some (RouteExec i) else None
    | "code" => if bool_decide (m = "POST") then Some (RouteCode i) else None
    | _ => None
    end).
  { intros m name Hn. unfold router. change (Ascii.ascii_of_nat 47) with slash. rewrite sandbox_segments by done.
    rewrite decide_True by done. rewrite split_on_free by done. cbn [app]. rewrite bool_decide_eq_false_2 by done.
    repeat (destruct name as [|[[] [] [] [] [] [] [] []] name]; try done). }
  split_and!; [done|done| | | | |done|done|done| |].
  - exact (Hseg "POST" "exec" eq_refl).
  - exact (Hseg "POST" "stop" eq_refl).
  - by rewrite router_sandbox.
  - by rewrite router_sandbox.
  - unfold router. change (Ascii.ascii_of_nat 47) with slash.
    change (split_on slash (images_path +:+ "/" +:+ image)) with (["" ; "api"; "v1"; "images"] ++ split_on slash image). done.
  - exact (Hseg method "logs" eq_refl).
Qed.

(** ** Witnesses and examples *)

Definition demo_headers : string := "Transfer-Encoding: chunked".
Definition demo_chunks : list string := ["ab"; "c"].


Lemma desktop_routes_witness :
  router "POST" "/api/v1/sandboxes/web-1/exec" = Some (RouteExec "web-1") ∧ router "GET" "/api/v1/sandboxes/web-1/logs" = None.
Proof.
  destruct (desktop_routes "web-1" "nginx" "GET" ltac:(vm_compute; reflexivity) ltac:(discriminate))
    as (_ & _ & He & _ & _ & _ & _ & _ & _ & _ & Hl). split; [exact He|exact Hl].
Defined.

(** A connection that ends before the line end of a size, a size that wraps
    around and one that ends inside a character make the client panic. *)
Example chunk_panics :
  decode_chunked (E:=string) "5" = Panic PanicBounds ∧
  decode_chunked (E:=string) ("ffffffffffffffff" +:+ crlf +:+ "x") = Panic PanicBounds ∧
  decode_chunked (E:=string) ("1" +:+ crlf +:+ bytes_string (z2b <$> [0xC3; 0xA9]) +:+ crlf) = Panic PanicBounds.
Proof. vm_compute. auto. Qed.

(** The encoding is found in one spelling only, and in the body as well. *)
Example chunked_spelling :
  parse_response (E:=string) (status_line 200 "OK" +:+ crlf +:+ "transfer-encoding: chunked" +:+ crlf +:+ crlf +:+ chunked ["ab"]) =
    Ok (200, chunked ["ab"]) ∧
  parse_response (E:=string) (status_line 200 "OK" +:+ crlf +:+ "Content-Length: 26" +:+ crlf +:+ crlf +:+
    "Transfer-Encoding: chunked") = Ok (200, "").
Proof. vm_compute. auto. Qed.

(** A chunk size with an extension ends the body without an error. *)
Example chunk_extension :
  decode_chunked (E:=string) ("2;x" +:+ crlf +:+ "ab" +:+ crlf +:+ "0" +:+ crlf +:+ crlf) = Ok "".
Proof. vm_compute. reflexivity. Qed.

(** Any answer with these letters is a healthy daemon's. *)
Example unhealthy_is_healthy :
  let resp := status_line 503 "Service Unavailable" +:+ crlf +:+ "Content-Length: 12" +:+ crlf +:+ crlf +:+ "broken token" in
  contains_str "200" resp || contains_str "ok" resp = true.
Proof. vm_compute. reflexivity. Qed.

(** Columns are as wide as their bytes but filled by characters. *)
Example wide_cell :
  let cell := bytes_string (z2b <$> [0xC3; 0xA9]) in
  widths ["A"] [[cell]] = [2%nat] ∧ padded cell 2 = cell +:+ " ".
Proof. vm_compute. auto. Qed.
