(* ===== verification/Novactl.v ===== *)
(** * The command line (novactl/src: main.rs, embedded.rs)

    The commands that drive a daemon over gRPC, and the assets that are
    unpacked from the binary when it is set up. *)

From stdpp Require Import pretty.
From S2P Require Import Prelude Pool Wasm Sandbox Policy Calendar Store Oci Initrd Extract Caches Pull Agent Eye Probes Kvm Builder Registry ImageService GuestImage Daemon.
#[local] Open Scope Z_scope.

(** ** Embedded assets (embedded.rs) *)

Definition nova_dir : string := "/opt/nova".
Record Asset : Type := {
  as_name : string; as_data : list byte; as_present : bool; as_dest : string; as_gzipped : bool }.

(** What the build put into the binary, by asset: nothing if it had no file
    for it. *)
Record Bundle : Type := {
  KERNEL_GZ : option (list byte); AGENT_GZ : option (list byte);
  EBPF_PROCESS : option (list byte); EBPF_NETWORK : option (list byte); EBPF_FILE : option (list byte);
  EBPF_HTTP : option (list byte); EBPF_HTTP_READ : option (list byte); DEFAULT_CONFIG : option (list byte) }.

Definition asset (name : string) (data : option (list byte)) (dest : string) (gzipped : bool) : Asset := {|
  as_name := name; as_data := default [] data; as_present := bool_decide (is_Some data);
  as_dest := dest; as_gzipped := gzipped |}.

Definition config_path : string := "/etc/nova/nova.toml".
Definition asset_list (b : Bundle) : list Asset :=
  [asset "kernel" (KERNEL_GZ b) (join nova_dir "vmlinux") true;
   asset "agent" (AGENT_GZ b) (join nova_dir "bin/nova-eye-agent") true;
   asset "ebpf/process" (EBPF_PROCESS b) (join nova_dir "ebpf/nova-eye-process") false;
   asset "ebpf/network" (EBPF_NETWORK b) (join nova_dir "ebpf/nova-eye-network") false;
   asset "ebpf/file" (EBPF_FILE b) (join nova_dir "ebpf/nova-eye-file") false;
   asset "ebpf/http" (EBPF_HTTP b) (join nova_dir "ebpf/nova-eye-http") false;
   asset "ebpf/http-read" (EBPF_HTTP_READ b) (join nova_dir "ebpf/nova-eye-http-read") false;
   asset "config" (DEFAULT_CONFIG b) config_path false].

Definition has {A} (o : option A) : bool := bool_decide (is_Some o).
Definition has_embedded_assets (b : Bundle) : bool :=
  has (KERNEL_GZ b) || has (EBPF_PROCESS b) || has (AGENT_GZ b) || has (DEFAULT_CONFIG b).

(** Setting permissions changes no file's bytes, but can fail. *)
Definition fs_set_permissions : stm Disk string unit := sys (λ d, (tt, files d)) (λ _ d, files d).

Section Assets.
(** The decoder: the pieces it gives, of at most 64 KiB, and the error it ends
    with, if it does. *)
Context (gunzip : list byte → list (list byte) * option string).

Fixpoint write_pieces (dest : string) (ps : list (list byte)) (e : option string) : stm Disk string unit :=
  match ps with
  | [] => match e with Some e => throw e | None => mret tt end
  | p :: ps => fs_append dest p ;; write_pieces dest ps e
  end.
Definition write_asset (a : Asset) : stm Disk string unit :=
  if as_gzipped a then
    fs_create (as_dest a) ;;
    let '(ps, e) := gunzip (as_data a) in
    write_pieces (as_dest a) ps e
  else fs_write (as_dest a) (as_data a).
Definition is_executable (a : Asset) : bool :=
  String.eqb (as_name a) "kernel" || String.eqb (as_name a) "agent" || String.prefix "ebpf/" (as_name a).

(** One asset: whether it was written. *)
Definition extract_asset (force : bool) (a : Asset) : stm Disk string bool :=
  if negb (as_present a) then mret false else
  there ← gets (λ d, exists_file d (as_dest a));
  if there && negb force then mret false else
  fs_create_dirs ;;
  write_asset a ;;
  (if is_executable a then fs_set_permissions else mret tt) ;;
  mret true.
Fixpoint extract_each (force : bool) (l : list Asset) (count : Z) : stm Disk string Z :=
  match l with
  | [] => mret count
  | a :: l => done ← extract_asset force a; extract_each force l (if done : bool then wrap32 (count + 1) else count)
  end.

(** The four runtime directories are made if they are not there. *)
Definition extract_all (b : Bundle) (dirs_there : list bool) (force : bool) : stm Disk string Z :=
  count ← extract_each force (asset_list b) 0;
  for_each (λ there : bool, if there then mret tt else fs_create_dirs) dirs_there ;;
  mret count.

(** *** The configuration *)

Definition generated_config : list byte := string_bytes (lines
  ["# Auto-generated by nova setup";
   "[daemon]";
   "socket = `/run/nova/nova.sock`";
   "image_dir = `/var/lib/nova/images`";
   "kernel = `/opt/nova/vmlinux`";
   "api_port = 9800";
   "";
   "[sensor]";
   "events_log = `/var/run/nova/events.jsonl`";
   "ebpf_dir = `/opt/nova/ebpf`";
   "";
   "[sensor.guest]";
   "enabled = false";
   "agent_path = `/opt/nova/bin/nova-eye-agent`";
   "event_port = 9876";
   "";
   "[policy]";
   "admission_enabled = true";
   "enforcement_enabled = false"]).

Definition written (data : list byte) : stm Disk string bool := λ d,
  let d := (ignore fs_create_dirs d).2 in
  match fs_write config_path data d with
  | (Ok _, d) => (Ok true, d)
  | (_, d) => (Ok false, d)
  end.
Definition generate_config_if_needed (b : Bundle) : stm Disk string (option string) :=
  there ← gets (λ d, exists_file d config_path);
  if there : bool then mret (Some config_path) else
  embedded ← (match DEFAULT_CONFIG b with Some c => written c | None => mret false end);
  if embedded : bool then mret (Some config_path) else
  kernel ← gets (λ d, exists_file d (join nova_dir "vmlinux"));
  if kernel : bool then
    ok ← written generated_config;
    mret (if ok : bool then Some config_path else None)
  else mret None.

(** *** Setup and serve *)

(** [nova setup]: the number of assets and the configuration, or nothing to
    extract. *)
Definition cmd_setup (b : Bundle) (dirs_there : list bool) (force : bool) : stm Disk string (option (Z * option string)) :=
  if negb (has_embedded_assets b) then mret None else
  count ← extract_all b dirs_there force;
  config ← generate_config_if_needed b;
  mret (Some (count, config)).

(** [nova serve]: the file its configuration comes from, or the defaults. *)
Definition serve_config (b : Bundle) (dirs_there : list bool) (given : option string) : stm Disk string (option string) :=
  kernel ← gets (λ d, exists_file d (join nova_dir "vmlinux"));
  (if has_embedded_assets b && negb kernel then (λ d, (Ok tt, (extract_all b dirs_there false d).2)) else mret tt) ;;
  match given with
  | Some p => there ← gets (λ d, exists_file d p); mret (if there : bool then Some p else None)
  | None => generate_config_if_needed b
  end.
End Assets.

(** ** Commands on a daemon (main.rs) *)

(** The bits of the nanosecond clock that make a name. *)
Definition uuid_short (nanos : Z) : string := fmt_x (Z.land nanos 0xFFFFFFFF).
Definition state_name (s : Z) : string :=
  if s =? 1 then "created" else if s =? 2 then "running" else if s =? 3 then "stopped" else
  if s =? 4 then "error" else "unknown".

Section Commands.
Context {N P SC : Type} `{WasmHost} `{HttpHost N} `{RegistryJson} `{OciJson} `{Tar}.
Context `{Serde BlobStoreIndex} `{Serde RootfsCacheIndex} `{Serde (gmap string ImageInfo)}.
Context (sha256_hex : list byte → string) (status_text status_error : Z → string)
  (alphanumeric : list byte → bool) (report : Fs → hpath → dir) (show_errno : Z → string)
  (read_file : string → string + list byte) (probes_json : list ProbeSpec → list byte).
Context (env : DaemonEnv).
Local Abbreviation Service := (RuntimeDaemonService (N:=N) (P:=P) (SC:=SC)).
Local Abbreviation run := (stm Service Status).
Implicit Types s : Service.
Local Abbreviation grpc_create := (create_sandbox sha256_hex status_text status_error alphanumeric report show_errno probes_json env).
Local Abbreviation grpc_start := (start_sandbox read_file env).
Local Abbreviation events := (daemon_run sha256_hex status_text status_error alphanumeric report show_errno read_file probes_json env).

(** What the daemon draws on when it creates and starts a sandbox: its clock
    twice, its process number, and whether the event port is free. *)
Record Moment : Type := { m_nanos : Z; m_now : Z; m_pid : Z; m_bound : bool }.

Definition sandbox_request (i image : string) (vcpus memory : Z) (cmd : option string) : CreateSandboxRequest := {|
  cr_sandbox_id := i; cr_image := image;
  cr_config := Some {| pc_vcpus := vcpus; pc_memory_mib := memory; pc_kernel := ""; pc_rootfs := ""; pc_cmdline := "";
                       pc_network := None |};
  cr_command := default "" cmd |}.

(** [nova run]: [meanwhile] is what else reaches the daemon between the two
    requests. *)
Definition create_and_start (m : Moment) (meanwhile : list daemon_event) (req : CreateSandboxRequest) : run string :=
  i ← grpc_create (m_nanos m) (m_now m) req;
  modify (events meanwhile) ;;
  grpc_start (m_pid m) (m_bound m) i ;;
  mret i.
Definition cmd_run (m : Moment) (meanwhile : list daemon_event) (nanos : Z) (image : string) (vcpus memory : Z)
    (name cmd : option string) : run string :=
  create_and_start m meanwhile (sandbox_request (default ("nova-" +:+ uuid_short nanos) name) image vcpus memory cmd).

(** [nova ps], a row for each sandbox: its id, state, process and creation
    time. *)
Definition ps_row (r : SandboxStatusResponse) : list string :=
  [st_sandbox_id r; state_name (st_state r); if 0 <? st_pid r then pretty (st_pid r) else "-"; default "" (st_created_at r)].
Definition cmd_ps : run (list (list string)) := l ← list_sandboxes; mret (ps_row <$> l).

(** [nova stop] and [nova kill]; the timeout they send is not looked at. *)
Definition cmd_stop (i : string) : run unit := stop_sandbox i.
Definition cmd_kill (i : string) : run unit := stop_sandbox i.
Definition cmd_rm (force : bool) (i : string) : run unit :=
  (if force then (_ ← attempt (stop_sandbox i); mret tt) else mret tt) ;;
  destroy_sandbox i.

(** [nova shell]: what happens between its requests, in order: after the pull,
    between creating and starting, and while the console is shown, which ends
    as it may. *)
Definition cmd_shell (m : Moment) (pulled between shown : list daemon_event) (nanos : Z) (image : string)
    (vcpus memory : Z) (cmd : option string) : run string :=
  _ ← on_images (pull_image sha256_hex status_text status_error alphanumeric report show_errno (m_now m) (de_image_dir env) image);
  modify (events pulled) ;;
  i ← create_and_start m between (sandbox_request ("nova-" +:+ uuid_short nanos) image vcpus memory cmd);
  modify (events shown) ;;
  _ ← attempt (stop_sandbox i);
  _ ← attempt (destroy_sandbox i);
  mret i.

(** *** A shell leaves nothing behind *)

Local Abbreviation shell_state m pulled between shown nanos image vcpus memory cmd s :=
  (cmd_shell m pulled between shown nanos image vcpus memory cmd s).2.

Lemma attempt_ok {A} (m : run A) s : (∀ p, (m s).1 ≠ Panic p) → ∃ o, attempt m s = (Ok o, (m s).2).
Proof. intros Hp. unfold attempt. destruct (m s) as [[a|e|p] s1]; [by eexists..|by destruct (Hp p)]. Qed.

Lemma stop_then_destroy i s :
  let s' := (destroy_sandbox i (stop_sandbox i s).2).2 in
  sandboxes (orchestrator s') = delete i (sandboxes (orchestrator s)) ∧
  (∀ p, (stop_sandbox i s).1 ≠ Panic p) ∧ (∀ p, (destroy_sandbox i (stop_sandbox i s).2).1 ≠ Panic p) ∧
  vm_handles s' = delete i (vm_handles s).
Proof.
  destruct (stop_core i s) as [E Hr]. set (s1 := (stop_sandbox i s).2) in *. unfold core in E. injection E as Eo Et Eh.
  destruct (orch_core (destroy i) lifecycle_status s1) as [E' Hr']. unfold core in E'. injection E' as Eo' Et' Eh'.
  cbv zeta. unfold destroy_sandbox. rewrite Eo', Eh', Eh, Eo. split_and!.
  - unfold orch_stop, on_sandbox. destruct (sandboxes (orchestrator s) !! i) as [sb|] eqn:Ei; cbn.
    + destruct (stop sb) as [r sb'] eqn:Es. unfold destroy. cbn. rewrite lookup_insert_eq.
      assert (state sb' ≠ Running) as Hn by (unfold stop in Es; case_bool_decide; injection Es as _ <-; done).
      rewrite bool_decide_eq_false_2 by done. cbn. by rewrite delete_insert_eq.
    + unfold destroy. rewrite Ei. cbn. by rewrite delete_id.
  - intros p. rewrite Hr. pose proof (proj1 (serve_quiet read_file (RStop i) (orchestrator s) ltac:(done)) p) as Hq. cbn in Hq.
    destruct (orch_stop i (orchestrator s)) as [[]]; cbn in *; congruence.
  - intros p. rewrite Hr'. pose proof (proj1 (serve_quiet read_file (RDestroy i) (orchestrator s1) ltac:(done)) p) as Hq. cbn in Hq.
    destruct (destroy i (orchestrator s1)) as [[]]; cbn in *; congruence.
  - done.
Qed.

Lemma inv_images {A} (m : stm (ImageDaemonService N) Status A) s : daemon_inv true s → daemon_inv true (on_images m s).2.
Proof. apply inv_core. apply keeps_images. Qed.

Lemma inv_events es s : daemon_inv true s → daemon_inv true (events es s).
Proof. apply daemon_run_inv. Qed.

Lemma created_started m between req s i s' :
  daemon_inv true s → create_and_start m between req s = (Ok i, s') → i = sandbox_id_of req (m_nanos m) ∧ daemon_inv true s'.
Proof.
  intros I E. unfold create_and_start in E. apply stm_bind_ok in E as (i0 & s1 & E1 & E).
  apply stm_bind_ok in E as ([] & s2 & E2 & E). injection E2 as <-. apply stm_bind_ok in E as ([] & s3 & E3 & E).
  injection E as -> ->.
  pose proof (inv_create sha256_hex status_text status_error alphanumeric report show_errno read_file probes_json env
    true (m_nanos m) (m_now m) req s I) as I1. rewrite E1 in I1.
  pose proof (inv_start read_file env true (m_pid m) (m_bound m) i _ (inv_events between s1 I1)) as I3. rewrite E3 in I3.
  split; [|done].
  destruct (create_core sha256_hex status_text status_error alphanumeric report show_errno probes_json env
    (m_nanos m) (m_now m) req s) as [[_ [(re & _ & Hr)|[p Hr]]]|(c & _ & _ & Hr)]; rewrite E1 in Hr; [done|done|].
  unfold create in Hr. by destruct (sandboxes (orchestrator s) !! _); cbn in Hr; simplify_eq.
Qed.

End Commands.

(** ** Extraction is exact and can be repeated *)

Section Extraction.
Context (gunzip : list byte → list (list byte) * option string).
Implicit Types (f : gmap string (list byte)) (a : Asset) (l : list Asset) (force : bool).
Local Abbreviation quiet f := {| files := f; faults := [] |}.

(** What an asset becomes, and the assets a run writes. *)
Definition content a : list byte := if as_gzipped a then concat (gunzip (as_data a)).1 else as_data a.
Definition unpacks a : Prop := as_present a = true → as_gzipped a = true → (gunzip (as_data a)).2 = None.
Definition wants force f a : bool := as_present a && (force || negb (bool_decide (is_Some (f !! as_dest a)))).
Definition put force f a : gmap string (list byte) := if wants force f a then <[as_dest a := content a]> f else f.

Lemma write_pieces_run dest ps f b :
  f !! dest = Some b → write_pieces dest ps None (quiet f) = (Ok tt, quiet (<[dest := b ++ concat ps]> f)).
Proof.
  revert f b. induction ps as [|p ps IH]; intros f b Hb; cbn [write_pieces concat].
  - rewrite app_nil_r, insert_id by done. done.
  - unfold mbind, stm_bind, fs_append, sys, set_files. cbn. rewrite Hb. cbn. rewrite (IH _ (b ++ p)) by apply lookup_insert_eq.
    by rewrite insert_insert_eq, app_assoc.
Qed.

Lemma write_asset_run a f : unpacks a → as_present a = true →
  write_asset gunzip a (quiet f) = (Ok tt, quiet (<[as_dest a := content a]> f)).
Proof.
  intros Hu Hp. unfold write_asset, content. destruct (as_gzipped a) eqn:Eg.
  - specialize (Hu Hp Eg). destruct (gunzip (as_data a)) as [ps e]. cbn in Hu. subst e.
    unfold mbind, stm_bind, fs_create, sys, set_files. cbn. rewrite (write_pieces_run _ _ _ []) by apply lookup_insert_eq.
    by rewrite insert_insert_eq.
  - unfold fs_write, fs_create, fs_write_all, mbind, stm_bind, sys, set_files. cbn. by rewrite insert_insert_eq.
Qed.

Lemma extract_asset_run force a f : unpacks a →
  extract_asset gunzip force a (quiet f) = (Ok (wants force f a), quiet (put force f a)).
Proof.
  intros Hu. unfold extract_asset, put, wants. destruct (as_present a) eqn:Ep; [|done]. cbn [negb andb].
  unfold mbind at 1, stm_bind at 1. cbn [gets]. unfold exists_file. cbn [files].
  destruct (bool_decide (is_Some (f !! as_dest a))), force; cbn [negb andb orb]; try done.
  all: unfold mbind, stm_bind, fs_create_dirs, sys, set_files; cbn; rewrite write_asset_run by done; by destruct (is_executable a).
Qed.

Lemma put_other force f a p : as_dest a ≠ p → put force f a !! p = f !! p.
Proof. intros Hne. unfold put. destruct (wants force f a); [by rewrite lookup_insert_ne|done]. Qed.
Lemma puts_other force l f p : p ∉ as_dest <$> l → foldl (put force) f l !! p = f !! p.
Proof.
  revert f. induction l as [|a l IH]; intros f Hp; [done|]. cbn [fmap list_fmap] in Hp.
  apply not_elem_of_cons in Hp as [Hne Hp]. cbn [foldl]. rewrite IH by done. by apply put_other.
Qed.
Lemma wants_other force f f' a : f !! as_dest a = f' !! as_dest a → wants force f a = wants force f' a.
Proof. unfold wants. by intros ->. Qed.

Lemma puts_at force l f a : NoDup (as_dest <$> l) → a ∈ l → foldl (put force) f l !! as_dest a = put force f a !! as_dest a.
Proof.
  revert f. induction l as [|b l IH]; intros f; [by intros _ ?%not_elem_of_nil|].
  intros [Hb Hnd]%NoDup_cons. cbn [foldl]. intros [->|Hin]%elem_of_cons; [by apply puts_other|].
  assert (Hne : as_dest b ≠ as_dest a).
  { intros E. apply Hb. fold (as_dest <$> l). rewrite E. by apply list_elem_of_fmap_2. }
  rewrite IH by done. pose proof (put_other force f b _ Hne) as E. unfold put at 1 3.
  rewrite (wants_other force _ f a E). destruct (wants force f a); [by rewrite !lookup_insert_eq|done].
Qed.

Lemma filter_on_list (b1 b2 : Asset → bool) l : (∀ x, x ∈ l → b1 x = b2 x) →
  filter (λ x, b1 x = true) l = filter (λ x, b2 x = true) l.
Proof.
  induction l as [|a l IH]; intros Hb; [done|]. assert (IH' : filter (λ x, b1 x = true) l = filter (λ x, b2 x = true) l)
    by (apply IH; intros x Hx; apply Hb; by right).
  specialize (Hb a ltac:(by left)). destruct (b1 a) eqn:E.
  - rewrite !filter_cons_True by congruence. by rewrite IH'.
  - rewrite !filter_cons_False by congruence. done.
Qed.

Lemma extract_each_run force l f c : Forall unpacks l → NoDup (as_dest <$> l) → 0 ≤ c → c + zlen l < 2 ^ 32 →
  extract_each gunzip force l c (quiet f) =
    (Ok (c + zlen (filter (λ a, wants force f a = true) l)), quiet (foldl (put force) f l)).
Proof.
  intros Hu. revert f c. induction Hu as [|a l Ha _ IH]; intros f c Hnd Hc Hl.
  - cbn. by rewrite Z.add_0_r.
  - apply NoDup_cons in Hnd as [Hnotin Hnd]. cbn [extract_each]. unfold mbind, stm_bind. rewrite extract_asset_run by done.
    rewrite zlen_cons in Hl. pose proof (zlen_nonneg l). cbn [foldl].
    assert (Hf : filter (λ a0, wants force (put force f a) a0 = true) l = filter (λ a0, wants force f a0 = true) l).
    { apply filter_on_list. intros x Hx. rewrite (wants_other force _ f x); [done|]. apply put_other.
      intros E. apply Hnotin. fold (as_dest <$> l). rewrite E. by apply list_elem_of_fmap_2. }
    destruct (wants force f a) eqn:Ew.
    + rewrite IH by (done || (rewrite ?wrap_small; unfold fits; lia)). rewrite Hf, filter_cons_True, zlen_cons by done.
      rewrite wrap_small by (unfold fits; lia). do 2 f_equal. lia.
    + rewrite IH by (done || lia). by rewrite Hf, filter_cons_False by (by rewrite Ew).
Qed.

Lemma made_dirs f dirs :
  for_each (λ there : bool, if there then mret tt else fs_create_dirs) dirs (quiet f) = (Ok tt, quiet f).
Proof. induction dirs as [|[] dirs IH]; [done| |]; cbn [for_each]; unfold mbind, stm_bind; exact IH. Qed.

Lemma dests_distinct b : NoDup (as_dest <$> asset_list b).
Proof. cbn. apply (bool_decide_unpack _). vm_compute. exact I. Qed.

Lemma extract_all_run b dirs force f : Forall unpacks (asset_list b) →
  extract_all gunzip b dirs force (quiet f) =
    (Ok (zlen (filter (λ a, wants force f a = true) (asset_list b))), quiet (foldl (put force) f (asset_list b))).
Proof.
  intros Hu. unfold extract_all. unfold mbind at 1, stm_bind at 1.
  rewrite extract_each_run; [|done|apply dests_distinct|lia|change (zlen (asset_list b)) with 8; lia].
  unfold mbind, stm_bind. by rewrite made_dirs.
Qed.

(** Setting up: where no system call fails and the bundled archives
    decode, every bundled asset that was not installed, or with force every
    one, gets exactly its bytes, decoded where it is packed, every other file
    stays as it was, and the count is that of the assets written; a second
    run writes nothing. *)
Theorem extract_all_exact b dirs force f : Forall unpacks (asset_list b) →
  let out := extract_all gunzip b dirs force {| files := f; faults := [] |} in
  out.1 = Ok (zlen (filter (λ a, wants force f a = true) (asset_list b))) ∧
  (∀ a, a ∈ asset_list b →
    files out.2 !! as_dest a = if wants force f a then Some (content a) else f !! as_dest a) ∧
  (∀ p, p ∉ as_dest <$> asset_list b → files out.2 !! p = f !! p) ∧
  extract_all gunzip b dirs false out.2 = (Ok 0, out.2).
Proof.
  intros Hu out. unfold out. rewrite extract_all_run by done. cbn [fst snd files].
  assert (Hat : ∀ a, a ∈ asset_list b → foldl (put force) f (asset_list b) !! as_dest a =
    if wants force f a then Some (content a) else f !! as_dest a).
  { intros a Ha. rewrite puts_at by (done || apply dests_distinct). unfold put. destruct (wants force f a); [by rewrite lookup_insert_eq|done]. }
  split_and!; [done|done|intros p Hp; by apply puts_other|].
  rewrite extract_all_run by done. set (f1 := foldl (put force) f (asset_list b)) in *.
  assert (Hno : ∀ a, a ∈ asset_list b → wants false f1 a = false).
  { intros a Ha. unfold wants at 1. rewrite Hat by done. unfold wants. destruct (as_present a); [|done]. cbn [andb orb].
    destruct force; cbn [orb]; [by rewrite bool_decide_eq_true_2 by (by eexists)|].
    destruct (bool_decide (is_Some (f !! as_dest a))) eqn:E; cbn [negb]; [by rewrite E|].
    by rewrite bool_decide_eq_true_2 by (by eexists). }
  assert (Hf : filter (λ a, wants false f1 a = true) (asset_list b) = []).
  { revert Hno. generalize (asset_list b) as l. induction l as [|a l IH]; intros Hno; [done|].
    rewrite filter_cons_False by (rewrite Hno; [done|by left]). apply IH. intros x Hx. apply Hno. by right. }
  rewrite Hf. assert (Hput : ∀ l, (∀ a, a ∈ l → wants false f1 a = false) → foldl (put false) f1 l = f1).
  { induction l as [|a l IH]; intros Hl; [done|]. cbn [foldl]. unfold put at 2. rewrite Hl by (by left).
    apply IH. intros x Hx. apply Hl. by right. }
  by rewrite Hput.
Qed.
End Extraction.

(** ** Witnesses and examples *)

Definition demo_bundle : Bundle := {|
  KERNEL_GZ := Some [x00]; AGENT_GZ := None; EBPF_PROCESS := None; EBPF_NETWORK := None; EBPF_FILE := Some [x00; x00];
  EBPF_HTTP := None; EBPF_HTTP_READ := None; DEFAULT_CONFIG := None |}.
Definition demo_gunzip (l : list byte) : list (list byte) * option string := ([string_bytes "vm"; string_bytes "linux"], None).

Lemma extract_all_exact_witness :
  extract_all demo_gunzip demo_bundle [true; false] false {| files := ∅; faults := [] |} =
    (Ok 2, {| files := {["/opt/nova/vmlinux" := string_bytes "vmlinux"; "/opt/nova/ebpf/nova-eye-file" := [x00; x00]]}; faults := [] |}) ∧
  (extract_all demo_gunzip demo_bundle [true; false] false
    (extract_all demo_gunzip demo_bundle [true; false] false {| files := ∅; faults := [] |}).2).1 = Ok 0.
Proof.
  split; [vm_compute; reflexivity|].
  destruct (extract_all_exact demo_gunzip demo_bundle [true; false] false ∅) as (_ & _ & _ & Hagain);
    [repeat constructor|]. cbv zeta in Hagain. rewrite Hagain. reflexivity.
Defined.

(** A setup that is interrupted while it writes the kernel leaves a part of
    it, which the next setup takes for an installed one. *)
Example truncated_kernel_kept :
  let cut := {| files := ∅; faults := [None; None; None; Some {| fault_text := "no space"; fault_done := 1 |}] |} in
  let once := extract_all demo_gunzip demo_bundle [] false cut in
  let again := extract_all demo_gunzip demo_bundle [] false once.2 in
  once.1 = Err "no space" ∧ again.1 = Ok 1 ∧ files again.2 !! "/opt/nova/vmlinux" = Some (string_bytes "vml").
Proof. vm_compute. auto. Qed.

(** Only some of the assets count for having any. *)
Example forgotten_assets :
  cmd_setup demo_gunzip {| KERNEL_GZ := None; AGENT_GZ := None; EBPF_PROCESS := None; EBPF_NETWORK := Some [x00];
    EBPF_FILE := Some [x00]; EBPF_HTTP := None; EBPF_HTTP_READ := None; DEFAULT_CONFIG := None |} [] true
    {| files := ∅; faults := [] |} = (Ok None, {| files := ∅; faults := [] |}).
Proof. vm_compute. reflexivity. Qed.

#[local] Existing Instance Wasm.demo_host.
#[local] Existing Instance demo_registry_json.
#[local] Existing Instance demo_oci_json.
#[local] Existing Instance demo_http.
#[local] Existing Instance demo_tar.
#[local] Existing Instance Daemon.demo_blob_serde.
#[local] Existing Instance Daemon.demo_cache_serde.
#[local] Instance demo_image_serde : Serde (gmap string ImageInfo) := {| to_json := λ _, []; from_json := λ _, inr ∅ |}.

Section Demo.
Local Abbreviation run_daemon := (daemon_run demo_sha256 (λ _, "") (λ _, "") (λ _, true) demo_report pretty
  (λ _, inl "none") (λ _, []) demo_daemon_env).
Local Abbreviation shell := (cmd_shell demo_sha256 (λ _, "") (λ _, "") (λ _, true) demo_report pretty
  (λ _, inl "none") (λ _, []) demo_daemon_env).
Definition demo_moment : Moment := {| m_nanos := 5; m_now := 6; m_pid := 40; m_bound := true |}.
Definition demo_pulled : list daemon_event := [EvCreate 0 0 (demo_create "a" "" "")].
Definition demo_shown : list daemon_event := [EvPrinted 0 [x00]; EvInput "nova-7" [x00]; EvStart 40 true "a"].


(** When starting fails, the command ends there, and the sandbox stays. *)
Example failed_shell_leaves_sandbox :
  let out := shell demo_moment [] [EvStart 40 true "nova-7"] [] 7 "nginx" 1 256 None demo_daemon in
  (∃ e, out.1 = Err e) ∧ state <$> sandboxes (orchestrator out.2) !! "nova-7" = Some Running.
Proof. vm_compute. split; [by eexists|done]. Qed.
End Demo.
