(* ===== verification/Cli.v ===== *)
(** * The command line, continued (novactl/src: main.rs, style.rs)

    Running commands, reading logs, and asking after images, sandboxes and
    policies: what each command sends to the daemon, what it shows and the
    status it ends with.  Colours, the frame of tables and the JSON format are
    left out: a table is its rows. *)

From stdpp Require Import pretty.
From S2P Require Import Prelude Pool Wasm Sandbox Policy Calendar Store Oci Initrd Extract Caches Pull Agent Eye Probes Kvm Builder Registry ImageService GuestImage Config Daemon Sensors Startup Desktop Novactl.
#[local] Open Scope Z_scope.

(** ** Sizes (style.rs) *)

(** The nearest integer to [n / d], the even one of two: how a number is
    rounded to an [f64], and its decimals when it is printed. *)
Definition half_even (n d : Z) : Z :=
  let q := n / d in let r := n mod d in
  if 2 * r <? d then q else if d <? 2 * r then q + 1 else if Z.even q then q else q + 1.

(** [as f64] of a [u64]: 53 bits are kept. *)
Definition as_f64 (n : Z) : Z :=
  if n <? 2 ^ 53 then n else
  let ulp := 2 ^ (Z.log2 n - 52) in half_even n ulp * ulp.

(** [{:.1}] of a quotient by a power of two. *)
Definition one_decimal (n d : Z) : string :=
  let t := half_even (10 * as_f64 n) d in pretty (t / 10) +:+ "." +:+ pretty (t mod 10).

Definition format_size (bytes : Z) : string :=
  if 1024 * 1024 * 1024 <=? bytes then one_decimal bytes (1024 * 1024 * 1024) +:+ " GiB" else
  if 1024 * 1024 <=? bytes then one_decimal bytes (1024 * 1024) +:+ " MiB" else
  if 1024 <=? bytes then one_decimal bytes 1024 +:+ " KiB" else pretty bytes +:+ " B".

(** ** What a command shows *)

Record Shown : Type := { sh_out : list string; sh_err : list string; sh_status : Z }.
Definition shows (lines : list string) : Shown := {| sh_out := lines; sh_err := []; sh_status := 0 |}.
Definition fails (msg : string) : Shown := {| sh_out := []; sh_err := [msg]; sh_status := 1 |}.

(** A line of [style::kv]. *)
Definition kv (key value : string) : string := key +:+ ": " +:+ value.
Definition state_styled (state : string) : string := bytes_string (z2b <$> [0xE2; 0x97; 0x8F; 0x20]) +:+ state.
Definition pid_text (pid : Z) : string := if 0 <? pid then pretty pid else "-".
Definition plural (n : nat) : string := "  " +:+ pretty n +:+ " image" +:+ if (n =? 1)%nat then "" else "s".

(** *** Running a command *)

(** The status the shell sees of [process::exit]. *)
Definition exit_status (code : Z) : Z := Z.land code 0xFF.
Definition printed_text (b : list byte) : list string := if bool_decide (b = []) then [] else [from_utf8_lossy b].
Definition exec_shown (r : ExecInSandboxResponse) : Shown := {|
  sh_out := printed_text (ex_stdout r); sh_err := printed_text (ex_stderr r); sh_status := exit_status (ex_exit_code r) |}.

(** *** Logs *)

(** What the console's stream gives: output, its end, an error; and the
    second's deadline, or Ctrl-C where it is followed. *)
Inductive stream_event : Type :=
| Output (data : list byte)
| StreamEnd
| StreamFailed (e : string)
| Interrupt.

Fixpoint logs_followed (evs : list stream_event) : list string * list string :=
  match evs with
  | Output data :: evs => let '(o, e) := logs_followed evs in (from_utf8_lossy data :: o, e)
  | StreamFailed e :: _ => ([], ["Stream error: " +:+ e])
  | _ => ([], [])
  end.
Fixpoint logs_collected (evs : list stream_event) : list byte :=
  match evs with
  | Output data :: evs => data ++ logs_collected evs
  | _ => []
  end.
Definition logs_shown (follow : bool) (evs : list stream_event) : Shown :=
  if follow then let '(o, e) := logs_followed evs in {| sh_out := o; sh_err := e; sh_status := 0 |} else
  match logs_collected evs with
  | [] => shows ["(no console output yet)"]
  | l => shows [from_utf8_lossy l]
  end.

(** *** Sandboxes and images *)

Definition status_lines (r : SandboxStatusResponse) : list string :=
  ["Sandbox: " +:+ st_sandbox_id r; kv "State" (state_styled (state_name (st_state r))); kv "PID" (pid_text (st_pid r));
   kv "Created" (default "" (st_created_at r))].
Definition image_lines (i : ImageInfoMsg) : list string :=
  ["Image: " +:+ msg_ref i; kv "Image Ref" (msg_ref i); kv "Digest" (msg_digest i); kv "Format" (msg_format i);
   kv "Size" (format_size (msg_size i)); kv "Rootfs" (msg_rootfs i)].

(** [&digest[..19]], which panics inside of a character. *)
Definition short_digest (d : string) : outcome Status string :=
  if (19 <? String.length d)%nat then
    if is_char_boundary 19 d then Ok (String.substring 0 19 d +:+ "...") else Panic PanicBounds
  else Ok d.
Definition image_row (i : ImageInfoMsg) : outcome Status (list string) :=
  d ← short_digest (msg_digest i); Ok [msg_ref i; msg_format i; format_size (msg_size i); d].
Fixpoint each {E A B} (f : A → outcome E B) (l : list A) : outcome E (list B) :=
  match l with [] => Ok [] | x :: l => y ← f x; ys ← each f l; Ok (y :: ys) end.

(** ** The commands *)

Section Cli.
Context {N P SC : Type} `{WasmHost} `{HttpHost N} `{RegistryJson} `{OciJson} `{Tar}.
Context `{Serde BlobStoreIndex} `{Serde RootfsCacheIndex} `{Serde SnapshotCacheIndex} `{Serde (gmap string ImageInfo)}.
Context (sha256_hex : list byte → string) (status_text status_error : Z → string)
  (alphanumeric : list byte → bool) (report : Fs → hpath → dir) (show_errno : Z → string) (parse_json : string → option json).
Context (env : DaemonEnv).
Local Abbreviation Service := (RuntimeDaemonService (N:=N) (P:=P) (SC:=SC)).
Local Abbreviation run := (stm Service Status).
Implicit Types s : Service.

(** [nova exec]; [polls] is what the daemon sees of the console while it
    waits, and no answer means that it still does. *)
Definition cmd_exec (i : string) (command : list string) (polls : list (list byte * option (list byte))) : run (option Shown) :=
  if bool_decide (command = []) then mret (Some (fails "no command specified")) else
  '(_, baseline) ← exec_begin i command;
  match exec_wait baseline polls with
  | None => mret None
  | Some (Ok r) => mret (Some (exec_shown r))
  | Some (Err e) => match e with end
  | Some (Panic p) => lift (Panic p)
  end.

(** The daemon's part of opening a stream: [stream_console] up to its loop. *)
Definition open_console (i : string) : run nat := running_vm (λ _, "") i.

(** [nova logs]; the number of lines is not looked at. *)
Definition cmd_logs (follow : bool) (lines : Z) (i : string) (evs : list stream_event) : run Shown := λ s,
  match open_console i s with
  | (Ok _, s) => (Ok (logs_shown follow evs), s)
  | (Err e, s) =>
      (r ← sandbox_status i;
       mret {| sh_out := status_lines r; sh_err := ["Console stream unavailable"]; sh_status := 0 |}) s
  | (Panic p, s) => (Panic p, s)
  end.

Definition cmd_images : run (Shown * list (list string)) :=
  l ← on_images list_images;
  rows ← lift (each image_row l);
  mret (shows [plural (length rows)], rows).
Definition cmd_pull (now : Z) (image : string) : run Shown :=
  r ← on_images (pull_image sha256_hex status_text status_error alphanumeric report show_errno now (de_image_dir env) image);
  mret (shows ["Digest:  " +:+ resp_digest r; "Rootfs:  " +:+ resp_rootfs r]).
Definition inspect_sandbox (target : string) : run Shown := r ← sandbox_status target; mret (shows (status_lines r)).
Definition cmd_inspect (target : string) : run Shown :=
  i ← attempt (on_images (inspect_image target));
  match i with
  | Some i => mret (shows (image_lines i))
  | None => inspect_sandbox target
  end.

(** *** Policies *)

Definition with_policy s (p : PolicyState) : Service :=
  {| orchestrator := orchestrator s; images := images s; threads := threads s; vm_handles := vm_handles s;
     image_digests := image_digests s; sandbox_commands := sandbox_commands s; image_names := image_names s;
     vm_pool := vm_pool s; policy_state := p; sources := sources s |}.
Definition on_policy {A} (f : PolicyState → A * PolicyState) : run A := λ s,
  let '(a, p) := f (policy_state s) in (Ok a, with_policy s p).

Definition bundle_row (b : BundleInfo) : list string :=
  [bundle_id b; pretty (policy_count b); default "" (format_epoch_secs (loaded_at b)); Policy.digest b].
Definition policy_list : run (Shown * list (list string)) :=
  l ← gets (λ s, list_bundles (ps_bundles (policy_state s)));
  mret (shows (if bool_decide (l = []) then ["(no bundles loaded)"] else []), bundle_row <$> l).
Definition policy_load (now : Z) (data : string + list byte) (id : option string) : run Shown :=
  bytes ← lift (map_err Internal (of_sum data));
  let bundle_id := default "default" id in
  r ← on_policy (svc_load_bundle bundle_id bytes now);
  mret (if (fst r : bool) then shows ["Bundle '" +:+ bundle_id +:+ "' loaded."] else fails ("Bundle load failed: " +:+ snd r)).
Definition policy_remove (id : string) : run Shown :=
  r ← on_policy (svc_remove_bundle id);
  match r with
  | Some e => throw (NotFoundStatus e)
  | None => mret (shows ["Bundle '" +:+ id +:+ "' removed."])
  end.
Definition policy_eval (us : Z) (policy input : string) : run Shown :=
  r ← on_policy (svc_evaluate policy (default JNull (parse_json input)) us);
  let time := if 0 <? resp_duration_us r then [kv "Eval (us)" (pretty (resp_duration_us r))] else [] in
  mret (if resp_allowed r then shows ("allowed: true" :: time)
        else {| sh_out := kv "Reason" (resp_reason r) :: time; sh_err := ["allowed: false"]; sh_status := 0 |}).
Definition policy_status : run Shown :=
  '(bundles, evals, denied, avg) ← gets (λ s, svc_get_status (policy_state s));
  mret (shows ["Policy Engine Status"; kv "Bundles" (pretty bundles); kv "Total evals" (pretty evals);
               kv "Denied" (pretty denied); kv "Avg (us)" (pretty avg)]).

(** *** [nova serve] *)

Context (gunzip : list byte → list (list byte) * option string) (parse : string → option toml_doc).
Definition serve_daemon_config (b : Bundle) (dirs_there : list bool) (given : option string) : stm Disk ConfigError DaemonConfig := λ d,
  match serve_config gunzip b dirs_there given d with
  | (Ok (Some path), d) => from_file parse path d
  | (Ok None, d) => (Ok defaults, d)
  | (Err e, d) => (Err (ConfigIo e), d)
  | (Panic p, d) => (Panic p, d)
  end.
Definition nova_serve (linked : bool) (net : N) (tree : Fs) (b : Bundle) (dirs_there : list bool) (given : option string) (d : Disk)
    : outcome start_error (option (string * Z) * RuntimeDaemon (N:=N) (P:=P) (SC:=SC)) :=
  start linked net tree (serve_daemon_config b dirs_there given) d.
End Cli.

(** ** Sizes are right to half a tenth *)

Lemma half_even_near n d : 0 < d → 2 * Z.abs (n - half_even n d * d) ≤ d.
Proof.
  intros Hd. unfold half_even. pose proof (Z.div_mod n d ltac:(lia)) as E. pose proof (Z.mod_pos_bound n d Hd).
  set (q := n / d) in *. set (r := n mod d) in *.
  destruct (Z.ltb_spec (2 * r) d); [nia|]. destruct (Z.ltb_spec d (2 * r)); [nia|]. destruct (Z.even q); nia.
Qed.

(** A size below 2^53 bytes is shown in bytes below 1 KiB, else as a number of
    tenths of the largest unit that fits, not more than half a tenth off. *)
Lemma format_size_near bytes : 0 ≤ bytes < 2 ^ 53 →
  (bytes < 1024 → format_size bytes = pretty bytes +:+ " B") ∧
  (1024 ≤ bytes → ∃ t d unit, (d, unit) ∈ [(2 ^ 10, " KiB"); (2 ^ 20, " MiB"); (2 ^ 30, " GiB")] ∧ d ≤ bytes ∧
     (bytes < 1024 * d ∨ d = 2 ^ 30) ∧
     format_size bytes = pretty (t / 10) +:+ "." +:+ pretty (t mod 10) +:+ unit ∧ 20 * Z.abs (bytes - t * d / 10) ≤ d + 20).
Proof.
  intros Hb. unfold format_size, one_decimal, as_f64. rewrite (proj2 (Z.ltb_lt bytes (2 ^ 53))) by lia.
  assert (K : ∀ d, 0 < d → 20 * Z.abs (bytes - half_even (10 * bytes) d * d / 10) ≤ d + 20).
  { intros d Hd. pose proof (half_even_near (10 * bytes) d Hd) as Hn.
    set (t := half_even (10 * bytes) d) in *. pose proof (Z.div_mod (t * d) 10 ltac:(lia)).
    pose proof (Z.mod_pos_bound (t * d) 10 ltac:(lia)). lia. }
  split; intros Hk.
  - by rewrite !(proj2 (Z.leb_gt _ _)) by lia.
  - destruct (Z.leb_spec (1024 * 1024 * 1024) bytes); [|destruct (Z.leb_spec (1024 * 1024) bytes);
      [|destruct (Z.leb_spec 1024 bytes); [|lia]]].
    + exists (half_even (10 * bytes) (2 ^ 30)), (2 ^ 30), " GiB". rewrite !sapp_assoc. split_and!; [|lia|by right|done|by apply K].
      apply list_elem_of_In. cbn. tauto.
    + exists (half_even (10 * bytes) (2 ^ 20)), (2 ^ 20), " MiB". rewrite !sapp_assoc. split_and!; [|lia|left; lia|done|by apply K].
      apply list_elem_of_In. cbn. tauto.
    + exists (half_even (10 * bytes) (2 ^ 10)), (2 ^ 10), " KiB". rewrite !sapp_assoc. split_and!; [|lia|left; lia|done|by apply K].
      apply list_elem_of_In. cbn. tauto.
Qed.

(** Halves go to the even tenth, and a size just below a unit reads as 1024 of
    the smaller one. *)
Example sizes : format_size <$> [0; 1023; 1024; 1536; 1050; 1075; 1048575; 5 * 2 ^ 30; 2 ^ 64 - 1] =
  ["0 B"; "1023 B"; "1.0 KiB"; "1.5 KiB"; "1.0 KiB"; "1.0 KiB"; "1024.0 KiB"; "5.0 GiB"; "17179869184.0 GiB"].
Proof. vm_compute. reflexivity. Qed.

(** ** What commands do to a daemon *)

Section Theorems.
Context {N P SC : Type} `{WasmHost} `{HttpHost N} `{RegistryJson} `{OciJson} `{Tar}.
Context `{Serde BlobStoreIndex} `{Serde RootfsCacheIndex} `{Serde SnapshotCacheIndex} `{Serde (gmap string ImageInfo)}.
Local Abbreviation Service := (RuntimeDaemonService (N:=N) (P:=P) (SC:=SC)).
Implicit Types s : Service.

(** The state after a line was typed on the console of a thread. *)
Definition typed (k : nat) (line : string) s : Service :=
  with_threads s (alter (push_input (string_bytes line)) k (threads s)) (vm_handles s).

Lemma exec_begin_running i command s sb k :
  sandboxes (orchestrator s) !! i = Some sb → state sb = Running → vm_handles s !! i = Some k →
  exec_begin i command s = (Ok (k, length (output_of s k)), typed k (String.concat " " command +:+ newline) s).
Proof.
  intros Hsb Hr Hk. unfold exec_begin, running_vm, find_sandbox, mbind, stm_bind, gets, lift. unfold Sandbox.get. rewrite Hsb. cbn.
  rewrite bool_decide_eq_false_2 by (intros Hn; by apply Hn). cbn. by rewrite Hk.
Qed.

(** C28. [nova exec] on a running sandbox types the words of the command,
    joined by spaces, on its console as one line, once, and changes nothing
    else; as soon as a poll within the deadline holds the answer it ends with
    the command's own status and shows what it printed; at the deadline it
    ends with 255 and shows all that came.  Without a command, or for a
    sandbox that does not run, it fails and nothing is typed. *)
Theorem exec_status i command s :
  (∀ polls, cmd_exec i [] polls s = (Ok (Some (fails "no command specified")), s)) ∧
  (command ≠ [] →
  (∀ sb k quiet rest, sandboxes (orchestrator s) !! i = Some sb → state sb = Running → vm_handles s !! i = Some k →
     let baseline := length (output_of s k) in
     Forall (λ p, exec_answer (from_utf8_lossy (drop baseline p.1)) = Ok None ∧ p.2 = None) quiet →
     let s' := typed k (String.concat " " command +:+ newline) s in
     (∀ buf late a c n nl,
        contains_str begin_marker (a +:+ marker_front begin_marker) = false →
        contains_str end_marker (a +:+ begin_marker +:+ c +:+ marker_front end_marker) = false →
        0 ≤ n < 256 → nl ∈ [newline; String cr_char newline] →
        from_utf8_lossy (drop baseline buf) = a +:+ begin_marker +:+ c +:+ end_marker +:+ pretty n +:+ nl →
        cmd_exec i command (quiet ++ (buf, late) :: rest) s =
          (Ok (Some {| sh_out := printed_text (string_bytes (trim_matches cr_char (trim_matches newline_char c)));
                       sh_err := []; sh_status := n |}), s')) ∧
     (∀ buf late, exec_answer (from_utf8_lossy (drop baseline buf)) = Ok None →
        cmd_exec i command (quiet ++ (buf, Some late) :: rest) s =
          (Ok (Some {| sh_out := printed_text (drop baseline late); sh_err := []; sh_status := 255 |}), s'))) ∧
  (∀ polls, (sandboxes (orchestrator s) !! i = None ∨ ∃ sb, sandboxes (orchestrator s) !! i = Some sb ∧ state sb ≠ Running) →
     is_err (cmd_exec i command polls s).1 = true ∧ (cmd_exec i command polls s).2 = s)).
Proof.
  split; [done|]. intros Hne. assert (Hc : ∀ polls, cmd_exec i command polls s = ('(_, baseline) ← exec_begin i command;
    match exec_wait baseline polls with
    | None => mret None
    | Some (Ok r) => mret (Some (exec_shown r))
    | Some (Err e) => match e with end
    | Some (Panic p) => lift (Panic p)
    end) s) by (intros polls; unfold cmd_exec; by rewrite bool_decide_eq_false_2).
  split.
  - intros sb k quiet rest Hsb Hr Hk baseline Hq s'.
    pose proof (exec_begin_running i command s sb k Hsb Hr Hk) as Hb. split.
    + intros buf late a c n nl Hbm Hem Hn Hnl Htext. rewrite Hc. unfold mbind, stm_bind. rewrite Hb. fold baseline.
      rewrite exec_wait_quiet by done. cbn [exec_wait]. rewrite Htext, exec_answer_markers by done.
      rewrite exit_code_parsed by done. unfold exec_shown, exit_status. cbn [ex_stdout ex_stderr ex_exit_code default].
      change 0xFF with (Z.ones 8). rewrite Z.land_ones by lia. by rewrite Z.mod_small.
    + intros buf late Ha. rewrite Hc. unfold mbind, stm_bind. rewrite Hb. fold baseline.
      rewrite exec_wait_quiet by done. cbn [exec_wait]. by rewrite Ha.
  - intros polls Hs. rewrite Hc. unfold exec_begin, running_vm, find_sandbox, mbind, stm_bind, Sandbox.get.
    destruct Hs as [Hn|(sb & Hsb & Hst)].
    + by rewrite Hn.
    + rewrite Hsb. cbn. by rewrite bool_decide_eq_true_2.
Qed.
End Theorems.

(** ** Logs and inspection *)

Lemma logs_collected_app datas evs :
  logs_collected ((Output <$> datas) ++ evs) = concat datas ++ logs_collected evs.
Proof. induction datas as [|d l IH]; [done|]. cbn. by rewrite IH, app_assoc. Qed.

(** Logs that are not followed are decoded as a whole; followed, each piece
    for itself. *)
Lemma logs_exact datas last :
  (∀ d, last ≠ Output d) →
  logs_shown false ((Output <$> datas) ++ [last]) =
    (if bool_decide (concat datas = []) then shows ["(no console output yet)"] else shows [from_utf8_lossy (concat datas)]) ∧
  sh_out (logs_shown true ((Output <$> datas) ++ [last])) = from_utf8_lossy <$> datas.
Proof.
  intros Hl. split.
  - unfold logs_shown. rewrite logs_collected_app.
    replace (logs_collected [last]) with (@nil byte) by (destruct last; [by destruct (Hl data)|done..]).
    rewrite app_nil_r. case_bool_decide as E; [by rewrite E|]. by destruct (concat datas).
  - unfold logs_shown. induction datas as [|d l IH]; cbn.
    + destruct last; [by destruct (Hl data)|done..].
    + destruct (logs_followed _) as [o e]. cbn in *. by rewrite IH.
Qed.

Section Inspect.
Context {N P SC : Type} `{WasmHost} `{HttpHost N} `{RegistryJson} `{OciJson} `{Tar}.
Context `{Serde BlobStoreIndex} `{Serde RootfsCacheIndex} `{Serde SnapshotCacheIndex} `{Serde (gmap string ImageInfo)}.
Local Abbreviation Service := (RuntimeDaemonService (N:=N) (P:=P) (SC:=SC)).

(** An image hides a sandbox of its name; asking changes nothing. *)
Lemma inspect_prefers_image target (s : Service) :
  (cmd_inspect target s).2 = s ∧
  (cmd_inspect target s).1 =
    match index (image_cache (images s)) !! target, sandboxes (orchestrator s) !! target with
    | Some i, _ => Ok (shows (image_lines (info_msg i)))
    | None, Some sb => Ok (shows (status_lines (status_of sb)))
    | None, None => Err (missing_status (SandboxNotFound target))
    end.
Proof.
  unfold cmd_inspect, mbind, stm_bind, attempt, on_images, inspect_image.
  assert (E : with_images s (images s) = s) by by destruct s.
  destruct (index (image_cache (images s)) !! target) as [i|]; rewrite E; [done|].
  unfold inspect_sandbox, sandbox_status, find_sandbox, mbind, stm_bind, Sandbox.get.
  by destruct (sandboxes (orchestrator s) !! target).
Qed.
End Inspect.

(** ** Witnesses and examples *)

#[local] Existing Instance Wasm.demo_host.
#[local] Existing Instance demo_registry_json.
#[local] Existing Instance demo_oci_json.
#[local] Existing Instance demo_http.
#[local] Existing Instance demo_tar.
#[local] Instance demo_blob_serde : Serde BlobStoreIndex := {| to_json := λ _, []; from_json := λ _, inr ∅ |}.
#[local] Instance demo_rootfs_serde : Serde RootfsCacheIndex := {| to_json := λ _, []; from_json := λ _, inr ∅ |}.

Definition demo_running : RuntimeDaemonService (N:=list HttpResponse) (P:=unit) (SC:=unit) :=
  daemon_run demo_sha256 (λ _, "") (λ _, "") (λ _, true) demo_report pretty (λ _, inl "none") (λ _, []) demo_daemon_env
    [EvCreate 0 0 (demo_create "a" "" ""); EvStart 40 true "a"; EvPrinted 0 (string_bytes "boot")] demo_daemon.
Definition demo_answer : string :=
  "===NOVA_EXEC_BEGIN===" +:+ newline +:+ "x" +:+ newline +:+ "===NOVA_EXEC_END===3" +:+ newline.

Lemma exec_status_witness :
  (λ '(r, s), (r, th_input <$> threads s)) (cmd_exec "a" ["ls"; "-l"]
    [(string_bytes "boot", None); (string_bytes ("boot" +:+ demo_answer), None)] demo_running) =
  (Ok (Some {| sh_out := ["x"]; sh_err := []; sh_status := 3 |}), [string_bytes ("ls -l" +:+ newline)]).
Proof.
  assert (Hsb : ∃ sb, sandboxes (orchestrator demo_running) !! "a" = Some sb ∧ state sb = Running)
    by (eexists; split; [vm_compute; reflexivity|vm_compute; reflexivity]).
  destruct Hsb as (sb & Hsb & Hr).
  assert (Hk : vm_handles demo_running !! "a" = Some 0%nat) by (vm_compute; reflexivity).
  assert (Hb : length (output_of demo_running 0) = 4%nat) by (vm_compute; reflexivity).
  destruct (exec_status "a" ["ls"; "-l"] demo_running) as [_ He]. destruct (He ltac:(done)) as [He1 _]. clear He. rename He1 into He.
  destruct (He sb 0%nat [(string_bytes "boot", None)] [] Hsb Hr Hk) as [Hm _].
  { rewrite Hb. constructor; [|constructor]. split; vm_compute; reflexivity. }
  rewrite Hb in Hm.
  pose proof (Hm (string_bytes ("boot" +:+ demo_answer)) None "" (newline +:+ "x" +:+ newline) 3 newline
    ltac:(vm_compute; reflexivity) ltac:(vm_compute; reflexivity) ltac:(lia) ltac:(apply list_elem_of_here)
    ltac:(vm_compute; reflexivity)) as E.
  clear - E. cbn [app] in E. rewrite E. vm_compute. reflexivity.
Defined.

(** The words of a command are joined by spaces, so that other words give the
    same line. *)
Example exec_unquoted :
  (cmd_exec "a" ["sh"; "-c"; "echo a b"] [] demo_running).2 = (cmd_exec "a" ["sh"; "-c"; "echo"; "a"; "b"] [] demo_running).2.
Proof. reflexivity. Qed.

(** A character in two pieces is lost in followed logs. *)
Example followed_character :
  let evs := [Output (z2b <$> [0xC3]); Output (z2b <$> [0xA9]); StreamEnd] in
  let shown follow := concat (string_bytes <$> sh_out (logs_shown follow evs)) in
  shown false = (z2b <$> [0xC3; 0xA9]) ∧ shown true = replacement ++ replacement.
Proof. split; vm_compute; reflexivity. Qed.

(** Any length of logs is shown. *)
Example logs_ignore_lines i evs :
  cmd_logs false 1 i evs demo_running = cmd_logs false 100 i evs demo_running.
Proof. reflexivity. Qed.

Example digest_cut : short_digest "sha256:0123456789abcdef" = Ok "sha256:0123456789ab...".
Proof. vm_compute. reflexivity. Qed.
