(* ===== verification/Fds.v ===== *)
(** * Raw file descriptors (nova-eye: guest_source.rs; nova-agent: vsock.rs,
    mount_filesystems; nova-runtime: network/tap.rs)

    The places where the program makes its system calls by itself and has to
    close what it opened: the socket that takes a guest's events, the agent's
    vsock connection, the TAP device of the runtime, and the mounts of the
    agent.  The kernel keeps the open descriptors, answers each call that can
    fail as it likes, and the calls are recorded. *)

From stdpp Require Import strings gmap fin_sets.
From S2P Require Import Prelude Wasm Pool Sandbox Agent Eye.
#[local] Open Scope Z_scope.

(** ** The kernel *)

Inductive SysCall : Type :=
| Socket (domain type : Z)
| Setsockopt (fd level name value : Z)
| BindInet (fd port ip : Z)
| ConnectVm (fd cid port : Z)
| SetNonblocking (fd : Z)
| Open (path : string) (flags : Z)
| Ioctl (fd request : Z) (arg : list byte)
| Close (fd : Z)
| Mount (source target fstype : string).

Record Kernel : Type := {
  open_fds : gset Z;
  answers : list (option Z);   (* the errors of the calls to come; none beyond *)
  calls : list SysCall;        (* the latest first *)
}.

(** A call that gives nothing back: 0, or the error. *)
Definition sys_call (c : SysCall) (k : Kernel) : option Z * Kernel :=
  (mjoin (head (answers k)), {| open_fds := open_fds k; answers := tail (answers k); calls := c :: calls k |}).

(** A call that opens a descriptor, one that is not in use. *)
Definition next_fd (s : gset Z) : Z := 1 + set_fold Z.max 2 s.
Definition sys_open (c : SysCall) (k : Kernel) : (Z + Z) * Kernel :=
  match mjoin (head (answers k)) with
  | Some e => (inl e, {| open_fds := open_fds k; answers := tail (answers k); calls := c :: calls k |})
  | None =>
      let fd := next_fd (open_fds k) in
      (inr fd, {| open_fds := {[fd]} ∪ open_fds k; answers := tail (answers k); calls := c :: calls k |})
  end.
Definition sys_close (fd : Z) (k : Kernel) : Kernel :=
  {| open_fds := open_fds k ∖ {[fd]}; answers := answers k; calls := Close fd :: calls k |}.

Section Calls.
Context (show_errno : Z → string).

(** ** The socket for a guest's events (guest_source.rs) *)

Record GuestSocket : Type := { gs_fd : Z; gs_sandbox_id : string; gs_source_name : string }.

Inductive SocketAddr : Type :=
| V4 (ip port : Z)
| V6.
Context (parse_addr : string → string + SocketAddr).

Definition AF_INET : Z := 2.
Definition SOCK_DGRAM : Z := 2.
Definition SOL_SOCKET : Z := 1.
Definition SO_REUSEADDR : Z := 2.

Definition io_error (e : Z) : EyeError := IoError (show_errno e).

(** [from_socket]: where [set_nonblocking] fails the socket is dropped. *)
Definition from_socket (fd : Z) (sandbox_id : string) : stm Kernel EyeError GuestSocket := λ k,
  match sys_call (SetNonblocking fd) k with
  | (Some e, k) => (Err (io_error e), sys_close fd k)
  | (None, k) => (Ok {| gs_fd := fd; gs_sandbox_id := sandbox_id; gs_source_name := "guest:" +:+ sandbox_id |}, k)
  end.

Definition GuestEventSource_new (bind_addr sandbox_id : string) : stm Kernel EyeError GuestSocket := λ k,
  match parse_addr bind_addr with
  | inl e => (Err (IoError e), k)
  | inr addr =>
      match sys_open (Socket AF_INET SOCK_DGRAM) k with
      | (inl e, k) => (Err (io_error e), k)
      | (inr fd, k) =>
          let k := (sys_call (Setsockopt fd SOL_SOCKET SO_REUSEADDR 1) k).2 in
          match addr with
          | V6 => (Err (IoError "only IPv4 supported"), sys_close fd k)
          | V4 ip port =>
              match sys_call (BindInet fd port ip) k with
              | (Some e, k) => (Err (io_error e), sys_close fd k)
              | (None, k) => from_socket fd sandbox_id k
              end
          end
      end
  end.

(** ** The agent's connection (vsock.rs) *)

Record VsockClient : Type := { vs_fd : Z; connected : bool }.
Definition HOST_CID : Z := 2.
Definition DEFAULT_PORT : Z := 1024.
Definition AF_VSOCK : Z := 40.
Definition SOCK_STREAM : Z := 1.

Definition VsockClient_new : stm Kernel AgentError VsockClient := λ k,
  match sys_open (Socket AF_VSOCK SOCK_STREAM) k with
  | (inl e, k) => (Err (AVsock ("failed to create vsock socket: " +:+ show_errno e)), k)
  | (inr fd, k) => (Ok {| vs_fd := fd; connected := false |}, k)
  end.
Definition connect (cid port : Z) (show : Z → string) : stm (VsockClient * Kernel) AgentError unit := λ '(c, k),
  match sys_call (ConnectVm (vs_fd c) cid port) k with
  | (Some e, k) => (Err (AVsock ("failed to connect to cid=" +:+ show cid +:+ " port=" +:+ show port +:+ ": " +:+ show_errno e)), (c, k))
  | (None, k) => (Ok tt, ({| vs_fd := vs_fd c; connected := true |}, k))
  end.
Definition VsockClient_drop (c : VsockClient) (k : Kernel) : Kernel := sys_close (vs_fd c) k.

(** ** The runtime's TAP device (network/tap.rs) *)

Record TapDevice : Type := { tap_name : string; tap_fd : Z }.
Definition IFNAMSIZ : Z := 16.
Definition O_RDWR_NONBLOCK : Z := Z.lor 2 0x800.
Definition TUNSETIFF : Z := 0x400454ca.
Definition ifreq (name : string) : list byte :=
  splice 16 (le_enc 2 (Z.lor 0x0002 0x1000)) (splice 0 (string_bytes name) (replicate 40 x00)).

Definition TapDevice_create (show : Z → string) (name : string) : stm Kernel RuntimeError TapDevice := λ k,
  let len := Z.of_nat (String.length name) in
  if IFNAMSIZ <=? len then
    (Err (Network ("TAP device name too long: " +:+ show len +:+ " (max " +:+ show (IFNAMSIZ - 1) +:+ ")")), k)
  else
    match sys_open (Open "/dev/net/tun" O_RDWR_NONBLOCK) k with
    | (inl _, k) => (Ok {| tap_name := name; tap_fd := -1 |}, k)
    | (inr fd, k) =>
        match sys_call (Ioctl fd TUNSETIFF (ifreq name)) k with
        | (Some _, k) => (Ok {| tap_name := name; tap_fd := -1 |}, sys_close fd k)
        | (None, k) => (Ok {| tap_name := name; tap_fd := fd |}, k)
        end
    end.
Definition is_valid (t : TapDevice) : bool := 0 <=? tap_fd t.
Definition TapDevice_drop (t : TapDevice) (k : Kernel) : Kernel := if 0 <=? tap_fd t then sys_close (tap_fd t) k else k.

(** ** The mounts of the guest's agent (nova-agent/src/main.rs)

    The three pointers of each call are those of string slices, which no NUL
    ends: [behind] is what the binary has behind the slice of each pointer, up
    to the first NUL.  A failed mount is only logged. *)

Definition mounts : list (string * string * string) :=
  [("proc", "/proc", "proc"); ("sysfs", "/sys", "sysfs"); ("devtmpfs", "/dev", "devtmpfs");
   ("tmpfs", "/tmp", "tmpfs"); ("tmpfs", "/run", "tmpfs")].
Fixpoint mount_each (behind : nat → string) (i : nat) (l : list (string * string * string)) (k : Kernel) : Kernel :=
  match l with
  | [] => k
  | (source, target, fs) :: l =>
      let k := (sys_call (Mount (source +:+ behind i) (target +:+ behind (S i)) (fs +:+ behind (S (S i)))) k).2 in
      mount_each behind (S (S (S i))) l k
  end.
Definition mount_filesystems (behind : nat → string) : stm Kernel AgentError unit := λ k, (Ok tt, mount_each behind 0 mounts k).

(** ** Nothing stays open *)

Lemma set_fold_max_le (s : gset Z) (x : Z) : x ∈ s → x ≤ set_fold Z.max 2 s.
Proof.
  revert x. apply (set_fold_ind_L (λ r (s : gset Z), ∀ x, x ∈ s → x ≤ r)).
  - intros x Hx. set_solver.
  - intros y s' r _ IH x [->%elem_of_singleton|Hx]%elem_of_union; [lia|]. specialize (IH x Hx). lia.
Qed.
Lemma next_fd_fresh (s : gset Z) : next_fd s ∉ s.
Proof. intros Hin. pose proof (set_fold_max_le s _ Hin). unfold next_fd in *. lia. Qed.
Lemma next_fd_pos (s : gset Z) : 3 ≤ next_fd s.
Proof.
  unfold next_fd. cut (2 ≤ set_fold Z.max 2 s); [lia|].
  apply (set_fold_ind_L (λ r (_ : gset Z), 2 ≤ r)); [lia|]. intros. lia.
Qed.

(** What an operation that gives a value holding descriptors may do to the
    kernel: exactly those are new, and there are none where it fails. *)
Definition balanced {E A} (fds : A → gset Z) (m : stm Kernel E A) : Prop := ∀ k,
  match m k with
  | (Ok a, k') => open_fds k' = fds a ∪ open_fds k ∧ fds a ## open_fds k
  | (_, k') => open_fds k' = open_fds k
  end.

Lemma sys_open_cases c k :
  (∃ e k', sys_open c k = (inl e, k') ∧ open_fds k' = open_fds k) ∨
  (∃ fd k', sys_open c k = (inr fd, k') ∧ fd = next_fd (open_fds k) ∧ open_fds k' = {[fd]} ∪ open_fds k).
Proof. unfold sys_open. destruct (mjoin _); [left|right]; eauto 10. Qed.
Lemma sys_call_fds c k : open_fds (sys_call c k).2 = open_fds k.
Proof. done. Qed.
Lemma reclose (s : gset Z) (fd : Z) : fd ∉ s → ({[fd]} ∪ s) ∖ {[fd]} = s.
Proof. set_solver. Qed.

(** The descriptors each value holds. *)
Definition source_fds (s : GuestSocket) : gset Z := {[gs_fd s]}.
Definition client_fds (c : VsockClient) : gset Z := {[vs_fd c]}.
Definition tap_fds (t : TapDevice) : gset Z := if is_valid t then {[tap_fd t]} else ∅.

Lemma source_balanced bind_addr sandbox_id : balanced source_fds (GuestEventSource_new bind_addr sandbox_id).
Proof.
  intros k. unfold GuestEventSource_new. destruct (parse_addr bind_addr) as [e|addr]; [done|].
  destruct (sys_open_cases (Socket AF_INET SOCK_DGRAM) k) as [(e & k' & -> & Hk)|(fd & k' & -> & Hfd & Hk)]; [done|].
  pose proof (next_fd_fresh (open_fds k)) as Hn. rewrite <- Hfd in Hn.
  destruct addr as [ip port|]; cbn.
  - destruct (mjoin (head (tail (answers k')))); cbn; [rewrite Hk; by apply reclose|].
    destruct (mjoin _); cbn; rewrite Hk; [by apply reclose|]. unfold source_fds. cbn. set_solver.
  - rewrite Hk. by apply reclose.
Qed.

Lemma client_balanced : balanced client_fds VsockClient_new.
Proof.
  intros k. unfold VsockClient_new.
  destruct (sys_open_cases (Socket AF_VSOCK SOCK_STREAM) k) as [(e & k' & -> & Hk)|(fd & k' & -> & Hfd & Hk)]; [done|].
  pose proof (next_fd_fresh (open_fds k)) as Hn. rewrite <- Hfd in Hn. unfold client_fds. cbn. set_solver.
Qed.

Lemma tap_balanced show name : balanced tap_fds (TapDevice_create show name).
Proof.
  intros k. unfold TapDevice_create. destruct (_ <=? _); [done|].
  destruct (sys_open_cases (Open "/dev/net/tun" O_RDWR_NONBLOCK) k) as [(e & k' & -> & Hk)|(fd & k' & -> & Hfd & Hk)].
  { unfold tap_fds. cbn. set_solver. }
  pose proof (next_fd_fresh (open_fds k)) as Hn. pose proof (next_fd_pos (open_fds k)). rewrite <- Hfd in *.
  cbn. destruct (mjoin _); unfold tap_fds, is_valid; cbn; rewrite Hk.
  - rewrite reclose by done. set_solver.
  - rewrite (proj2 (Z.leb_le 0 fd)) by lia. set_solver.
Qed.

(** Every descriptor is closed once it is of no more use: each
    constructor, whatever calls fail, either gives a value with exactly the
    descriptors it opened or leaves none open, and dropping the value leaves
    the kernel with the descriptors it had before. *)
Theorem descriptors_balanced k bind_addr sandbox_id show name :
  (balanced source_fds (GuestEventSource_new bind_addr sandbox_id) ∧ balanced client_fds VsockClient_new ∧
   balanced tap_fds (TapDevice_create show name)) ∧
  (∀ s k', GuestEventSource_new bind_addr sandbox_id k = (Ok s, k') → open_fds (sys_close (gs_fd s) k') = open_fds k) ∧
  (∀ c c' k' k'' r cid port, VsockClient_new k = (Ok c, k') → connect cid port show (c, k') = (r, (c', k'')) →
     open_fds (VsockClient_drop c' k'') = open_fds k) ∧
  (∀ t k', TapDevice_create show name k = (Ok t, k') → open_fds (TapDevice_drop t k') = open_fds k).
Proof.
  split; [eauto using source_balanced, client_balanced, tap_balanced|]. split_and!.
  - intros s k' E. pose proof (source_balanced bind_addr sandbox_id k) as Hb. rewrite E in Hb. destruct Hb as [Hk Hd].
    cbn. rewrite Hk. apply reclose. unfold source_fds in Hd. set_solver.
  - intros c c' k' k'' r cid port E Hc. pose proof (client_balanced k) as Hb. rewrite E in Hb. destruct Hb as [Hk Hd].
    assert (vs_fd c' = vs_fd c ∧ open_fds k'' = open_fds k') as [E1 E2].
    { unfold connect in Hc. cbn in Hc. destruct (mjoin _); by injection Hc as <- <- <-. }
    unfold VsockClient_drop. cbn. rewrite E1, E2, Hk. apply reclose. unfold client_fds in Hd. set_solver.
  - intros t k' E. pose proof (tap_balanced show name k) as Hb. rewrite E in Hb. destruct Hb as [Hk Hd].
    unfold TapDevice_drop, tap_fds, is_valid in *. destruct (0 <=? tap_fd t); cbn; rewrite Hk; [apply reclose|]; set_solver.
Qed.

(** ** The mounts *)

Lemma mount_each_calls behind i l k :
  calls (mount_each behind i l k) =
    reverse (imap (λ j '(source, target, fs), Mount (source +:+ behind (i + 3 * j)%nat) (target +:+ behind (S (i + 3 * j)))
      (fs +:+ behind (S (S (i + 3 * j))))) l) ++ calls k.
Proof.
  revert i k. induction l as [|[[source target] fs] l IH]; intros i k; [done|].
  cbn [mount_each imap]. rewrite IH, reverse_cons, <- app_assoc. cbn [sys_call snd calls app].
  rewrite Nat.mul_0_r, Nat.add_0_r. do 2 f_equal. apply imap_ext. intros j [[s t] f] _. cbn.
  by replace (i + S (j + S (j + S (j + 0))))%nat with (S (S (S (i + (j + (j + (j + 0))))))) by lia.
Qed.

(** The file systems are mounted where they should be exactly if the binary
    happens to have a NUL behind each of the fifteen literals. *)
Lemma mounts_as_meant behind k :
  calls (mount_filesystems behind k).2 = reverse ((λ '(s, t, f), Mount s t f) <$> mounts) ++ calls k ↔
  ∀ i, (i < 15)%nat → behind i = "".
Proof.
  unfold mount_filesystems. cbn [snd]. rewrite mount_each_calls. split.
  - intros E. apply app_inv_tail, (inj reverse) in E. cbn in E.
    assert (Hnil : ∀ a b, a +:+ b = a → b = "").
    { intros a b Hab. apply (inj (String.append a)). rewrite Hab. symmetry. clear. induction a as [|c a IH]; [done|].
      change (String c (a +:+ "") = String c a). by rewrite IH. }
    injection E as H0 H1 H2 H3 H4 H5 H6 H7 H8 H9 H10 H11 H12 H13 H14. intros i Hi.
    do 15 (destruct i as [|i]; [eauto|]). lia.
  - intros Hb. f_equal. f_equal. cbn. rewrite !Hb by lia. done.
Qed.
End Calls.

(** ** Witnesses *)

Definition demo_kernel (answers : list (option Z)) : Kernel := {| open_fds := {[3; 5]}; answers := answers; calls := [] |}.
Definition demo_addr (s : string) : string + SocketAddr := if String.eqb s "[::1]:1" then inr V6 else inr (V4 0xAC100001 9876).

(** The bind fails: the socket, 6, is closed again. *)
Example bind_fails :
  let '(r, k) := GuestEventSource_new (λ _, "in use") demo_addr "172.16.0.1:9876" "a" (demo_kernel [None; None; Some 98]) in
  r = Err (IoError "in use") ∧ calls k = [Close 6; BindInet 6 9876 0xAC100001; Setsockopt 6 1 2 1; Socket 2 2].
Proof. split; vm_compute; reflexivity. Qed.

(** A literal with its neighbour behind it: nothing is mounted on /proc. *)
Example mount_reads_on :
  last (calls (mount_filesystems (λ i, if (i =? 1)%nat then "sysfs/sys" else "") (demo_kernel [])).2) =
    Some (Mount "proc" "/procsysfs/sys" "proc").
Proof. vm_compute. reflexivity. Qed.

(** Without a device a TAP is a placeholder, which says that it was made. *)
Example tap_placeholder :
  (λ t, is_valid t) <$> (TapDevice_create (λ _, "") "tap0" (demo_kernel [Some 2])).1 = Ok false.
Proof. vm_compute. reflexivity. Qed.
