(* ===== verification/Entry.v ===== *)
(** * Entry points (nova-vmm/src/main.rs, nova-eye-agent/src/main.rs)

    What the stand-alone VMM does with its argument, and how the guest's event
    agent starts up before its poll loop. *)

From stdpp Require Import pretty.
From S2P Require Import Prelude GuestMem Virtqueue Mmio Devices Net DeviceMgr Serial VcpuLoop Eye Probes Kvm Network Builder.
#[local] Open Scope Z_scope.

(** ** nova-vmm *)

Section Vmm.
Context {K : Type} `{KvmHost K} `{FileHost K} `{CmdHost K} `{TapHost K} `{HostIo K} `{Block.Padding}.
Context (parse : string → string + VmToml).

Inductive vmm_end : Type :=
| Usage
| ConfigUnread (e : Z + string)
| SignalFailed (e : string)
| BuildFailed (e : VmError)
| VcpuEnded (r : loop_result).

(** The status of the process; [None] while it runs. *)
Definition vmm_status (x : vmm_end) : option Z :=
  match x with
  | VcpuEnded LoopShutdown => Some 0
  | VcpuEnded LoopRunning => None
  | _ => Some 1
  end.

(** [VmConfig::from_file]: an unreadable file, a text that is no UTF-8 or no
    configuration. *)
Definition vm_config_from_file (path : string) : stm K (Z + string) VmConfig := λ k,
  match read_path path k with
  | (inl e, k) | (inr (inl e), k) => (Err (inl e), k)
  | (inr (inr b), k) =>
      (text ← ok_or (inr "stream did not contain valid UTF-8") (from_utf8 b);
       map_err inr (VmConfig_of_toml <$> of_sum (parse text)), k)
  end.

(** [main]: [sigint] and [sigterm] are the results of registering the flag,
    which nothing reads; [print] writes to stdout; [exits] are those of the
    first vCPU. *)
Definition vmm_main (sigint sigterm : string + unit) (print : K → Z → K) (exits : list (Z + VmExit))
    (args : list string) (k : K) : infallible (vmm_end * K) :=
  match args with
  | _ :: path :: _ =>
      match vm_config_from_file path k with
      | (Err e, k) => Ok (ConfigUnread e, k)
      | (Panic p, _) => Panic p
      | (Ok c, k) =>
          match sigint, sigterm with
          | inl e, _ | _, inl e => Ok (SignalFailed e, k)
          | inr _, inr _ =>
              match build_vm c k with
              | (Err e, k) => Ok (BuildFailed e, k)
              | (Panic p, _) => Panic p
              | (Ok vm, k) =>
                  match bv_vcpus vm with
                  | [] => Ok (VcpuEnded LoopShutdown, k)
                  | _ :: _ =>
                      '(r, (_, _, k)) ← run_vcpu_loop print (bv_mmio_bus vm) (bv_guest_memory vm) k exits;
                      Ok (VcpuEnded r, k)
                  end
              end
          end
      end
  | _ => Ok (Usage, k)
  end.
End Vmm.

(** A signal that interrupts KVM_RUN lets the loop go on: however many come,
    they do not end it, and what the guest does afterwards is served. *)
Section Signals.
Context {D M W : Type} `{VirtioDevice D M W} `{HostIo W}.

Lemma interrupted_goes_on (print : W → Z → W) (b : MmioBus D) (m : M) (w : W) n exits r :
  run_vcpu_loop print b m w (replicate n (inr Interrupted) ++ exits) = Ok r →
  r.1 ≠ LoopRunning → ∃ b' m' w', run_vcpu_loop print b' m' w' exits = Ok r.
Proof.
  revert b m w. induction n as [|n IH]; intros b m w; [eauto|]. cbn [replicate app run_vcpu_loop].
  intros ([x [[b1 m1] w1]] & _ & Hr)%outcome_bind_ok. cbn in Hr. eauto.
Qed.

Lemma signals_end_nothing (print : W → Z → W) (b : MmioBus D) (m : M) (w : W) n r :
  run_vcpu_loop print b m w (replicate n (inr Interrupted)) = Ok r → r.1 = LoopRunning.
Proof.
  revert b m w. induction n as [|n IH]; intros b m w; cbn [replicate run_vcpu_loop]; [by intros [= <-]|].
  intros ([x [[b1 m1] w1]] & _ & Hr)%outcome_bind_ok. cbn in Hr. eauto.
Qed.
End Signals.

(** ** nova-eye-agent *)

Section Agent.
Context `{Aya} (show : Z → string).

Definition hello : list byte := string_bytes "NOVA-EYE-HELLO".
Definition no_probes : list byte := string_bytes "NOVA-EYE-NO-PROBES".
Definition active (loaded : Z) : list byte := string_bytes ("NOVA-EYE-ACTIVE:" +:+ pretty loaded).

(** The probes of the injected file; none if it cannot be read or parsed. *)
Definition configured (parse_json : string → option (list ProbeSpec)) (file : string + list byte) : list ProbeSpec :=
  match file with
  | inl _ => []
  | inr b => default [] (from_utf8 b ≫= parse_json)
  end.

(** [main] up to its loop: the datagrams sent, and the buffers to poll, if the
    agent comes to that; [bound] is the socket. *)
Definition agent_start (parse_json : string → option (list ProbeSpec)) (file : string + list byte) (bound : bool)
    : list (list byte) * option (list (list PerfBuf)) :=
  if negb bound then ([], None) else
  let '(loaded, (ok, _)) := agent_probes show (configured parse_json file) in
  match loaded with
  | [] => ([hello; no_probes], None)
  | _ => ([hello; active ok], Some loaded)
  end.

(** The whole run: the start, and the rounds of the loop, each with what the
    buffers gave. *)
Fixpoint agent_rounds (rounds : list (list (option (list (list byte))) * bool)) (c : AgentCounters) : list (list byte) :=
  match rounds with
  | [] => []
  | (bufs, five_secs) :: rounds => let '(ds, c) := agent_poll bufs five_secs c in ds ++ agent_rounds rounds c
  end.
Definition agent_datagrams (parse_json : string → option (list ProbeSpec)) (file : string + list byte) (bound : bool)
    (rounds : list (list (option (list (list byte))) * bool)) : list (list byte) :=
  let '(ds, live) := agent_start parse_json file bound in
  ds ++ match live with
        | Some _ => agent_rounds rounds {| total_events := 0; total_polls := 0; total_errors := 0 |}
        | None => []
        end.
End Agent.

(** ** What the host makes of the agent's start *)

Lemma start_short n : 0 ≤ n < 1000 → zlen (active n) < header_size.
Proof.
  intros Hn. assert (Hall : forallb (λ n, zlen (active n) <? header_size) (seqZ 0 1000) = true) by (vm_compute; reflexivity).
  rewrite forallb_forall in Hall. apply Z.ltb_lt, Hall, list_elem_of_In, elem_of_seqZ. lia.
Qed.

Section Host.
Context `{Aya} (show : Z → string).

Lemma agent_probes_ok ps : 0 ≤ (agent_probes show ps).2.1 ≤ zlen ps.
Proof.
  induction ps as [|p ps IH]; cbn [agent_probes]; [unfold zlen; cbn; lia|]. rewrite zlen_cons.
  destruct (agent_probes show ps) as [loaded [ok failed]]. cbn in IH.
  destruct (enabled p), (bytecode p); cbn; try lia.
  destruct (negb _); cbn; [lia|]. destruct (load_probe _ _ _ _); cbn; lia.
Qed.

(** The greetings are too short for events: the host's source takes none of
    them for one, so that it cannot tell an agent without probes, or one that
    never started, from a quiet guest. *)
Lemma greetings_dropped parse_json file bound rest :
  (zlen (configured parse_json file) < 1000) →
  guest_poll ((Datagram <$> (agent_start show parse_json file bound).1) ++ WouldBlock :: rest) = ([], rest).
Proof.
  intros Hn. unfold agent_start. destruct (negb bound); [done|].
  pose proof (agent_probes_ok (configured parse_json file)) as Hok.
  destruct (agent_probes show _) as [loaded [ok failed]]. cbn in Hok.
  assert (Ha : zlen (active ok) < header_size) by (apply start_short; lia).
  destruct loaded as [|b loaded]; cbn [fst]; [rewrite guest_poll_events; [done|]|
    rewrite guest_poll_events; [cbn [List.filter fmap list_fmap]|]].
  - repeat constructor; vm_compute; discriminate.
  - rewrite (proj2 (Z.leb_gt _ _) Ha). done.
  - repeat constructor; [vm_compute; discriminate|]. change header_size with 48 in Ha. lia.
Qed.

(** An agent whose configuration cannot be read sends two greetings and waits
    for ever. *)
Lemma unread_configuration parse_json e rounds :
  agent_datagrams show parse_json (inl e) true rounds = [hello; no_probes].
Proof. done. Qed.
End Host.
