(* ===== verification/Wsl.v ===== *)
(** * The desktop client's commands inside WSL (desktop/src/main.rs)

    Starting, stopping and setting up the daemon from Windows: programs run by
    bash inside WSL, as root through sudo, whose command is quoted for two
    shells. *)

From stdpp Require Import pretty.
From S2P Require Import Prelude Pool Wasm Sandbox Policy Calendar Store Oci Initrd Extract Caches Pull Agent Eye Probes Kvm Builder Registry ImageService GuestImage Daemon Rest Desktop.
#[local] Open Scope Z_scope.

(** What the commands use of Windows besides Desktop.v: [wsl] with arguments
    and its output, a line of the standard input, and the lines of a program
    that goes on ([None]: one that cannot be read). *)
Class WslHost (W : Type) : Type := {
  wsl_output : list string → stm W string (bool * (list byte * list byte));
  stdin_line : stm W string string;
  wsl_stream : list string → stm W string (list (option string));
}.
Class JsonNumbers (V : Type) : Type := json_u64 : V → option Z.

(** ** Quoting *)

Definition squote : Ascii.ascii := Ascii.ascii_of_nat 39.
Definition backslash : Ascii.ascii := Ascii.ascii_of_nat 92.
Definition escaped_quote : string := String squote (String backslash (String squote (String squote EmptyString))).
(** [replace] of each quote by a closing quote, an escaped one and an opening
    one. *)
Fixpoint replace_quote (s : string) : string :=
  match s with
  | EmptyString => EmptyString
  | String c s => if Ascii.eqb c squote then escaped_quote +:+ replace_quote s else String c (replace_quote s)
  end.
Definition in_quotes (s : string) : string := String squote EmptyString +:+ replace_quote s +:+ String squote EmptyString.

Definition sudo_text (cmd : string) : string := "sudo -n bash -c " +:+ in_quotes cmd.
Definition password_text (password cmd : string) : string :=
  "echo " +:+ in_quotes password +:+ " | sudo -S bash -c " +:+ in_quotes cmd +:+ " 2>/dev/null".

(** [str::lines]: each line without its end, and nothing after the last. *)
Definition cut_cr (s : string) : string :=
  if ends_with (String cr_char EmptyString) s then String.substring 0 (String.length s - 1) s else s.
Fixpoint end_lines (ls : list string) : list string :=
  match ls with
  | [] => []
  | [l] => if String.eqb l "" then [] else [l]
  | l :: ls => cut_cr l :: end_lines ls
  end.
Definition str_lines (s : string) : list string := end_lines (split_on newline_char s).

Section Wsl.
Context {W V : Type} `{DesktopHost W} `{JsonText V} `{WslHost W} `{JsonNumbers V}.
Local Abbreviation run := (stm W string).

Definition wsl (cmd : string) : run string :=
  '(ok, (out, err)) ← failing (λ e, "wsl exec failed: " +:+ e) (wsl_output ["-e"; "bash"; "-c"; cmd]);
  let stdout := trim (from_utf8_lossy out) in
  if ok : bool then mret stdout else
  let stderr := trim (from_utf8_lossy err) in
  throw (if String.eqb stderr "" then stdout else stderr).

Definition wsl_sudo (cmd : string) : run string :=
  result ← tried (wsl (sudo_text cmd));
  match result with
  | Some out => mret out
  | None =>
      modify (print_err "[sudo] password: ") ;;
      password ← failing (λ e, "read password: " +:+ e) stdin_line;
      wsl (password_text (trim password) cmd)
  end.

(** ** Starting and stopping *)

Definition show_part (s : string) : run unit := modify (print_out s).
Definition tap_text : string :=
  "ip tuntap add dev tap0 mode tap && ip addr add 172.16.0.1/24 dev tap0 && ip link set tap0 up".
Definition tap_there : string := "ip link show tap0 2>/dev/null".
Definition start_text (config : string) : string :=
  "RUST_LOG=info nova serve --config " +:+ config +:+ " > /tmp/nova-daemon.log 2>&1 &".

(** The wait for the daemon, with a dot for each try. *)
Fixpoint wait_healthy (tries : nat) (api : string) : run bool :=
  match tries with
  | O => mret false
  | S tries =>
      show_part "." ;;
      healthy ← daemon_healthy api;
      if healthy : bool then mret true else wait_healthy tries api
  end.

Definition ensure_tap (made : run unit) : run unit :=
  tap ← tried (wsl tap_there);
  match tap with Some _ => mret tt | None => made end.

Definition cmd_start (api config : string) : run unit :=
  healthy ← daemon_healthy api;
  if healthy : bool then println "[+] Daemon is already running" else
  println "[*] Starting NovaVM daemon in WSL..." ;;
  _ ← wsl_sudo "mkdir -p /run/nova /var/run/nova /var/lib/nova/images";
  ensure_tap (println "[*] Creating TAP device..." ;; _ ← wsl_sudo tap_text; println "    tap0 UP (172.16.0.1/24)") ;;
  _ ← wsl_sudo (start_text config);
  show_part "[*] Waiting for daemon" ;;
  ready ← wait_healthy 20 api;
  if ready : bool then
    println " ready!" ;;
    println ("[+] NovaVM daemon running on " +:+ api)
  else
    println " timeout!" ;;
    log ← tried (wsl "tail -10 /tmp/nova-daemon.log 2>/dev/null");
    (match log with
     | Some log => modify (print_err (newline +:+ "Daemon log:" +:+ newline +:+ log +:+ newline))
     | None => mret tt
     end) ;;
    throw "Daemon failed to start within 10s".

Definition stop_text : string := "pkill -f 'nova serve' 2>/dev/null || true".
Definition cmd_stop (api : string) : run unit :=
  println "[*] Stopping NovaVM daemon..." ;;
  _ ← wsl_sudo stop_text;
  healthy ← daemon_healthy api;
  if healthy : bool then throw "Daemon is still running" else println "[+] Daemon stopped".

(** ** Status and events *)

Definition is_running (v : V) : bool := bool_decide (json_str (json_get "state" v) = Some "running").
Definition print_sandboxes (api : string) : run unit :=
  val ← tried (api_get api sandboxes_path);
  match val ≫= json_array with
  | Some arr =>
      println ("Sandboxes:  " +:+ pretty (length arr) +:+ " total, " +:+
               pretty (length (filter (λ v, is_running v = true) arr)) +:+ " running")
  | None => mret tt
  end.
Definition print_found (label cmd : string) : run unit :=
  found ← tried (wsl cmd);
  match found with Some s => println (label +:+ s) | None => mret tt end.

Definition cmd_status (api : string) : run unit :=
  wsl_ok ← tried (wsl_output ["-e"; "echo"; "ok"]);
  println ("WSL:        " +:+ if from_option fst false wsl_ok then "running" else "not running") ;;
  healthy ← daemon_healthy api;
  println ("Daemon:     " +:+ if healthy : bool then "running" else "stopped") ;;
  println ("API:        " +:+ api) ;;
  (if healthy : bool then print_sandboxes api else mret tt) ;;
  print_found "WSL kernel: " "uname -r 2>/dev/null" ;;
  print_found "Cache:      " "du -sh /var/lib/nova/images 2>/dev/null | cut -f1".

Definition event_text (v : V) : outcome string string :=
  prefix ← (match json_str (json_get "sandbox_id" v) with
            | Some i => s ← short_id i; Ok ("[guest:" +:+ s +:+ "]")
            | None => Ok "[host]"
            end);
  Ok (prefix +:+ " " +:+ padded (default "?" (json_str (json_get "event_type" v))) 16 +:+ " pid=" +:+
      padded (pretty (default 0 (json_u64 (json_get "pid" v)))) 6 +:+ " comm=" +:+
      default "?" (json_str (json_get "comm" v))).
Definition print_event_line (line : string) : run unit :=
  if String.eqb (trim line) "" then mret tt else
  match parse_json line with
  | inr v => t ← lift (event_text v); println t
  | inl _ => println line
  end.

(** The lines up to the first that cannot be read. *)
Fixpoint print_stream (l : list (option string)) : run unit :=
  match l with
  | Some line :: l => print_event_line line ;; print_stream l
  | _ => mret tt
  end.
Definition cmd_events (n : Z) (follow : bool) : run unit :=
  if follow then
    println ("[*] Streaming events (Ctrl+C to stop)..." +:+ newline) ;;
    l ← failing (λ e, "wsl exec failed: " +:+ e) (wsl_stream ["-e"; "bash"; "-c"; "tail -f /var/run/nova/events.jsonl 2>/dev/null"]);
    print_stream l
  else
    output ← wsl ("tail -n " +:+ pretty n +:+ " /var/run/nova/events.jsonl 2>/dev/null");
    for_each print_event_line (str_lines output).

(** ** Setting up *)

(** A check that ends the setup: what is shown and returned where it fails. *)
Definition need (label cmd : string) (shown : string → string) (failed : list string) (error : string) : run unit :=
  show_part label ;;
  found ← tried (wsl cmd);
  match found with
  | Some s => println (shown s)
  | None => for_each println failed ;; throw error
  end.

Definition cmd_setup : run unit :=
  println ("[*] Setting up NovaVM in WSL..." +:+ newline) ;;
  need "  Checking WSL... " "echo ok" (λ _, "ok") [] "WSL is not available. Install WSL2 first." ;;
  need "  Checking KVM... " "ls /dev/kvm 2>/dev/null" (λ _, "ok")
    ["NOT AVAILABLE"; newline +:+ "  Enable nested virtualization in PowerShell (admin):";
     "    Set-VMProcessor -VMName WSL -ExposeVirtualizationExtensions $true"; "    wsl --shutdown"] "KVM not available" ;;
  need "  Checking nova binary... " "which nova 2>/dev/null || ls /usr/local/bin/nova 2>/dev/null" (λ path, path)
    ["NOT FOUND"; newline +:+ "  Build and install the nova binary in WSL first."] "nova binary not installed in WSL" ;;
  need "  Checking kernel... " "ls /opt/nova/vmlinux 2>/dev/null" (λ _, "/opt/nova/vmlinux")
    ["not found — run: wsl -e sudo nova setup"] "kernel not installed" ;;
  show_part "  Creating directories... " ;;
  _ ← wsl_sudo "mkdir -p /run/nova /var/run/nova /var/lib/nova/images /etc/nova /var/lib/nova/policy/bundles";
  println "ok" ;;
  show_part "  Checking config... " ;;
  config ← tried (wsl "test -f /etc/nova/nova.toml && echo exists");
  (if from_option (contains_str "exists") false config then println "/etc/nova/nova.toml" else
   show_part "creating... " ;;
   _ ← wsl_sudo "nova setup 2>/dev/null || echo 'run: wsl -e sudo nova setup'";
   println "ok") ;;
  show_part "  Checking TAP device... " ;;
  tap ← tried (wsl tap_there);
  (match tap with
   | Some _ => println "tap0 exists"
   | None => show_part "creating... " ;; _ ← wsl_sudo tap_text; println "tap0 UP"
   end) ;;
  for_each println [newline +:+ "[+] Setup complete!"; "    Start daemon:  nova start";
    "    Run sandbox:   nova run nginx:alpine --name web"; "    List running:  nova ps"].

(** ** The program *)

Inductive Cmd : Type :=
| Start (config : string) | Stop | Status
| Run (image : string) (name : option string) (vcpus memory : Z) (cmd : option string)
| Ps | Exec (sandbox : string) (command : list string) | StopSandbox (sandbox : string) | Rm (sandbox : string)
| CmdPull (image : string) | Images | Logs (sandbox : string) | Events (n : Z) (f : bool) | CmdInspect (target : string) | Setup.

Definition ending_zero (m : run unit) : run Z := m ;; mret 0.
Definition dispatch (nanos : Z) (api : string) (c : Cmd) : run Z :=
  match c with
  | Start config => ending_zero (cmd_start api config)
  | Stop => ending_zero (cmd_stop api)
  | Status => ending_zero (cmd_status api)
  | Run image name vcpus memory cmd => ending_zero (Desktop.cmd_run nanos api image name vcpus memory cmd)
  | Ps => ending_zero (Desktop.cmd_ps api)
  | Exec sandbox command => code ← Desktop.cmd_exec api sandbox command; mret (default 0 code)
  | StopSandbox sandbox => ending_zero (cmd_stop_sandbox api sandbox)
  | Rm sandbox => ending_zero (Desktop.cmd_rm api sandbox)
  | CmdPull image => ending_zero (Desktop.cmd_pull api image)
  | Images => ending_zero (Desktop.cmd_images api)
  | Logs sandbox => ending_zero (Desktop.cmd_logs api sandbox)
  | Events n f => ending_zero (cmd_events n f)
  | CmdInspect target => ending_zero (Desktop.cmd_inspect api target)
  | Setup => ending_zero cmd_setup
  end.
(** The program's status and what it leaves, with an error shown. *)
Definition desktop_main (nanos : Z) (api : string) (c : Cmd) (w : W) : outcome string Z * W :=
  match dispatch nanos api c w with
  | (Err e, w) => (Ok 1, print_err ("error: " +:+ e +:+ newline) w)
  | r => r
  end.

(** ** What the commands promise *)

#[local] Ltac after H := apply stm_bind_ok in H as (? & ? & _ & H).

(** A wait that ends in success ends with an answer of the daemon. *)
Lemma wait_healthy_answers tries api w w' :
  wait_healthy tries api w = (Ok true, w') → ∃ w1, daemon_healthy api w1 = (Ok true, w').
Proof.
  revert w. induction tries as [|tries IH]; intros w; cbn [wait_healthy]; [done|].
  intros (u & w1 & _ & (b & w2 & Hd & Hb)%stm_bind_ok)%stm_bind_ok.
  destruct b; [|by apply (IH w2)]. injection Hb as <-. by exists w1.
Qed.

(** A start or a stop that reports success has asked the daemon: a start
    ends only after the daemon has answered its health check, at the beginning
    or in the wait, and a stop only after it has failed to. *)
Theorem start_stop_asked api config w w' (start : bool)
    (Hr : (if start then cmd_start api config else cmd_stop api) w = (Ok tt, w')) :
  ∃ w1 w2, daemon_healthy api w1 = (Ok start, w2).
Proof.
  destruct start.
  - apply stm_bind_ok in Hr as (b & w1 & Hd & Hr). destruct b; [eauto|]. do 5 after Hr.
    apply stm_bind_ok in Hr as (b & w2 & Hw & Hr).
    destruct b; [apply wait_healthy_answers in Hw as [w3 Hw]; eauto|]. by do 3 after Hr.
  - do 2 after Hr. apply stm_bind_ok in Hr as (b & w1 & Hd & Hr). destruct b; [done|eauto].
Qed.
End Wsl.

(** ** What the shell reads *)

(** The words of a line as bash splits it, as far as the quoting above needs
    it: single quotes, a backslash outside of them, and spaces. *)
Definition put (c : Ascii.ascii) (w : option string) : option string := Some (default "" w +:+ String c "").
Definition close_word (w : option string) (ws : option (list string)) : option (list string) :=
  match w with Some w => cons w <$> ws | None => ws end.
Fixpoint sh_lex (s : string) (w : option string) (quoted : bool) : option (list string) :=
  match s with
  | EmptyString => if quoted then None else close_word w (Some [])
  | String c s1 =>
      if quoted then
        if Ascii.eqb c squote then sh_lex s1 w false else sh_lex s1 (put c w) true
      else if Ascii.eqb c squote then sh_lex s1 (Some (default "" w)) true
      else if Ascii.eqb c backslash then
        match s1 with String d s2 => sh_lex s2 (put d w) false | EmptyString => None end
      else if Ascii.eqb c (Ascii.ascii_of_nat 32) then close_word w (sh_lex s1 None false)
      else sh_lex s1 (put c w) false
  end.
Definition sh_words (s : string) : option (list string) := sh_lex s None false.

Lemma sapp_empty_r (s : string) : s +:+ "" = s.
Proof. induction s as [|c s IH]; [done|]. change (String c (s +:+ "") = String c s). by rewrite IH. Qed.

Lemma lex_quoted x rest cur :
  sh_lex (replace_quote x +:+ String squote rest) (Some cur) true = sh_lex rest (Some (cur +:+ x)) false.
Proof.
  revert cur. induction x as [|c x IH]; intros cur.
  - cbn. by rewrite sapp_empty_r.
  - cbn [replace_quote]. destruct (Ascii.eqb_spec c squote) as [->|Hc].
    + trans (sh_lex (replace_quote x +:+ String squote rest) (Some (cur +:+ String squote "")) true).
      { unfold escaped_quote. rewrite !sapp_cons, Registry.sapp_nil. cbn [sh_lex default].
        rewrite Ascii.eqb_refl. change (Ascii.eqb backslash squote) with false. rewrite Ascii.eqb_refl. done. }
      by rewrite IH, sapp_assoc.
    + trans (sh_lex (replace_quote x +:+ String squote rest) (Some (cur +:+ String c "")) true).
      { rewrite sapp_cons. cbn [sh_lex]. by destruct (Ascii.eqb_spec c squote). }
      by rewrite IH, sapp_assoc.
Qed.

(** A quoted word, and what follows it. *)
Lemma lex_word x rest : sh_lex (in_quotes x +:+ rest) None false = sh_lex rest (Some x) false.
Proof.
  trans (sh_lex (replace_quote x +:+ String squote rest) (Some "") true); [|by rewrite lex_quoted].
  unfold in_quotes. rewrite !sapp_assoc, sapp_cons, Registry.sapp_nil. cbn [sh_lex]. by rewrite Ascii.eqb_refl.
Qed.

(** The words that stand before a quoted one, and those after it. *)
Lemma sudo_words q : sh_words ("sudo -n bash -c " +:+ q) = app ["sudo"; "-n"; "bash"; "-c"] <$> sh_lex q None false.
Proof. unfold sh_words. cbv. by destruct (_ q None false). Qed.
Lemma echo_words q : sh_words ("echo " +:+ q) = cons "echo" <$> sh_lex q None false.
Proof. reflexivity. Qed.
Lemma pipe_words x q :
  sh_lex (" | sudo -S bash -c " +:+ q) (Some x) false = app [x; "|"; "sudo"; "-S"; "bash"; "-c"] <$> sh_lex q None false.
Proof. cbv. by destruct (_ q None false). Qed.

(** Quoting is exact: whatever characters a command or a password has,
    quotes, backslashes and spaces included, the outer shell hands sudo's bash
    the command as one word, unchanged, and echoes the password unchanged. *)
Theorem quoting_exact cmd password :
  sh_words (sudo_text cmd) = Some ["sudo"; "-n"; "bash"; "-c"; cmd] ∧
  sh_words (password_text password cmd) =
    Some ["echo"; password; "|"; "sudo"; "-S"; "bash"; "-c"; cmd; "2>/dev/null"].
Proof.
  split.
  - unfold sudo_text. rewrite sudo_words, <- (sapp_empty_r (in_quotes cmd)), lex_word. done.
  - unfold password_text. rewrite echo_words, lex_word, pipe_words, lex_word. done.
Qed.

(** The command that stops the daemon is found by its own pattern: the
    [sudo] that runs it has the words in its arguments. *)
Example stop_names_itself : contains_str "nova serve" (sudo_text stop_text) = true.
Proof. vm_compute. reflexivity. Qed.

(** The path of the configuration is not quoted. *)
Example config_path_splits :
  sh_words (start_text "/my dir/nova.toml") =
    Some ["RUST_LOG=info"; "nova"; "serve"; "--config"; "/my"; "dir/nova.toml"; ">"; "/tmp/nova-daemon.log"; "2>&1"; "&"].
Proof. vm_compute. reflexivity. Qed.
