(* ===== verification/Wasi.v ===== *)
(** * WASI contexts (crates/nova-wasm/src/wasi.rs)

    The context that is given its arguments, its environment and the host's
    standard streams, and runs of modules in it; the captured runs are in
    Wasm.v. *)

From S2P Require Import Prelude Wasm.

(** What the crate uses of wasmtime's builder and store: a store is changed
    by what is instantiated and called in it. *)
Class WasiHost `{WasmHost} : Type := {
  WasiCtxBuilder : Type;
  WasiStore : Type;
  builder_new : WasiCtxBuilder;
  builder_args : list string → WasiCtxBuilder → WasiCtxBuilder;
  builder_env : string → string → WasiCtxBuilder → WasiCtxBuilder;
  builder_inherit_stdio : WasiCtxBuilder → WasiCtxBuilder;
  store_new : Engine → WasiCtxBuilder → WasiStore;
  instantiate_in : Linker → Mod → stm WasiStore string Inst;
  typed_start_in : Inst → stm WasiStore string Func;
  start_call : Func → stm WasiStore string unit;
}.

(** [WasiConfig]; the environment in the order its HashMap is read. *)
Record WasiConfig : Type := {
  wc_args : list string;
  wc_env : list (string * string);
  wc_inherit_stdio : bool;
}.
Definition WasiConfig_default : WasiConfig := {| wc_args := []; wc_env := []; wc_inherit_stdio := false |}.

Section Wasi.
Context `{WasiHost}.

Record WasiContext : Type := { wx_store : WasiStore; wx_linker : Linker }.

Definition wasi_builder (c : WasiConfig) : WasiCtxBuilder :=
  let b := match wc_args c with [] => builder_new | args => builder_args args builder_new end in
  let b := foldl (λ b kv, builder_env kv.1 kv.2 b) b (wc_env c) in
  if wc_inherit_stdio c then builder_inherit_stdio b else b.

Definition WasiContext_new (engine : Engine) (c : WasiConfig) : outcome WasmError WasiContext :=
  linker ← map_err (λ e, Wasi ("failed to add WASI to linker: " +:+ e)) (of_sum (linker_new engine));
  Ok {| wx_store := store_new engine (wasi_builder c); wx_linker := linker |}.

(** A call in the context's store, whose error is put in words. *)
Definition in_store {A} (f : string → WasmError) (m : stm WasiStore string A) : stm WasiContext WasmError A := λ x,
  let '(r, s) := m (wx_store x) in
  (map_err f r, {| wx_store := s; wx_linker := wx_linker x |}).

(** [WasiContext::run]. *)
Definition wasi_run (m : Mod) : stm WasiContext WasmError unit :=
  linker ← gets wx_linker;
  inst ← in_store (λ e, Instantiation ("instantiation failed: " +:+ e)) (instantiate_in linker m);
  start ← in_store (λ e, Execution ("no _start function: " +:+ e)) (typed_start_in inst);
  in_store (λ e, Execution ("execution failed: " +:+ e)) (start_call start).

(** ** Properties *)

(** A run on every branch: the module is instantiated in the context's own
    store, the start function is looked up and called there, each failure is
    reported by its kind, and the linker is kept for the next run. *)
Theorem wasi_run_exact m x :
  wasi_run m x =
    let keep s := {| wx_store := s; wx_linker := wx_linker x |} in
    match instantiate_in (wx_linker x) m (wx_store x) with
    | (Ok i, s) =>
        match typed_start_in i s with
        | (Ok f, s) => let '(r, s) := start_call f s in (map_err (λ e, Execution ("execution failed: " +:+ e)) r, keep s)
        | (Err e, s) => (Err (Execution ("no _start function: " +:+ e)), keep s)
        | (Panic p, s) => (Panic p, keep s)
        end
    | (Err e, s) => (Err (Instantiation ("instantiation failed: " +:+ e)), keep s)
    | (Panic p, s) => (Panic p, keep s)
    end.
Proof.
  unfold wasi_run, in_store, gets, mbind, stm_bind. cbn.
  destruct (instantiate_in _ _ _) as [[i|e|p] s]; cbn; [|done..].
  destruct (typed_start_in i s) as [[f|e|p] s']; cbn; [|done..].
  by destruct (start_call f s') as [[u|e|p] s''].
Qed.

(** The order in which the environment's map is read does not matter, where
    the builder keeps different variables apart. *)
Theorem env_order_free c env
    (Hb : ∀ k v k' v' b, k ≠ k' → builder_env k v (builder_env k' v' b) = builder_env k' v' (builder_env k v b))
    (Hk : NoDup (wc_env c).*1) (Hp : wc_env c ≡ₚ env) :
  wasi_builder {| wc_args := wc_args c; wc_env := env; wc_inherit_stdio := wc_inherit_stdio c |} = wasi_builder c.
Proof.
  unfold wasi_builder. cbn. generalize (match wc_args c with [] => builder_new | args => builder_args args builder_new end).
  intros b. assert (E : ∀ b, foldl (λ b kv, builder_env kv.1 kv.2 b) b (wc_env c) = foldl (λ b kv, builder_env kv.1 kv.2 b) b env);
    [|by rewrite E]. clear b.
  revert Hk. induction Hp as [|[k v] l l' _ IH|[k v] [k' v'] l|l1 l2 l3 P1 IH1 P2 IH2]; cbn; intros Hk b.
  - done.
  - apply NoDup_cons in Hk as [_ Hk]. by apply IH.
  - apply NoDup_cons in Hk as [Hk _]. rewrite Hb; [done|]. intros ->. apply Hk. left.
  - rewrite IH1 by done. apply IH2. by rewrite <- P1.
Qed.
End Wasi.
