(* ===== verification/Commands.v ===== *)
(** * The command line as a whole (novactl/src/main.rs)

    The commands with their arguments, what [main] does with each, and what
    any sequence of them, by whatever users, leaves of a daemon. *)

From stdpp Require Import pretty.
From S2P Require Import Prelude Pool Wasm Sandbox Policy Calendar Store Oci Initrd Extract Caches Pull Agent Eye Probes Kvm Builder Registry Rest ImageService GuestImage Config Daemon Sensors Startup Desktop Novactl Cli.
#[local] Open Scope Z_scope.

(** ** The commands *)

Inductive PolicyCommands : Type :=
| List
| Load (path : string) (id : option string)
| Remove (bundle_id : string)
| Eval (policy input : string)
| Status.

Inductive Commands : Type :=
| Serve (config : option string)
| Setup (force list : bool)
| Run (image : string) (vcpus memory : Z) (name cmd : option string)
| Ps (all : bool)
| Stop (sandbox : string) (timeout : Z)
| Kill (sandbox : string)
| Rm (sandbox : string) (force : bool)
| Exec (sandbox : string) (command : list string)
| Logs (sandbox : string) (follow : bool) (lines : Z)
| Images
| Pull (image : string)
| Inspect (target : string)
| Policy (action : PolicyCommands)
| Shell (image : string) (vcpus memory : Z) (cmd : option string).

(** What a command ends with: the lines it showed and its status, a table, or
    nothing yet, where it still waits. *)
Inductive Reply : Type :=
| Told (s : Shown)
| Table (rows : list (list string)) (s : Shown)
| Waiting.

(** ** [main] *)

Section Main.
Context {N P SC : Type} `{WasmHost} `{HttpHost N} `{RegistryJson} `{OciJson} `{Tar}.
Context `{Serde BlobStoreIndex} `{Serde RootfsCacheIndex} `{Serde SnapshotCacheIndex} `{Serde (gmap string ImageInfo)}.
Context (sha256_hex : list byte → string) (status_text status_error : Z → string)
  (alphanumeric : list byte → bool) (report : Fs → hpath → dir) (show_errno : Z → string)
  (read_file : string → string + list byte) (probes_json : list ProbeSpec → list byte) (parse_json : string → option Policy.json).
Context (env : DaemonEnv).
Local Abbreviation Service := (RuntimeDaemonService (N:=N) (P:=P) (SC:=SC)).
Local Abbreviation run := (stm Service ImageService.Status).
Implicit Types s : Service.
Local Abbreviation events := (daemon_run sha256_hex status_text status_error alphanumeric report show_errno read_file probes_json env).
Local Abbreviation nova_run := (cmd_run sha256_hex status_text status_error alphanumeric report show_errno read_file probes_json env).
Local Abbreviation nova_shell := (cmd_shell sha256_hex status_text status_error alphanumeric report show_errno read_file probes_json env).
Local Abbreviation nova_pull := (cmd_pull sha256_hex status_text status_error alphanumeric report show_errno env).

(** What a command meets: the daemon's clock and process number and its own
    clock, what else reaches the daemon between its requests, the daemon's
    polls of a console, the events of a stream, the file it reads, and the
    time an evaluation takes. *)
Record World : Type := {
  w_moment : Moment;
  w_nanos : Z;
  w_pulled : list daemon_event;
  w_between : list daemon_event;
  w_shown : list daemon_event;
  w_polls : list (list byte * option (list byte));
  w_stream : list stream_event;
  w_file : string → string + list byte;
  w_us : Z;
}.

Definition told (m : run Shown) : run Reply := x ← m; mret (Told x).
Definition done_with {A} (m : run A) (f : A → list string) : run Reply := a ← m; mret (Told (shows (f a))).
Definition named (i what : string) : string := "Sandbox '" +:+ i +:+ "' " +:+ what.
Definition total (n : nat) : string := "  " +:+ pretty n +:+ " sandbox" +:+ if (n =? 1)%nat then "" else "es".

Definition policy_main (w : World) (c : PolicyCommands) : run Reply :=
  match c with
  | List => '(s, rows) ← policy_list; mret (Table rows s)
  | Load path id => told (policy_load (m_now (w_moment w)) (w_file w path) id)
  | Remove i => told (policy_remove i)
  | Eval policy input => told (policy_eval parse_json (w_us w) policy input)
  | Status => told policy_status
  end.

(** The commands that go to a daemon: [None] for the two that work on the
    machine, [nova_serve] of Cli.v and [cmd_setup] of Novactl.v.  Of a command
    that fails only the error is kept, not what it showed before. *)
Definition main (w : World) (c : Commands) : option (run Reply) :=
  match c with
  | Serve _ | Setup _ _ => None
  | Run image vcpus memory name cmd => Some (
      done_with (nova_run (w_moment w) (w_between w) (w_nanos w) image vcpus memory name cmd)
        (λ i, [named i "created"; named i "started"]))
  | Ps _ => Some (rows ← cmd_ps; mret (Table rows (shows [total (length rows)])))
  | Stop i _ => Some (done_with (cmd_stop i) (λ _, [named i "stopped."]))
  | Kill i => Some (done_with (cmd_kill i) (λ _, [named i "killed."]))
  | Rm i force => Some (done_with (cmd_rm force i) (λ _, [named i "removed."]))
  | Exec i command => Some (x ← cmd_exec i command (w_polls w); mret (from_option Told Waiting x))
  | Logs i follow lines => Some (told (cmd_logs follow lines i (w_stream w)))
  | Images => Some ('(s, rows) ← cmd_images; mret (Table rows s))
  | Pull image => Some (told (nova_pull (m_now (w_moment w)) image))
  | Inspect target => Some (told (cmd_inspect target))
  | Policy action => Some (policy_main w action)
  | Shell image vcpus memory cmd => Some (
      done_with (nova_shell (w_moment w) (w_pulled w) (w_between w) (w_shown w) (w_nanos w) image vcpus memory cmd)
        (λ i, [named i "destroyed."]))
  end.

(** What a command leaves of the daemon, and a sequence of commands with what
    reaches the daemon before each. *)
Definition after (w : World) (c : Commands) s : Service :=
  match main w c with Some m => (m s).2 | None => s end.
Fixpoint session (l : list (list daemon_event * World * Commands)) s : Service :=
  match l with
  | [] => s
  | (es, w, c) :: l => session l (after w c (events es s))
  end.
End Main.

(** ** What commands leave of a daemon *)

Section Theorems.
Context {N P SC : Type} `{WasmHost} `{HttpHost N} `{RegistryJson} `{OciJson} `{Tar}.
Context `{Serde BlobStoreIndex} `{Serde RootfsCacheIndex} `{Serde SnapshotCacheIndex} `{Serde (gmap string ImageInfo)}.
Context (sha256_hex : list byte → string) (status_text status_error : Z → string)
  (alphanumeric : list byte → bool) (report : Fs → hpath → dir) (show_errno : Z → string)
  (read_file : string → string + list byte) (probes_json : list ProbeSpec → list byte) (parse_json : string → option Policy.json).
Context (env : DaemonEnv).
Local Abbreviation Service := (RuntimeDaemonService (N:=N) (P:=P) (SC:=SC)).
Local Abbreviation run := (stm Service ImageService.Status).
Implicit Types s : Service.
Local Abbreviation nova := (main sha256_hex status_text status_error alphanumeric report show_errno read_file probes_json parse_json env).
Local Abbreviation left_by := (after sha256_hex status_text status_error alphanumeric report show_errno read_file probes_json parse_json env).
Local Abbreviation users := (session sha256_hex status_text status_error alphanumeric report show_errno read_file probes_json parse_json env).

(** A request keeps the invariant of the daemon. *)
Definition safe {A} (m : run A) : Prop := ∀ s, daemon_inv true s → daemon_inv true (m s).2.

Lemma safe_ret {A} (a : A) : safe (mret a).
Proof. by intros s I. Qed.
Lemma safe_lift {A} (r : outcome _ A) : safe (lift r).
Proof. by intros s I. Qed.
Lemma safe_throw {A} e : safe (throw e : run A).
Proof. by intros s I. Qed.
Lemma safe_gets {A} (f : Service → A) : safe (gets f).
Proof. by intros s I. Qed.
Lemma safe_bind {A B} (m : run A) (f : A → run B) : safe m → (∀ a, safe (f a)) → safe (m ≫= f).
Proof.
  intros Hm Hf s I. unfold mbind, stm_bind. specialize (Hm s I).
  destruct (m s) as [[a|e|p] s1]; [by apply Hf|done..].
Qed.
Lemma safe_attempt {A} (m : run A) : safe m → safe (attempt m).
Proof. intros Hm s I. specialize (Hm s I). unfold attempt. by destruct (m s) as [[]]. Qed.
Lemma safe_images {A} (m : stm (ImageDaemonService N) _ A) : safe (on_images m).
Proof. intros s. apply inv_images. Qed.
Lemma safe_policy {A} (f : PolicyState → A * PolicyState) : safe (on_policy f).
Proof. intros s I. unfold on_policy. destruct (f _). by apply (inv_core true s). Qed.
Lemma safe_stop i : safe (stop_sandbox i).
Proof. intros s I. by apply (inv_stop read_file true i s). Qed.
Lemma safe_destroy i : safe (destroy_sandbox i).
Proof. intros s I. by apply (inv_destroy read_file true i s). Qed.
Lemma safe_events es : safe (modify (daemon_run sha256_hex status_text status_error alphanumeric report show_errno read_file probes_json env es)).
Proof. intros s I. by apply inv_events. Qed.
Lemma safe_asking {A} (m : run A) : (∀ s, (m s).2 = s) → safe m.
Proof. intros Hm s I. by rewrite Hm. Qed.

Create HintDb safe.
Hint Resolve safe_ret safe_lift safe_throw safe_gets safe_bind safe_attempt safe_images safe_policy safe_stop safe_destroy safe_events : safe.

Lemma safe_create_and_start m between req :
  safe (create_and_start sha256_hex status_text status_error alphanumeric report show_errno read_file probes_json env m between req).
Proof.
  unfold create_and_start. apply safe_bind; [intros s; by apply inv_create|].
  intros i. apply safe_bind; [apply safe_events|]. intros _. apply safe_bind; [|eauto with safe].
  intros s. apply inv_start.
Qed.

Lemma exec_safe i command polls : safe (cmd_exec i command polls).
Proof.
  unfold cmd_exec. case_bool_decide; [apply safe_ret|]. apply safe_bind.
  - intros s I. by apply (inv_pushed true _ i (string_bytes (String.concat " " command +:+ newline))).
  - intros [k baseline]. destruct (exec_wait baseline polls) as [[r|e|p]|]; auto with safe. by destruct e.
Qed.
Lemma logs_asks follow lines i evs s : (cmd_logs follow lines i evs s).2 = s.
Proof.
  unfold cmd_logs, open_console. pose proof (running_vm_state (λ _, "") i s) as E.
  destruct (running_vm (λ _, "") i s) as [[k|e|p] s1]; cbn in E; subst s1; [done| |done].
  unfold sandbox_status, find_sandbox, mbind, stm_bind. by destruct (map_err _ _).
Qed.
Lemma images_asks s : (cmd_images s).2 = s.
Proof.
  unfold cmd_images, on_images, mbind, stm_bind, list_images. cbn.
  assert (E : with_images s (images s) = s) by by destruct s.
  rewrite E. by destruct (each image_row _).
Qed.

Lemma main_safe w c m : nova w c = Some m → safe m.
Proof.
  unfold main, told, done_with.
  destruct c as [| |? ? ? ? ?|?|i ?|i|i force|i command|i follow lines| |?|target|action|? ? ? ?]; intros [= <-].
  - apply safe_bind; [|auto with safe]. apply safe_create_and_start.
  - unfold cmd_ps, list_sandboxes. auto with safe.
  - auto with safe.
  - auto with safe.
  - apply safe_bind; [|auto with safe]. unfold cmd_rm. destruct force; auto 10 with safe.
  - apply safe_bind; [apply exec_safe|auto with safe].
  - apply safe_bind; [apply safe_asking; apply logs_asks|auto with safe].
  - apply safe_bind; [apply safe_asking; apply images_asks|]. intros []; auto with safe.
  - apply safe_bind; [|auto with safe]. unfold cmd_pull. auto with safe.
  - apply safe_bind; [|auto with safe]. apply safe_asking. intros s. apply inspect_prefers_image.
  - destruct action; cbn [policy_main]; unfold told, policy_list, policy_load, policy_remove, policy_eval, policy_status.
    all: repeat (apply safe_bind; [auto with safe|intros; repeat case_match; auto with safe]).
  - apply safe_bind; [|auto with safe]. unfold cmd_shell. apply safe_bind; [auto with safe|intros _].
    apply safe_bind; [auto with safe|intros _]. apply safe_bind; [apply safe_create_and_start|]. auto 10 with safe.
Qed.
Lemma after_safe w c s : daemon_inv true s → daemon_inv true (left_by w c s).
Proof.
  intros I. unfold after. destruct (nova w c) as [m|] eqn:E; [|done]. by apply (main_safe w c m E).
Qed.
Lemma session_safe l s : daemon_inv true s → daemon_inv true (users l s).
Proof.
  revert s. induction l as [|[[es w] c] l IH]; intros s I; cbn; [done|]. apply IH, after_safe. by apply inv_events.
Qed.

Lemma destroy_others i s j : j ≠ i →
  sandboxes (orchestrator (destroy_sandbox i s).2) !! j = sandboxes (orchestrator s) !! j.
Proof.
  intros Hj. unfold destroy_sandbox. rewrite (core_orchestrator _ _ _ _ (proj1 (orch_core (destroy i) lifecycle_status s))). unfold destroy.
  destruct (sandboxes (orchestrator s) !! i); [|done]. case_bool_decide; [done|]. cbn. by rewrite lookup_delete_ne.
Qed.
Lemma destroy_gone i s : (destroy_sandbox i s).1 = Ok tt →
  sandboxes (orchestrator (destroy_sandbox i s).2) !! i = None.
Proof.
  unfold destroy_sandbox. destruct (orch_core (destroy i) lifecycle_status s) as [E ->]. intros Hr.
  rewrite (core_orchestrator _ _ _ _ E). unfold destroy in *. destruct (sandboxes (orchestrator s) !! i); [|done].
  case_bool_decide; [done|]. cbn. by rewrite lookup_delete_eq.
Qed.
Lemma stop_others i s j : j ≠ i →
  sandboxes (orchestrator (stop_sandbox i s).2) !! j = sandboxes (orchestrator s) !! j.
Proof. intros Hj. rewrite (core_orchestrator _ _ _ _ (proj1 (stop_core i s))). by apply on_sandbox_others. Qed.

(** Commands that only ask. *)
Definition asks (c : Commands) : bool :=
  match c with
  | Serve _ | Setup _ _ | Ps _ | Logs _ _ _ | Images | Inspect _ | Policy List | Policy Status => true
  | _ => false
  end.
Lemma asks_exact w c s : asks c = true → left_by w c s = s.
Proof.
  unfold after, main, told, done_with, mbind, stm_bind.
  destruct c as [| |? ? ? ? ?|?|?|?|? ?|? ?|i follow lines| |?|target|[]|? ? ? ?]; intros [=]; try done.
  - pose proof (logs_asks follow lines i (w_stream w) s) as E. by destruct (cmd_logs _ _ _ _ _) as [[]].
  - pose proof (images_asks s) as E. by destruct (cmd_images s) as [[[]| |]].
  - pose proof (proj1 (inspect_prefers_image target s)) as E. by destruct (cmd_inspect target s) as [[]].
Qed.

(** C31. What the users of a daemon leave, whatever commands they give in
    whatever order, with any requests and any work of the VM threads before,
    between and within them: a VM thread that was not told to stop belongs to
    a sandbox that runs, and is the one the daemon holds for it.  A command
    that asks changes nothing.  After nova stop and nova kill, also ones that
    fail, the sandbox does not run, and after nova rm that succeeds it is
    gone; neither leaves a VM thread of it that was not told to stop, and none
    touches another sandbox. *)
Theorem commands_leave_order l s0 :
  idle s0 →
  let s := users l s0 in
  (∀ k t, threads s !! k = Some t → live t = true →
    vm_handles s !! va_sandbox (th_args t) = Some k ∧
    ∃ sb, sandboxes (orchestrator s) !! va_sandbox (th_args t) = Some sb ∧ state sb = Running) ∧
  (∀ w c, asks c = true → left_by w c s = s) ∧
  (∀ w c i, (∃ time, c = Stop i time) ∨ c = Kill i →
    let s' := left_by w c s in
    (∀ sb, sandboxes (orchestrator s') !! i = Some sb → state sb ≠ Running) ∧
    (∀ k t, threads s' !! k = Some t → va_sandbox (th_args t) = i → live t = false) ∧
    (∀ j, j ≠ i → sandboxes (orchestrator s') !! j = sandboxes (orchestrator s) !! j)) ∧
  (∀ w i force m r, nova w (Rm i force) = Some m → (m s).1 = Ok r →
    let s' := left_by w (Rm i force) s in
    sandboxes (orchestrator s') !! i = None ∧
    (∀ k t, threads s' !! k = Some t → va_sandbox (th_args t) = i → live t = false) ∧
    (∀ j, j ≠ i → sandboxes (orchestrator s') !! j = sandboxes (orchestrator s) !! j)).
Proof.
  intros Hidle s. pose proof (session_safe l s0 (idle_inv true s0 Hidle)) as I. fold s in I.
  assert (Hlive : ∀ i w c, (∀ sb, sandboxes (orchestrator (left_by w c s)) !! i = Some sb → state sb ≠ Running) →
    ∀ k t, threads (left_by w c s) !! k = Some t → va_sandbox (th_args t) = i → live t = false).
  { intros i w c Hn k t Ht Ha. unfold live.
    by rewrite (no_vm_left true i _ (after_safe w c s I) Hn k t Ht Ha). }
  split_and!.
  - intros k t Ht Hl. by apply (inv_live _ _ I).
  - intros w c. apply asks_exact.
  - intros w c i Hc s'.
    assert (E : s' = (stop_sandbox i s).2).
    { unfold s', after, main, done_with, cmd_stop, cmd_kill, mbind, stm_bind.
      destruct Hc as [[time ->]| ->]; by destruct (stop_sandbox i s) as [[]]. }
    assert (Hn : ∀ sb, sandboxes (orchestrator s') !! i = Some sb → state sb ≠ Running).
    { rewrite E. intros sb. rewrite (core_orchestrator _ _ _ _ (proj1 (stop_core i s))). apply stopped_state. }
    split_and!; [done|by apply Hlive|]. rewrite E. apply stop_others.
  - intros w i force m r [= <-] Hr s'.
    assert (E : ∃ s1, (s1 = s ∨ s1 = (stop_sandbox i s).2) ∧ s' = (destroy_sandbox i s1).2 ∧ (destroy_sandbox i s1).1 = Ok tt).
    { unfold s', after, main, done_with, cmd_rm, attempt, mbind, stm_bind in *.
      destruct force; cbn in *; [destruct (stop_sandbox i s) as [[x|e|p] s1]; cbn in *; [exists s1..|done]|exists s].
      all: split; [tauto|]. all: by destruct (destroy_sandbox i _) as [[[]| |] s2]. }
    destruct E as (s1 & Hs1 & E & Hd).
    assert (Hn : sandboxes (orchestrator s') !! i = None) by (rewrite E; by apply destroy_gone).
    split_and!; [done|apply Hlive; intros sb Hsb; unfold s' in Hn; congruence|].
    intros j Hj. rewrite E, destroy_others by done. destruct Hs1 as [-> | ->]; [done|by apply stop_others].
Qed.
End Theorems.

(** ** Witness *)

#[local] Existing Instance Wasm.demo_host.
#[local] Existing Instance demo_registry_json.
#[local] Existing Instance demo_oci_json.
#[local] Existing Instance demo_http.
#[local] Existing Instance demo_tar.
#[local] Instance demo_blob_serde : Serde BlobStoreIndex := {| to_json := λ _, []; from_json := λ _, inr ∅ |}.
#[local] Instance demo_rootfs_serde : Serde RootfsCacheIndex := {| to_json := λ _, []; from_json := λ _, inr ∅ |}.
#[local] Instance demo_images_serde : Serde (gmap string ImageInfo) := {| to_json := λ _, []; from_json := λ _, inr ∅ |}.

(** Two sandboxes are run, one is stopped, and both are asked after. *)
Definition demo_world : World := {|
  w_moment := {| m_nanos := 7; m_now := 0; m_pid := 40; m_bound := true |}; w_nanos := 0x1234; w_pulled := []; w_between := [];
  w_shown := []; w_polls := []; w_stream := [StreamEnd]; w_file := λ _, inl "none"; w_us := 0 |}.
Definition demo_commands : list (list daemon_event * World * Commands) :=
  [([], demo_world, Run "" 1 128 (Some "a") None); ([], demo_world, Run "" 1 128 None None); ([], demo_world, Stop "a" 10);
   ([], demo_world, Ps false)].
Local Abbreviation demo_session := (session demo_sha256 (λ _, "") (λ _, "") (λ _, true) demo_report pretty (λ _, inl "none")
  (λ _, []) (λ _, None) demo_daemon_env demo_commands demo_daemon).
Local Abbreviation demo_after := (after demo_sha256 (λ _, "") (λ _, "") (λ _, true) demo_report pretty (λ _, inl "none")
  (λ _, []) (λ _, None) demo_daemon_env demo_world).

Lemma commands_leave_order_witness :
  (λ t, (va_sandbox (th_args t), th_shutdown t)) <$> threads demo_session = [("a", true); ("nova-1234", false)] ∧
  vm_handles demo_session !! "nova-1234" = Some 1%nat ∧
  demo_after (Inspect "a") demo_session = demo_session ∧
  sandboxes (orchestrator (demo_after (Rm "a" false) demo_session)) !! "a" = None.
Proof.
  destruct (commands_leave_order demo_sha256 (λ _, "") (λ _, "") (λ _, true) demo_report pretty (λ _, inl "none") (λ _, [])
    (λ _, None) demo_daemon_env demo_commands demo_daemon) as (Hlive & Hask & _ & Hrm); [by vm_compute|].
  split; [vm_compute; reflexivity|]. split; [|split].
  - destruct (threads demo_session !! 1%nat) as [t|] eqn:E; [|vm_compute in E; discriminate].
    assert (Hl : live t = true) by (clear - E; vm_compute in E; injection E as <-; reflexivity).
    assert (Ha : va_sandbox (th_args t) = "nova-1234") by (clear - E; vm_compute in E; injection E as <-; reflexivity).
    rewrite <- Ha. exact (proj1 (Hlive 1%nat t E Hl)).
  - exact (Hask demo_world (Inspect "a") eq_refl).
  - refine (proj1 (Hrm demo_world "a" false _ (Told (shows [named "a" "removed."])) eq_refl _)). clear. vm_compute. reflexivity.
Defined.
